(* ===== verification/_CoqProject ===== *)
-Q . S2P
Prelude.v
Format.v
Endian.v
Buffer.v
BufferSpec.v
Lines.v
Connection.v
HttpContext.v
HttpSpec.v
HttpServer.v
HttpServerSpec.v
Channel.v
EpollPoller.v
PollPoller.v
PollerSpec.v
EventLoop.v
EventLoopSpec.v
InetAddress.v
Double.v
Timestamp.v
TimerQueue.v
TimerSpec.v
LoopTimers.v
LogStream.v
Logging.v
LogSpec.v
LogFile.v
AsyncLogging.v
AsyncSpec.v
MemoryPool.v
MemoryPoolSpec.v
Threads.v
CountDownLatch.v
ThreadPool.v
ThreadPoolSpec.v
LoopThreads.v
TcpConnection.v
TcpSpec.v
ConnStates.v
HttpTcp.v
Acceptor.v
TcpServer.v
TcpServerSpec.v
MysqlConn.v
MysqlConnPool.v
Sudoku.v
DancingLinks.v
SudokuMatrix.v
SudokuSpec.v
SudokuServer.v
SudokuServerSpec.v
IdleConnection.v
SortedList.v
SimpleServers.v
FileTransfer.v
ShortUrl.v
TimerPrinter.v
UnitTests.v
