(* ===== verification/Prelude.v ===== *)
(** * RyanNetworkLibrary: a verification library

    The program is a TCP network library in the one-loop-per-thread style, with
    an HTTP server, a logger, a memory pool and a pool of MySQL connections built
    on it.  This development models its code, file by file, and proves what makes
    each part, and their composition, correct.

    ** The program and the files of the development

    - Bytes.  [Buffer] (buffer/buffer.h, buffer.cc) is the queue of bytes between
      a socket and its user; [Endian] (net/endian.h) and [Format] (the text of
      numbers) serve it.  [BufferSpec]: refinement of a byte queue, ReadFd, the
      integer accessors.
    - Events.  A [Channel] (net/channel.h, channel.cc) is a descriptor with its
      events and callbacks; the class [Poller] of the same file (net/poller.h) is
      implemented by [EpollPoller] and [PollPoller].  [PollerSpec] states the
      contract of a poller and proves it of both; the files above use the contract
      only.  An [EventLoop] (net/event_loop.h, .cc) owns a poller, dispatches its
      channels and runs the functors other threads queue; [EventLoopSpec]: no lost
      wake-up, order of functors, quitting.  [TimerQueue] (timer/), over
      [Timestamp] (base/timestamp.h, .cc); [TimerSpec]: what fires and when the
      timerfd is armed; [LoopTimers]: the timers that any thread may ask a loop for
      (RunAt, RunAfter, RunEvery, base/weak_callback.h) all reach the queue.
    - Connections.  [InetAddress], [Acceptor] (net/socket.h, net/acceptor.h),
      [TcpConnection] and [TcpServer] (tcp_connection/): a server accepts in its base
      loop, hands each connection to a loop of the [LoopThreads] pool
      (net/event_loop_thread.h, event_loop_thread_pool.h) and removes it when it
      closes.  [TcpSpec]: the stream a connection sends, closing, sending from
      other threads; [ConnStates]: what a connection may become under any calls and
      events, the closing calls of other threads testing and assigning the state in two
      steps, and the race of [ForceClose]; [TcpServerSpec]: the life of every connection across loops.
    - HTTP.  [HttpContext] (http_request.h, http_context.h) parses requests,
      [HttpServer] (http_response.h, http_server.h) answers them, over the class
      [Connection] ([Lines]: lines in a buffer).  [HttpSpec]: termination, parsing
      what was printed, soundness;
      [HttpServerSpec]: responses read back, what a message is answered; [HttpTcp]: the
      answer on its way through a connection.
    - Threads.  [Threads] (base/thread.h, current_thread.h), [CountDownLatch] and
      [ThreadPool] (base/) with [ThreadPoolSpec]: wake-ups are not lost, tasks are
      taken in order.
    - Logging.  [LogStream] (buffer/fixed_buffer.h, logger/log_stream.h),
      [Logging] (logger/logging.h), [LogFile] (file_util.h, log_file.h),
      [AsyncLogging] (async_logging.h); [LogSpec] and [AsyncSpec]: the text of a
      line, files rolled, messages written in order.
    - Resources.  [MemoryPool] (memory_pool/) with [MemoryPoolSpec]: blocks in use do
      not overlap if the memory reads zero, and what happens if it does not.  [MysqlConn] and
      [MysqlConnPool] (mysql/): no connection is lent twice, how many a pool makes in its life,
      and where its counter overflows.
    - Sudoku (examples/sudoku/sudoku.cc).  [Sudoku] is the solver of the example
      servers, nodes linked by addresses in a memory; [DancingLinks]: rings, covering
      and uncovering, the search for an exact cover; [SudokuMatrix]: the matrix that the
      constructor builds; [SudokuSpec]: SolveSudoku finds a completion of the board if
      and only if there is one.  [SudokuServer] (server_basic.cc and its four variants)
      answers lines over the class [Connection]; [SudokuServerSpec]: the answers do not
      depend on how the bytes arrive.
    - Idle connections (examples/idleconnection).  [IdleConnection] (echo.h, echo.cc): the
      time wheel, and its refinement of an age for each connection.  [SortedList]
      (sortedlist.cc): the list in the order of the times, and its refinement of a time for
      each connection, which needs that comparing seconds in [double] is exact ([Double]).
    - The other examples.  [SimpleServers]: echo, discard, daytime, time, chargen and
      finger.  [FileTransfer]: the three ways to send a file.  [ShortUrl]: a callback of
      the HTTP server.  [TimerPrinter]: timers of two loops that share a counter.
    - [UnitTests] evaluates the repository's unit tests of Buffer and InetAddress.

    ** How code is modelled

    A function of the program is a function on its state that returns a
    [result] when it can fail; a record or a class becomes a [Record] with
    the members' names, a [size_t] or an [int] is a [Z] whose wrap-around is written
    out where the code can reach it, an address is a number.  Assertions are kept
    (no build of the repository defines NDEBUG).  The logging macros are left out,
    except LOG_FATAL, which aborts.  Allocations of the C++ library succeed up to
    its [max_size].  What the kernel and the libraries answer is an argument or a
    class; where the code relies on what their manuals promise, the promise is a
    class of laws, with an instance in the witnesses.  [std::function] values are
    data, run by an interpreter the program's composition supplies.  Threads are
    interleavings of steps, a step being a block that holds a mutex, an atomic
    access, or what a loop's own thread runs in one go (a functor, an event); memory is
    sequentially consistent.

    ** Bounds and fuel

    Loops over data recurse on it.  The parser's loop takes fuel: one turn more
    than the readable bytes, since each turn but the last takes a line
    off the buffer, or [None] in the states in which the code does not return.
    EventLoop's turns and FileUtil's writes take as fuel the number of answers of
    the kernel they are given.  The loops over rings of the sudoku solver and its
    recursion take [ring_fuel], the number of nodes; every theorem about it shows that
    this is enough.  Theorems about the other loops state the fuel that is enough.

    ** Not modelled

    nlohmann_json.hpp (a vendored library); noncopyable.h (a declaration); the other tests
    and the build files; of the examples, the [main] functions that make loops, servers and
    timers, and what is printed or logged.  The user and kernel times in
    which threads run are not modelled: no theorem bounds a delay. *)

From stdpp Require Export base tactics option list numbers gmap sets strings relations.
From Stdlib Require Export Strings.Byte.
From Stdlib Require Export ZArith Lia.

#[global] Open Scope Z_scope.

(** ** Outcomes of C++ code

    A call either returns ([Ok]) or leaves the normal path: a failed
    [assert] (the builds of [CMakeLists.txt] keep assertions), the [abort]
    of [LOG_FATAL], a [std::length_error] thrown by [std::vector], or
    behaviour the language leaves undefined (an access out of bounds, a
    dangling pointer).  [FFuel] is not an outcome of the program: the fuel of
    a loop ran out. *)

Inductive fault : Set :=
  | FAssert
  | FAbort
  | FLengthError
  | FUndef
  | FFuel.

#[export] Instance fault_eq_dec : EqDecision fault.
Proof. solve_decision. Defined.

Inductive result (A : Type) : Type :=
  | Ok (a : A)
  | Fault (f : fault).
Arguments Ok {A} a.
Arguments Fault {A} f.

#[export] Instance result_ret : MRet result := fun A a => Ok a.
#[export] Instance result_bind : MBind result := fun A B k m =>
  match m with
  | Ok a => k a
  | Fault f => Fault f
  end.

(** [assert(b)] *)
Definition assert_ (b : bool) : result unit := if b then Ok tt else Fault FAssert.

(** an access the language defines only when [b] holds *)
Definition defined_if (b : bool) : result unit := if b then Ok tt else Fault FUndef.

Lemma bind_Ok {A B} (a : A) (k : A -> result B) : (Ok a ≫= k) = k a.
Proof. reflexivity. Qed.

Lemma bind_Fault {A B} f (k : A -> result B) : ((Fault f : result A) ≫= k) = Fault f.
Proof. reflexivity. Qed.

Lemma bind_Ok_inv {A B} (m : result A) (k : A -> result B) b :
  (m ≫= k) = Ok b -> exists a, m = Ok a /\ k a = Ok b.
Proof. destruct m as [a|f]; intros H; [by exists a | discriminate]. Qed.

Lemma bind_Fault_inv {A B} (m : result A) (k : A -> result B) f :
  (m ≫= k) = Fault f -> m = Fault f \/ exists a, m = Ok a /\ k a = Fault f.
Proof.
  destruct m as [a|g]; intros H; [right; by exists a | left].
  change ((Fault g : result B) = Fault f) in H. congruence.
Qed.

Lemma defined_if_fault b f : defined_if b = Fault f -> f = FUndef.
Proof. unfold defined_if. case_match; congruence. Qed.

Lemma bind_assoc {A B C} (m : result A) (k : A -> result B) (h : B -> result C) :
  ((m ≫= k) ≫= h) = (m ≫= fun a => k a ≫= h).
Proof. by destruct m. Qed.

Lemma assert_Ok b : b = true -> assert_ b = Ok tt.
Proof. by intros ->. Qed.

Lemma defined_Ok b : b = true -> defined_if b = Ok tt.
Proof. by intros ->. Qed.

(** Execute the first statement of a block once its value is known. *)
Ltac step_with H := rewrite H; rewrite bind_Ok.

(** Take apart a hypothesis that says a block returned. *)
Ltac inv_bind :=
  repeat match goal with
  | H : (?m ≫= _) = Ok _ |- _ =>
      let a := fresh "a" in let H1 := fresh "Hm" in let H2 := fresh "Hk" in
      apply bind_Ok_inv in H as (a & H1 & H2)
  | H : assert_ ?b = Ok _ |- _ =>
      unfold assert_ in H; destruct b eqn:?; [clear H | discriminate H]
  | H : defined_if ?b = Ok _ |- _ =>
      unfold defined_if in H; destruct b eqn:?; [clear H | discriminate H]
  | H : Ok _ = Ok _ |- _ => injection H as H
  | H : Fault _ = Ok _ |- _ => discriminate H
  end; simplify_eq/=.

(** ** Machine integers *)

Definition uwrap (w z : Z) : Z := z mod 2 ^ w.
Definition swrap (w z : Z) : Z := (z + 2 ^ (w - 1)) mod 2 ^ w - 2 ^ (w - 1).

Abbreviation u16 := (uwrap 16).
Abbreviation u32 := (uwrap 32).
Abbreviation u64 := (uwrap 64).
Abbreviation s8 := (swrap 8).
Abbreviation s16 := (swrap 16).
Abbreviation s32 := (swrap 32).
Abbreviation s64 := (swrap 64).

Lemma uwrap_small w z : 0 <= z < 2 ^ w -> uwrap w z = z.
Proof. apply Z.mod_small. Qed.

Lemma uwrap_range w z : 0 <= w -> 0 <= uwrap w z < 2 ^ w.
Proof. intros. apply Z.mod_pos_bound. lia. Qed.

Lemma swrap_small w z : 0 < w -> - 2 ^ (w - 1) <= z < 2 ^ (w - 1) -> swrap w z = z.
Proof.
  intros Hw Hz. unfold swrap.
  assert (Hp : 2 ^ w = 2 * 2 ^ (w - 1)).
  { rewrite <- Z.pow_succ_r by lia. f_equal. lia. }
  rewrite Z.mod_small by lia. lia.
Qed.

Lemma swrap_range w z : 0 < w -> - 2 ^ (w - 1) <= swrap w z < 2 ^ (w - 1).
Proof.
  intros Hw. unfold swrap.
  assert (Hp : 2 ^ w = 2 * 2 ^ (w - 1)).
  { rewrite <- Z.pow_succ_r by lia. f_equal. lia. }
  pose proof (Z.mod_pos_bound (z + 2 ^ (w - 1)) (2 ^ w)). lia.
Qed.

Lemma swrap_uwrap w z : 0 < w -> swrap w (uwrap w z) = swrap w z.
Proof.
  intros Hw. unfold swrap, uwrap. f_equal.
  rewrite Z.add_mod_idemp_l by lia. done.
Qed.

Lemma uwrap_swrap w z : 0 < w -> uwrap w (swrap w z) = uwrap w z.
Proof.
  intros Hw. unfold swrap, uwrap.
  rewrite Zminus_mod_idemp_l. f_equal. lia.
Qed.

(** Remove the wrap-arounds that [tac] proves to be in range, innermost
    first where an outer one depends on an inner one. *)
Ltac unwrap tac :=
  repeat match goal with
  | |- context [uwrap ?w ?z] => rewrite (uwrap_small w z) by tac
  | |- context [swrap ?w ?z] => rewrite (swrap_small w z) by tac
  end.

(** ** Bytes

    A [char] of memory is a [byte]; [byte_val] is its value as an
    [unsigned char]. *)

#[export] Instance byte_eq_dec : EqDecision byte := Byte.byte_eq_dec.

#[export] Program Instance byte_countable : Countable byte :=
  inj_countable Byte.to_N Byte.of_N _.
Next Obligation. intros b. apply Byte.of_to_N. Qed.

#[export] Instance byte_inhabited : Inhabited byte := populate x00.

Abbreviation bytes := (list byte).
Abbreviation zlen l := (Z.of_nat (length l)).

(** The characters of a C++ string literal. *)
Definition lit (s : string) : bytes := String.list_byte_of_string s.

Definition byte_val (b : byte) : Z := Z.of_N (Byte.to_N b).
Definition byte_of_Z (z : Z) : byte := default x00 (Byte.of_N (Z.to_N (z mod 256))).

Lemma byte_val_range b : 0 <= byte_val b < 256.
Proof.
  unfold byte_val. pose proof (Byte.to_N_bounded b). lia.
Qed.

Lemma byte_val_of_Z z : byte_val (byte_of_Z z) = z mod 256.
Proof.
  unfold byte_of_Z, byte_val.
  pose proof (Z.mod_pos_bound z 256 ltac:(lia)) as Hz.
  destruct (Byte.of_N (Z.to_N (z mod 256))) as [b|] eqn:E; simpl.
  - apply Byte.to_of_N in E. lia.
  - apply Byte.of_N_None_iff in E. lia.
Qed.

Lemma byte_of_Z_val b : byte_of_Z (byte_val b) = b.
Proof.
  unfold byte_of_Z. rewrite Z.mod_small by apply byte_val_range.
  unfold byte_val. by rewrite N2Z.id, Byte.of_to_N.
Qed.

Lemma byte_val_inj b c : byte_val b = byte_val c -> b = c.
Proof. intros H. by rewrite <- (byte_of_Z_val b), H, byte_of_Z_val. Qed.

Lemma byte_of_Z_mod z : byte_of_Z (z mod 256) = byte_of_Z z.
Proof. apply byte_val_inj. rewrite !byte_val_of_Z. apply Z.mod_mod. lia. Qed.

(** The object representation of an [n]-byte integer on a little-endian
    host, and the integer a representation stands for. *)
Fixpoint le_bytes (n : nat) (z : Z) : bytes :=
  match n with
  | O => []
  | S n => byte_of_Z z :: le_bytes n (z / 256)
  end.

Fixpoint le_val (l : bytes) : Z :=
  match l with
  | [] => 0
  | b :: l => byte_val b + 256 * le_val l
  end.

Lemma length_le_bytes n z : length (le_bytes n z) = n.
Proof. revert z. induction n; intros; simpl; auto. Qed.

Lemma pow256_S n : 256 ^ Z.of_nat (S n) = 256 * 256 ^ Z.of_nat n.
Proof. rewrite Nat2Z.inj_succ, Z.pow_succ_r by lia. done. Qed.

Lemma le_val_bytes n z : le_val (le_bytes n z) = z mod 256 ^ Z.of_nat n.
Proof.
  revert z. induction n as [|n IH]; intros z.
  - simpl. by rewrite Z.mod_1_r.
  - rewrite pow256_S. cbn [le_bytes le_val]. rewrite IH, byte_val_of_Z.
    rewrite Z.rem_mul_r by lia. done.
Qed.

Lemma le_val_range l : 0 <= le_val l < 256 ^ zlen l.
Proof.
  induction l as [|b l IH]; [done|].
  cbn [length le_val]. rewrite pow256_S. pose proof (byte_val_range b). lia.
Qed.

Lemma le_bytes_val l : le_bytes (length l) (le_val l) = l.
Proof.
  induction l as [|b l IH]; [done|]. cbn [length le_val le_bytes].
  pose proof (byte_val_range b).
  replace (byte_val b + 256 * le_val l) with (le_val l * 256 + byte_val b) by lia.
  rewrite Z.div_add_l, (Z.div_small (byte_val b)), Z.add_0_r, IH by lia. f_equal.
  rewrite <- byte_of_Z_mod, Z.add_comm, Z.mod_add, Z.mod_small by lia.
  apply byte_of_Z_val.
Qed.

Lemma le_bytes_mod n z : le_bytes n (z mod 256 ^ Z.of_nat n) = le_bytes n z.
Proof.
  rewrite <- le_val_bytes. rewrite <- (length_le_bytes n z) at 1. apply le_bytes_val.
Qed.

(** ** Ranges of an array

    A pointer into an array is its offset.  Reading or writing [len]
    bytes at [off] is undefined unless the range lies within the array. *)

Definition in_range (l : bytes) (off len : Z) : bool :=
  (0 <=? off) && (0 <=? len) && (off + len <=? zlen l).

Definition read_bytes (l : bytes) (off len : Z) : result bytes :=
  _ ← defined_if (in_range l off len);
  Ok (take (Z.to_nat len) (drop (Z.to_nat off) l)).

Definition write_bytes (l : bytes) (off : Z) (data : bytes) : result bytes :=
  _ ← defined_if (in_range l off (zlen data));
  Ok (take (Z.to_nat off) l ++ data ++ drop (Z.to_nat off + length data) l).

Lemma in_range_true l off len :
  0 <= off -> 0 <= len -> off + len <= zlen l -> in_range l off len = true.
Proof. intros. unfold in_range. lia. Qed.

Lemma in_range_inv l off len :
  in_range l off len = true -> 0 <= off /\ 0 <= len /\ off + len <= zlen l.
Proof. unfold in_range. lia. Qed.

Lemma read_bytes_Ok l off len :
  0 <= off -> 0 <= len -> off + len <= zlen l ->
  read_bytes l off len = Ok (take (Z.to_nat len) (drop (Z.to_nat off) l)).
Proof. intros. unfold read_bytes. by rewrite in_range_true. Qed.

Lemma write_bytes_Ok l off data :
  0 <= off -> off + zlen data <= zlen l ->
  write_bytes l off data =
    Ok (take (Z.to_nat off) l ++ data ++ drop (Z.to_nat off + length data) l).
Proof. intros. unfold write_bytes. rewrite in_range_true by lia. done. Qed.

Lemma write_bytes_inv l off data v :
  write_bytes l off data = Ok v ->
  0 <= off /\ off + zlen data <= zlen l /\ length v = length l /\
  v = take (Z.to_nat off) l ++ data ++ drop (Z.to_nat off + length data) l.
Proof.
  unfold write_bytes. intros H. inv_bind.
  apply in_range_inv in Heqb. rewrite !length_app, length_take, length_drop.
  intuition lia.
Qed.

Lemma read_bytes_inv l off len d :
  read_bytes l off len = Ok d ->
  0 <= off /\ 0 <= len /\ off + len <= zlen l /\ zlen d = len /\
  d = take (Z.to_nat len) (drop (Z.to_nat off) l).
Proof.
  unfold read_bytes. intros H. inv_bind.
  apply in_range_inv in Heqb. rewrite length_take, length_drop. intuition lia.
Qed.

Lemma read_bytes_fault l off len f : read_bytes l off len = Fault f -> f = FUndef.
Proof.
  intros [H|(? & _ & H)]%bind_Fault_inv; [by apply defined_if_fault in H|done].
Qed.

Lemma write_bytes_fault l off d f : write_bytes l off d = Fault f -> f = FUndef.
Proof.
  intros [H|(? & _ & H)]%bind_Fault_inv; [by apply defined_if_fault in H|done].
Qed.

Lemma write_bytes_out l off data :
  zlen l < off + zlen data -> write_bytes l off data = Fault FUndef.
Proof.
  intros. unfold write_bytes, in_range. rewrite (proj2 (Z.leb_gt (off + _) _)) by lia.
  by rewrite andb_false_r.
Qed.

(** ** std::find, std::search

    Both return the offset of the first match, the length of the range
    (its [end]) when there is none. *)

Fixpoint std_find (c : byte) (l : bytes) : nat :=
  match l with
  | [] => O
  | b :: l => if decide (b = c) then O else S (std_find c l)
  end.

Fixpoint std_search (pat l : bytes) : nat :=
  match l with
  | [] => O
  | b :: l' => if decide (take (length pat) l = pat) then O else S (std_search pat l')
  end.

Lemma std_find_le c l : (std_find c l <= length l)%nat.
Proof. induction l; simpl; [done|]. case_decide; lia. Qed.

Lemma std_find_notin c l : c ∉ l -> std_find c l = length l.
Proof.
  induction l as [|b l IH]; intros H; [done|]. simpl.
  case_decide; [set_solver|]. rewrite IH; set_solver.
Qed.

Lemma std_find_app c l1 l2 : c ∉ l1 -> std_find c (l1 ++ c :: l2) = length l1.
Proof.
  induction l1 as [|b l1 IH]; intros H; simpl.
  - by case_decide.
  - case_decide; [set_solver|]. rewrite IH; set_solver.
Qed.

(** The prefix before the position found holds no [c]; the position
    holds [c] unless it is the end. *)
Lemma std_find_prefix c l : c ∉ take (std_find c l) l.
Proof.
  induction l as [|b l IH]; simpl; [set_solver|]. case_decide; set_solver.
Qed.

Lemma std_find_hit c l :
  (std_find c l < length l)%nat -> l !! std_find c l = Some c.
Proof.
  induction l as [|b l IH]; simpl; [lia|].
  case_decide; intros; [by subst|]. simpl. apply IH. lia.
Qed.

Lemma std_find_lt c l : c ∈ l -> (std_find c l < length l)%nat.
Proof.
  induction l as [|b l IH]; [set_solver|]. simpl. case_decide; intros; [lia|].
  apply -> Nat.succ_lt_mono. apply IH. set_solver.
Qed.

Lemma std_search_le pat l : (std_search pat l <= length l)%nat.
Proof. induction l; simpl; [done|]. case_decide; lia. Qed.

Lemma std_search_hit pat l :
  (std_search pat l < length l)%nat ->
  exists l1 l2, l = l1 ++ pat ++ l2 /\ length l1 = std_search pat l.
Proof.
  induction l as [|b l IH]; [simpl; lia|]. cbn [std_search length].
  case_decide as Hd; intros Hlt.
  - exists [], (drop (length pat) (b :: l)). split; [|done]. simpl app.
    rewrite <- Hd at 1. by rewrite take_drop.
  - destruct IH as (l1 & l2 & Hl & Hlen); [lia|].
    exists (b :: l1), l2. split; [by rewrite Hl|]. simpl. by rewrite Hlen.
Qed.

Lemma std_search_minimal pat l k :
  (k < std_search pat l)%nat -> take (length pat) (drop k l) <> pat.
Proof.
  revert k. induction l as [|b l IH]; intros k; [simpl; lia|].
  cbn [std_search]. case_decide as Hd; intros Hk; [lia|].
  destruct k as [|k]; [done|]. apply IH. lia.
Qed.

(** ** Lists *)

Lemma filter_all {A} (P : A -> Prop) `{!forall x, Decision (P x)} (l : list A) : (forall x, x ∈ l -> P x) -> filter P l = l.
Proof.
  induction l as [|x l IH]; intros Hall; [done|]. rewrite filter_cons_True by (apply Hall; by left).
  f_equal. apply IH. intros y Hy. apply Hall. by right.
Qed.

Lemma filter_ext_in {A} (P Q : A -> Prop) `{!forall x, Decision (P x), !forall x, Decision (Q x)} (l : list A) :
  (forall x, x ∈ l -> P x <-> Q x) -> filter P l = filter Q l.
Proof.
  induction l as [|x l IH]; intros He; [done|]. rewrite !filter_cons.
  rewrite IH by (intros y Hy; apply He; by right). pose proof (He x ltac:(by left)).
  repeat case_decide; tauto.
Qed.

Lemma elem_of_concat {A B} (g : A -> list B) l y : y ∈ concat (map g l) <-> exists x, x ∈ l /\ y ∈ g x.
Proof.
  rewrite list_elem_of_In, in_concat. setoid_rewrite in_map_iff. setoid_rewrite <- list_elem_of_In. naive_solver.
Qed.

Lemma NoDup_concat_map_intro {A B} (g : A -> list B) l :
  NoDup l -> (forall x, x ∈ l -> NoDup (g x)) -> (forall x y b, x ∈ l -> y ∈ l -> b ∈ g x -> b ∈ g y -> x = y) ->
  NoDup (concat (map g l)).
Proof.
  induction l as [|x l IH]; intros Hl Hg Hd; [constructor|]. apply NoDup_cons in Hl as [Hx Hl]. cbn [map concat].
  apply NoDup_app. split; [apply Hg; left|]. split.
  - intros b Hb (y & Hy & Hby)%elem_of_concat. assert (x = y) as -> by (apply (Hd x y b); [left|by right|done|done]). done.
  - apply IH; [done|intros y Hy; apply Hg; by right|]. intros y z b Hy Hz. apply Hd; by right.
Qed.

Lemma NoDup_concat_heads {A B} (g : A -> list B) (f : A -> B) l :
  NoDup (concat (map g l)) -> (forall x, x ∈ l -> f x ∈ g x) -> NoDup (map f l).
Proof.
  induction l as [|x l IH]; intros Hnd Hf; [constructor|]. cbn [map concat] in *. apply NoDup_app in Hnd as (_ & Hd & Hnd).
  apply NoDup_cons. split; [|apply IH; [done|intros y Hy; apply Hf; by right]].
  intros (y & E & Hy)%list_elem_of_fmap. apply (Hd (f x)); [apply Hf; left|]. rewrite E. apply elem_of_concat. exists y.
  split; [done|]. apply Hf. by right.
Qed.

Lemma seqZ_snoc a n : 0 <= n -> seqZ a (n + 1) = seqZ a n ++ [a + n].
Proof. intros Hn. rewrite seqZ_app by lia. done. Qed.

Lemma NoDup_map_filter {A B} (f : A -> B) (p : A -> bool) (l : list A) : NoDup (map f l) -> NoDup (map f (List.filter p l)).
Proof.
  induction l as [|x l IH]; [done|]. cbn. intros [Hx Hl]%NoDup_cons. destruct (p x); [|by apply IH]. cbn. apply NoDup_cons.
  split; [|by apply IH]. intros (y & Ey & [Hy _]%list_elem_of_In%filter_In)%list_elem_of_fmap. apply Hx. rewrite Ey.
  apply list_elem_of_fmap_2. by apply list_elem_of_In.
Qed.

Lemma NoDup_map_inj {A B} (f : A -> B) l x y : NoDup (map f l) -> x ∈ l -> y ∈ l -> f x = f y -> x = y.
Proof.
  intros Hnd [a Ha]%list_elem_of_lookup_1 [b Hb]%list_elem_of_lookup_1 E.
  assert (a = b) as ->; [|congruence]. eapply NoDup_lookup; [exact Hnd|..]; rewrite list_lookup_fmap; [by rewrite Ha|by rewrite Hb, E].
Qed.

(** ** Reachable states *)

(** What holds at first and is kept by every step holds of every state reached. *)
Lemma rtc_invariant {S : Type} (step : S -> S -> Prop) (I : S -> Prop) s s' :
  (forall x y, I x -> step x y -> I y) -> I s -> rtc step s s' -> I s'.
Proof. intros Hstep Hs Hr. induction Hr; eauto. Qed.

(** ** Automation

    [cxx] resolves the side conditions of memory accesses, ranges and wrap-arounds;
    the rewriting database of the same name executes the monad. *)

Create HintDb cxx.
#[export] Hint Resolve assert_Ok defined_Ok in_range_true byte_val_range : cxx.
#[export] Hint Resolve uwrap_small swrap_small read_bytes_Ok write_bytes_Ok : cxx.
#[export] Hint Resolve length_le_bytes std_find_le std_search_le rtc_refl rtc_once : cxx.
#[export] Hint Extern 4 (_ <= _) => lia : cxx.
#[export] Hint Extern 4 (_ < _) => lia : cxx.

Create Rewrite HintDb cxx.
#[export] Hint Rewrite @bind_Ok @bind_Fault : cxx.

(** Run the statements of a block whose values are known. *)
Ltac run := repeat first [rewrite bind_Ok | rewrite bind_Fault | rewrite assert_Ok by done
                         | rewrite defined_Ok by done].

(** [lia] with division and remainder. *)
Ltac dlia := Z.to_euclidean_division_equations; lia.
