(* ===== verification/Format.v ===== *)
(** * Numbers as text

    [dec] is what [printf("%d")] writes, [hex] what it writes for ["%X"];
    they are the reference definitions for the formatting code of the logger
    and appear where the code calls [snprintf].  [dec_value] and [hex_value]
    read the text back. *)

From S2P Require Import Prelude.

(** The digit of value [d] in bases up to 16. *)
Definition digit (d : Z) : byte :=
  if d <? 10 then byte_of_Z (48 + d) else byte_of_Z (55 + d).

Definition digit_value (c : byte) : Z :=
  let v := byte_val c in if v <? 58 then v - 48 else v - 55.

Lemma digit_value_digit d : 0 <= d < 16 -> digit_value (digit d) = d.
Proof.
  intros H. unfold digit_value, digit.
  destruct (Z.ltb_spec d 10); rewrite byte_val_of_Z, Z.mod_small by lia.
  - rewrite (proj2 (Z.ltb_lt _ _)); lia.
  - rewrite (proj2 (Z.ltb_ge _ _)); lia.
Qed.

Lemma digit_inj d e : 0 <= d < 16 -> 0 <= e < 16 -> digit d = digit e -> d = e.
Proof. intros Hd He H. by rewrite <- (digit_value_digit d), H, digit_value_digit. Qed.

Section Base.
Context (base : Z) (Hbase : 2 <= base <= 16).

(** The digits of [z >= 0], least significant first; [fuel] bounds their
    number. *)
Fixpoint digits_rev (fuel : nat) (z : Z) : bytes :=
  match fuel with
  | O => []
  | S fuel =>
      digit (z mod base) :: (if z / base =? 0 then [] else digits_rev fuel (z / base))
  end.

Fixpoint value_rev (l : bytes) : Z :=
  match l with
  | [] => 0
  | c :: l => digit_value c + base * value_rev l
  end.

Lemma div_base_lt z n : 0 <= z < base ^ Z.of_nat (S n) -> 0 <= z / base < base ^ Z.of_nat n.
Proof using Hbase.
  intros H. rewrite Nat2Z.inj_succ, Z.pow_succ_r in H by lia.
  split; [apply Z.div_pos; lia|]. apply Z.div_lt_upper_bound; lia.
Qed.

Lemma value_digits fuel z :
  0 <= z < base ^ Z.of_nat fuel -> value_rev (digits_rev fuel z) = z.
Proof using Hbase.
  revert z. induction fuel as [|fuel IH]; intros z Hz; [simpl in *; lia|].
  cbn [digits_rev value_rev].
  pose proof (Z.mod_pos_bound z base ltac:(lia)).
  rewrite digit_value_digit by lia. pose proof (div_base_lt z fuel Hz) as Hd.
  pose proof (Z.div_mod z base ltac:(lia)).
  destruct (Z.eqb_spec (z / base) 0) as [E|E].
  - simpl. lia.
  - rewrite IH by done. lia.
Qed.

Lemma length_digits fuel z :
  (length (digits_rev fuel z) <= fuel)%nat.
Proof.
  revert z. induction fuel as [|fuel IH]; intros z; [done|]. simpl.
  case_match; simpl; [lia|]. specialize (IH (z / base)). lia.
Qed.

(** More fuel than digits changes nothing. *)
Lemma digits_fuel f g z :
  0 <= z < base ^ Z.of_nat f -> (f <= g)%nat -> (0 < f)%nat ->
  digits_rev g z = digits_rev f z.
Proof using Hbase.
  revert g z. induction f as [|f IH]; intros g z Hz Hg Hf; [lia|].
  destruct g as [|g]; [lia|]. cbn [digits_rev]. f_equal.
  destruct (Z.eqb_spec (z / base) 0) as [E|E]; [done|].
  pose proof (div_base_lt z f Hz) as Hd.
  destruct f as [|f]; [simpl in Hd; lia|]. apply IH; [done|lia|lia].
Qed.
End Base.

(** Enough fuel for every value of a machine integer. *)
Definition digit_fuel : nat := 64.

Definition dec_nat (z : Z) : bytes := rev (digits_rev 10 digit_fuel z).
Definition dec (z : Z) : bytes :=
  if z <? 0 then x2d :: dec_nat (- z) else dec_nat z.
Definition hex (z : Z) : bytes := rev (digits_rev 16 digit_fuel z).

Definition dec_value (l : bytes) : Z :=
  match l with
  | x2d :: l => - value_rev 10 (rev l)
  | _ => value_rev 10 (rev l)
  end.
Definition hex_value (l : bytes) : Z := value_rev 16 (rev l).

Lemma dec_nat_head z : 0 <= z < 10 ^ 64 -> forall c, head (dec_nat z) = Some c -> c <> x2d.
Proof.
  intros Hz c Hc. unfold dec_nat in Hc. intros ->.
  assert (Hin : x2d ∈ digits_rev 10 digit_fuel z).
  { destruct (rev (digits_rev 10 digit_fuel z)) as [|d l] eqn:E; [done|]. simpl in Hc.
    injection Hc as ->. apply list_elem_of_In, in_rev. rewrite E. by left. }
  clear Hc. revert Hin. clear Hz. generalize digit_fuel as f. revert z.
  assert (forall d, 0 <= d < 10 -> x2d <> digit d) as Hd.
  { intros d Hd E. apply (f_equal byte_val) in E. unfold digit in E.
    rewrite (proj2 (Z.ltb_lt _ _)), byte_val_of_Z, Z.mod_small in E by lia.
    change (byte_val x2d) with 45 in E. lia. }
  intros z f. revert z. induction f as [|f IH]; intros z Hin; [set_solver|].
  cbn [digits_rev] in Hin. apply elem_of_cons in Hin as [Hin|Hin].
  - eapply Hd; [|done]. apply Z.mod_pos_bound. lia.
  - case_match; [set_solver|]. by apply IH in Hin.
Qed.

Lemma dec_value_dec z : - 10 ^ 64 < z < 10 ^ 64 -> dec_value (dec z) = z.
Proof.
  intros Hz. unfold dec. destruct (Z.ltb_spec z 0).
  - cbn [dec_value]. unfold dec_nat. rewrite rev_involutive.
    rewrite value_digits by (unfold digit_fuel; lia). lia.
  - pose proof (dec_nat_head z ltac:(lia)) as Hh.
    assert (dec_value (dec_nat z) = value_rev 10 (rev (dec_nat z))) as ->.
    { unfold dec_value. destruct (dec_nat z) as [|c l]; [done|].
      specialize (Hh c eq_refl). destruct c; done. }
    unfold dec_nat. rewrite rev_involutive. apply value_digits; [lia|unfold digit_fuel; lia].
Qed.

Lemma hex_value_hex z : 0 <= z < 2 ^ 64 -> hex_value (hex z) = z.
Proof.
  intros Hz. unfold hex_value, hex. rewrite rev_involutive.
  apply value_digits; [lia|]. unfold digit_fuel. lia.
Qed.

Lemma dec_inj a b :
  - 10 ^ 64 < a < 10 ^ 64 -> - 10 ^ 64 < b < 10 ^ 64 -> dec a = dec b -> a = b.
Proof. intros Ha Hb H. by rewrite <- (dec_value_dec a), H, dec_value_dec. Qed.

(** ["%0Nd"]: at least [n] digits. *)
Definition dec_pad (n : nat) (z : Z) : bytes :=
  replicate (n - length (dec_nat z)) x30 ++ dec_nat z.

(** [snprintf(buf, n, ...)]: at most [n - 1] characters and a terminator. *)
Definition snprintf (n : nat) (s : bytes) : bytes := take (n - 1) s.

Example dec_examples :
  dec 0 = lit "0" /\ dec (-2147483648) = lit "-2147483648" /\
  dec 18446744073709551615 = lit "18446744073709551615" /\ hex 48879 = lit "BEEF".
Proof. vm_compute. done. Qed.
