(* ===== verification/Endian.v ===== *)
(** * Byte order (ryan_network/net/endian.h)

    The header wraps the byte-order macros of [endian.h].  The host is
    little-endian, so [htobeN] and [beNtoh] reverse the bytes of the
    object representation.  [be_bytes] is the network representation the
    macros are for. *)

From S2P Require Import Prelude.

(** [htobe16/32/64], [be16/32/64toh] of a little-endian host: reverse the
    [n] bytes of the representation. *)
Definition bswap (n : nat) (x : Z) : Z := le_val (rev (le_bytes n x)).

(** src: ryan_network/net/endian.h:15-15 HostToNetwork64 *)
Definition HostToNetwork64 (host64 : Z) : Z := bswap 8 host64.
(** src: ryan_network/net/endian.h:17-17 HostToNetwork32 *)
Definition HostToNetwork32 (host32 : Z) : Z := bswap 4 host32.
(** src: ryan_network/net/endian.h:19-19 HostToNetwork16 *)
Definition HostToNetwork16 (host16 : Z) : Z := bswap 2 host16.
(** src: ryan_network/net/endian.h:21-21 NetworkToHost64 *)
Definition NetworkToHost64 (net64 : Z) : Z := bswap 8 net64.
(** src: ryan_network/net/endian.h:23-23 NetworkToHost32 *)
Definition NetworkToHost32 (net32 : Z) : Z := bswap 4 net32.
(** src: ryan_network/net/endian.h:25-25 NetworkToHost16 *)
Definition NetworkToHost16 (net16 : Z) : Z := bswap 2 net16.

(** ** Specification: most significant byte first *)
Definition be_bytes (n : nat) (x : Z) : bytes := rev (le_bytes n x).
Definition be_val (l : bytes) : Z := le_val (rev l).

Lemma length_be_bytes n x : length (be_bytes n x) = n.
Proof. unfold be_bytes. by rewrite length_rev, length_le_bytes. Qed.

Lemma be_val_bytes n x : be_val (be_bytes n x) = x mod 256 ^ Z.of_nat n.
Proof. unfold be_val, be_bytes. by rewrite rev_involutive, le_val_bytes. Qed.

(** The representation of the swapped integer is the network order of
    the integer. *)
Lemma le_bytes_bswap n x : le_bytes n (bswap n x) = be_bytes n x.
Proof.
  unfold bswap, be_bytes.
  rewrite <- (length_le_bytes n x) at 1. rewrite <- length_rev.
  apply le_bytes_val.
Qed.

Lemma bswap_range n x : 0 <= bswap n x < 256 ^ Z.of_nat n.
Proof.
  unfold bswap. pose proof (le_val_range (rev (le_bytes n x))) as H.
  by rewrite length_rev, length_le_bytes in H.
Qed.

Lemma bswap_mod n x : bswap n (x mod 256 ^ Z.of_nat n) = bswap n x.
Proof. unfold bswap. by rewrite le_bytes_mod. Qed.

Lemma bswap_involutive n x : bswap n (bswap n x) = x mod 256 ^ Z.of_nat n.
Proof.
  unfold bswap at 1. rewrite le_bytes_bswap. unfold be_bytes.
  by rewrite rev_involutive, le_val_bytes.
Qed.

(** [256 ^ n] as the modulus of an [8 * n]-bit integer *)
Lemma pow256 n : 256 ^ Z.of_nat n = 2 ^ (8 * Z.of_nat n).
Proof. rewrite Z.pow_mul_r by lia. done. Qed.

(** Swapping a signed host integer, storing it in a signed variable of
    the same width and swapping back gives the integer. *)
Lemma bswap_signed_roundtrip n x :
  (0 < n)%nat ->
  let w := 8 * Z.of_nat n in
  - 2 ^ (w - 1) <= x < 2 ^ (w - 1) ->
  swrap w (bswap n (uwrap w (swrap w (bswap n (uwrap w x))))) = x.
Proof.
  intros Hn w Hx. assert (Hw : 0 < w) by lia.
  rewrite uwrap_swrap by done. unfold uwrap. unfold w. rewrite <- pow256.
  rewrite !bswap_mod, bswap_involutive, pow256.
  change (x mod 2 ^ (8 * Z.of_nat n)) with (uwrap w x).
  fold w. rewrite swrap_uwrap by done. by apply swrap_small.
Qed.
