(* ===== verification/Buffer.v ===== *)
(** * Buffer (ryan_network/buffer/buffer.h, buffer.cc)

    A vector of bytes with a reader and a writer index.  A pointer into
    the buffer is its offset from [Begin()].  [size_t] arithmetic wraps at
    64 bits and the [int] parameter of [MakeSpace] truncates to 32 bits,
    as in the code; every [std::copy] checks that its ranges lie in the
    vector.  [content] is the abstract value: the readable bytes. *)

From S2P Require Import Prelude Endian.

(** ** State *)

(** src: ryan_network/buffer/buffer.h:317-319 Buffer *)
Record Buffer := mkBuffer {
  buffer_ : bytes;
  reader_index_ : Z;
  writer_index_ : Z
}.

(** src: ryan_network/buffer/buffer.h:21-21 Buffer::kCheapPrepend *)
Definition kCheapPrepend : Z := 8.
(** src: ryan_network/buffer/buffer.h:24-24 Buffer::kInitialSize *)
Definition kInitialSize : Z := 1024.
(** src: ryan_network/buffer/buffer.cc:10-10 Buffer::kCRLF *)
Definition kCRLF : bytes := [x0d; x0a].

(** [std::vector<char>::max_size()] *)
Definition max_size : Z := 2 ^ 63 - 1.

(** [std::vector<char>(n)] and [resize(n)]: new elements are zero, a size
    above [max_size()] throws. *)
Definition vector_resize (v : bytes) (n : Z) : result bytes :=
  if n <=? max_size
  then Ok (take (Z.to_nat n) v ++ replicate (Z.to_nat n - length v) x00)
  else Fault FLengthError.

(** ** Operations *)

(** src: ryan_network/buffer/buffer.h:26-29 Buffer::Buffer *)
Definition Buffer_new (initialSize : Z) : result Buffer :=
  v ← vector_resize [] (u64 (kCheapPrepend + initialSize));
  Ok (mkBuffer v kCheapPrepend kCheapPrepend).

(** The pair is ([this], [rhs]) after the call.
    src: ryan_network/buffer/buffer.h:31-35 Buffer::Swap *)
Definition Swap (this rhs : Buffer) : Buffer * Buffer :=
  (mkBuffer (buffer_ rhs) (reader_index_ rhs) (writer_index_ rhs),
   mkBuffer (buffer_ this) (reader_index_ this) (writer_index_ this)).

(** src: ryan_network/buffer/buffer.h:39-39 Buffer::ReadableBytes *)
Definition ReadableBytes (b : Buffer) : Z := u64 (writer_index_ b - reader_index_ b).

(** src: ryan_network/buffer/buffer.h:43-43 Buffer::WritableBytes *)
Definition WritableBytes (b : Buffer) : Z := u64 (zlen (buffer_ b) - writer_index_ b).

(** src: ryan_network/buffer/buffer.h:47-47 Buffer::PrependableBytes *)
Definition PrependableBytes (b : Buffer) : Z := reader_index_ b.

(** src: ryan_network/buffer/buffer.h:50-50 Buffer::Peek *)
Definition Peek (b : Buffer) : Z := reader_index_ b.

(** src: ryan_network/buffer/buffer.h:277-279 Buffer::BeginWrite *)
Definition BeginWrite (b : Buffer) : Z := writer_index_ b.

(** [None] is the null pointer.
    src: ryan_network/buffer/buffer.h:58-64 Buffer::FindCRLF(start) *)
Definition FindCRLF_from (b : Buffer) (start : Z) : result (option Z) :=
  _ ← assert_ (Peek b <=? start);
  _ ← assert_ (start <=? BeginWrite b);
  d ← read_bytes (buffer_ b) start (BeginWrite b - start);
  let crlf := start + Z.of_nat (std_search kCRLF d) in
  Ok (if crlf =? BeginWrite b then None else Some crlf).

(** src: ryan_network/buffer/buffer.h:52-56 Buffer::FindCRLF *)
Definition FindCRLF (b : Buffer) : result (option Z) :=
  d ← read_bytes (buffer_ b) (Peek b) (BeginWrite b - Peek b);
  let crlf := Peek b + Z.of_nat (std_search kCRLF d) in
  Ok (if crlf =? BeginWrite b then None else Some crlf).

(** [memchr(start, '\n', len)] *)
Definition memchr_eol (b : Buffer) (start len : Z) : result (option Z) :=
  d ← read_bytes (buffer_ b) start len;
  let i := std_find x0a d in
  Ok (if decide (i = length d) then None else Some (start + Z.of_nat i)).

(** src: ryan_network/buffer/buffer.h:66-69 Buffer::FindEOL *)
Definition FindEOL (b : Buffer) : result (option Z) :=
  memchr_eol b (Peek b) (ReadableBytes b).

(** src: ryan_network/buffer/buffer.h:71-76 Buffer::FindEOL(start) *)
Definition FindEOL_from (b : Buffer) (start : Z) : result (option Z) :=
  _ ← assert_ (Peek b <=? start);
  _ ← assert_ (start <=? BeginWrite b);
  memchr_eol b start (u64 (BeginWrite b - start)).

(** src: ryan_network/buffer/buffer.h:103-106 Buffer::RetrieveAll *)
Definition RetrieveAll (b : Buffer) : Buffer :=
  mkBuffer (buffer_ b) kCheapPrepend kCheapPrepend.

(** src: ryan_network/buffer/buffer.h:82-92 Buffer::Retrieve *)
Definition Retrieve (b : Buffer) (len : Z) : Buffer :=
  if len <? ReadableBytes b
  then mkBuffer (buffer_ b) (u64 (reader_index_ b + len)) (writer_index_ b)
  else RetrieveAll b.

(** src: ryan_network/buffer/buffer.h:78-78 Buffer::RetrieveUntil *)
Definition RetrieveUntil (b : Buffer) (end_ : Z) : Buffer :=
  Retrieve b (u64 (end_ - Peek b)).

(** src: ryan_network/buffer/buffer.h:94-94 Buffer::RetrieveInt64 *)
Definition RetrieveInt64 (b : Buffer) : Buffer := Retrieve b 8.
(** src: ryan_network/buffer/buffer.h:96-96 Buffer::RetrieveInt32 *)
Definition RetrieveInt32 (b : Buffer) : Buffer := Retrieve b 4.
(** src: ryan_network/buffer/buffer.h:98-98 Buffer::RetrieveInt16 *)
Definition RetrieveInt16 (b : Buffer) : Buffer := Retrieve b 2.
(** src: ryan_network/buffer/buffer.h:100-100 Buffer::RetrieveInt8 *)
Definition RetrieveInt8 (b : Buffer) : Buffer := Retrieve b 1.

(** src: ryan_network/buffer/buffer.h:114-120 Buffer::RetrieveAsString *)
Definition RetrieveAsString (b : Buffer) (len : Z) : result (bytes * Buffer) :=
  r ← read_bytes (buffer_ b) (Peek b) len;
  Ok (r, Retrieve b len).

(** src: ryan_network/buffer/buffer.h:109-112 Buffer::RetrieveAllAsString *)
Definition RetrieveAllAsString (b : Buffer) : result (bytes * Buffer) :=
  RetrieveAsString b (ReadableBytes b).

(** src: ryan_network/buffer/buffer.h:131-133 Buffer::ContentToString *)
Definition ContentToString (b : Buffer) : result bytes :=
  read_bytes (buffer_ b) (Peek b) (ReadableBytes b).

(** [len] is an [int]; in the comparison and in [writer_index_ + len] it
    is converted to [size_t].  [std::copy] is undefined when its
    destination lies inside the source range.
    src: ryan_network/buffer/buffer.h:295-311 Buffer::MakeSpace *)
Definition MakeSpace (b : Buffer) (len : Z) : result Buffer :=
  if u64 (WritableBytes b + PrependableBytes b) <? u64 (u64 len + kCheapPrepend) then
    v ← vector_resize (buffer_ b) (u64 (writer_index_ b + u64 len));
    Ok (mkBuffer v (reader_index_ b) (writer_index_ b))
  else
    let readable := ReadableBytes b in
    _ ← defined_if (negb ((reader_index_ b <=? kCheapPrepend)
                          && (kCheapPrepend <? writer_index_ b)));
    d ← read_bytes (buffer_ b) (reader_index_ b) (writer_index_ b - reader_index_ b);
    v ← write_bytes (buffer_ b) kCheapPrepend d;
    Ok (mkBuffer v kCheapPrepend (u64 (kCheapPrepend + readable))).

(** The [size_t] argument of [MakeSpace] becomes an [int].
    src: ryan_network/buffer/buffer.h:123-128 Buffer::EnsureWritableBytes *)
Definition EnsureWritableBytes (b : Buffer) (len : Z) : result Buffer :=
  if WritableBytes b <? len then MakeSpace b (s32 len) else Ok b.

(** The overloads of [Append] for a string and a [void*] forward to this one.
    src: ryan_network/buffer/buffer.h:136-147 Buffer::Append *)
Definition Append (b : Buffer) (data : bytes) : result Buffer :=
  b ← EnsureWritableBytes b (zlen data);
  v ← write_bytes (buffer_ b) (BeginWrite b) data;
  Ok (mkBuffer v (reader_index_ b) (u64 (writer_index_ b + zlen data))).

(** src: ryan_network/buffer/buffer.h:152-155 Buffer::AppendInt64 *)
Definition AppendInt64 (b : Buffer) (x : Z) : result Buffer :=
  let be64 := s64 (HostToNetwork64 (u64 x)) in
  Append b (le_bytes 8 be64).

(** src: ryan_network/buffer/buffer.h:160-163 Buffer::AppendInt32 *)
Definition AppendInt32 (b : Buffer) (x : Z) : result Buffer :=
  let be32 := s32 (HostToNetwork32 (u32 x)) in
  Append b (le_bytes 4 be32).

(** src: ryan_network/buffer/buffer.h:165-168 Buffer::AppendInt16 *)
Definition AppendInt16 (b : Buffer) (x : Z) : result Buffer :=
  let be16 := s16 (HostToNetwork16 (u16 x)) in
  Append b (le_bytes 2 be16).

(** src: ryan_network/buffer/buffer.h:170-170 Buffer::AppendInt8 *)
Definition AppendInt8 (b : Buffer) (x : Z) : result Buffer :=
  Append b (le_bytes 1 x).

(** src: ryan_network/buffer/buffer.h:208-213 Buffer::PeekInt64 *)
Definition PeekInt64 (b : Buffer) : result Z :=
  _ ← assert_ (8 <=? ReadableBytes b);
  d ← read_bytes (buffer_ b) (Peek b) 8;
  let be64 := s64 (le_val d) in
  Ok (s64 (NetworkToHost64 (u64 be64))).

(** src: ryan_network/buffer/buffer.h:219-224 Buffer::PeekInt32 *)
Definition PeekInt32 (b : Buffer) : result Z :=
  _ ← assert_ (4 <=? ReadableBytes b);
  d ← read_bytes (buffer_ b) (Peek b) 4;
  let be32 := s32 (le_val d) in
  Ok (s32 (NetworkToHost32 (u32 be32))).

(** src: ryan_network/buffer/buffer.h:226-231 Buffer::PeekInt16 *)
Definition PeekInt16 (b : Buffer) : result Z :=
  _ ← assert_ (2 <=? ReadableBytes b);
  d ← read_bytes (buffer_ b) (Peek b) 2;
  let be16 := s16 (le_val d) in
  Ok (s16 (NetworkToHost16 (u16 be16))).

(** src: ryan_network/buffer/buffer.h:233-237 Buffer::PeekInt8 *)
Definition PeekInt8 (b : Buffer) : result Z :=
  _ ← assert_ (1 <=? ReadableBytes b);
  d ← read_bytes (buffer_ b) (Peek b) 1;
  Ok (s8 (le_val d)).

(** src: ryan_network/buffer/buffer.h:176-180 Buffer::ReadInt64 *)
Definition ReadInt64 (b : Buffer) : result (Z * Buffer) :=
  r ← PeekInt64 b; Ok (r, RetrieveInt64 b).
(** src: ryan_network/buffer/buffer.h:186-190 Buffer::ReadInt32 *)
Definition ReadInt32 (b : Buffer) : result (Z * Buffer) :=
  r ← PeekInt32 b; Ok (r, RetrieveInt32 b).
(** src: ryan_network/buffer/buffer.h:192-196 Buffer::ReadInt16 *)
Definition ReadInt16 (b : Buffer) : result (Z * Buffer) :=
  r ← PeekInt16 b; Ok (r, RetrieveInt16 b).
(** src: ryan_network/buffer/buffer.h:198-202 Buffer::ReadInt8 *)
Definition ReadInt8 (b : Buffer) : result (Z * Buffer) :=
  r ← PeekInt8 b; Ok (r, RetrieveInt8 b).

(** src: ryan_network/buffer/buffer.h:262-267 Buffer::Prepend *)
Definition Prepend (b : Buffer) (data : bytes) : result Buffer :=
  _ ← assert_ (zlen data <=? PrependableBytes b);
  let r := u64 (reader_index_ b - zlen data) in
  v ← write_bytes (buffer_ b) r data;
  Ok (mkBuffer v r (writer_index_ b)).

(** src: ryan_network/buffer/buffer.h:242-245 Buffer::PrependInt64 *)
Definition PrependInt64 (b : Buffer) (x : Z) : result Buffer :=
  let be64 := s64 (HostToNetwork64 (u64 x)) in
  Prepend b (le_bytes 8 be64).
(** src: ryan_network/buffer/buffer.h:250-253 Buffer::PrependInt32 *)
Definition PrependInt32 (b : Buffer) (x : Z) : result Buffer :=
  let be32 := s32 (HostToNetwork32 (u32 x)) in
  Prepend b (le_bytes 4 be32).
(** src: ryan_network/buffer/buffer.h:255-258 Buffer::PrependInt16 *)
Definition PrependInt16 (b : Buffer) (x : Z) : result Buffer :=
  let be16 := s16 (HostToNetwork16 (u16 x)) in
  Prepend b (le_bytes 2 be16).
(** src: ryan_network/buffer/buffer.h:260-260 Buffer::PrependInt8 *)
Definition PrependInt8 (b : Buffer) (x : Z) : result Buffer :=
  Prepend b (le_bytes 1 x).

(** src: ryan_network/buffer/buffer.h:269-275 Buffer::Shrink *)
Definition Shrink (b : Buffer) (reserve : Z) : result Buffer :=
  other ← Buffer_new kInitialSize;
  other ← EnsureWritableBytes other (u64 (ReadableBytes b + reserve));
  s ← ContentToString b;
  other ← Append other s;
  Ok (fst (Swap b other)).

(** ** Input and output

    The kernel's answer to [readv] is a function of the lengths of the
    iovec; its answer to [write] is a function of the bytes offered. *)

Inductive readv_result :=
  | ReadvError (err : Z)
  | ReadvData (data : bytes).

(** [n] bytes were taken, or [errno] *)
Inductive write_result :=
  | WriteError (err : Z)
  | Wrote (n : Z).

(** readv(2) never returns more than the iovec holds. *)
Definition readv_ok (readv : list Z -> readv_result) : Prop :=
  forall iov data, Forall (Z.le 0) iov -> readv iov = ReadvData data ->
    zlen data <= foldr Z.add 0 iov.


(** src: ryan_network/buffer/buffer.cc:24-24 sizeof(extrabuf) *)
Definition sizeof_extrabuf : Z := 65536.

(** The iovec: the free space and, when that is smaller than the stack
    buffer, the stack buffer.
    src: ryan_network/buffer/buffer.cc:35-52 Buffer::ReadFd *)
Definition ReadFd_vec (b : Buffer) : list Z :=
  let writable := WritableBytes b in
  if writable <? sizeof_extrabuf then [writable; sizeof_extrabuf] else [writable].

(** Returns [n], the value stored through [saveErrno] if one is, and the
    buffer.
    src: ryan_network/buffer/buffer.cc:22-68 Buffer::ReadFd *)
Definition ReadFd (b : Buffer) (readv : list Z -> readv_result)
    : result (Z * option Z * Buffer) :=
  let writable := WritableBytes b in
  match readv (ReadFd_vec b) with
  | ReadvError err => Ok (-1, Some err, b)
  | ReadvData data =>
      let n := zlen data in
      v ← write_bytes (buffer_ b) (writer_index_ b) (take (Z.to_nat writable) data);
      let extrabuf := drop (Z.to_nat writable) data in
      if n <=? writable then
        Ok (n, None, mkBuffer v (reader_index_ b) (u64 (writer_index_ b + n)))
      else
        b' ← Append (mkBuffer v (reader_index_ b) (zlen v)) extrabuf;
        Ok (n, None, b')
  end.

(** src: ryan_network/buffer/buffer.cc:72-78 Buffer::WriteFd *)
Definition WriteFd (b : Buffer) (write : bytes -> write_result) : result (Z * option Z) :=
  d ← read_bytes (buffer_ b) (Peek b) (ReadableBytes b);
  match write d with
  | WriteError err => Ok (-1, Some err)
  | Wrote n => Ok (n, None)
  end.

(** ** Invariant and abstract value *)

Record buf_wf (b : Buffer) : Prop := {
  wf_reader : 0 <= reader_index_ b <= writer_index_ b;
  wf_writer : writer_index_ b <= zlen (buffer_ b);
  wf_size : zlen (buffer_ b) <= max_size
}.

(** The bytes of [v] from [r] to [w]. *)
Definition slice (v : bytes) (r w : Z) : bytes :=
  take (Z.to_nat (w - r)) (drop (Z.to_nat r) v).

Definition content (b : Buffer) : bytes :=
  slice (buffer_ b) (reader_index_ b) (writer_index_ b).

(** ** Slices *)

Lemma zlen_slice v r w : 0 <= r <= w -> w <= zlen v -> zlen (slice v r w) = w - r.
Proof. intros. unfold slice. rewrite length_take, length_drop. lia. Qed.

Lemma slice_take_drop v r w n :
  0 <= r -> 0 <= n -> r + n <= w ->
  take (Z.to_nat n) (slice v r w) = slice v r (r + n).
Proof. intros. unfold slice. rewrite take_take. f_equal. lia. Qed.

Lemma slice_drop v r w n :
  0 <= r -> 0 <= n -> r + n <= w ->
  drop (Z.to_nat n) (slice v r w) = slice v (r + n) w.
Proof.
  intros. unfold slice. rewrite skipn_firstn_comm, drop_drop.
  f_equal; [lia|]. f_equal. lia.
Qed.

(** Writing at [w] leaves the slice before it and appends the data. *)
Lemma slice_write_end v data r w rest :
  0 <= r <= w -> w <= zlen v ->
  slice (take (Z.to_nat w) v ++ data ++ rest) r (w + zlen data) = slice v r w ++ data.
Proof.
  intros Hr Hw. unfold slice.
  rewrite drop_app_le by (rewrite length_take; lia).
  rewrite app_assoc, take_app_le.
  2:{ rewrite length_app, length_drop, length_take. lia. }
  rewrite firstn_all2.
  2:{ rewrite length_app, length_drop, length_take. lia. }
  f_equal. rewrite skipn_firstn_comm. f_equal. lia.
Qed.

(** Writing just before [r] prepends the data. *)
Lemma slice_write_front v data r w :
  zlen data <= r <= w -> w <= zlen v ->
  slice (take (Z.to_nat (r - zlen data)) v ++ data
           ++ drop (Z.to_nat (r - zlen data) + length data) v) (r - zlen data) w
  = data ++ slice v r w.
Proof.
  intros Hr Hw. unfold slice.
  rewrite drop_app_ge by (rewrite length_take; lia). rewrite length_take.
  replace (Z.to_nat (r - zlen data) - Z.to_nat (r - zlen data) `min` length v)%nat
    with 0%nat by lia.
  rewrite drop_0, take_app_ge by lia. f_equal.
  f_equal; [lia|]. f_equal. lia.
Qed.

Lemma slice_full v w : slice v w w = [].
Proof. unfold slice. by rewrite Z.sub_diag. Qed.

(** A longer vector with the same prefix has the same slice. *)
Lemma slice_app_prefix v v' r w :
  0 <= r -> w <= zlen v -> slice (v ++ v') r w = slice v r w.
Proof.
  intros. unfold slice. destruct (decide (r <= w)).
  - rewrite drop_app_le by lia. rewrite take_app_le; [done|]. rewrite length_drop. lia.
  - replace (Z.to_nat (w - r)) with 0%nat by lia. done.
Qed.

(** ** Sizes *)

Section Wf.
Context (b : Buffer) (Hwf : buf_wf b).

Lemma ReadableBytes_wf : ReadableBytes b = writer_index_ b - reader_index_ b.
Proof using Hwf.
  destruct Hwf as [Hr Hw Hs]. unfold ReadableBytes, max_size in *.
  apply uwrap_small. lia.
Qed.

Lemma WritableBytes_wf : WritableBytes b = zlen (buffer_ b) - writer_index_ b.
Proof using Hwf.
  destruct Hwf as [Hr Hw Hs]. unfold WritableBytes, max_size in *.
  apply uwrap_small. lia.
Qed.

Lemma zlen_content : zlen (content b) = ReadableBytes b.
Proof using Hwf.
  rewrite ReadableBytes_wf. destruct Hwf. unfold content.
  rewrite zlen_slice; lia.
Qed.

Lemma read_readable :
  read_bytes (buffer_ b) (Peek b) (ReadableBytes b) = Ok (content b).
Proof using Hwf.
  rewrite ReadableBytes_wf. destruct Hwf. unfold Peek.
  by rewrite read_bytes_Ok by lia.
Qed.

Lemma buf_wf_bounds :
  0 <= reader_index_ b <= 2 ^ 63 - 1 /\ 0 <= writer_index_ b <= 2 ^ 63 - 1 /\
  0 <= ReadableBytes b <= 2 ^ 63 - 1.
Proof using Hwf.
  rewrite ReadableBytes_wf. destruct Hwf. unfold max_size in *. lia.
Qed.
End Wf.

Create Rewrite HintDb buffer.
#[export] Hint Rewrite ReadableBytes_wf WritableBytes_wf using assumption : buffer.

(** Reduce a goal about sizes of a well-formed buffer to arithmetic. *)
Ltac buf_lia :=
  repeat match goal with
  | H : buf_wf _ |- _ => destruct H
  end;
  unfold max_size, kCheapPrepend, PrependableBytes, Peek, BeginWrite in *; lia.

Lemma Buffer_new_wf n b :
  Buffer_new n = Ok b -> 0 <= n <= max_size - 8 -> buf_wf b /\ content b = [].
Proof.
  unfold Buffer_new, vector_resize. intros H Hn. unfold max_size in *.
  rewrite (uwrap_small 64) in H by (unfold kCheapPrepend; lia).
  case_match; inv_bind.
  split; [constructor|]; simpl; unfold kCheapPrepend, max_size in *.
  - lia.
  - rewrite length_app, length_take, length_replicate. simpl. lia.
  - rewrite length_app, length_take, length_replicate. simpl. lia.
  - unfold content. simpl. apply slice_full.
Qed.

(** ** Retrieving *)

Lemma RetrieveAll_wf b :
  buf_wf b -> kCheapPrepend <= zlen (buffer_ b) -> buf_wf (RetrieveAll b).
Proof. intros Hwf Hs. split; simpl; buf_lia. Qed.

Lemma content_RetrieveAll b : content (RetrieveAll b) = [].
Proof. apply slice_full. Qed.

(** [Retrieve] drops a prefix of the content, everything when asked for
    more than there is. *)
Lemma Retrieve_content b len :
  buf_wf b -> 0 <= len -> content (Retrieve b len) = drop (Z.to_nat len) (content b).
Proof.
  intros Hwf Hlen. pose proof (zlen_content b Hwf) as Hc. unfold Retrieve.
  pose proof (buf_wf_bounds b Hwf). autorewrite with buffer in *.
  destruct (Z.ltb_spec len (writer_index_ b - reader_index_ b)).
  - unfold content. simpl. rewrite uwrap_small by buf_lia.
    rewrite slice_drop by buf_lia. done.
  - rewrite content_RetrieveAll. symmetry. apply drop_ge. lia.
Qed.

Lemma Retrieve_wf b len :
  buf_wf b -> kCheapPrepend <= zlen (buffer_ b) -> 0 <= len -> buf_wf (Retrieve b len).
Proof.
  intros Hwf Hs Hlen. unfold Retrieve.
  pose proof (buf_wf_bounds b Hwf). autorewrite with buffer in *.
  destruct (Z.ltb_spec len (writer_index_ b - reader_index_ b)).
  - split; simpl; rewrite ?uwrap_small by buf_lia; buf_lia.
  - by apply RetrieveAll_wf.
Qed.

Lemma Retrieve_buffer b len : buffer_ (Retrieve b len) = buffer_ b.
Proof. unfold Retrieve. by case_match. Qed.

Lemma RetrieveAsString_spec b len :
  buf_wf b -> 0 <= len <= ReadableBytes b ->
  RetrieveAsString b len = Ok (take (Z.to_nat len) (content b), Retrieve b len).
Proof.
  intros Hwf Hlen. unfold RetrieveAsString. autorewrite with buffer in *.
  assert (read_bytes (buffer_ b) (Peek b) len = Ok (take (Z.to_nat len) (content b))) as ->.
  { rewrite read_bytes_Ok by buf_lia. unfold content.
    rewrite slice_take_drop by buf_lia. unfold slice, Peek. do 2 f_equal. lia. }
  done.
Qed.

Lemma RetrieveAllAsString_spec b :
  buf_wf b -> RetrieveAllAsString b = Ok (content b, RetrieveAll b).
Proof.
  intros Hwf. unfold RetrieveAllAsString.
  pose proof (buf_wf_bounds b Hwf). pose proof (zlen_content b Hwf).
  rewrite RetrieveAsString_spec by (auto; lia).
  rewrite take_ge by lia. unfold Retrieve. by rewrite Z.ltb_irrefl.
Qed.

(** ** Making room *)

(** What a call that makes room guarantees: the content is kept and there
    are [len] writable bytes. *)
Record room (b b' : Buffer) (len : Z) : Prop := {
  room_wf : buf_wf b';
  room_content : content b' = content b;
  room_writable : len <= WritableBytes b';
  room_reader : reader_index_ b' = reader_index_ b \/ reader_index_ b' = kCheapPrepend;
  room_reader_le : reader_index_ b' <= reader_index_ b;
  room_size : zlen (buffer_ b) <= zlen (buffer_ b')
                <= Z.max (zlen (buffer_ b)) (writer_index_ b + len)
}.

Lemma vector_resize_grow v n :
  zlen v <= n <= max_size ->
  vector_resize v n = Ok (v ++ replicate (Z.to_nat n - length v) x00).
Proof.
  intros Hn. unfold vector_resize. rewrite (proj2 (Z.leb_le _ _)) by lia.
  by rewrite firstn_all2 by lia.
Qed.

Lemma MakeSpace_grow b len :
  buf_wf b -> 0 <= len < 2 ^ 31 -> WritableBytes b < len ->
  WritableBytes b + PrependableBytes b < len + kCheapPrepend ->
  writer_index_ b + len <= max_size ->
  exists b', MakeSpace b len = Ok b' /\ room b b' len.
Proof.
  intros Hwf Hlen Hw Hgrow Hmax. unfold MakeSpace.
  autorewrite with buffer in *.
  unwrap buf_lia.
  rewrite (proj2 (Z.ltb_lt _ _)) by lia.
  rewrite vector_resize_grow by buf_lia. rewrite bind_Ok.
  eexists; split; [reflexivity|].
  assert (buf_wf (mkBuffer (buffer_ b ++ replicate (Z.to_nat (writer_index_ b + len)
            - length (buffer_ b)) x00) (reader_index_ b) (writer_index_ b))) as Hwf'.
  { split; simpl; rewrite ?length_app, ?length_replicate; buf_lia. }
  split; autorewrite with buffer; simpl; rewrite ?length_app, ?length_replicate;
    try (buf_lia || done).
  unfold content. simpl. apply slice_app_prefix; buf_lia.
Qed.

Lemma MakeSpace_move b len :
  buf_wf b -> 0 <= len < 2 ^ 31 -> WritableBytes b < len ->
  len + kCheapPrepend <= WritableBytes b + PrependableBytes b ->
  exists b', MakeSpace b len = Ok b' /\ room b b' len.
Proof.
  intros Hwf Hlen Hw Hmove. unfold MakeSpace.
  autorewrite with buffer in *.
  unwrap buf_lia.
  rewrite (proj2 (Z.ltb_ge _ _)) by lia.
  rewrite (proj2 (Z.leb_gt (reader_index_ b) _)) by buf_lia. simpl negb. cbn [defined_if].
  rewrite bind_Ok. rewrite read_bytes_Ok by buf_lia. rewrite bind_Ok.
  fold (slice (buffer_ b) (reader_index_ b) (writer_index_ b)).
  assert (Hd : zlen (slice (buffer_ b) (reader_index_ b) (writer_index_ b))
               = writer_index_ b - reader_index_ b) by (apply zlen_slice; buf_lia).
  rewrite write_bytes_Ok by buf_lia. rewrite bind_Ok.
  eexists; split; [reflexivity|].
  match goal with |- room _ (mkBuffer ?v _ _) _ => set (v' := v) end.
  assert (Hv : zlen v' = zlen (buffer_ b)).
  { unfold v'. rewrite !length_app, length_take, length_drop. buf_lia. }
  match goal with |- room _ ?b' _ => assert (buf_wf b') as Hwf' end.
  { split; simpl; buf_lia. }
  split; autorewrite with buffer; simpl; try (buf_lia || done).
  unfold content. simpl.
  replace (writer_index_ b - reader_index_ b)
    with (zlen (slice (buffer_ b) (reader_index_ b) (writer_index_ b))) by lia.
  unfold v'. rewrite slice_write_end by buf_lia. by rewrite slice_full.
Qed.

Lemma EnsureWritableBytes_ok b len :
  buf_wf b -> 0 <= len < 2 ^ 31 -> writer_index_ b + len <= max_size ->
  exists b', EnsureWritableBytes b len = Ok b' /\ room b b' len.
Proof.
  intros Hwf Hlen Hmax. unfold EnsureWritableBytes.
  destruct (Z.ltb_spec (WritableBytes b) len).
  - rewrite swrap_small by lia.
    destruct (Z.lt_ge_cases (WritableBytes b + PrependableBytes b) (len + kCheapPrepend)).
    + by apply MakeSpace_grow.
    + by apply MakeSpace_move.
  - exists b. split; [done|]. split; auto; lia.
Qed.

(** ** Appending *)

(** What a call that appends [data] guarantees. *)
Record appended (b b' : Buffer) (data : bytes) : Prop := {
  app_wf : buf_wf b';
  app_content : content b' = content b ++ data;
  app_reader : reader_index_ b' = reader_index_ b \/ reader_index_ b' = kCheapPrepend;
  app_reader_le : reader_index_ b' <= reader_index_ b;
  app_writer : writer_index_ b' <= writer_index_ b + zlen data;
  app_size : zlen (buffer_ b) <= zlen (buffer_ b')
}.

Lemma room_writer b b' len :
  buf_wf b -> room b b' len -> writer_index_ b' <= writer_index_ b.
Proof.
  intros Hwf Hr. pose proof (zlen_content b Hwf) as H1.
  destruct Hr as [Hwf' Hc _ _ Hle _]. pose proof (zlen_content b' Hwf') as H2.
  rewrite Hc in H2. autorewrite with buffer in *. lia.
Qed.

Lemma Append_spec b data :
  buf_wf b -> zlen data < 2 ^ 31 -> writer_index_ b + zlen data <= max_size ->
  exists b', Append b data = Ok b' /\ appended b b' data.
Proof.
  intros Hwf Hlen Hmax. unfold Append.
  destruct (EnsureWritableBytes_ok b (zlen data)) as (b1 & -> & Hr); [auto|lia..|].
  rewrite bind_Ok. pose proof (room_writer _ _ _ Hwf Hr) as Hww.
  destruct Hr as [Hwf1 Hc Hw Hr Hle Hs]. autorewrite with buffer in *.
  rewrite write_bytes_Ok by buf_lia. rewrite bind_Ok.
  eexists; split; [reflexivity|].
  unwrap buf_lia.
  split; simpl; try (lia || done).
  - split; simpl; rewrite ?length_app, ?length_take, ?length_drop; buf_lia.
  - rewrite <- Hc. unfold content at 1. simpl. unfold BeginWrite.
    apply slice_write_end; buf_lia.
  - rewrite !length_app, length_take, length_drop. buf_lia.
Qed.

(** ** Prepending *)

Lemma Prepend_spec b data :
  buf_wf b -> zlen data <= reader_index_ b ->
  exists b', Prepend b data = Ok b' /\ buf_wf b' /\ content b' = data ++ content b /\
    reader_index_ b' = reader_index_ b - zlen data /\
    writer_index_ b' = writer_index_ b /\ zlen (buffer_ b') = zlen (buffer_ b).
Proof.
  intros Hwf Hlen. unfold Prepend, PrependableBytes.
  rewrite (proj2 (Z.leb_le _ _)) by lia. simpl assert_. rewrite bind_Ok.
  rewrite !(uwrap_small 64) by buf_lia.
  rewrite write_bytes_Ok by buf_lia. rewrite bind_Ok.
  eexists; split; [reflexivity|]. simpl.
  match goal with |- _ /\ _ /\ _ /\ _ /\ ?H => assert H as Hv end.
  { rewrite !length_app, length_take, length_drop. buf_lia. }
  split; [split; simpl; buf_lia|]. split; [|done].
  unfold content. simpl. apply slice_write_front; buf_lia.
Qed.

Lemma Prepend_refused b data :
  reader_index_ b < zlen data -> Prepend b data = Fault FAssert.
Proof.
  intros. unfold Prepend, PrependableBytes. by rewrite (proj2 (Z.leb_gt _ _)) by lia.
Qed.

(** ** Integers in network order *)

Lemma s_le_bytes n w x :
  w = 8 * Z.of_nat n -> 0 < w -> le_bytes n (swrap w x) = le_bytes n x.
Proof.
  intros -> Hw. rewrite <- (le_bytes_mod n x), <- (le_bytes_mod n (swrap _ x)).
  rewrite pow256. change (?a mod 2 ^ ?w) with (uwrap w a).
  by rewrite uwrap_swrap.
Qed.

Lemma network_bytes n w x :
  w = 8 * Z.of_nat n -> 0 < w ->
  le_bytes n (swrap w (bswap n (uwrap w x))) = be_bytes n x.
Proof.
  intros Hw Hp. rewrite s_le_bytes by done. rewrite le_bytes_bswap.
  unfold be_bytes. f_equal. subst w. unfold uwrap. rewrite <- pow256.
  apply le_bytes_mod.
Qed.

(** Reading an [n]-byte integer off the front of the content undoes
    writing it there. *)
Lemma peek_network n w x rest :
  w = 8 * Z.of_nat n -> (0 < n)%nat -> - 2 ^ (w - 1) <= x < 2 ^ (w - 1) ->
  swrap w (bswap n (uwrap w (swrap w (le_val (take n (be_bytes n x ++ rest)))))) = x.
Proof.
  intros Hw Hn Hx.
  rewrite take_app_le by (rewrite length_be_bytes; lia).
  rewrite firstn_all2 by (rewrite length_be_bytes; lia).
  rewrite <- le_bytes_bswap, le_val_bytes.
  rewrite Z.mod_small by apply bswap_range.
  rewrite <- (bswap_mod n x), pow256, <- Hw. change (x mod 2 ^ w) with (uwrap w x).
  subst w. by apply bswap_signed_roundtrip.
Qed.

Lemma read_front b n d rest :
  buf_wf b -> content b = d ++ rest -> n = zlen d ->
  read_bytes (buffer_ b) (Peek b) n = Ok d /\ n <= ReadableBytes b.
Proof.
  intros Hwf Hc ->. pose proof (zlen_content b Hwf) as H. rewrite Hc in H.
  rewrite length_app in H. autorewrite with buffer in *. split; [|lia].
  rewrite read_bytes_Ok by buf_lia. f_equal.
  apply (f_equal (take (length d))) in Hc. rewrite take_app_length in Hc.
  rewrite <- Hc at 2. unfold content, slice, Peek. rewrite take_take. f_equal. lia.
Qed.

Lemma PeekInt64_front b x rest :
  buf_wf b -> - 2 ^ 63 <= x < 2 ^ 63 -> content b = be_bytes 8 x ++ rest ->
  PeekInt64 b = Ok x.
Proof.
  intros Hwf Hx Hc. unfold PeekInt64.
  destruct (read_front b 8 (be_bytes 8 x) rest) as [Hr Hn]; [done..|].
  rewrite assert_Ok by lia. rewrite bind_Ok, Hr, bind_Ok. f_equal.
  unfold NetworkToHost64.
  rewrite <- (peek_network 8 64 x []) at 2 by (done || lia).
  by rewrite app_nil_r, firstn_all2 by (rewrite length_be_bytes; lia).
Qed.

Lemma PeekInt32_front b x rest :
  buf_wf b -> - 2 ^ 31 <= x < 2 ^ 31 -> content b = be_bytes 4 x ++ rest ->
  PeekInt32 b = Ok x.
Proof.
  intros Hwf Hx Hc. unfold PeekInt32.
  destruct (read_front b 4 (be_bytes 4 x) rest) as [Hr Hn]; [done..|].
  rewrite assert_Ok by lia. rewrite bind_Ok, Hr, bind_Ok. f_equal.
  unfold NetworkToHost32.
  rewrite <- (peek_network 4 32 x []) at 2 by (done || lia).
  by rewrite app_nil_r, firstn_all2 by (rewrite length_be_bytes; lia).
Qed.

Lemma PeekInt16_front b x rest :
  buf_wf b -> - 2 ^ 15 <= x < 2 ^ 15 -> content b = be_bytes 2 x ++ rest ->
  PeekInt16 b = Ok x.
Proof.
  intros Hwf Hx Hc. unfold PeekInt16.
  destruct (read_front b 2 (be_bytes 2 x) rest) as [Hr Hn]; [done..|].
  rewrite assert_Ok by lia. rewrite bind_Ok, Hr, bind_Ok. f_equal.
  unfold NetworkToHost16.
  rewrite <- (peek_network 2 16 x []) at 2 by (done || lia).
  by rewrite app_nil_r, firstn_all2 by (rewrite length_be_bytes; lia).
Qed.

Lemma PeekInt8_front b x rest :
  buf_wf b -> - 2 ^ 7 <= x < 2 ^ 7 -> content b = be_bytes 1 x ++ rest ->
  PeekInt8 b = Ok x.
Proof.
  intros Hwf Hx Hc. unfold PeekInt8.
  destruct (read_front b 1 (be_bytes 1 x) rest) as [Hr Hn]; [done..|].
  rewrite assert_Ok by lia. rewrite bind_Ok, Hr, bind_Ok. f_equal.
  rewrite <- le_bytes_bswap, le_val_bytes, Z.mod_small by apply bswap_range.
  unfold bswap. change (rev (le_bytes 1 x)) with (le_bytes 1 x).
  rewrite le_val_bytes, pow256.
  change (x mod _) with (uwrap 8 x). rewrite swrap_uwrap by lia.
  by apply swrap_small.
Qed.

Lemma AppendInt64_spec b x :
  buf_wf b -> writer_index_ b + 8 <= max_size ->
  exists b', AppendInt64 b x = Ok b' /\ appended b b' (be_bytes 8 x).
Proof.
  intros. unfold AppendInt64, HostToNetwork64. rewrite (network_bytes 8 64) by lia.
  apply Append_spec; rewrite ?length_be_bytes; auto; lia.
Qed.

Lemma AppendInt32_spec b x :
  buf_wf b -> writer_index_ b + 4 <= max_size ->
  exists b', AppendInt32 b x = Ok b' /\ appended b b' (be_bytes 4 x).
Proof.
  intros. unfold AppendInt32, HostToNetwork32. rewrite (network_bytes 4 32) by lia.
  apply Append_spec; rewrite ?length_be_bytes; auto; lia.
Qed.

Lemma AppendInt16_spec b x :
  buf_wf b -> writer_index_ b + 2 <= max_size ->
  exists b', AppendInt16 b x = Ok b' /\ appended b b' (be_bytes 2 x).
Proof.
  intros. unfold AppendInt16, HostToNetwork16. rewrite (network_bytes 2 16) by lia.
  apply Append_spec; rewrite ?length_be_bytes; auto; lia.
Qed.

Lemma AppendInt8_spec b x :
  buf_wf b -> writer_index_ b + 1 <= max_size ->
  exists b', AppendInt8 b x = Ok b' /\ appended b b' (be_bytes 1 x).
Proof.
  intros. unfold AppendInt8. change (le_bytes 1 x) with (be_bytes 1 x).
  apply Append_spec; rewrite ?length_be_bytes; auto; lia.
Qed.

(** Reading [n] bytes off the front leaves the rest. *)
Lemma Retrieve_front b n d rest :
  buf_wf b -> kCheapPrepend <= zlen (buffer_ b) -> content b = d ++ rest -> zlen d = n ->
  buf_wf (Retrieve b n) /\ content (Retrieve b n) = rest /\
  kCheapPrepend <= zlen (buffer_ (Retrieve b n)).
Proof.
  intros Hwf Hs Hc Hn. split; [|split].
  - apply Retrieve_wf; auto. lia.
  - rewrite Retrieve_content by (auto || lia). rewrite Hc, <- Hn, Nat2Z.id.
    apply drop_app_length.
  - by rewrite Retrieve_buffer.
Qed.

Section ReadFront.
Context (b : Buffer) (x : Z) (rest : bytes).
Context (Hwf : buf_wf b) (Hs : kCheapPrepend <= zlen (buffer_ b)).

(** [read b = Ok (x, b')] and [b'] holds [rest] *)
Definition reads (r : result (Z * Buffer)) : Prop :=
  exists b', r = Ok (x, b') /\ buf_wf b' /\ content b' = rest /\
    kCheapPrepend <= zlen (buffer_ b').

Lemma ReadInt64_front :
  - 2 ^ 63 <= x < 2 ^ 63 -> content b = be_bytes 8 x ++ rest -> reads (ReadInt64 b).
Proof using Hwf Hs.
  intros Hx Hc. unfold reads, ReadInt64. rewrite (PeekInt64_front b x rest) by auto.
  rewrite bind_Ok. eexists; split; [done|]. by eapply Retrieve_front.
Qed.

Lemma ReadInt32_front :
  - 2 ^ 31 <= x < 2 ^ 31 -> content b = be_bytes 4 x ++ rest -> reads (ReadInt32 b).
Proof using Hwf Hs.
  intros Hx Hc. unfold reads, ReadInt32. rewrite (PeekInt32_front b x rest) by auto.
  rewrite bind_Ok. eexists; split; [done|]. by eapply Retrieve_front.
Qed.

Lemma ReadInt16_front :
  - 2 ^ 15 <= x < 2 ^ 15 -> content b = be_bytes 2 x ++ rest -> reads (ReadInt16 b).
Proof using Hwf Hs.
  intros Hx Hc. unfold reads, ReadInt16. rewrite (PeekInt16_front b x rest) by auto.
  rewrite bind_Ok. eexists; split; [done|]. by eapply Retrieve_front.
Qed.

Lemma ReadInt8_front :
  - 2 ^ 7 <= x < 2 ^ 7 -> content b = be_bytes 1 x ++ rest -> reads (ReadInt8 b).
Proof using Hwf Hs.
  intros Hx Hc. unfold reads, ReadInt8. rewrite (PeekInt8_front b x rest) by auto.
  rewrite bind_Ok. eexists; split; [done|]. by eapply Retrieve_front.
Qed.
End ReadFront.

(** ** A sequence of appends *)

Fixpoint append_all (b : Buffer) (l : list bytes) : result Buffer :=
  match l with
  | [] => Ok b
  | d :: l => b ← Append b d; append_all b l
  end.

Lemma append_all_app b l1 l2 :
  append_all b (l1 ++ l2) = (b ← append_all b l1; append_all b l2).
Proof.
  revert b. induction l1 as [|d l1 IH]; intros b; [done|]. simpl.
  destruct (Append b d); simpl; [apply IH|done].
Qed.

Lemma append_all_spec b l :
  buf_wf b -> Forall (fun d => zlen d < 2 ^ 31) l ->
  writer_index_ b + zlen (concat l) <= max_size ->
  exists b', append_all b l = Ok b' /\ appended b b' (concat l).
Proof.
  revert b. induction l as [|d l IH]; intros b Hwf Hl Hm.
  - exists b. split; [done|]. split; simpl; rewrite ?app_nil_r; auto; lia.
  - apply Forall_cons in Hl as [Hd Hl]. cbn [concat] in *. rewrite length_app in Hm.
    destruct (Append_spec b d) as (b1 & H1 & [? Hc1 Hr1 Hle1 Hw1 Hs1]); [done|lia|lia|].
    destruct (IH b1) as (b2 & H2 & [? Hc2 Hr2 Hle2 Hw2 Hs2]); [done..|lia|].
    exists b2. cbn [append_all]. rewrite H1, bind_Ok. split; [done|].
    split; [done| | |lia| |lia].
    + by rewrite Hc2, Hc1, app_assoc.
    + destruct Hr2, Hr1; [left|..]; try (right; congruence); congruence.
    + rewrite length_app. lia.
Qed.
