(* ===== verification/BufferSpec.v ===== *)
(** * What Buffer promises

    The abstract buffer is the string of readable bytes together with the
    part of the front reserve ([kCheapPrepend] bytes) that is left.  The
    operations of [Buffer] implement the operations on that pair, for any
    sequence of calls; the searches, [Shrink], [ReadFd] and the integer
    accessors are specified on the content. *)

From S2P Require Import Prelude Endian Buffer.

(** ** The abstract buffer *)

Record abuf := mkAbuf { a_content : bytes; a_front : Z }.

Definition abuf_empty : abuf := mkAbuf [] kCheapPrepend.

(** The calls a client makes, and what they return. *)
Inductive buf_op :=
  | OpAppend (data : bytes)
  | OpAppendInt64 (x : Z)
  | OpAppendInt32 (x : Z)
  | OpPrepend (data : bytes)
  | OpPrependInt32 (x : Z)
  | OpRetrieve (len : Z)
  | OpRetrieveAll
  | OpRetrieveAsString (len : Z)
  | OpRetrieveAllAsString
  | OpContentToString.

(** the bytes an operation puts into the buffer *)
Definition op_data (op : buf_op) : bytes :=
  match op with
  | OpAppend d | OpPrepend d => d
  | OpAppendInt64 x => be_bytes 8 x
  | OpAppendInt32 x | OpPrependInt32 x => be_bytes 4 x
  | _ => []
  end.

Definition a_drop (n : Z) (a : abuf) : abuf :=
  if n <? zlen (a_content a)
  then mkAbuf (drop (Z.to_nat n) (a_content a)) (Z.min kCheapPrepend (a_front a + n))
  else abuf_empty.

(** The specification: the returned string and the next abstract buffer;
    [None] where the call is outside its contract. *)
Definition spec_op (op : buf_op) (a : abuf) : option (bytes * abuf) :=
  match op with
  | OpAppend _ | OpAppendInt64 _ | OpAppendInt32 _ =>
      Some ([], mkAbuf (a_content a ++ op_data op) (a_front a))
  | OpPrepend _ | OpPrependInt32 _ =>
      if zlen (op_data op) <=? a_front a
      then Some ([], mkAbuf (op_data op ++ a_content a) (a_front a - zlen (op_data op)))
      else None
  | OpRetrieve n => if 0 <=? n then Some ([], a_drop n a) else None
  | OpRetrieveAll => Some ([], abuf_empty)
  | OpRetrieveAsString n =>
      if (0 <=? n) && (n <=? zlen (a_content a))
      then Some (take (Z.to_nat n) (a_content a), a_drop n a) else None
  | OpRetrieveAllAsString => Some (a_content a, abuf_empty)
  | OpContentToString => Some (a_content a, a)
  end.

(** The implementation of the same calls. *)
Definition run_op (op : buf_op) (b : Buffer) : result (bytes * Buffer) :=
  match op with
  | OpAppend d => b' ← Append b d; Ok ([], b')
  | OpAppendInt64 x => b' ← AppendInt64 b x; Ok ([], b')
  | OpAppendInt32 x => b' ← AppendInt32 b x; Ok ([], b')
  | OpPrepend d => b' ← Prepend b d; Ok ([], b')
  | OpPrependInt32 x => b' ← PrependInt32 b x; Ok ([], b')
  | OpRetrieve n => Ok ([], Retrieve b n)
  | OpRetrieveAll => Ok ([], RetrieveAll b)
  | OpRetrieveAsString n => RetrieveAsString b n
  | OpRetrieveAllAsString => RetrieveAllAsString b
  | OpContentToString => s ← ContentToString b; Ok (s, b)
  end.

Fixpoint spec_ops (ops : list buf_op) (a : abuf) : option (list bytes * abuf) :=
  match ops with
  | [] => Some ([], a)
  | op :: ops =>
      '(out, a) ← spec_op op a;
      '(outs, a) ← spec_ops ops a;
      Some (out :: outs, a)
  end.

Fixpoint run_ops (ops : list buf_op) (b : Buffer) : result (list bytes * Buffer) :=
  match ops with
  | [] => Ok ([], b)
  | op :: ops =>
      r ← run_op op b;
      rs ← run_ops ops (snd r);
      Ok (fst r :: fst rs, snd rs)
  end.

(** ** Simulation

    [a_front] is room the buffer still guarantees; [cap] bounds the writer
    index, so that the vector's size stays below [max_size]. *)

Record abstracts (b : Buffer) (a : abuf) (cap : Z) : Prop := {
  abs_wf : buf_wf b;
  abs_content : content b = a_content a;
  abs_front : a_front a <= Z.min kCheapPrepend (reader_index_ b);
  abs_writer : writer_index_ b <= cap;
  abs_size : kCheapPrepend <= zlen (buffer_ b);
  abs_cap : kCheapPrepend <= cap
}.

Lemma abstracts_more b a cap cap' : abstracts b a cap -> cap <= cap' -> abstracts b a cap'.
Proof. intros [] ?. constructor; auto; lia. Qed.

Lemma abstracts_append b a cap d :
  abstracts b a cap -> zlen d < 2 ^ 31 -> cap + zlen d <= max_size ->
  exists b', Append b d = Ok b' /\
    abstracts b' (mkAbuf (a_content a ++ d) (a_front a)) (cap + zlen d).
Proof.
  intros [Hwf Hc Hf Hw Hs Hcap] Hd Hmax.
  destruct (Append_spec b d) as (b' & -> & [Hwf' Hc' Hr Hle Hw' Hs']); [auto|lia..|].
  exists b'. split; [done|]. constructor; simpl; try lia; auto.
  by rewrite Hc', Hc.
Qed.

Lemma abstracts_prepend b a cap d :
  abstracts b a cap -> zlen d <= a_front a ->
  exists b', Prepend b d = Ok b' /\
    abstracts b' (mkAbuf (d ++ a_content a) (a_front a - zlen d)) cap.
Proof.
  intros [Hwf Hc Hf Hw Hs Hcap] Hd.
  destruct (Prepend_spec b d) as (b' & -> & Hwf' & Hc' & Hr & Hww & Hl); [auto|lia|].
  exists b'. split; [done|]. constructor; simpl; try lia; auto. by rewrite Hc', Hc.
Qed.

Lemma abstracts_RetrieveAll b a cap : abstracts b a cap -> abstracts (RetrieveAll b) abuf_empty cap.
Proof.
  intros [Hwf Hc Hf Hw Hs Hcap]. constructor; simpl; try lia; auto.
  by apply RetrieveAll_wf.
Qed.

Lemma abstracts_Retrieve b a cap n :
  abstracts b a cap -> 0 <= n -> abstracts (Retrieve b n) (a_drop n a) cap.
Proof.
  intros Habs Hn. pose proof Habs as [Hwf Hc Hf Hw Hs Hcap].
  pose proof (zlen_content b Hwf) as Hlen. rewrite Hc in Hlen.
  pose proof (Retrieve_content b n Hwf Hn) as Hrc.
  pose proof (Retrieve_wf b n Hwf Hs Hn) as Hrw. pose proof (Retrieve_buffer b n) as Hrb.
  unfold a_drop. unfold Retrieve in *. rewrite <- Hlen in *.
  destruct (n <? zlen (a_content a)) eqn:E; [|by eapply abstracts_RetrieveAll].
  pose proof (buf_wf_bounds b Hwf). autorewrite with buffer in *.
  rewrite uwrap_small in * by lia.
  constructor; simpl in *; try lia; auto; congruence.
Qed.

Lemma abstracts_read b a cap n :
  abstracts b a cap -> 0 <= n <= zlen (a_content a) ->
  RetrieveAsString b n = Ok (take (Z.to_nat n) (a_content a), Retrieve b n).
Proof.
  intros [Hwf Hc _ _ _ _] Hn. pose proof (zlen_content b Hwf).
  rewrite RetrieveAsString_spec, Hc; auto. rewrite Hc in *. lia.
Qed.

(** One call: the implementation returns what the specification says. *)
Lemma run_op_refines op b a cap out a' :
  abstracts b a cap -> zlen (op_data op) < 2 ^ 31 ->
  cap + zlen (op_data op) <= max_size ->
  spec_op op a = Some (out, a') ->
  exists b', run_op op b = Ok (out, b') /\ abstracts b' a' (cap + zlen (op_data op)).
Proof.
  intros Habs Hd Hmax Hspec.
  pose proof Habs as [Hwf Hc _ _ _ _]. pose proof (zlen_content b Hwf) as Hlen.
  destruct op as [d|x|x|d|x|n| |n| |]; cbn [op_data spec_op run_op] in Hspec, Hd, Hmax |- *;
    repeat case_match; simplify_eq; rewrite ?Z.add_0_r.
  - destruct (abstracts_append _ _ _ d Habs) as (b' & -> & ?); [lia..|eauto].
  - unfold AppendInt64, HostToNetwork64. rewrite (network_bytes 8 64) by lia.
    destruct (abstracts_append _ _ _ (be_bytes 8 x) Habs) as (b' & -> & ?); [lia..|eauto].
  - unfold AppendInt32, HostToNetwork32. rewrite (network_bytes 4 32) by lia.
    destruct (abstracts_append _ _ _ (be_bytes 4 x) Habs) as (b' & -> & ?); [lia..|eauto].
  - destruct (abstracts_prepend _ _ _ d Habs) as (b' & -> & ?); [lia|].
    eexists; split; [done|]. eapply abstracts_more; eauto. lia.
  - unfold PrependInt32, HostToNetwork32. rewrite (network_bytes 4 32) by lia.
    destruct (abstracts_prepend _ _ _ (be_bytes 4 x) Habs) as (b' & -> & ?); [lia|].
    eexists; split; [done|]. eapply abstracts_more; eauto. lia.
  - eexists; split; [done|]. eapply abstracts_more; [apply abstracts_Retrieve|]; eauto; lia.
  - eexists; split; [done|]. eapply abstracts_more; [by eapply abstracts_RetrieveAll|lia].
  - rewrite (abstracts_read _ _ _ _ Habs) by lia. eexists; split; [done|].
    eapply abstracts_more; [apply abstracts_Retrieve|]; eauto; lia.
  - rewrite RetrieveAllAsString_spec, Hc by done. eexists; split; [done|].
    eapply abstracts_more; [by eapply abstracts_RetrieveAll|lia].
  - unfold ContentToString. rewrite read_readable, Hc by done.
    eexists; split; [done|]. eapply abstracts_more; eauto. lia.
Qed.

(** the bytes a sequence of calls puts into the buffer *)
Definition ops_size (ops : list buf_op) : Z :=
  foldr (fun op n => zlen (op_data op) + n) 0 ops.

Lemma ops_size_nonneg ops : 0 <= ops_size ops.
Proof. induction ops; simpl; lia. Qed.

Lemma run_ops_refines ops b a cap outs a' :
  abstracts b a cap -> Forall (fun op => zlen (op_data op) < 2 ^ 31) ops ->
  cap + ops_size ops <= max_size ->
  spec_ops ops a = Some (outs, a') ->
  exists b', run_ops ops b = Ok (outs, b') /\ abstracts b' a' (cap + ops_size ops).
Proof.
  revert b a cap outs. induction ops as [|op ops IH]; intros b a cap outs Habs Hd Hmax Hs.
  - simpl in *. simplify_eq. exists b. split; [done|]. eapply abstracts_more; eauto. lia.
  - apply Forall_cons in Hd as [Hd Hds]. simpl in Hs, Hmax |- *.
    pose proof (ops_size_nonneg ops).
    destruct (spec_op op a) as [[out a1]|] eqn:E1; simpl in Hs; [|done].
    destruct (spec_ops ops a1) as [[outs1 a2]|] eqn:E2; simpl in Hs; [|done]. simplify_eq.
    destruct (run_op_refines op b a cap out a1) as (b1 & -> & H1); [auto|lia..|done|].
    rewrite bind_Ok. simpl.
    destruct (IH b1 a1 (cap + zlen (op_data op)) outs1) as (b2 & -> & H2); [auto..|lia|done|].
    exists b2. split; [done|]. eapply abstracts_more; eauto. lia.
Qed.

Lemma Buffer_new_initial :
  exists b, Buffer_new kInitialSize = Ok b /\ abstracts b abuf_empty kCheapPrepend.
Proof.
  eexists. split; [reflexivity|].
  match goal with |- abstracts ?b _ _ => destruct (Buffer_new_wf kInitialSize b) as [Hwf Hc] end.
  - reflexivity.
  - unfold kInitialSize, max_size. lia.
  - constructor; auto; vm_compute; discriminate.
Qed.

(** ** Properties *)

(** C1: Buffer implements the byte queue with a front reserve: for every
    sequence of calls within the contract (each appending fewer than 2^31
    bytes, 2^62 in total, prepending no more than the reserve), starting from
    a new Buffer, no call faults, every returned string is the one the
    abstract queue returns, and the content at the end is the queue's. *)
Theorem Buffer_refines_queue (ops : list buf_op) (outs : list bytes) (a : abuf) :
  Forall (fun op => zlen (op_data op) < 2 ^ 31) ops ->
  ops_size ops <= 2 ^ 62 ->
  spec_ops ops abuf_empty = Some (outs, a) ->
  exists b0 b, Buffer_new kInitialSize = Ok b0 /\ run_ops ops b0 = Ok (outs, b) /\
    buf_wf b /\ content b = a_content a.
Proof.
  intros Hd Hsz Hs. destruct Buffer_new_initial as (b0 & Hb0 & Habs).
  destruct (run_ops_refines ops b0 _ _ outs a Habs) as (b & Hrun & [Hwf Hc _ _ _ _]); auto.
  - unfold kCheapPrepend, max_size. lia.
  - by exists b0, b.
Qed.

Definition ex_ops : list buf_op :=
  [OpAppend (lit "hello"); OpAppendInt32 (-2); OpRetrieve 2; OpPrependInt32 7;
   OpRetrieveAsString 5; OpRetrieveAllAsString; OpAppend (lit "x"); OpContentToString].

Lemma Buffer_refines_queue_witness :
  exists b0 b, Buffer_new kInitialSize = Ok b0 /\
    run_ops ex_ops b0 =
      Ok ([[]; []; []; []; [x00; x00; x00; x07; "l"%byte];
          [("l"%byte); ("o"%byte); xff; xff; xff; xfe]; []; lit "x"], b) /\
    buf_wf b /\ content b = lit "x".
Proof.
  apply (Buffer_refines_queue ex_ops _ (mkAbuf (lit "x") 8)).
  - repeat constructor.
  - vm_compute. discriminate.
  - vm_compute. reflexivity.
Defined.

(** C26: the integer accessors use network byte order and are inverse to each other.  Integers of
    each width appended to any well-formed buffer succeed and appear after its content most
    significant byte first; and from any buffer that holds those bytes in front of a rest, reading
    them back returns the integers and leaves exactly the rest. *)
Theorem integers_roundtrip (b : Buffer) (x y z t : Z) :
  buf_wf b -> kCheapPrepend <= zlen (buffer_ b) -> writer_index_ b <= 2 ^ 62 ->
  - 2 ^ 63 <= x < 2 ^ 63 -> - 2 ^ 31 <= y < 2 ^ 31 ->
  - 2 ^ 15 <= z < 2 ^ 15 -> - 2 ^ 7 <= t < 2 ^ 7 ->
  let wire := be_bytes 8 x ++ be_bytes 4 y ++ be_bytes 2 z ++ be_bytes 1 t in
  (exists b4, (b1 ← AppendInt64 b x; b2 ← AppendInt32 b1 y;
               b3 ← AppendInt16 b2 z; AppendInt8 b3 t) = Ok b4 /\
     buf_wf b4 /\ content b4 = content b ++ wire) /\
  (forall rest, content b = wire ++ rest ->
     exists b5, (r1 ← ReadInt64 b; r2 ← ReadInt32 (snd r1); r3 ← ReadInt16 (snd r2);
                 r4 ← ReadInt8 (snd r3);
                 Ok (fst r1, fst r2, fst r3, fst r4, snd r4)) = Ok (x, y, z, t, b5) /\
       buf_wf b5 /\ content b5 = rest).
Proof.
  intros Hwf Hs Hw Hx Hy Hz Ht wire. split.
  - destruct (AppendInt64_spec b x) as (b1 & -> & [W1 C1 _ _ L1 S1]);
      [auto|unfold max_size; lia|]. rewrite length_be_bytes in L1. rewrite bind_Ok.
    destruct (AppendInt32_spec b1 y) as (b2 & -> & [W2 C2 _ _ L2 S2]);
      [auto|unfold max_size; lia|]. rewrite length_be_bytes in L2. rewrite bind_Ok.
    destruct (AppendInt16_spec b2 z) as (b3 & -> & [W3 C3 _ _ L3 S3]);
      [auto|unfold max_size; lia|]. rewrite length_be_bytes in L3. rewrite bind_Ok.
    destruct (AppendInt8_spec b3 t) as (b4 & -> & [W4 C4 _ _ L4 S4]);
      [auto|unfold max_size; lia|].
    exists b4. split; [done|]. split; [done|]. unfold wire. by rewrite C4, C3, C2, C1, <- !app_assoc.
  - intros rest Hc. unfold wire in Hc. rewrite <- !app_assoc in Hc.
    destruct (ReadInt64_front b x _ Hwf Hs Hx Hc) as (r1 & -> & V1 & D1 & T1). rewrite bind_Ok. cbn [fst snd].
    destruct (ReadInt32_front r1 y _ V1 T1 Hy D1) as (r2 & -> & V2 & D2 & T2). rewrite bind_Ok. cbn [fst snd].
    destruct (ReadInt16_front r2 z _ V2 T2 Hz D2) as (r3 & -> & V3 & D3 & T3). rewrite bind_Ok. cbn [fst snd].
    destruct (ReadInt8_front r3 t _ V3 T3 Ht D3) as (r4 & -> & V4 & D4 & T4). by exists r4.
Qed.

(** a fresh buffer, as the constructor leaves it, and one that holds the bytes of four integers *)
Definition fresh : Buffer := mkBuffer (replicate 1032 x00) 8 8.
Definition ex_wire : bytes := be_bytes 8 (-5) ++ be_bytes 4 65537 ++ be_bytes 2 (-32768) ++ be_bytes 1 127.
Definition ex_holding : Buffer := mkBuffer (replicate 8 x00 ++ ex_wire ++ lit "!") 8 24.

Lemma fresh_wf : buf_wf fresh /\ content fresh = [].
Proof. apply (Buffer_new_wf kInitialSize); [reflexivity|by vm_compute]. Qed.

Lemma integers_roundtrip_witness :
  (exists b4, (b1 ← AppendInt64 ex_holding (-5); b2 ← AppendInt32 b1 65537;
               b3 ← AppendInt16 b2 (-32768); AppendInt8 b3 127) = Ok b4 /\
     buf_wf b4 /\ content b4 = (ex_wire ++ lit "!") ++ ex_wire) /\
  (exists b5, (r1 ← ReadInt64 ex_holding; r2 ← ReadInt32 (snd r1); r3 ← ReadInt16 (snd r2);
               r4 ← ReadInt8 (snd r3);
               Ok (fst r1, fst r2, fst r3, fst r4, snd r4)) = Ok (-5, 65537, -32768, 127, b5) /\
     buf_wf b5 /\ content b5 = lit "!").
Proof.
  destruct (integers_roundtrip ex_holding (-5) 65537 (-32768) 127) as [H1 H2];
    [split; vm_compute; intuition discriminate|vm_compute; discriminate|vm_compute; discriminate|lia..|].
  split; [exact H1|]. apply (H2 (lit "!")). vm_compute. reflexivity.
Defined.

(** ** Searching *)

(** [pos] is the offset of the first occurrence of [pat] in the content. *)
Definition first_at (b : Buffer) (pat : bytes) (pos : Z) : Prop :=
  exists pre post, content b = pre ++ pat ++ post /\ pos = Peek b + zlen pre /\
    forall k, (k < length pre)%nat -> take (length pat) (drop k (content b)) <> pat.

Lemma FindCRLF_spec b :
  buf_wf b ->
  match FindCRLF b with
  | Ok (Some pos) => first_at b kCRLF pos
  | Ok None => forall k, take 2 (drop k (content b)) <> kCRLF
  | Fault _ => False
  end.
Proof.
  intros Hwf. pose proof (zlen_content b Hwf) as Hlen.
  pose proof (read_readable b Hwf) as Hr. autorewrite with buffer in *.
  unfold FindCRLF, BeginWrite in *.
  change (writer_index_ b - Peek b) with (writer_index_ b - reader_index_ b).
  rewrite Hr, bind_Ok. pose proof (std_search_le kCRLF (content b)) as Hle.
  case_match eqn:E; simplify_eq; case_match; simplify_eq.
  - destruct (std_search_hit kCRLF (content b)) as (pre & post & Hc & Hpre);
      [unfold Peek in *; lia|].
    exists pre, post. split; [done|]. split; [by rewrite Hpre|].
    intros k Hk. apply std_search_minimal. lia.
  - intros k. destruct (decide (k < length (content b))%nat).
    + apply (std_search_minimal kCRLF). unfold Peek in *. lia.
    + rewrite drop_ge by lia. done.
Qed.

(** [FindCRLF] on a well-formed buffer never reads outside the vector; it
    returns the offset of the first CRLF of the content, and the null pointer
    exactly when the content holds none. *)
Theorem FindCRLF_first (b : Buffer) :
  buf_wf b ->
  (exists pos, FindCRLF b = Ok (Some pos) /\ first_at b kCRLF pos) \/
  (FindCRLF b = Ok None /\ forall pre post, content b <> pre ++ kCRLF ++ post).
Proof.
  intros Hwf. pose proof (FindCRLF_spec b Hwf) as H.
  destruct (FindCRLF b) as [[pos|]|]; [by left; exists pos| |done].
  right. split; [done|]. intros pre post Hc. apply (H (length pre)).
  rewrite Hc, drop_app_length. done.
Qed.

Lemma FindCRLF_first_witness :
  let b := mkBuffer (replicate 8 x00 ++ lit "ab" ++ kCRLF ++ kCRLF) 8 14 in
  FindCRLF b = Ok (Some 10) /\
  ((exists pos, FindCRLF b = Ok (Some pos) /\ first_at b kCRLF pos) \/
   (FindCRLF b = Ok None /\ forall pre post, content b <> pre ++ kCRLF ++ post)).
Proof.
  split; [reflexivity|]. apply FindCRLF_first.
  split; vm_compute; intuition discriminate.
Defined.

(** ** Shrinking *)

(** [Shrink(reserve)] keeps the content, leaves at least [reserve] writable
    bytes and releases the rest: the vector it leaves holds no more than the
    initial 1024 bytes or, when larger, the content and the reserve, beside the
    prepend area. *)
Theorem Shrink_keeps_content (b : Buffer) (reserve : Z) :
  buf_wf b -> 0 <= reserve -> ReadableBytes b + reserve < 2 ^ 31 ->
  exists b', Shrink b reserve = Ok b' /\ buf_wf b' /\ content b' = content b /\
    reserve <= WritableBytes b' /\
    zlen (buffer_ b') <= kCheapPrepend + Z.max kInitialSize (ReadableBytes b + reserve).
Proof.
  intros Hwf Hr Hb. pose proof (buf_wf_bounds b Hwf) as (_ & _ & Hrb).
  pose proof (zlen_content b Hwf) as Hlen. destruct fresh_wf as [Fw Fc].
  unfold Shrink. change (Buffer_new kInitialSize) with (Ok fresh). rewrite bind_Ok.
  unwrap lia.
  destruct (EnsureWritableBytes_ok fresh (ReadableBytes b + reserve)) as (b1 & -> & Hroom).
  { auto. } { lia. } { simpl. unfold max_size. lia. }
  rewrite bind_Ok. unfold ContentToString. rewrite read_readable, bind_Ok by done.
  destruct Hroom as [W1 C1 R1 _ _ S1]. rewrite Fc in C1.
  change (writer_index_ fresh) with 8 in S1. change (zlen (buffer_ fresh)) with 1032 in S1.
  pose proof (zlen_content b1 W1) as L1. rewrite C1 in L1. simpl in L1.
  unfold Append, EnsureWritableBytes.
  rewrite (proj2 (Z.ltb_ge (WritableBytes b1) _)) by lia. rewrite bind_Ok.
  autorewrite with buffer in *.
  rewrite write_bytes_Ok by (destruct W1; unfold BeginWrite; lia). rewrite bind_Ok.
  eexists; split; [reflexivity|]. unfold Swap. simpl.
  unwrap ltac:(destruct W1; unfold max_size in *; lia).
  match goal with |- buf_wf ?b' /\ _ => assert (buf_wf b') as W2 end.
  { destruct W1. split; simpl; rewrite ?length_app, ?length_take, ?length_drop;
      unfold BeginWrite; lia. }
  split; [done|]. autorewrite with buffer. simpl.
  rewrite !length_app, length_take, length_drop. unfold BeginWrite, kCheapPrepend, kInitialSize.
  split; [|destruct W1; lia].
  unfold content at 1. simpl. rewrite slice_write_end by (destruct W1; lia).
  change (slice (buffer_ b1) (reader_index_ b1) (writer_index_ b1)) with (content b1).
  by rewrite C1.
Qed.

Lemma Shrink_keeps_content_witness :
  let b := mkBuffer (replicate 100 x41) 20 50 in
  exists b', Shrink b 2000 = Ok b' /\ buf_wf b' /\ content b' = content b /\
    2000 <= WritableBytes b' /\
    zlen (buffer_ b') <= kCheapPrepend + Z.max kInitialSize (ReadableBytes b + 2000).
Proof.
  apply Shrink_keeps_content; [|lia|vm_compute; done].
  split; vm_compute; intuition discriminate.
Defined.

(** ** Well-formedness without bounds

    [Append] may fail or run out of room; when it returns, the buffer is well formed, however
    large the data was, and has the bytes that [RetrieveAll] counts on. *)

Definition buf_ok (b : Buffer) : Prop := buf_wf b /\ kCheapPrepend <= zlen (buffer_ b).

Lemma MakeSpace_inv b len b' :
  buf_wf b -> MakeSpace b len = Ok b' ->
  0 <= reader_index_ b' <= writer_index_ b' /\ zlen (buffer_ b') <= max_size /\
  (0 <= len < 2 ^ 31 -> zlen (buffer_ b) <= zlen (buffer_ b') \/ len <= WritableBytes b).
Proof.
  intros Hwf. pose proof (buf_wf_bounds b Hwf). pose proof Hwf as [W1 W2 W3]. unfold MakeSpace, vector_resize.
  case_match; intros E; inv_bind.
  - case_match; inv_bind. rewrite length_app, length_take, length_replicate.
    pose proof (uwrap_range 64 (writer_index_ b + u64 len)). split; [done|]. split; [lia|].
    intros Hl. revert H0. unwrap buf_lia. rewrite WritableBytes_wf by done. lia.
  - apply read_bytes_inv in Hm0 as (_ & _ & _ & Hl & _). apply write_bytes_inv in Hm1 as (_ & Hs & -> & _).
    rewrite ReadableBytes_wf by done. unwrap buf_lia. buf_lia.
Qed.

Lemma Append_keeps_ok b data b' : buf_ok b -> Append b data = Ok b' -> buf_ok b'.
Proof.
  intros [Hwf Hc] E. unfold Append, EnsureWritableBytes in E. inv_bind.
  assert (0 <= reader_index_ a <= writer_index_ a /\ zlen (buffer_ a) <= max_size /\
    (zlen data < 2 ^ 31 -> zlen (buffer_ b) <= zlen (buffer_ a))) as (A1 & A2 & A3).
  { case_match; [|inv_bind; destruct Hwf; lia]. apply MakeSpace_inv in Hm as (A1 & A2 & A3); [|done].
    split; [done|]. split; [done|]. intros Hl. rewrite swrap_small in A3 by lia. lia. }
  apply write_bytes_inv in Hm0 as (B1 & B2 & B3 & _). unfold BeginWrite in *.
  unfold max_size in *. unfold buf_ok, kCheapPrepend in *. cbn [buffer_]. rewrite B3.
  split; [|lia]. split; cbn [buffer_ reader_index_ writer_index_]; rewrite ?B3; rewrite ?uwrap_small by lia; unfold max_size; lia.
Qed.

Lemma Retrieve_keeps_ok b n : buf_ok b -> 0 <= n -> buf_ok (Retrieve b n).
Proof. intros [Hwf Hc] Hn. split; [by apply Retrieve_wf|]. by rewrite Retrieve_buffer. Qed.

Lemma ReadFd_keeps_ok b readv n e b' : buf_ok b -> ReadFd b readv = Ok (n, e, b') -> buf_ok b'.
Proof.
  intros Hok E. pose proof Hok as [Hwf Hc]. pose proof (buf_wf_bounds b Hwf). pose proof Hwf as [W1 W2 W3].
  unfold ReadFd in E. case_match; inv_bind; [done|].
  apply write_bytes_inv in Hm as (B1 & B2 & B3 & _).
  assert (forall w, reader_index_ b <= w <= zlen (buffer_ b) -> buf_ok (mkBuffer a (reader_index_ b) w)) as Hv.
  { intros w Hw. split; [split|]; cbn [buffer_ reader_index_ writer_index_]; rewrite ?B3; lia. }
  case_match; inv_bind.
  - apply Hv. rewrite WritableBytes_wf in * by done. unfold max_size in *. rewrite uwrap_small; lia.
  - eapply Append_keeps_ok; [apply (Hv (zlen a)); rewrite B3; lia|exact Hm].
Qed.

(** ** Reading from a descriptor *)

Lemma ReadFd_vec_nonneg b : Forall (Z.le 0) (ReadFd_vec b).
Proof.
  pose proof (uwrap_range 64 (zlen (buffer_ b) - writer_index_ b)) as H.
  unfold ReadFd_vec, WritableBytes, sizeof_extrabuf. case_match; repeat constructor; lia.
Qed.

Lemma ReadFd_data b readv data :
  buf_wf b -> readv_ok readv -> writer_index_ b + zlen data <= max_size ->
  readv (ReadFd_vec b) = ReadvData data ->
  exists b', ReadFd b readv = Ok (zlen data, None, b') /\ appended b b' data.
Proof.
  intros Hwf Hok Hmax Hv. unfold ReadFd. rewrite Hv. pose proof (Hok _ _ (ReadFd_vec_nonneg b) Hv) as Hle.
  unfold ReadFd_vec in Hle.
  pose proof (buf_wf_bounds b Hwf) as (HrB & HwB & _).
  set (w := WritableBytes b) in *.
  assert (Hw : w = zlen (buffer_ b) - writer_index_ b) by (unfold w; by rewrite WritableBytes_wf).
  assert (Hext : zlen (drop (Z.to_nat w) data) < 2 ^ 31).
  { rewrite length_drop. unfold sizeof_extrabuf in *. case_match; simpl in Hle; lia. }
  set (d1 := take (Z.to_nat w) data). set (d2 := drop (Z.to_nat w) data) in *.
  assert (Hd : data = d1 ++ d2) by (symmetry; apply take_drop).
  assert (Hd1 : zlen d1 = Z.min w (zlen data))
    by (unfold d1; rewrite length_take; destruct Hwf; lia).
  rewrite write_bytes_Ok by (destruct Hwf; lia). rewrite bind_Ok.
  match goal with |- context [mkBuffer ?v] => set (v' := v) end.
  assert (Hv' : zlen v' = zlen (buffer_ b)).
  { unfold v'. rewrite !length_app, length_take, length_drop. destruct Hwf; lia. }
  assert (Hc1 : slice v' (reader_index_ b) (writer_index_ b + zlen d1) = content b ++ d1)
    by (unfold v'; apply slice_write_end; destruct Hwf; lia).
  destruct (Z.leb_spec (zlen data) w).
  - eexists; split; [reflexivity|]. unwrap ltac:(destruct Hwf; unfold max_size in *; lia).
    assert (d2 = []) as Hd2 by (apply nil_length_inv; unfold d2; rewrite length_drop; lia).
    rewrite Hd2, app_nil_r in Hd. rewrite <- Hd in Hc1.
    split; simpl; try (lia || done). destruct Hwf; split; simpl; lia.
  - assert (Hwf1 : buf_wf (mkBuffer v' (reader_index_ b) (zlen v'))).
    { destruct Hwf; split; simpl; lia. }
    assert (zlen d2 = zlen data - w) by (unfold d2; rewrite length_drop; destruct Hwf; lia).
    destruct (Append_spec (mkBuffer v' (reader_index_ b) (zlen v')) d2)
      as (b2 & -> & [W2 C2 R2 RL2 L2 S2]); [auto|auto|simpl; lia|].
    rewrite bind_Ok. exists b2. split; [done|]. simpl in *.
    split; try (lia || done).
    rewrite C2. unfold content at 1. simpl.
    replace (zlen v') with (writer_index_ b + zlen d1) by lia.
    by rewrite Hc1, <- app_assoc, <- Hd.
Qed.

(** C25: [ReadFd] loses nothing.  [readv] is asked for the vector's free space and, when that is
    smaller than the 64 KiB stack buffer, for the stack buffer as well.  If it delivers data,
    [ReadFd] returns their length (no more than the larger of the free space and 128 KiB - 1),
    stores no errno and appends exactly those data to the content, in order; if it fails with an
    errno, [ReadFd] returns -1 with that errno and leaves the buffer as it was. *)
Theorem ReadFd_appends (b : Buffer) (readv : list Z -> readv_result) :
  buf_wf b -> readv_ok readv -> zlen (buffer_ b) + sizeof_extrabuf <= max_size ->
  let space := zlen (buffer_ b) - writer_index_ b in
  match readv (if space <? 65536 then [space; 65536] else [space]) with
  | ReadvData data => exists b', ReadFd b readv = Ok (zlen data, None, b') /\
      buf_wf b' /\ content b' = content b ++ data /\ zlen data <= Z.max space (128 * 1024 - 1)
  | ReadvError err => ReadFd b readv = Ok (-1, Some err, b)
  end.
Proof.
  intros Hwf Hok Hmax space. assert (Hsp : WritableBytes b = space) by by rewrite WritableBytes_wf.
  assert (Hv : ReadFd_vec b = if space <? 65536 then [space; 65536] else [space])
    by (unfold ReadFd_vec; by rewrite Hsp).
  rewrite <- Hv. destruct (readv (ReadFd_vec b)) as [err|data] eqn:E.
  - unfold ReadFd. by rewrite E.
  - pose proof (Hok _ _ (ReadFd_vec_nonneg b) E) as Hle. rewrite Hv in Hle.
    assert (0 <= space) by (destruct Hwf; unfold space; lia).
    assert (Hd : zlen data <= Z.max space (128 * 1024 - 1) /\ zlen data <= space + sizeof_extrabuf)
      by (unfold sizeof_extrabuf; destruct (Z.ltb_spec space 65536); simpl in Hle; lia).
    destruct (ReadFd_data b readv data) as (b' & Hr & [W C _ _ _ _]); [done|done|unfold space in Hd; lia|done|].
    exists b'. intuition.
Qed.

(** a kernel that delivers as much of [d] as fits *)
Definition kernel_readv (d : bytes) (iov : list Z) : readv_result :=
  ReadvData (take (Z.to_nat (foldr Z.add 0 iov)) d).

Lemma ReadFd_appends_witness :
  let b := mkBuffer (replicate 12 x41) 8 10 in
  exists b', ReadFd b (kernel_readv (lit "longer than the space")) = Ok (21, None, b') /\
     buf_wf b' /\ content b' = content b ++ lit "longer than the space" /\
     21 <= Z.max 2 (128 * 1024 - 1).
Proof.
  apply (ReadFd_appends (mkBuffer (replicate 12 x41) 8 10) (kernel_readv (lit "longer than the space"))).
  - split; vm_compute; intuition discriminate.
  - intros iov data Hiov H. injection H as <-. rewrite length_take.
    induction Hiov; simpl in *; lia.
  - vm_compute. discriminate.
Defined.

(** ** The int parameter of MakeSpace *)

Lemma s32_high len : 2 ^ 31 <= len < 2 ^ 32 -> s32 len = len - 2 ^ 32.
Proof.
  intros. unfold swrap. change (2 ^ (32 - 1)) with (2 ^ 31).
  replace (len + 2 ^ 31) with (len - 2 ^ 31 + 1 * 2 ^ 32) by lia.
  rewrite Z.mod_add, Z.mod_small; lia.
Qed.

Lemma u64_negative z : - 2 ^ 64 <= z < 0 -> u64 z = z + 2 ^ 64.
Proof.
  intros. unfold uwrap. replace z with (z + 2 ^ 64 + (-1) * 2 ^ 64) by lia.
  rewrite Z.mod_add, Z.mod_small; lia.
Qed.

(** A request of 2^32 bytes is seen by [MakeSpace] as a request of none. *)
Lemma MakeSpace_none b b' :
  buf_wf b -> MakeSpace b 0 = Ok b' -> zlen (buffer_ b') <= zlen (buffer_ b) /\
    0 <= writer_index_ b'.
Proof.
  intros Hwf H. pose proof (buf_wf_bounds b Hwf) as (Hr & Hw & Hrd).
  unfold MakeSpace in H. change (u64 0) with 0 in H. rewrite Z.add_0_r in H.
  case_match.
  - inv_bind. rewrite uwrap_small in * by lia. unfold vector_resize in *.
    case_match; simplify_eq. rewrite length_app, length_take, length_replicate.
    destruct Hwf; lia.
  - inv_bind. match goal with Hw : write_bytes _ _ _ = Ok _ |- _ =>
      apply write_bytes_inv in Hw as (_ & _ & -> & _) end.
    pose proof (uwrap_range 64 (kCheapPrepend + ReadableBytes b)). lia.
Qed.

Lemma MakeSpace_none_fault b f : buf_wf b -> MakeSpace b 0 = Fault f -> f = FUndef.
Proof.
  intros Hwf H. pose proof (buf_wf_bounds b Hwf) as (Hr & Hw & Hrd).
  unfold MakeSpace in H. change (u64 0) with 0 in H. rewrite Z.add_0_r in H.
  case_match.
  - rewrite (uwrap_small 64 (writer_index_ b)) in H by lia. unfold vector_resize in H.
    by rewrite (proj2 (Z.leb_le _ max_size)) in H by (unfold max_size; lia).
  - apply bind_Fault_inv in H as [H|(? & _ & H)]; [by apply defined_if_fault in H|].
    apply bind_Fault_inv in H as [H|(? & _ & H)]; [by apply read_bytes_fault in H|].
    apply bind_Fault_inv in H as [H|(? & _ & H)]; [by apply write_bytes_fault in H|done].
Qed.

(** The [size_t] length given to [Append] is narrowed to the [int] parameter
    of [MakeSpace]: appending 2^32 bytes to a buffer whose vector is smaller
    makes no room and writes past the vector, and a length from 2^31 on (with
    writer index plus length below 2^32) makes [resize] throw although the
    vector could grow. *)
Theorem Append_int_narrowing (b : Buffer) (data : bytes) :
  buf_wf b -> zlen (buffer_ b) < 2 ^ 31 ->
  (zlen data = 2 ^ 32 -> Append b data = Fault FUndef) /\
  (2 ^ 31 <= zlen data -> writer_index_ b + zlen data + kCheapPrepend < 2 ^ 32 ->
   Append b data = Fault FLengthError).
Proof.
  intros Hwf Hs. pose proof (buf_wf_bounds b Hwf) as (Hr & Hw & _).
  assert (Hwr : WritableBytes b < 2 ^ 31) by (rewrite WritableBytes_wf by done; destruct Hwf; lia).
  unfold Append, EnsureWritableBytes. split.
  - intros Hd. rewrite Hd, (proj2 (Z.ltb_lt _ _)) by lia. change (s32 (2 ^ 32)) with 0.
    destruct (MakeSpace b 0) as [b'|f] eqn:E.
    + destruct (MakeSpace_none b b' Hwf E). rewrite bind_Ok, write_bytes_out; [done|].
      unfold BeginWrite. lia.
    + by rewrite bind_Fault, (MakeSpace_none_fault b f Hwf E).
  - intros Hd Hsum. rewrite (proj2 (Z.ltb_lt _ _)) by lia.
    rewrite s32_high by (unfold kCheapPrepend in *; lia). unfold MakeSpace.
    unfold kCheapPrepend, PrependableBytes in *.
    rewrite (u64_negative (zlen data - 2 ^ 32)) by lia.
    rewrite WritableBytes_wf by done. pose proof (wf_reader _ Hwf). pose proof (wf_writer _ Hwf).
    unwrap lia. rewrite (proj2 (Z.ltb_lt _ _)) by lia. unfold vector_resize.
    by rewrite (proj2 (Z.leb_gt _ _)) by (unfold max_size; lia).
Qed.

Lemma Append_int_narrowing_witness :
  let huge := replicate (Z.to_nat (2 ^ 32)) x00 in
  Append fresh huge = Fault FUndef.
Proof.
  apply Append_int_narrowing.
  - apply fresh_wf.
  - vm_compute. done.
  - rewrite length_replicate, Z2Nat.id; [done|lia].
Defined.
