(* ===== verification/Lines.v ===== *)
(** * Lines in a buffer

    The servers of this repository read lines that end in CRLF: [FindCRLF], a string
    made of the bytes before it, and [RetrieveUntil] past it.  [FindCRLF_line] says what
    these three calls do to the string a buffer holds. *)

From S2P Require Import Prelude Buffer BufferSpec.

(** ** Lines *)

(** The first line of [s] and what follows its CRLF. *)
Definition split_line (s : bytes) : option (bytes * bytes) :=
  let i := std_search kCRLF s in
  if decide (i = length s) then None else Some (take i s, drop (i + 2) s).

Lemma split_line_Some s l r :
  split_line s = Some (l, r) ->
  s = l ++ kCRLF ++ r /\ (length l + 2 + length r = length s)%nat /\
  length l = std_search kCRLF s.
Proof.
  unfold split_line. case_decide as Hd; [done|]. intros [= <- <-].
  pose proof (std_search_le kCRLF s).
  destruct (std_search_hit kCRLF s) as (l1 & l2 & Hs & Hl); [lia|].
  rewrite <- Hl. assert (take (length l1) s = l1) as ->.
  { rewrite Hs. apply take_app_length. }
  assert (drop (length l1 + 2) s = l2) as ->.
  { rewrite Hs. change 2%nat with (length kCRLF). by rewrite drop_app_add, drop_app_length. }
  split; [done|]. split; [|done]. rewrite Hs, !length_app. simpl. lia.
Qed.

Lemma std_search_crlf l r : x0d ∉ l -> std_search kCRLF (l ++ kCRLF ++ r) = length l.
Proof.
  induction l as [|b l IH]; intros Hl; [done|].
  cbn [app std_search length]. case_decide as Hd.
  - destruct Hl. injection Hd as -> _. left.
  - rewrite IH; [done|]. intros H. apply Hl. by right.
Qed.

Lemma split_line_app l r : x0d ∉ l -> split_line (l ++ kCRLF ++ r) = Some (l, r).
Proof.
  intros Hl. unfold split_line. rewrite std_search_crlf by done.
  case_decide as Hd; [rewrite !length_app in Hd; simpl in Hd; lia|].
  rewrite take_app_length. do 2 f_equal.
  change 2%nat with (length kCRLF).
  by rewrite drop_app_add, drop_app_length.
Qed.

Lemma std_search_more s u :
  (std_search kCRLF s < length s)%nat -> std_search kCRLF (s ++ u) = std_search kCRLF s.
Proof.
  induction s as [|b s IH]; [simpl; lia|]. intros H. cbn [app std_search length] in *.
  case_decide as Hd.
  - rewrite decide_True; [done|]. destruct s as [|b' s]; [done|]. done.
  - rewrite decide_False.
    + f_equal. apply IH. lia.
    + destruct s as [|b' s]; [simpl in H; lia|]. done.
Qed.

Lemma split_line_more s u l r :
  split_line s = Some (l, r) -> split_line (s ++ u) = Some (l, r ++ u).
Proof.
  intros Hs. pose proof (split_line_Some _ _ _ Hs) as (Heq & Hlen & Hl).
  unfold split_line. rewrite std_search_more by lia.
  rewrite decide_False by (rewrite length_app; lia). rewrite <- Hl, Heq.
  rewrite <- !app_assoc, take_app_length. do 2 f_equal.
  change 2%nat with (length kCRLF).
  by rewrite drop_app_add, drop_app_length.
Qed.

(** ** Reading a line from a buffer *)

(** A buffer that lines can be read from, and the string it holds. *)
Definition holds (b : Buffer) (s : bytes) : Prop :=
  buf_wf b /\ kCheapPrepend <= zlen (buffer_ b) /\ content b = s.

Lemma FindCRLF_line b s :
  holds b s ->
  match split_line s with
  | Some (line, rest) => exists pos, FindCRLF b = Ok (Some pos) /\
      read_bytes (buffer_ b) (Peek b) (pos - Peek b) = Ok line /\
      holds (RetrieveUntil b (pos + 2)) rest
  | None => FindCRLF b = Ok None
  end.
Proof.
  intros (Hwf & Hs & Hc). pose proof (zlen_content b Hwf) as Hlen.
  pose proof (read_readable b Hwf) as Hr. pose proof (buf_wf_bounds b Hwf) as (? & ? & ?).
  rewrite Hc in *. autorewrite with buffer in *.
  unfold FindCRLF, BeginWrite. unfold Peek in *. rewrite Hr, bind_Ok. unfold split_line.
  pose proof (std_search_le kCRLF s).
  case_decide as Hd.
  - rewrite (proj2 (Z.eqb_eq _ _)) by lia. done.
  - rewrite (proj2 (Z.eqb_neq _ _)) by lia. eexists; split; [done|].
    destruct (std_search_hit kCRLF s) as (pre & post & Hpp & Hpre); [lia|].
    assert (Hlp : (length s = length pre + (2 + length post))%nat)
      by (rewrite Hpp, !length_app; simpl; lia).
    rewrite <- Hpre in *. split.
    + rewrite read_bytes_Ok by (destruct Hwf; lia). f_equal.
      rewrite <- Hc. unfold content, slice. rewrite take_take. f_equal. lia.
    + unfold RetrieveUntil, Peek. unwrap lia.
      split; [|split].
      * apply Retrieve_wf; auto; lia.
      * by rewrite Retrieve_buffer.
      * rewrite Retrieve_content, Hc by (auto || lia). f_equal. lia.
Qed.
