(* ===== verification/Connection.v ===== *)
(** * What a server asks of a connection

    The servers written over TcpServer use a connection through these calls only.
    [HttpTcp] has the instance for the TcpConnection of this library; traces of the
    calls are another. *)

From S2P Require Import Prelude Buffer.

(** [Send] of a string, [Send] of a buffer (which the call may change), [Shutdown]. *)
Class Connection (C : Type) := {
  conn_Send : C -> bytes -> result C;
  conn_SendBuffer : C -> Buffer -> result (C * Buffer);
  conn_Shutdown : C -> result C
}.

(** A connection that records the calls made on it. *)
Inductive call := CSend (s : bytes) | CShutdown.

#[export] Instance trace_connection : Connection (list call) := {
  conn_Send c s := Ok (c ++ [CSend s]);
  conn_SendBuffer c b := Ok (c ++ [CSend (content b)], RetrieveAll b);
  conn_Shutdown c := Ok (c ++ [CShutdown])
}.
