(* ===== verification/HttpContext.v ===== *)
(** * HTTP request and its parser
      (ryan_network/http/http_request.h, http_context.h, http_context.cc)

    A pair of pointers into the buffer is the string between them.  The
    parser reads lines off the [Buffer] of module [Buffer]; its loop takes
    fuel, [None] meaning that the fuel ran out. *)

From S2P Require Import Prelude Buffer.

(** ** HttpRequest *)

(** src: ryan_network/http/http_request.h:10-10 HttpRequest::Method *)
Inductive Method := kInvalid | kGet | kPost | kHead | kPut | kDelete.
(** src: ryan_network/http/http_request.h:11-11 HttpRequest::Version *)
Inductive Version := kUnknown | kHttp10 | kHttp11.

#[export] Instance Method_eq_dec : EqDecision Method.
Proof. solve_decision. Defined.
#[export] Instance Version_eq_dec : EqDecision Version.
Proof. solve_decision. Defined.

(** src: ryan_network/http/http_request.h:117-122 HttpRequest *)
Record HttpRequest := mkRequest {
  method_ : Method;
  version_ : Version;
  path_ : bytes;
  query_ : bytes;
  receive_time_ : Z;
  headers_ : gmap bytes bytes
}.

(** src: ryan_network/http/http_request.h:13-13 HttpRequest::HttpRequest *)
Definition HttpRequest_new : HttpRequest := mkRequest kInvalid kUnknown [] [] 0 ∅.

(** src: ryan_network/http/http_request.h:15-15 HttpRequest::SetVersion *)
Definition SetVersion (r : HttpRequest) (v : Version) : HttpRequest :=
  mkRequest (method_ r) v (path_ r) (query_ r) (receive_time_ r) (headers_ r).

(** The returned pair is the result and the request after the call.
    src: ryan_network/http/http_request.h:19-36 HttpRequest::SetMethod *)
Definition SetMethod (r : HttpRequest) (m : bytes) : bool * HttpRequest :=
  let method :=
    if decide (m = lit "GET") then kGet
    else if decide (m = lit "POST") then kPost
    else if decide (m = lit "HEAD") then kHead
    else if decide (m = lit "PUT") then kPut
    else if decide (m = lit "DELETE") then kDelete
    else kInvalid in
  (bool_decide (method <> kInvalid),
   mkRequest method (version_ r) (path_ r) (query_ r) (receive_time_ r) (headers_ r)).

(** src: ryan_network/http/http_request.h:40-62 HttpRequest::MethodString *)
Definition MethodString (m : Method) : bytes :=
  match m with
  | kGet => lit "GET"
  | kPost => lit "POST"
  | kHead => lit "HEAD"
  | kPut => lit "PUT"
  | kDelete => lit "DELETE"
  | kInvalid => lit "UNKNOWN"
  end.

(** src: ryan_network/http/http_request.h:64-64 HttpRequest::SetPath *)
Definition SetPath (r : HttpRequest) (s : bytes) : HttpRequest :=
  mkRequest (method_ r) (version_ r) s (query_ r) (receive_time_ r) (headers_ r).
(** src: ryan_network/http/http_request.h:68-70 HttpRequest::SetQuery *)
Definition SetQuery (r : HttpRequest) (s : bytes) : HttpRequest :=
  mkRequest (method_ r) (version_ r) (path_ r) s (receive_time_ r) (headers_ r).
(** src: ryan_network/http/http_request.h:74-74 HttpRequest::SetReceiveTime *)
Definition SetReceiveTime (r : HttpRequest) (t : Z) : HttpRequest :=
  mkRequest (method_ r) (version_ r) (path_ r) (query_ r) t (headers_ r).

(** [isspace] of the C locale *)
Definition isspace (c : byte) : bool :=
  bool_decide (c = x20) || bool_decide (c = x09) || bool_decide (c = x0a)
  || bool_decide (c = x0b) || bool_decide (c = x0c) || bool_decide (c = x0d).

(** [while (colon < end && ::isspace( *colon)) ++colon;]
    src: ryan_network/http/http_request.h:82-84 HttpRequest::AddHeader *)
Fixpoint skip_spaces (s : bytes) : bytes :=
  match s with
  | c :: s' => if isspace c then skip_spaces s' else s
  | [] => []
  end.

(** [while (!value.empty() && ::isspace(value[value.size() - 1])) value.resize(...)];
    the fuel is the length of [value], which each turn decreases.
    src: ryan_network/http/http_request.h:87-89 HttpRequest::AddHeader *)
Fixpoint trim_end (fuel : nat) (value : bytes) : bytes :=
  match fuel, last value with
  | S fuel, Some c => if isspace c then trim_end fuel (removelast value) else value
  | _, _ => value
  end.

(** [line] is the range from [start] to [end], [colon] the offset of the
    colon.
    src: ryan_network/http/http_request.h:78-91 HttpRequest::AddHeader *)
Definition AddHeader (r : HttpRequest) (line : bytes) (colon : nat) : HttpRequest :=
  let field := take colon line in
  let value := skip_spaces (drop (S colon) line) in
  let value := trim_end (length value) value in
  mkRequest (method_ r) (version_ r) (path_ r) (query_ r) (receive_time_ r)
    (<[field := value]> (headers_ r)).

(** src: ryan_network/http/http_request.h:94-101 HttpRequest::GetHeader *)
Definition GetHeader (r : HttpRequest) (field : bytes) : bytes :=
  default [] (headers_ r !! field).

(** The pair is ([this], [rhs]) after the call.
    src: ryan_network/http/http_request.h:107-114 HttpRequest::swap *)
Definition swap (this rhs : HttpRequest) : HttpRequest * HttpRequest :=
  (mkRequest (method_ rhs) (version_ rhs) (path_ rhs) (query_ rhs) (receive_time_ rhs)
     (headers_ rhs),
   mkRequest (method_ this) (version_ this) (path_ this) (query_ this) (receive_time_ this)
     (headers_ this)).

(** ** HttpContext *)

(** src: ryan_network/http/http_context.h:11-16 HttpContext::HttpRequestParseState *)
Inductive HttpRequestParseState :=
  | kExpectRequestLine
  | kExpectHeaders
  | kExpectBody
  | kGotAll.

#[export] Instance HttpRequestParseState_eq_dec : EqDecision HttpRequestParseState.
Proof. solve_decision. Defined.

(** src: ryan_network/http/http_context.h:42-43 HttpContext *)
Record HttpContext := mkContext { state_ : HttpRequestParseState; request_ : HttpRequest }.

(** src: ryan_network/http/http_context.h:18-18 HttpContext::HttpContext *)
Definition HttpContext_new : HttpContext := mkContext kExpectRequestLine HttpRequest_new.

(** src: ryan_network/http/http_context.h:22-22 HttpContext::GotAll *)
Definition GotAll (c : HttpContext) : bool := bool_decide (state_ c = kGotAll).

(** src: ryan_network/http/http_context.h:25-33 HttpContext::Reset *)
Definition Reset (c : HttpContext) : HttpContext :=
  let dummy := HttpRequest_new in
  mkContext kExpectRequestLine (fst (swap (request_ c) dummy)).

(** [line] is the range from [begin] to [end]; the request is changed also
    when the result is [false].
    src: ryan_network/http/http_context.cc:6-43 HttpContext::ProcessRequestLine *)
Definition ProcessRequestLine (r : HttpRequest) (line : bytes) : bool * HttpRequest :=
  let space := std_find x20 line in
  if decide (space = length line) then (false, r) else
  let '(valid, r) := SetMethod r (take space line) in
  if negb valid then (false, r) else
  let start := drop (S space) line in
  let space := std_find x20 start in
  if decide (space = length start) then (false, r) else
  let target := take space start in
  let question := std_find x3f target in
  let r :=
    if decide (question = length target) then SetPath r target
    else SetQuery (SetPath r (take question target)) (drop question target) in
  let start := drop (S space) start in
  let succeed := Nat.eqb (length start) 8 && bool_decide (take 7 start = lit "HTTP/1.") in
  if succeed then
    match last start with
    | Some x31 => (true, SetVersion r kHttp11)
    | Some x30 => (true, SetVersion r kHttp10)
    | _ => (false, r)
    end
  else (false, r).

(** One turn of the loop: [ok], [hasMore], the context and the buffer
    after it.
    src: ryan_network/http/http_context.cc:50-96 HttpContext::ParseRequest *)
Definition ParseRequest_turn (ok : bool) (c : HttpContext) (buf : Buffer) (receiveTime : Z)
    : result (bool * bool * HttpContext * Buffer) :=
  match state_ c with
  | kExpectRequestLine =>
      crlf ← FindCRLF buf;
      match crlf with
      | Some crlf =>
          line ← read_bytes (buffer_ buf) (Peek buf) (crlf - Peek buf);
          let '(ok, r) := ProcessRequestLine (request_ c) line in
          if ok
          then Ok (ok, true, mkContext kExpectHeaders (SetReceiveTime r receiveTime),
                   RetrieveUntil buf (crlf + 2))
          else Ok (ok, false, mkContext (state_ c) r, buf)
      | None => Ok (ok, false, c, buf)
      end
  | kExpectHeaders =>
      crlf ← FindCRLF buf;
      match crlf with
      | Some crlf =>
          line ← read_bytes (buffer_ buf) (Peek buf) (crlf - Peek buf);
          let colon := std_find x3a line in
          if decide (colon = length line)
          then Ok (ok, false, mkContext kGotAll (request_ c), RetrieveUntil buf (crlf + 2))
          else Ok (ok, true, mkContext (state_ c) (AddHeader (request_ c) line colon),
                   RetrieveUntil buf (crlf + 2))
      | None => Ok (ok, false, c, buf)
      end
  | kExpectBody => Ok (ok, true, c, buf)
  | kGotAll => Ok (ok, true, c, buf)
  end.

(** src: ryan_network/http/http_context.cc:49-97 HttpContext::ParseRequest *)
Fixpoint ParseRequest_loop (fuel : nat) (ok : bool) (c : HttpContext) (buf : Buffer)
    (receiveTime : Z) : option (result (bool * HttpContext * Buffer)) :=
  match fuel with
  | O => None
  | S fuel =>
      match ParseRequest_turn ok c buf receiveTime with
      | Fault f => Some (Fault f)
      | Ok (ok, hasMore, c, buf) =>
          if hasMore then ParseRequest_loop fuel ok c buf receiveTime
          else Some (Ok (ok, c, buf))
      end
  end.

(** src: ryan_network/http/http_context.cc:46-98 HttpContext::ParseRequest *)
Definition ParseRequest (fuel : nat) (c : HttpContext) (buf : Buffer) (receiveTime : Z)
    : option (result (bool * HttpContext * Buffer)) :=
  ParseRequest_loop fuel false c buf receiveTime.
