(* ===== verification/HttpSpec.v ===== *)
(** * What the HTTP parser promises

    The parser is first lifted from the [Buffer] to the string of readable
    bytes ([parse_loop]); the theorems about messages are then about
    strings.  A message is printed as RFC 7230 prescribes and parsed back. *)

From S2P Require Import Prelude Buffer BufferSpec Lines HttpContext.

(** ** The parser on strings *)

Definition parse_turn (ok : bool) (c : HttpContext) (s : bytes) (t : Z)
    : bool * bool * HttpContext * bytes :=
  match state_ c with
  | kExpectRequestLine =>
      match split_line s with
      | Some (line, rest) =>
          let '(ok, r) := ProcessRequestLine (request_ c) line in
          if ok then (ok, true, mkContext kExpectHeaders (SetReceiveTime r t), rest)
          else (ok, false, mkContext (state_ c) r, s)
      | None => (ok, false, c, s)
      end
  | kExpectHeaders =>
      match split_line s with
      | Some (line, rest) =>
          let colon := std_find x3a line in
          if decide (colon = length line)
          then (ok, false, mkContext kGotAll (request_ c), rest)
          else (ok, true, mkContext (state_ c) (AddHeader (request_ c) line colon), rest)
      | None => (ok, false, c, s)
      end
  | _ => (ok, true, c, s)
  end.

Fixpoint parse_loop (fuel : nat) (ok : bool) (c : HttpContext) (s : bytes) (t : Z)
    : option (bool * HttpContext * bytes) :=
  match fuel with
  | O => None
  | S fuel =>
      let '(ok, more, c, s) := parse_turn ok c s t in
      if (more : bool) then parse_loop fuel ok c s t else Some (ok, c, s)
  end.

(** ** The Buffer parser is the string parser *)

Lemma ParseRequest_turn_string ok c b s t :
  holds b s ->
  let '(ok', more, c', s') := parse_turn ok c s t in
  exists b', ParseRequest_turn ok c b t = Ok (ok', more, c', b') /\ holds b' s'.
Proof.
  intros Hb. pose proof (FindCRLF_line b s Hb) as Hl.
  unfold parse_turn, ParseRequest_turn.
  destruct (state_ c); [| |by exists b..].
  - destruct (split_line s) as [[line rest]|].
    + destruct Hl as (pos & -> & Hline & Hrest). rewrite bind_Ok. cbn. rewrite Hline, bind_Ok.
      destruct (ProcessRequestLine (request_ c) line) as [[] r]; eauto.
    + rewrite Hl, bind_Ok. eauto.
  - destruct (split_line s) as [[line rest]|].
    + destruct Hl as (pos & -> & Hline & Hrest). rewrite bind_Ok. cbn. rewrite Hline, bind_Ok.
      case_decide; eauto.
    + rewrite Hl, bind_Ok. eauto.
Qed.

Lemma ParseRequest_loop_string fuel ok c b s t :
  holds b s ->
  match parse_loop fuel ok c s t with
  | Some (ok', c', s') =>
      exists b', ParseRequest_loop fuel ok c b t = Some (Ok (ok', c', b')) /\ holds b' s'
  | None => ParseRequest_loop fuel ok c b t = None
  end.
Proof.
  revert ok c b s. induction fuel as [|fuel IH]; intros ok c b s Hb; [done|].
  cbn [parse_loop ParseRequest_loop].
  pose proof (ParseRequest_turn_string ok c b s t Hb) as Ht.
  destruct (parse_turn ok c s t) as [[[ok' more] c'] s'].
  destruct Ht as (b' & -> & Hb'). destruct more; [by apply IH|eauto].
Qed.

(** ** Termination *)

Definition parsing (c : HttpContext) : Prop :=
  state_ c = kExpectRequestLine \/ state_ c = kExpectHeaders.

(** A turn that goes on has consumed a line. *)
Lemma parse_turn_more ok c s t ok' c' s' :
  parsing c -> parse_turn ok c s t = (ok', true, c', s') ->
  state_ c' = kExpectHeaders /\ (length s' + 2 <= length s)%nat.
Proof.
  intros Hp. unfold parse_turn. destruct (state_ c) eqn:Hst; [| |by destruct Hp; congruence..];
  (destruct (split_line s) as [[line rest]|] eqn:E; [|done]);
  apply split_line_Some in E as (_ & Hlen & _).
  - destruct (ProcessRequestLine (request_ c) line) as [[] r]; intros; simplify_eq.
    simpl. split; [done|lia].
  - case_decide; intros; simplify_eq. simpl. split; [done|lia].
Qed.

Lemma parse_loop_terminates fuel ok c s t :
  parsing c -> (length s < fuel)%nat -> exists r, parse_loop fuel ok c s t = Some r.
Proof.
  revert ok c s. induction fuel as [|fuel IH]; intros ok c s Hp Hf; [lia|].
  cbn [parse_loop]. destruct (parse_turn ok c s t) as [[[ok' []] c'] s'] eqn:E; [|by eexists].
  apply parse_turn_more in E as [Hst Hlen]; [|done]. apply IH; [by right|lia].
Qed.

Lemma parse_loop_fuel fuel fuel' ok c s t r :
  parse_loop fuel ok c s t = Some r -> (fuel <= fuel')%nat ->
  parse_loop fuel' ok c s t = Some r.
Proof.
  revert fuel' ok c s. induction fuel as [|fuel IH]; intros fuel' ok c s H Hf; [done|].
  destruct fuel' as [|fuel']; [lia|]. cbn [parse_loop] in *.
  destruct (parse_turn ok c s t) as [[[ok' []] c'] s']; [|done].
  apply IH; [done|lia].
Qed.

(** The parser as a total function on a context that is still parsing. *)
Definition parse (c : HttpContext) (s : bytes) (t : Z) : option (bool * HttpContext * bytes) :=
  parse_loop (S (length s)) false c s t.

(** C24: [ParseRequest] returns on every well-formed buffer while the context
    expects a request line or headers (each turn but the last takes a line of the
    input, so one turn more than there are bytes is enough), without a fault; once the request is
    complete ([kGotAll]), or in the body state, which no transition enters,
    the loop never ends, whatever the input. *)
Theorem ParseRequest_terminates (c : HttpContext) (b : Buffer) (t : Z) :
  buf_wf b -> kCheapPrepend <= zlen (buffer_ b) ->
  (parsing c -> forall fuel, (Z.to_nat (ReadableBytes b) < fuel)%nat ->
     exists ok c' b', ParseRequest fuel c b t = Some (Ok (ok, c', b')) /\ buf_wf b' /\
       state_ c' <> kExpectBody) /\
  (~ parsing c -> forall fuel, ParseRequest fuel c b t = None).
Proof.
  intros Hwf Hs. pose proof (zlen_content b Hwf) as Hlen. split.
  - intros Hp fuel Hf.
    assert (Hb : holds b (content b)) by done.
    pose proof (ParseRequest_loop_string fuel false c b (content b) t Hb) as Hl.
    destruct (parse_loop_terminates fuel false c (content b) t Hp) as ([[ok c'] s'] & Hr); [lia|].
    rewrite Hr in Hl. destruct Hl as (b' & Hl & [Hwf' _]). exists ok, c', b'.
    split; [done|]. split; [done|].
    clear -Hr Hp. revert Hr Hp. generalize false as ok0. generalize (content b) as s.
    revert c. induction fuel as [|fuel IH]; intros c s ok0 Hr Hp; [done|].
    cbn [parse_loop] in Hr. destruct (parse_turn ok0 c s t) as [[[ok1 []] c1] s1] eqn:E.
    + apply parse_turn_more in E as [Hst _]; [|done]. eapply IH; [done|by right].
    + simplify_eq. unfold parse_turn in E.
      destruct Hp as [Hp|Hp]; rewrite Hp in E; repeat case_match; simplify_eq/=; congruence.
  - intros Hp fuel. unfold ParseRequest. generalize false as ok.
    induction fuel as [|fuel IH]; intros ok; [done|]. cbn [ParseRequest_loop].
    unfold ParseRequest_turn at 1.
    destruct (state_ c) eqn:Hst; [by destruct Hp; left|by destruct Hp; right|apply IH..].
Qed.

Definition ex_request : bytes :=
  lit "GET /index?q=1 HTTP/1.1" ++ kCRLF ++ lit "Host: a" ++ kCRLF ++ kCRLF ++ lit "rest".

(** a buffer that holds [s] behind the prepend area *)
Definition buffer_of (s : bytes) : Buffer :=
  mkBuffer (replicate 8 x00 ++ s) kCheapPrepend (kCheapPrepend + zlen s).

Lemma buffer_of_holds s : zlen s <= 2 ^ 62 -> holds (buffer_of s) s.
Proof.
  intros Hs. unfold holds, buffer_of, kCheapPrepend. simpl buffer_. simpl length.
  assert (zlen (replicate 8 x00 ++ s) = 8 + zlen s) as Hl
    by (rewrite length_app, length_replicate; lia).
  split; [split; simpl in *; unfold max_size; lia|]. split; [simpl in *; lia|].
  change (take (Z.to_nat (8 + zlen s - 8)) s = s).
  rewrite Z.add_simpl_l, Nat2Z.id. apply firstn_all.
Qed.

Lemma ParseRequest_terminates_witness :
  let b := buffer_of ex_request in
  (exists ok c' b', ParseRequest 60 HttpContext_new b 0 = Some (Ok (ok, c', b')) /\ buf_wf b' /\
     state_ c' <> kExpectBody) /\
  forall fuel, ParseRequest fuel (mkContext kGotAll HttpRequest_new) b 0 = None.
Proof.
  pose proof (buffer_of_holds ex_request ltac:(vm_compute; discriminate)) as (Hwf & Hs & _).
  split.
  - apply (ParseRequest_terminates HttpContext_new); [done..|by left|vm_compute; lia].
  - apply (ParseRequest_terminates (mkContext kGotAll HttpRequest_new)); [done..|].
    by intros [H|H].
Defined.

(** ** Messages

    A request as RFC 7230 writes it: request line, header lines, an empty
    line. *)

Record message := mkMessage {
  m_method : Method;
  m_path : bytes;
  m_query : bytes;
  m_version : Version;
  m_headers : list (bytes * bytes)
}.

Definition version_text (v : Version) : bytes :=
  match v with kHttp10 => lit "HTTP/1.0" | _ => lit "HTTP/1.1" end.

Definition request_line (m : message) : bytes :=
  MethodString (m_method m) ++ [x20] ++ (m_path m ++ m_query m) ++ [x20]
    ++ version_text (m_version m).

Definition header_line (h : bytes * bytes) : bytes := fst h ++ [x3a; x20] ++ snd h.

Definition header_text (hs : list (bytes * bytes)) : bytes :=
  foldr (fun h s => header_line h ++ kCRLF ++ s) kCRLF hs.

Definition message_text (m : message) : bytes :=
  request_line m ++ kCRLF ++ header_text (m_headers m).

(** No space at either end. *)
Definition trimmed (v : bytes) : Prop :=
  (forall c, head v = Some c -> isspace c = false) /\
  (forall c, last v = Some c -> isspace c = false).

Definition good_header (h : bytes * bytes) : Prop :=
  (x3a ∉ fst h) /\ (x0d ∉ fst h) /\ (x0d ∉ snd h) /\ trimmed (snd h).

Record good_message (m : message) : Prop := {
  gm_method : m_method m <> kInvalid;
  gm_version : m_version m <> kUnknown;
  gm_path : (x20 ∉ m_path m) /\ (x3f ∉ m_path m) /\ (x0d ∉ m_path m);
  gm_query : (x20 ∉ m_query m) /\ (x0d ∉ m_query m);
  gm_mark : m_query m = [] \/ head (m_query m) = Some x3f;
  gm_headers : Forall good_header (m_headers m)
}.

(** The request the parser should build: the query keeps its question
    mark, a repeated field keeps its last value. *)
Definition message_request (m : message) (t : Z) : HttpRequest :=
  mkRequest (m_method m) (m_version m) (m_path m) (m_query m) t
    (foldl (fun hs h => <[fst h := snd h]> hs) ∅ (m_headers m)).

(** ** Field values *)

Lemma skip_spaces_trimmed v : trimmed v -> skip_spaces v = v.
Proof. intros [H _]. destruct v as [|c v]; [done|]. simpl. by rewrite (H c). Qed.

Lemma trim_end_trimmed fuel v : trimmed v -> trim_end fuel v = v.
Proof.
  intros [_ H]. destruct fuel; [done|]. simpl. destruct (last v) as [c|] eqn:E; [|done].
  by rewrite (H c).
Qed.

Lemma AddHeader_line r h :
  good_header h ->
  std_find x3a (header_line h) = length (fst h) /\
  AddHeader r (header_line h) (length (fst h)) =
    mkRequest (method_ r) (version_ r) (path_ r) (query_ r) (receive_time_ r)
      (<[fst h := snd h]> (headers_ r)).
Proof.
  intros (Hc & _ & _ & Ht). unfold header_line. split; [by apply std_find_app|].
  unfold AddHeader. rewrite take_app_length.
  assert (drop (S (length (fst h))) (fst h ++ [x3a; x20] ++ snd h) = x20 :: snd h) as ->.
  { rewrite <- Nat.add_1_r, drop_app_add. done. }
  cbn [skip_spaces]. change (isspace x20) with true. cbn iota.
  by rewrite skip_spaces_trimmed, trim_end_trimmed.
Qed.

(** ** The request line *)

Lemma SetMethod_text r m :
  m <> kInvalid ->
  SetMethod r (MethodString m) =
    (true, mkRequest m (version_ r) (path_ r) (query_ r) (receive_time_ r) (headers_ r)).
Proof. by destruct m. Qed.

Lemma MethodString_chars m : (x20 ∉ MethodString m) /\ (x0d ∉ MethodString m).
Proof. destruct m; split; by apply (bool_decide_unpack _). Qed.

Lemma std_find_mid c l1 l2 : c ∉ l1 -> std_find c (l1 ++ [c] ++ l2) = length l1.
Proof. apply std_find_app. Qed.

Lemma drop_mid (c : byte) l1 l2 : drop (S (length l1)) (l1 ++ [c] ++ l2) = l2.
Proof. by rewrite <- Nat.add_1_r, drop_app_add. Qed.

Lemma ProcessRequestLine_text r m :
  good_message m ->
  ProcessRequestLine r (request_line m) =
    (true, mkRequest (m_method m) (m_version m) (m_path m)
             (match m_query m with [] => query_ r | _ => m_query m end)
             (receive_time_ r) (headers_ r)).
Proof.
  intros [Hm Hv (Hp1 & Hp2 & _) (Hq1 & _) Hmark _]. unfold ProcessRequestLine, request_line.
  destruct (MethodString_chars (m_method m)) as [Hm1 _].
  rewrite std_find_mid by done.
  rewrite decide_False by (rewrite !length_app; simpl; lia).
  rewrite take_app_length, SetMethod_text by done. cbn [negb]. cbn iota.
  rewrite drop_mid, std_find_mid by set_solver.
  rewrite decide_False by (rewrite !length_app; simpl; lia).
  rewrite take_app_length, drop_mid.
  assert (Hend : forall r', (if Nat.eqb (length (version_text (m_version m))) 8
      && bool_decide (take 7 (version_text (m_version m)) = lit "HTTP/1.")
    then match last (version_text (m_version m)) with
         | Some x31 => (true, SetVersion r' kHttp11)
         | Some x30 => (true, SetVersion r' kHttp10)
         | _ => (false, r') end
    else (false, r')) = (true, SetVersion r' (m_version m))).
  { intros. by destruct (m_version m). }
  rewrite Hend. clear Hend. destruct Hmark as [->|Hq].
  - rewrite app_nil_r, std_find_notin by done. by rewrite decide_True.
  - destruct (m_query m) as [|c q] eqn:Eq; [done|]. simpl in Hq. injection Hq as ->.
    rewrite std_find_app by done.
    rewrite decide_False by (rewrite !length_app; simpl; lia).
    by rewrite take_app_length, drop_app_length.
Qed.

(** ** The header lines *)

Lemma header_line_nocr h : good_header h -> x0d ∉ header_line h.
Proof.
  intros (_ & H1 & H2 & _). unfold header_line. rewrite !not_elem_of_app.
  split; [done|]. split; [|done]. by apply (bool_decide_unpack _).
Qed.

Lemma parse_headers hs ok r rest t :
  Forall good_header hs ->
  parse_loop (S (length hs)) ok (mkContext kExpectHeaders r) (header_text hs ++ rest) t =
    Some (ok, mkContext kGotAll
                (mkRequest (method_ r) (version_ r) (path_ r) (query_ r) (receive_time_ r)
                   (foldl (fun m h => <[fst h := snd h]> m) (headers_ r) hs)), rest).
Proof.
  revert r. induction hs as [|h hs IH]; intros r Hg.
  - change (header_text []) with ([] ++ kCRLF).
    cbn [parse_loop parse_turn state_ length]. rewrite <- app_assoc.
    rewrite split_line_app by apply not_elem_of_nil. simpl. by destruct r.
  - apply Forall_cons in Hg as [Hh Hg]. cbn [length].
    destruct (AddHeader_line r h Hh) as [Hf Ha].
    change (header_text (h :: hs)) with (header_line h ++ kCRLF ++ header_text hs).
    rewrite <- !app_assoc. remember (S (length hs)) as n.
    cbn [parse_loop parse_turn state_]. rewrite split_line_app by by apply header_line_nocr.
    rewrite Hf. rewrite decide_False by (unfold header_line; rewrite !length_app; simpl; lia).
    cbn [request_]. rewrite Ha. subst n. rewrite IH by done. done.
Qed.

Lemma request_line_nocr m : good_message m -> x0d ∉ request_line m.
Proof.
  intros [Hm Hv (_ & _ & Hp) (_ & Hq) _ _]. unfold request_line.
  destruct (MethodString_chars (m_method m)) as [_ Hm1].
  rewrite !not_elem_of_app. repeat split; auto; try (by apply (bool_decide_unpack _)).
  by destruct (m_version m); apply (bool_decide_unpack _).
Qed.

Lemma parse_message m rest t :
  good_message m ->
  parse_loop (S (S (length (m_headers m)))) false HttpContext_new (message_text m ++ rest) t =
    Some (true, mkContext kGotAll (message_request m t), rest).
Proof.
  intros Hg. unfold message_text. rewrite <- !app_assoc.
  remember (S (length (m_headers m))) as n. cbn [parse_loop parse_turn HttpContext_new state_].
  rewrite split_line_app by by apply request_line_nocr.
  cbn [request_]. rewrite ProcessRequestLine_text by done. subst n.
  cbn beta iota zeta. rewrite parse_headers by apply Hg.
  unfold message_request. simpl. by destruct (m_query m).
Qed.

(** C5: a well-formed request message is parsed as printed: from a new context,
    on a buffer holding the message followed by anything, [ParseRequest] returns
    true with the context complete, the request built is the message's (method,
    version, path, query with its question mark, the last value of each header
    field, the receive time), and exactly the message is consumed. *)
Theorem parse_print (m : message) (rest : bytes) (t : Z) (b : Buffer) (fuel : nat) :
  good_message m -> holds b (message_text m ++ rest) ->
  (length (m_headers m) + 2 <= fuel)%nat ->
  exists b', ParseRequest fuel HttpContext_new b t =
      Some (Ok (true, mkContext kGotAll (message_request m t), b')) /\ holds b' rest.
Proof.
  intros Hg Hb Hf. pose proof (parse_message m rest t Hg) as Hp.
  apply (parse_loop_fuel _ fuel) in Hp; [|lia].
  pose proof (ParseRequest_loop_string fuel false HttpContext_new b _ t Hb) as H.
  rewrite Hp in H. destruct H as (b' & H & Hb'). by exists b'.
Qed.

Definition ex_message : message :=
  mkMessage kGet (lit "/index") (lit "?q=1") kHttp11
    [(lit "Host", lit "a b"); (lit "X", []); (lit "Host", lit "c")].

Lemma ex_message_good : good_message ex_message.
Proof.
  constructor; try done.
  - repeat split; by apply (bool_decide_unpack _).
  - repeat split; by apply (bool_decide_unpack _).
  - by right.
  - repeat constructor; try (by apply (bool_decide_unpack _)); intros c Hc;
      by inversion Hc.
Qed.

Lemma parse_print_witness :
  exists b', ParseRequest 5 HttpContext_new (buffer_of (message_text ex_message ++ lit "more")) 7 =
      Some (Ok (true, mkContext kGotAll (message_request ex_message 7), b')) /\
    holds b' (lit "more").
Proof.
  apply parse_print.
  - apply ex_message_good.
  - apply buffer_of_holds. vm_compute. discriminate.
  - simpl. lia.
Defined.

(** ** Only well-formed request lines are accepted *)

Lemma SetMethod_valid r s r' :
  SetMethod r s = (true, r') -> exists m, m <> kInvalid /\ s = MethodString m /\ method_ r' = m.
Proof.
  unfold SetMethod. repeat case_decide; intros; simplify_eq/=;
    first [by exists kGet | by exists kPost | by exists kHead | by exists kPut | by exists kDelete].
Qed.

Lemma std_find_split c s :
  std_find c s <> length s ->
  s = take (std_find c s) s ++ [c] ++ drop (S (std_find c s)) s.
Proof.
  intros H. pose proof (std_find_le c s). pose proof (std_find_hit c s ltac:(lia)) as Hh.
  symmetry. apply (take_drop_middle _ _ _ Hh).
Qed.

Lemma version_chars s c :
  length s = 8%nat -> take 7 s = lit "HTTP/1." -> last s = Some c -> s = lit "HTTP/1." ++ [c].
Proof.
  intros Hl Ht Hc. rewrite <- (take_drop 7 s), Ht. f_equal.
  rewrite last_lookup, Hl in Hc. simpl in Hc.
  rewrite (drop_S _ c) by done. by rewrite drop_ge by lia.
Qed.

Lemma ProcessRequestLine_valid r line r' :
  ProcessRequestLine r line = (true, r') ->
  exists m target v, m <> kInvalid /\ v <> kUnknown /\ (x20 ∉ target) /\
    line = MethodString m ++ [x20] ++ target ++ [x20] ++ version_text v.
Proof.
  unfold ProcessRequestLine. case_decide as Hs1; [done|].
  destruct (SetMethod r (take (std_find x20 line) line)) as [[] r1] eqn:E1; [|done].
  cbn [negb]. cbn iota. apply SetMethod_valid in E1 as (m & Hm & Ht & _).
  apply std_find_split in Hs1. rewrite Ht in Hs1.
  set (start := drop (S (std_find x20 line)) line) in *.
  case_decide as Hs2; [done|]. apply std_find_split in Hs2.
  pose proof (std_find_prefix x20 start) as Hpre.
  set (target := take (std_find x20 start) start) in *.
  set (ver := drop (S (std_find x20 start)) start) in *.
  generalize (if decide (std_find x3f target = length target) then SetPath r1 target
    else SetQuery (SetPath r1 (take (std_find x3f target) target))
           (drop (std_find x3f target) target)) as r2. intros r2.
  destruct (Nat.eqb (length ver) 8 && bool_decide (take 7 ver = lit "HTTP/1.")) eqn:Ev; [|done].
  apply andb_true_iff in Ev as [Hl%Nat.eqb_eq H7%bool_decide_eq_true].
  destruct (last ver) as [c|] eqn:Ec; [|done].
  pose proof (version_chars ver c Hl H7 Ec) as Hver.
  intros H.
  assert (exists v, v <> kUnknown /\ ver = version_text v) as (v & Hv & Hvt).
  { destruct c; try done; [by exists kHttp10|by exists kHttp11]. }
  exists m, target, v. do 3 (split; [done|]).
  by rewrite Hs1, Hs2 at 1; rewrite Hvt.
Qed.

(** C12: [ParseRequest] accepts nothing else: if it returns true from a new
    context then the buffer began with a request line made of a known method, a
    space, a target without spaces, a space and "HTTP/1.0" or "HTTP/1.1", ended by
    the first CRLF of the buffer -- none begins before its end --; otherwise it returns
    false, the context still expects a request line and the content is as it was. *)
Theorem ParseRequest_sound (b : Buffer) (t : Z) (fuel : nat) ok c' b' :
  buf_wf b -> kCheapPrepend <= zlen (buffer_ b) ->
  ParseRequest fuel HttpContext_new b t = Some (Ok (ok, c', b')) ->
  (ok = true -> exists m target v rest, m <> kInvalid /\ v <> kUnknown /\ (x20 ∉ target) /\
     let line := MethodString m ++ [x20] ++ target ++ [x20] ++ version_text v in
     content b = line ++ kCRLF ++ rest /\
     forall k, (k < length line)%nat -> take 2 (drop k (content b)) <> kCRLF) /\
  (ok = false -> state_ c' = kExpectRequestLine /\ content b' = content b).
Proof.
  intros Hwf Hs Hr.
  pose proof (ParseRequest_loop_string fuel false HttpContext_new b (content b) t
    ltac:(done)) as H.
  unfold ParseRequest in Hr. rewrite Hr in H.
  destruct (parse_loop fuel false HttpContext_new (content b) t) as [[[ok1 c1] s1]|] eqn:E; [|done].
  destruct H as (b1 & [= <- <- <-] & _ & _ & Hc1). clear Hr.
  destruct fuel as [|fuel]; [done|]. cbn [parse_loop] in E.
  unfold parse_turn in E. cbn [HttpContext_new state_ request_] in E.
  destruct (split_line (content b)) as [[line rest]|] eqn:Esp; [|by simplify_eq].
  destruct (ProcessRequestLine HttpRequest_new line) as [[] r] eqn:Ep; [|by simplify_eq].
  assert (ok = true) as ->.
  { clear -E. revert E. generalize (SetReceiveTime r t) as q. generalize rest as s.
    induction fuel as [|fuel IH]; intros s q E; [done|]. cbn [parse_loop] in E.
    unfold parse_turn in E. cbn [state_] in E.
    repeat case_match; simplify_eq; eauto. }
  split; [|done]. intros _.
  apply split_line_Some in Esp as (Hc & _ & Hfirst). apply ProcessRequestLine_valid in Ep
    as (m & target & v & Hm & Hv & Ht & Hl).
  exists m, target, v, rest. do 3 (split; [done|]). rewrite <- Hl. split; [exact Hc|].
  intros k Hk. rewrite Hfirst in Hk. by apply (std_search_minimal kCRLF).
Qed.

Lemma ParseRequest_sound_witness :
  exists ok c' b', ParseRequest 9 HttpContext_new (buffer_of ex_request) 0 = Some (Ok (ok, c', b')) /\
  (ok = true -> exists m target v rest, m <> kInvalid /\ v <> kUnknown /\ (x20 ∉ target) /\
     let line := MethodString m ++ [x20] ++ target ++ [x20] ++ version_text v in
     content (buffer_of ex_request) = line ++ kCRLF ++ rest /\
     forall k, (k < length line)%nat -> take 2 (drop k (content (buffer_of ex_request))) <> kCRLF) /\
  (ok = false -> state_ c' = kExpectRequestLine /\
     content b' = content (buffer_of ex_request)).
Proof.
  pose proof (buffer_of_holds ex_request ltac:(vm_compute; discriminate)) as (Hwf & Hs & _).
  eexists _, _, _. split; [vm_compute; reflexivity|].
  apply (ParseRequest_sound _ 0 9); [done|done|vm_compute; reflexivity].
Defined.

(** ** Input in pieces *)

Lemma parse_turn_app ok c s u t ok' c' s' :
  parse_turn ok c s t = (ok', true, c', s') -> parsing c ->
  parse_turn ok c (s ++ u) t = (ok', true, c', s' ++ u).
Proof.
  intros H Hp. unfold parse_turn in *.
  destruct Hp as [Hst|Hst]; rewrite Hst in *;
  (destruct (split_line s) as [[line rest]|] eqn:E; [|done]);
  rewrite (split_line_more _ u _ _ E).
  - destruct (ProcessRequestLine (request_ c) line) as [[] r]; by simplify_eq.
  - case_decide; by simplify_eq.
Qed.

(** A rejected line leaves a request on which it is rejected the same way:
    the fields it set are set to the same values again. *)
Lemma SetMethod_again r r2 s v r1 :
  SetMethod r s = (v, r1) -> method_ r2 = method_ r1 -> SetMethod r2 s = (v, r2).
Proof.
  unfold SetMethod. intros [= <- <-] Hm. simpl in Hm. rewrite <- Hm. by destruct r2.
Qed.

Definition set_target (target : bytes) (r : HttpRequest) : HttpRequest :=
  let question := std_find x3f target in
  if decide (question = length target) then SetPath r target
  else SetQuery (SetPath r (take question target)) (drop question target).

Lemma set_target_method target r : method_ (set_target target r) = method_ r.
Proof. unfold set_target. by case_decide. Qed.

Lemma set_target_again target r : set_target target (set_target target r) = set_target target r.
Proof. unfold set_target. by case_decide. Qed.

Definition set_version (ver : bytes) (r : HttpRequest) : bool * HttpRequest :=
  if Nat.eqb (length ver) 8 && bool_decide (take 7 ver = lit "HTTP/1.") then
    match last ver with
    | Some x31 => (true, SetVersion r kHttp11)
    | Some x30 => (true, SetVersion r kHttp10)
    | _ => (false, r)
    end
  else (false, r).

Lemma set_version_false ver r r1 : set_version ver r = (false, r1) -> r1 = r.
Proof. unfold set_version. intros. repeat case_match; by simplify_eq. Qed.

(** The request line in its three parts. *)
Lemma ProcessRequestLine_parts r line :
  ProcessRequestLine r line =
    let space := std_find x20 line in
    if decide (space = length line) then (false, r) else
    let '(valid, r) := SetMethod r (take space line) in
    if negb valid then (false, r) else
    let start := drop (S space) line in
    let space := std_find x20 start in
    if decide (space = length start) then (false, r) else
    set_version (drop (S space) start) (set_target (take space start) r).
Proof. reflexivity. Qed.

Lemma ProcessRequestLine_again r line r1 :
  ProcessRequestLine r line = (false, r1) -> ProcessRequestLine r1 line = (false, r1).
Proof.
  rewrite !ProcessRequestLine_parts. cbn zeta. case_decide; [by intros [= <-]|].
  destruct (SetMethod r (take (std_find x20 line) line)) as [[] r2] eqn:Em; cbn [negb]; cbn iota.
  2:{ intros [= <-]. by rewrite (SetMethod_again _ _ _ _ _ Em). }
  case_decide. { intros [= <-]. by rewrite (SetMethod_again _ _ _ _ _ Em). }
  intros Hf. pose proof (set_version_false _ _ _ Hf). subst r1.
  rewrite (SetMethod_again _ _ _ _ _ Em) by apply set_target_method. cbn [negb]. cbn iota.
  by rewrite set_target_again.
Qed.

(** The flag a loop starts with only affects the flag it returns. *)
Lemma parse_loop_flag fuel ok okn c s t o c2 s2 :
  parse_loop fuel ok c s t = Some (o, c2, s2) ->
  exists o', parse_loop fuel okn c s t = Some (o', c2, s2).
Proof.
  revert ok okn c s. induction fuel as [|fuel IH]; intros ok okn c s; [done|].
  cbn [parse_loop]. unfold parse_turn.
  destruct (state_ c), (split_line s) as [[line rest]|]; try (by eauto);
    try (intros; simplify_eq; by eexists).
  case_decide; [|apply IH]. intros; simplify_eq; by eexists.
Qed.

Lemma parse_turn_stops ok c s t ok' c' s' u fuel' okn ok2 c2 s2 :
  parsing c -> parse_turn ok c s t = (ok', false, c', s') -> parsing c' ->
  parse_loop fuel' okn c' (s' ++ u) t = Some (ok2, c2, s2) ->
  exists ok3, parse_loop fuel' ok c (s ++ u) t = Some (ok3, c2, s2).
Proof.
  intros Hp H1 Hp1 H2. unfold parse_turn in H1.
  destruct Hp as [Hst|Hst]; rewrite Hst in H1;
    destruct (split_line s) as [[line rest]|] eqn:E;
    try (simplify_eq; by eapply parse_loop_flag).
  - destruct (ProcessRequestLine (request_ c) line) as [[] r] eqn:Er; [done|]. simplify_eq.
    destruct fuel' as [|fuel']; [done|]. cbn [parse_loop] in *. unfold parse_turn in *.
    rewrite Hst in *. cbn [state_ request_] in *. rewrite (split_line_more _ u _ _ E) in *.
    rewrite (ProcessRequestLine_again _ _ _ Er) in H2. rewrite Er. simplify_eq. by eexists.
  - case_decide; simplify_eq. by destruct Hp1.
Qed.

Lemma parse_pieces fuel fuel' ok okn c s u t ok1 c1 s1 ok2 c2 s2 :
  parsing c -> parse_loop fuel ok c s t = Some (ok1, c1, s1) -> parsing c1 ->
  parse_loop fuel' okn c1 (s1 ++ u) t = Some (ok2, c2, s2) ->
  exists ok3, parse_loop (fuel + fuel') ok c (s ++ u) t = Some (ok3, c2, s2).
Proof.
  revert ok c s. induction fuel as [|fuel IH]; intros ok c s Hp H1 Hp1 H2; [done|].
  cbn [parse_loop] in H1.
  destruct (parse_turn ok c s t) as [[[ok' more] c'] s'] eqn:E. destruct more.
  - cbn [parse_loop plus]. rewrite (parse_turn_app _ _ _ u _ _ _ _ E Hp).
    apply IH; auto. right. by apply parse_turn_more in E as [? _].
  - simplify_eq. destruct (parse_turn_stops _ _ _ _ _ _ _ _ _ _ _ _ _ Hp E Hp1 H2) as [o Ho].
    exists o. eapply parse_loop_fuel; [done|lia].
Qed.

Lemma parse_headers_flag fuel ok c s t o c' s' :
  state_ c = kExpectHeaders -> parse_loop fuel ok c s t = Some (o, c', s') -> o = ok.
Proof.
  revert ok c s. induction fuel as [|fuel IH]; intros ok c s Hst H; [done|].
  cbn [parse_loop] in H. unfold parse_turn in H. rewrite Hst in H.
  destruct (split_line s) as [[line rest]|]; [|by simplify_eq].
  case_decide; [by simplify_eq|]. by apply IH in H.
Qed.

(** C36: input may come in pieces as far as the context goes: parsing a first
    piece, appending the next to what the buffer still holds and parsing again
    with the same context ends in the same context and leaves the same bytes as
    parsing the whole at once, wherever the cut is.  The result does not follow:
    a call that starts inside the headers returns false even when it completes
    the request. *)
Theorem ParseRequest_pieces (c c1 c2 : HttpContext) (b b1 b2 b3 : Buffer) (u : bytes) (t : Z)
    fuel fuel' ok1 ok2 :
  buf_wf b -> kCheapPrepend <= zlen (buffer_ b) -> parsing c ->
  ParseRequest fuel c b t = Some (Ok (ok1, c1, b1)) -> parsing c1 ->
  holds b2 (content b1 ++ u) ->
  ParseRequest fuel' c1 b2 t = Some (Ok (ok2, c2, b3)) ->
  (forall whole, holds whole (content b ++ u) -> exists ok b',
     ParseRequest (fuel + fuel') c whole t = Some (Ok (ok, c2, b')) /\ content b' = content b3) /\
  (state_ c1 = kExpectHeaders -> ok2 = false).
Proof.
  intros Hwf Hs Hp H1 Hp1 Hb2 H2. unfold ParseRequest in *.
  pose proof (ParseRequest_loop_string fuel false c b (content b) t ltac:(done)) as L1.
  rewrite H1 in L1.
  destruct (parse_loop fuel false c (content b) t) as [[[o1 d1] s1]|] eqn:E1; [|done].
  destruct L1 as (b1' & [= <- <- <-] & _ & _ & Hc1).
  pose proof (ParseRequest_loop_string fuel' false c1 b2 _ t Hb2) as L2. rewrite H2 in L2.
  destruct (parse_loop fuel' false c1 (content b1 ++ u) t) as [[[o2 d2] s2]|] eqn:E2; [|done].
  destruct L2 as (b3' & [= <- <- <-] & _ & _ & Hc3). rewrite Hc1 in E2. split.
  - intros whole Hw.
    destruct (parse_pieces _ _ _ _ _ _ u t _ _ _ _ _ _ Hp E1 Hp1 E2) as [o3 H3].
    pose proof (ParseRequest_loop_string (fuel + fuel') false c whole _ t Hw) as L3.
    rewrite H3 in L3. destruct L3 as (b' & L3 & _ & _ & Hc'). exists o3, b'.
    split; [exact L3|congruence].
  - intros Hst. by apply (parse_headers_flag _ _ _ _ _ _ _ _ Hst E2).
Qed.

(** Cut after the request line: the second call completes the request and
    returns false. *)
Lemma ParseRequest_pieces_witness :
  let line := lit "GET / HTTP/1.1" ++ kCRLF in
  let rest := lit "Host: a" ++ kCRLF ++ kCRLF in
  exists c1 b1 c2 b3,
    ParseRequest 5 HttpContext_new (buffer_of line) 0 = Some (Ok (true, c1, b1)) /\
    ParseRequest 5 c1 (buffer_of rest) 0 = Some (Ok (false, c2, b3)) /\ GotAll c2 = true /\
    ((forall whole, holds whole (content (buffer_of line) ++ rest) -> exists ok b',
       ParseRequest (5 + 5) HttpContext_new whole 0 = Some (Ok (ok, c2, b')) /\
         content b' = content b3) /\
     (state_ c1 = kExpectHeaders -> false = false)).
Proof.
  intros line rest.
  pose proof (buffer_of_holds line ltac:(vm_compute; discriminate)) as (Hwf & Hs & _).
  pose proof (buffer_of_holds rest ltac:(vm_compute; discriminate)) as Hb2.
  eexists _, _, _, _. split; [vm_compute; reflexivity|]. split; [vm_compute; reflexivity|].
  split; [vm_compute; reflexivity|].
  eapply (ParseRequest_pieces HttpContext_new _ _ (buffer_of line) _ (buffer_of rest) _ rest 0 5 5);
    [done|done|by left|vm_compute; reflexivity|by right| |vm_compute; reflexivity].
  exact Hb2.
Defined.
