(* ===== verification/HttpServer.v ===== *)
(** * HTTP responses and the HTTP server
      (ryan_network/http/http_response.h, http_response.cc, http_server.h, http_server.cc)

    The server acts on a connection through [Send] and [Shutdown] only; the
    class [Connection] is that interface, and module [TcpConnection] provides
    it.  The order in which [std::unordered_map] is traversed is unspecified:
    it is the parameter [unordered_iter]. *)

From S2P Require Import Prelude Format Buffer Connection HttpContext.

(** ** HttpResponse *)

Module HttpResponse.

(** src: ryan_network/http/http_response.h:10-16 HttpResponse::HttpStatusCode *)
Inductive HttpStatusCode :=
  | kUnknown
  | k200Ok
  | k301MovedPermanently
  | k400BadRequest
  | k404NotFound.

#[export] Instance HttpStatusCode_eq_dec : EqDecision HttpStatusCode.
Proof. solve_decision. Defined.

(** The value of an enumerator.
    src: ryan_network/http/http_response.h:11-15 HttpResponse::HttpStatusCode *)
Definition code_value (c : HttpStatusCode) : Z :=
  match c with
  | kUnknown => 0
  | k200Ok => 200
  | k301MovedPermanently => 301
  | k400BadRequest => 400
  | k404NotFound => 404
  end.

(** src: ryan_network/http/http_response.h:44-49 HttpResponse *)
Record t := mk {
  headers_ : gmap bytes bytes;
  status_code_ : HttpStatusCode;
  status_message_ : bytes;
  close_connection_ : bool;
  body_ : bytes
}.

(** src: ryan_network/http/http_response.h:18-19 HttpResponse::HttpResponse *)
Definition new (close : bool) : t := mk ∅ kUnknown [] close [].

(** src: ryan_network/http/http_response.h:21-21 HttpResponse::SetStatusCode *)
Definition SetStatusCode (r : t) (code : HttpStatusCode) : t :=
  mk (headers_ r) code (status_message_ r) (close_connection_ r) (body_ r).
(** src: ryan_network/http/http_response.h:23-25 HttpResponse::SetStatusMessage *)
Definition SetStatusMessage (r : t) (message : bytes) : t :=
  mk (headers_ r) (status_code_ r) message (close_connection_ r) (body_ r).
(** src: ryan_network/http/http_response.h:27-27 HttpResponse::SetCloseConnection *)
Definition SetCloseConnection (r : t) (on : bool) : t :=
  mk (headers_ r) (status_code_ r) (status_message_ r) on (body_ r).
(** src: ryan_network/http/http_response.h:29-29 HttpResponse::CloseConnection *)
Definition CloseConnection (r : t) : bool := close_connection_ r.
(** src: ryan_network/http/http_response.h:35-37 HttpResponse::AddHeader *)
Definition AddHeader (r : t) (key value : bytes) : t :=
  mk (<[key := value]> (headers_ r)) (status_code_ r) (status_message_ r) (close_connection_ r)
    (body_ r).
(** src: ryan_network/http/http_response.h:31-33 HttpResponse::SetContentType *)
Definition SetContentType (r : t) (contentType : bytes) : t :=
  AddHeader r (lit "Content-Type") contentType.
(** src: ryan_network/http/http_response.h:39-39 HttpResponse::SetBody *)
Definition SetBody (r : t) (body : bytes) : t :=
  mk (headers_ r) (status_code_ r) (status_message_ r) (close_connection_ r) body.

(** [for (const auto& header : headers_)], over the traversal order.
    src: ryan_network/http/http_response.cc:25-30 HttpResponse::AppendToBuffer *)
Fixpoint append_headers (output : Buffer) (headers : list (bytes * bytes)) : result Buffer :=
  match headers with
  | [] => Ok output
  | (key, value) :: headers =>
      output ← Append output key;
      output ← Append output (lit ": ");
      output ← Append output value;
      output ← Append output kCRLF;
      append_headers output headers
  end.

(** [buf] has 32 bytes; [%zd] prints the [size_t] of the body as a signed
    number.
    src: ryan_network/http/http_response.cc:8-33 HttpResponse::AppendToBuffer *)
Definition AppendToBuffer (unordered_iter : gmap bytes bytes -> list (bytes * bytes))
    (r : t) (output : Buffer) : result Buffer :=
  let buf := snprintf 32 (lit "HTTP/1.1 " ++ dec (code_value (status_code_ r)) ++ lit " ") in
  output ← Append output buf;
  output ← Append output (status_message_ r);
  output ← Append output kCRLF;
  output ←
    (if close_connection_ r
     then Append output (lit "Connection: close" ++ kCRLF)
     else
       let buf := snprintf 32 (lit "Content-Length: " ++ dec (s64 (zlen (body_ r))) ++ kCRLF) in
       output ← Append output buf;
       Append output (lit "Connection: Keep-Alive" ++ kCRLF));
  output ← append_headers output (unordered_iter (headers_ r));
  output ← Append output kCRLF;
  Append output (body_ r).

End HttpResponse.

(** ** HttpServer *)

(** src: ryan_network/http/http_server.cc:11-15 DefaultHttpCallback *)
Definition DefaultHttpCallback (req : HttpRequest) (resp : HttpResponse.t) : HttpResponse.t :=
  let resp := HttpResponse.SetStatusCode resp HttpResponse.k404NotFound in
  let resp := HttpResponse.SetStatusMessage resp (lit "Not Found") in
  HttpResponse.SetCloseConnection resp true.

(** src: ryan_network/http/http_server.h:33-34 HttpServer *)
Record HttpServer := mkHttpServer {
  http_callback_ : HttpRequest -> HttpResponse.t -> HttpResponse.t;
  thread_num : Z   (* of [server_] *)
}.

(** The constructor sets the default callback and four threads; the
    [TcpServer] it builds is module [TcpServer].
    src: ryan_network/http/http_server.cc:17-27 HttpServer::HttpServer *)
Definition HttpServer_new : HttpServer := mkHttpServer DefaultHttpCallback 4.

(** src: ryan_network/http/http_server.h:23-23 HttpServer::SetHttpCallback *)
Definition SetHttpCallback (s : HttpServer) cb : HttpServer := mkHttpServer cb (thread_num s).

Section Server.
Context {C : Type} `{Connection C}.
Context (unordered_iter : gmap bytes bytes -> list (bytes * bytes)).

(** [OnConnection] only logs.
    src: ryan_network/http/http_server.cc:35-41 HttpServer::OnConnection *)
Definition OnConnection (s : HttpServer) (conn : C) : C := conn.

(** src: ryan_network/http/http_server.cc:71-93 HttpServer::OnRequest *)
Definition OnRequest (s : HttpServer) (conn : C) (req : HttpRequest) : result C :=
  let connection := GetHeader req (lit "Connection") in
  let close := bool_decide (connection = lit "close")
    || bool_decide (version_ req = kHttp10) && negb (bool_decide (connection = lit "Keep-Alive")) in
  let close := true in
  let response := http_callback_ s req (HttpResponse.new close) in
  buf ← Buffer_new kInitialSize;
  buf ← HttpResponse.AppendToBuffer unordered_iter response buf;
  '(conn, buf) ← conn_SendBuffer conn buf;
  if HttpResponse.CloseConnection response then conn_Shutdown conn else Ok conn.

(** [None]: the fuel of the parser ran out.
    src: ryan_network/http/http_server.cc:44-69 HttpServer::OnMessage *)
Definition OnMessage (fuel : nat) (s : HttpServer) (conn : C) (buf : Buffer) (receiveTime : Z)
    : option (result (C * Buffer)) :=
  let context := HttpContext_new in
  match ParseRequest fuel context buf receiveTime with
  | None => None
  | Some r => Some (
      '(ok, context, buf) ← r;
      conn ←
        (if (ok : bool) then Ok conn
         else
           conn ← conn_Send conn (lit "HTTP/1.1 400 Bad request" ++ kCRLF ++ kCRLF);
           conn_Shutdown conn);
      conn ← (if GotAll context then OnRequest s conn (request_ context) else Ok conn);
      Ok (conn, buf))
  end.

End Server.
