(* ===== verification/HttpServerSpec.v ===== *)
(** * Properties of the HTTP server

    A response is read back by [read_reply], a client that follows RFC 7230:
    status line, header lines up to the empty one, then the body, whose end
    is the end of the stream or the [Content-Length]. *)

From S2P Require Import Prelude Format Buffer Lines Connection HttpContext HttpSpec HttpServer.
Import HttpResponse.

(** ** A reference client *)

Record reply := mkReply {
  re_code : Z;
  re_message : bytes;
  re_headers : list (bytes * bytes);
  re_body : bytes
}.

(** "HTTP/1.1", a space, the code, a space, the message *)
Definition read_status (line : bytes) : option (Z * bytes) :=
  if decide (take 9 line = lit "HTTP/1.1 ") then
    let s := drop 9 line in
    let space := std_find x20 s in
    if decide (space = length s) then None
    else Some (dec_value (take space s), drop (S space) s)
  else None.

Fixpoint read_headers (fuel : nat) (s : bytes) : option (list (bytes * bytes) * bytes) :=
  match fuel with
  | O => None
  | S fuel =>
      '(line, s) ← split_line s;
      if decide (line = []) then Some ([], s) else
      let colon := std_find x3a line in
      if decide (colon = length line) then None else
      '(hs, s) ← read_headers fuel s;
      Some ((take colon line, drop (colon + 2) line) :: hs, s)
  end.

Fixpoint field (name : bytes) (hs : list (bytes * bytes)) : option bytes :=
  match hs with
  | [] => None
  | (k, v) :: hs => if decide (k = name) then Some v else field name hs
  end.

(** The reply and what follows it on the stream. *)
Definition read_reply (fuel : nat) (s : bytes) : option (reply * bytes) :=
  '(line, s) ← split_line s;
  '(code, message) ← read_status line;
  '(hs, s) ← read_headers fuel s;
  match field (lit "Content-Length") hs with
  | Some n => Some (mkReply code message hs (take (Z.to_nat (dec_value n)) s),
                    drop (Z.to_nat (dec_value n)) s)
  | None => Some (mkReply code message hs s, [])
  end.

(** ** The text of a response *)

Definition status_line (r : HttpResponse.t) : bytes :=
  lit "HTTP/1.1 " ++ dec (code_value (status_code_ r)) ++ lit " " ++ status_message_ r.

(** The header fields the server writes itself. *)
Definition connection_headers (r : HttpResponse.t) : list (bytes * bytes) :=
  if close_connection_ r then [(lit "Connection", lit "close")]
  else [(lit "Content-Length", dec (zlen (body_ r))); (lit "Connection", lit "Keep-Alive")].

Definition clean_header (h : bytes * bytes) : Prop :=
  (x3a ∉ fst h) /\ (x0d ∉ fst h) /\ (x0d ∉ snd h).

Record good_response (r : HttpResponse.t) : Prop := {
  gr_message : x0d ∉ status_message_ r;
  gr_headers : Forall clean_header (map_to_list (headers_ r));
  gr_length : headers_ r !! lit "Content-Length" = None;
  gr_body : zlen (body_ r) < 10 ^ 13
}.

Lemma length_dec n : 0 <= n < 10 ^ 13 -> (length (dec n) <= 13)%nat.
Proof.
  intros H. unfold dec. rewrite (proj2 (Z.ltb_ge _ _)) by lia. unfold dec_nat.
  rewrite length_rev, (digits_fuel 10 ltac:(lia) 13 digit_fuel) by (unfold digit_fuel; lia).
  apply length_digits.
Qed.

Lemma dec_chars c n : 0 <= n < 10 ^ 64 -> c ∈ dec n -> 48 <= byte_val c < 58.
Proof.
  intros H. unfold dec. rewrite (proj2 (Z.ltb_ge _ _)) by lia. unfold dec_nat.
  intros Hc%list_elem_of_In. apply in_rev, list_elem_of_In in Hc. clear H. revert n Hc.
  generalize digit_fuel as f. induction f as [|f IH]; intros n Hc; [set_solver|].
  cbn [digits_rev] in Hc. apply elem_of_cons in Hc as [->|Hc].
  - pose proof (Z.mod_pos_bound n 10 ltac:(lia)). unfold digit.
    rewrite (proj2 (Z.ltb_lt _ _)) by lia. rewrite byte_val_of_Z, Z.mod_small; lia.
  - case_match; [set_solver|]. by apply (IH (n / 10)).
Qed.

Lemma dec_clean c n : 0 <= n < 10 ^ 64 -> byte_val c < 48 -> c ∉ dec n.
Proof. intros H Hc Hin. apply (dec_chars c) in Hin; lia. Qed.

Lemma code_value_range c : 0 <= code_value c < 1000.
Proof. by destruct c. Qed.

Section Response.
Context (unordered_iter : gmap bytes bytes -> list (bytes * bytes)).

Definition response_text (r : HttpResponse.t) : bytes :=
  status_line r ++ kCRLF
    ++ header_text (connection_headers r ++ unordered_iter (headers_ r)) ++ body_ r.

Definition header_pieces (h : bytes * bytes) : list bytes := [fst h; lit ": "; snd h; kCRLF].

Definition response_pieces (r : HttpResponse.t) : list bytes :=
  [snprintf 32 (lit "HTTP/1.1 " ++ dec (code_value (status_code_ r)) ++ lit " ");
   status_message_ r; kCRLF]
  ++ (if close_connection_ r then [lit "Connection: close" ++ kCRLF]
      else [snprintf 32 (lit "Content-Length: " ++ dec (s64 (zlen (body_ r))) ++ kCRLF);
            lit "Connection: Keep-Alive" ++ kCRLF])
  ++ concat (header_pieces <$> unordered_iter (headers_ r)) ++ [kCRLF; body_ r].

Lemma append_headers_all b hs :
  append_headers b hs = append_all b (concat (header_pieces <$> hs)).
Proof.
  revert b. induction hs as [|[k v] hs IH]; intros b; [done|].
  cbn [append_headers fmap list_fmap concat header_pieces fst snd app append_all].
  destruct (Append b k) as [b1|]; [simpl|done]. destruct (Append b1 _) as [b2|]; [simpl|done].
  destruct (Append b2 v) as [b3|]; [simpl|done]. destruct (Append b3 _) as [b4|]; [simpl|done].
  apply IH.
Qed.

Lemma AppendToBuffer_all r b :
  AppendToBuffer unordered_iter r b = append_all b (response_pieces r).
Proof.
  unfold AppendToBuffer, response_pieces. cbn [app append_all].
  destruct (Append b _) as [b1|]; [simpl|done]. destruct (Append b1 _) as [b2|]; [simpl|done].
  destruct (Append b2 _) as [b3|]; [simpl|done]. rewrite append_all_app.
  assert (forall b4, (output ← append_headers b4 (unordered_iter (headers_ r));
    output0 ← Append output kCRLF; Append output0 (body_ r)) =
    append_all b4 (concat (header_pieces <$> unordered_iter (headers_ r)) ++ [kCRLF; body_ r])) as Ht.
  { intros b4. rewrite append_all_app, append_headers_all.
    destruct (append_all b4 _) as [b5|]; [simpl|done].
    destruct (Append b5 _) as [b6|]; [simpl|done]. by destruct (Append b6 _). }
  destruct (close_connection_ r); cbn [append_all].
  - destruct (Append b3 _) as [b4|]; [simpl|done]. apply Ht.
  - destruct (Append b3 _) as [b4|]; [simpl|done].
    destruct (Append b4 _) as [b5|]; [simpl|done]. apply Ht.
Qed.

Lemma snprintf_fits n s : (length s <= n - 1)%nat -> snprintf n s = s.
Proof. intros. unfold snprintf. by apply firstn_all2. Qed.

Lemma pieces_text r : zlen (body_ r) < 10 ^ 13 -> concat (response_pieces r) = response_text r.
Proof.
  intros Hb. unfold response_pieces, response_text, status_line.
  rewrite !concat_app. cbn [concat]. rewrite !app_nil_r.
  pose proof (code_value_range (status_code_ r)).
  pose proof (length_dec (code_value (status_code_ r)) ltac:(lia)).
  pose proof (length_dec (zlen (body_ r)) ltac:(lia)).
  rewrite snprintf_fits by (rewrite !length_app; simpl; lia).
  assert (Hh : forall hs s, header_text hs ++ s
      = concat (concat (header_pieces <$> hs)) ++ kCRLF ++ s).
  { induction hs as [|[k v] hs IH]; intros s; [done|].
    change (header_text ((k, v) :: hs)) with (header_line (k, v) ++ kCRLF ++ header_text hs).
    unfold header_line. cbn [fst snd]. rewrite <- !app_assoc, IH.
    cbn [fmap list_fmap concat header_pieces fst snd app]. rewrite <- !app_assoc. done. }
  rewrite Hh. unfold connection_headers. destruct (close_connection_ r).
  - cbn [fmap list_fmap concat header_pieces fst snd app]. rewrite <- !app_assoc. done.
  - rewrite (swrap_small 64) by lia.
    rewrite snprintf_fits by (rewrite !length_app; simpl; lia).
    cbn [fmap list_fmap concat header_pieces fst snd app]. rewrite <- !app_assoc. done.
Qed.

End Response.

(** ** Reading a response back *)

Lemma read_status_line r :
  read_status (status_line r) = Some (code_value (status_code_ r), status_message_ r).
Proof.
  unfold read_status, status_line. pose proof (code_value_range (status_code_ r)).
  change (take 9 (lit "HTTP/1.1 " ++ ?s)) with (lit "HTTP/1.1 ").
  rewrite decide_True by done.
  change (drop 9 (lit "HTTP/1.1 " ++ ?s)) with s.
  rewrite (std_find_mid x20) by (apply dec_clean; [lia|done]).
  rewrite decide_False by (rewrite !length_app; simpl; lia).
  rewrite take_app_length, dec_value_dec by lia.
  by rewrite (drop_mid x20).
Qed.

Lemma read_headers_text hs s fuel :
  Forall clean_header hs -> (length hs < fuel)%nat ->
  read_headers fuel (header_text hs ++ s) = Some (hs, s).
Proof.
  revert fuel. induction hs as [|[k v] hs IH]; intros fuel Hc Hf;
    (destruct fuel as [|fuel]; [simpl in Hf; lia|]); cbn [read_headers].
  - change (header_text []) with ([] ++ kCRLF). rewrite <- app_assoc.
    rewrite split_line_app by set_solver. done.
  - apply Forall_cons in Hc as [(Hk1 & Hk2 & Hv) Hc]. simpl in Hf, Hk1, Hk2, Hv.
    change (header_text ((k, v) :: hs)) with (header_line (k, v) ++ kCRLF ++ header_text hs).
    rewrite <- !app_assoc.
    assert (x0d ∉ header_line (k, v)).
    { unfold header_line. simpl. rewrite not_elem_of_app. split; [done|].
      rewrite !not_elem_of_cons. done. }
    rewrite split_line_app by done. cbn [mbind option_bind].
    unfold header_line. cbn [fst snd].
    rewrite decide_False by (destruct k; done).
    change ([x3a; x20] ++ v) with (x3a :: x20 :: v).
    rewrite (std_find_app x3a) by done.
    rewrite decide_False by (rewrite !length_app; simpl; lia).
    rewrite IH by (auto; lia). cbn [mbind option_bind].
    rewrite take_app_length, drop_app_add. done.
Qed.

Lemma connection_headers_clean r : zlen (body_ r) < 10 ^ 13 -> Forall clean_header (connection_headers r).
Proof.
  intros Hb. unfold connection_headers. destruct (close_connection_ r).
  - repeat constructor; by apply (bool_decide_unpack _).
  - repeat constructor; try (by apply (bool_decide_unpack _)).
    apply dec_clean; [lia|done].
Qed.

Lemma field_None name hs : name ∉ hs.*1 -> field name hs = None.
Proof.
  induction hs as [|[k v] hs IH]; [done|]. cbn [fmap list_fmap fst]. intros H. simpl.
  rewrite decide_False by set_solver. apply IH. set_solver.
Qed.

Lemma content_length r l :
  headers_ r !! lit "Content-Length" = None -> l ≡ₚ map_to_list (headers_ r) ->
  field (lit "Content-Length") (connection_headers r ++ l) =
    if close_connection_ r then None else Some (dec (zlen (body_ r))).
Proof.
  intros Hn Hl. unfold connection_headers. destruct (close_connection_ r); [|done].
  cbn [app field]. rewrite decide_False by done. apply field_None. rewrite Hl.
  intros ((k & v) & Hk & Hin)%list_elem_of_fmap. simpl in Hk. subst k.
  apply elem_of_map_to_list in Hin. congruence.
Qed.

(** C16: a response reaches the client intact.  [AppendToBuffer] appends one
    text to the buffer, whatever order the header map is traversed in, and a
    client that reads that text from the stream gets the status code, the
    message, the connection headers followed by the response's headers, and the
    body; when the connection stays open it stops exactly at the end of the
    body, so the next reply can follow.  The limit on the body comes from the
    32-byte buffer the length is printed into. *)
Theorem response_roundtrip (r : HttpResponse.t) (iter : gmap bytes bytes -> list (bytes * bytes))
    (b : Buffer) (next : bytes) :
  good_response r -> iter (headers_ r) ≡ₚ map_to_list (headers_ r) ->
  buf_wf b -> zlen (response_text iter r) < 2 ^ 31 -> writer_index_ b + 2 ^ 31 <= max_size ->
  (close_connection_ r = true -> next = []) ->
  exists b' text fuel,
    AppendToBuffer iter r b = Ok b' /\ buf_wf b' /\ content b' = content b ++ text /\
    read_reply fuel (text ++ next) =
      Some (mkReply (code_value (status_code_ r)) (status_message_ r)
              (connection_headers r ++ iter (headers_ r)) (body_ r), next).
Proof.
  intros [Hm Hh Hl Hb] Hiter Hwf Hsize Hmax Hnext.
  rewrite AppendToBuffer_all. pose proof (pieces_text iter r Hb) as Ht.
  destruct (append_all_spec b (response_pieces iter r)) as (b' & Hb' & Ha); [done| |rewrite Ht; lia|].
  { rewrite <- Ht in Hsize. clear -Hsize. revert Hsize.
    induction (response_pieces iter r) as [|d l IH]; [done|]. cbn [concat].
    rewrite length_app. intros ?. constructor; [lia|apply IH; lia]. }
  destruct Ha as [Hwf' Hc _ _ _ _].
  exists b', (response_text iter r), (S (length (connection_headers r ++ iter (headers_ r)))).
  do 2 (split; [done|]). split; [by rewrite Hc, Ht|].
  unfold read_reply, response_text. rewrite <- !app_assoc.
  rewrite split_line_app.
  2:{ unfold status_line. pose proof (code_value_range (status_code_ r)).
      rewrite !not_elem_of_app. repeat split; try done; try (by apply (bool_decide_unpack _)).
      apply dec_clean; [lia|done]. }
  cbn [mbind option_bind]. rewrite read_status_line. cbn [mbind option_bind].
  rewrite read_headers_text; [| |lia].
  2:{ apply Forall_app. split; [by apply connection_headers_clean|].
      by rewrite Hiter. }
  cbn [mbind option_bind]. rewrite content_length by done.
  destruct (close_connection_ r); [by rewrite Hnext, app_nil_r|].
  rewrite dec_value_dec, Nat2Z.id by lia. by rewrite take_app_length, drop_app_length.
Qed.

Definition ex_response : HttpResponse.t :=
  let r := SetStatusMessage (SetStatusCode (new false) k200Ok) (lit "OK") in
  SetBody (SetContentType r (lit "text/plain")) (lit "hello, world").

Lemma ex_response_good : good_response ex_response.
Proof.
  constructor; [by apply (bool_decide_unpack _)| |done|done].
  assert (map_to_list (headers_ ex_response) = [(lit "Content-Type", lit "text/plain")]) as ->
    by (vm_compute; reflexivity).
  repeat constructor; by apply (bool_decide_unpack _).
Qed.

Lemma response_roundtrip_witness :
  exists b' text fuel,
    AppendToBuffer map_to_list ex_response (buffer_of (lit "x")) = Ok b' /\ buf_wf b' /\
    content b' = content (buffer_of (lit "x")) ++ text /\
    read_reply fuel (text ++ lit "HTTP/1.1 ...") =
      Some (mkReply 200 (lit "OK")
              [(lit "Content-Length", lit "12"); (lit "Connection", lit "Keep-Alive");
               (lit "Content-Type", lit "text/plain")] (lit "hello, world"), lit "HTTP/1.1 ...").
Proof.
  assert (connection_headers ex_response ++ map_to_list (headers_ ex_response) =
    [(lit "Content-Length", lit "12"); (lit "Connection", lit "Keep-Alive");
     (lit "Content-Type", lit "text/plain")]) as <- by (vm_compute; reflexivity).
  apply (response_roundtrip ex_response map_to_list (buffer_of (lit "x")) (lit "HTTP/1.1 ...")).
  - apply ex_response_good.
  - done.
  - by apply buffer_of_holds.
  - vm_compute; reflexivity.
  - vm_compute; discriminate.
  - discriminate.
Defined.

(** ** Requests *)

Lemma response_appended r iter b :
  good_response r -> iter (headers_ r) ≡ₚ map_to_list (headers_ r) -> buf_wf b ->
  zlen (response_text iter r) < 2 ^ 31 -> writer_index_ b + 2 ^ 31 <= max_size ->
  exists b', AppendToBuffer iter r b = Ok b' /\ buf_wf b' /\
    content b' = content b ++ response_text iter r.
Proof.
  intros [_ _ _ Hb] Hiter Hwf Hsize Hmax. rewrite AppendToBuffer_all.
  pose proof (pieces_text iter r Hb) as Ht.
  destruct (append_all_spec b (response_pieces iter r)) as (b' & Hb' & [? Hc _ _ _ _]);
    [done| |rewrite Ht; lia|].
  { rewrite <- Ht in Hsize. clear -Hsize. revert Hsize.
    induction (response_pieces iter r) as [|d l IH]; [done|]. cbn [concat].
    rewrite length_app. intros ?. constructor; [lia|apply IH; lia]. }
  exists b'. by rewrite Hc, Ht.
Qed.

Section Requests.
Context (iter : gmap bytes bytes -> list (bytes * bytes)).
Context (Hiter : forall m, iter m ≡ₚ map_to_list m).

Lemma OnRequest_trace s (conn : list call) req :
  let r := http_callback_ s req (new true) in
  good_response r -> zlen (response_text iter r) < 2 ^ 31 ->
  OnRequest iter s conn req = Ok (conn ++ CSend (response_text iter r)
    :: (if CloseConnection r then [CShutdown] else [])).
Proof using Hiter.
  intros r Hg Hs. unfold OnRequest. cbv zeta. fold r.
  destruct (Buffer_new kInitialSize) as [b|] eqn:Eb; [|by vm_compute in Eb].
  assert (buf_wf b /\ content b = [] /\ writer_index_ b = 8) as (Hwf & Hc & Hw).
  { vm_compute in Eb. injection Eb as <-. split; [|done]. by split. }
  rewrite bind_Ok.
  destruct (response_appended r iter b Hg (Hiter _) Hwf) as (b' & -> & _ & Hc');
    [done|rewrite Hw; unfold max_size; lia|].
  rewrite bind_Ok. cbn [conn_SendBuffer trace_connection]. rewrite bind_Ok. cbn beta iota.
  rewrite Hc', Hc. cbn [app]. destruct (CloseConnection r); cbn [conn_Shutdown trace_connection].
  - by rewrite <- app_assoc.
  - done.
Qed.

(** C17: a request that arrives whole is answered once.  When the buffer holds
    a well-formed request message, [OnMessage] consumes exactly that message,
    runs the user's callback on the request the message stands for with a
    response that will close the connection (whatever the version and the
    Connection header say), sends the text of the response the callback
    leaves, and then shuts the connection down unless the callback asked to
    keep it; the 400 reply is not sent. *)
Theorem OnMessage_answers (s : HttpServer) (conn : list call) (m : message) (rest : bytes)
    (b : Buffer) (t : Z) (fuel : nat) :
  let r := http_callback_ s (message_request m t) (new true) in
  good_message m -> holds b (message_text m ++ rest) -> (length (m_headers m) + 2 <= fuel)%nat ->
  good_response r -> zlen (response_text iter r) < 2 ^ 31 ->
  exists b', OnMessage iter fuel s conn b t =
      Some (Ok (conn ++ CSend (response_text iter r)
                  :: (if CloseConnection r then [CShutdown] else []), b')) /\ holds b' rest.
Proof using Hiter.
  intros r Hm Hb Hf Hr Hs.
  pose proof (parse_message m rest t Hm) as Hp. apply (parse_loop_fuel _ fuel) in Hp; [|lia].
  pose proof (ParseRequest_loop_string fuel false HttpContext_new b _ t Hb) as H.
  rewrite Hp in H. destruct H as (b' & H & Hb'). exists b'. split; [|done].
  unfold OnMessage, ParseRequest. rewrite H. cbn [GotAll state_ request_].
  rewrite !bind_Ok. unfold GotAll. cbn [state_ request_]. rewrite bool_decide_true by done.
  rewrite OnRequest_trace by done. done.
Qed.

(** A piece without a complete request line is refused. *)
Lemma OnMessage_refuses s (conn : list call) text b t fuel :
  holds b text ->
  (match split_line text with
   | Some (line, _) => exists r, ProcessRequestLine HttpRequest_new line = (false, r)
   | None => True
   end) ->
  exists b', OnMessage iter (S fuel) s conn b t =
    Some (Ok (conn ++ [CSend (lit "HTTP/1.1 400 Bad request" ++ kCRLF ++ kCRLF); CShutdown], b'))
    /\ holds b' text.
Proof.
  intros Hb Hl.
  assert (exists r, parse_loop (S fuel) false HttpContext_new text t =
    Some (false, mkContext kExpectRequestLine r, text)) as (r & Hp).
  { cbn [parse_loop]. unfold parse_turn. cbn [HttpContext_new state_].
    destruct (split_line text) as [[line s']|]; [|by eexists].
    destruct Hl as (r & Hl). unfold HttpContext_new. cbn [request_]. rewrite Hl. by eexists. }
  pose proof (ParseRequest_loop_string (S fuel) false HttpContext_new b _ t Hb) as H.
  rewrite Hp in H. destruct H as (b' & H & Hb'). exists b'. split; [|done].
  unfold OnMessage, ParseRequest. rewrite H. rewrite !bind_Ok. cbn beta iota.
  cbn [conn_Send conn_Shutdown trace_connection]. rewrite !bind_Ok.
  unfold GotAll. cbn [state_ request_]. rewrite bool_decide_false by done.
  rewrite bind_Ok. by rewrite <- app_assoc.
Qed.

(** A header line is not a request line. *)
Lemma header_not_request hs rest :
  Forall good_header hs -> Forall (fun h : bytes * bytes => x20 ∉ fst h) hs ->
  match split_line (header_text hs ++ rest) with
  | Some (line, _) => exists r, ProcessRequestLine HttpRequest_new line = (false, r)
  | None => True
  end.
Proof.
  intros Hg Hs. destruct hs as [|[k v] hs].
  - change (header_text []) with ([] ++ kCRLF). rewrite <- app_assoc.
    rewrite split_line_app by set_solver. by eexists.
  - apply Forall_cons in Hg as [Hh _]. apply Forall_cons in Hs as [Hk _].
    change (header_text ((k, v) :: hs)) with (header_line (k, v) ++ kCRLF ++ header_text hs).
    rewrite <- !app_assoc. rewrite split_line_app by by apply header_line_nocr.
    destruct (ProcessRequestLine HttpRequest_new (header_line (k, v))) as [[] r] eqn:E;
      [|by eexists]. exfalso.
    apply ProcessRequestLine_valid in E as (m & target & ver & Hm & _ & _ & E).
    unfold header_line in E. cbn [fst snd] in *. destruct Hh as (Hcolon & _).
    assert (E' : (k ++ [x3a]) ++ x20 :: v = MethodString m ++ x20 :: target ++ [x20] ++ version_text ver)
      by (rewrite <- app_assoc; exact E).
    apply (f_equal (fun l => take (std_find x20 l) l)) in E'.
    assert (x20 ∉ k ++ [x3a]).
    { rewrite not_elem_of_app. split; [done|]. by apply (bool_decide_unpack _). }
    rewrite !std_find_app in E' by (done || apply MethodString_chars).
    rewrite !take_app_length in E'.
    assert (x3a ∈ MethodString m) as Hin by (rewrite <- E'; set_solver).
    revert Hin. destruct m; apply (bool_decide_unpack (x3a ∉ _)); vm_compute; exact I.
Qed.

(** C37: a request that arrives in two pieces is lost.  Because [OnMessage]
    parses every message with a new context, a request whose request line and
    headers come in separate reads is not answered: the first call consumes the
    request line and sends nothing, the second takes the first header for a
    request line, replies 400 and shuts the connection down; and a read that ends
    inside the request line is answered by 400 at once.  The parser itself could
    have continued. *)
Theorem OnMessage_loses_pieces (s : HttpServer) (conn : list call) (m : message)
    (b1 b2 : Buffer) (t t' : Z) (fuel : nat) :
  good_message m -> Forall (fun h : bytes * bytes => x20 ∉ fst h) (m_headers m) ->
  holds b1 (request_line m ++ kCRLF) -> holds b2 (header_text (m_headers m)) ->
  (exists b', OnMessage iter (S (S fuel)) s conn b1 t = Some (Ok (conn, b')) /\ holds b' []) /\
  (exists b', OnMessage iter (S fuel) s conn b2 t' =
     Some (Ok (conn ++ [CSend (lit "HTTP/1.1 400 Bad request" ++ kCRLF ++ kCRLF); CShutdown], b'))) /\
  (forall b3 n, holds b3 (take n (request_line m)) -> exists b',
     OnMessage iter (S fuel) s conn b3 t =
     Some (Ok (conn ++ [CSend (lit "HTTP/1.1 400 Bad request" ++ kCRLF ++ kCRLF); CShutdown], b'))).
Proof.
  intros Hm Hk Hb1 Hb2. split; [|split].
  - assert (exists c, parse_loop (S (S fuel)) false HttpContext_new (request_line m ++ kCRLF) t =
      Some (true, c, []) /\ state_ c = kExpectHeaders) as (c & Hp & Hc).
    { remember (S fuel) as n. cbn [parse_loop]. unfold parse_turn.
      cbn [HttpContext_new state_]. pose proof (split_line_app (request_line m) []
        (request_line_nocr m Hm)) as Hl. rewrite app_nil_r in Hl. rewrite Hl.
      unfold HttpContext_new. cbn [request_]. rewrite ProcessRequestLine_text by done. subst n.
      cbn [parse_loop]. unfold parse_turn. cbn [state_]. by eexists. }
    pose proof (ParseRequest_loop_string (S (S fuel)) false HttpContext_new b1 _ t Hb1) as H.
    rewrite Hp in H. destruct H as (b' & H & Hb'). exists b'. split; [|done].
    unfold OnMessage, ParseRequest. rewrite H. rewrite !bind_Ok.
    unfold GotAll. by rewrite Hc.
  - destruct (OnMessage_refuses s conn _ b2 t' fuel Hb2) as (b' & H & _); [|by exists b'].
    pose proof (header_not_request (m_headers m) [] (gm_headers m Hm) Hk) as H.
    by rewrite app_nil_r in H.
  - intros b3 n Hb3. destruct (OnMessage_refuses s conn _ b3 t fuel Hb3) as (b' & H & _);
      [|by exists b'].
    destruct (split_line _) as [[line s']|] eqn:E; [|done]. exfalso.
    apply split_line_Some in E as (E & _). apply (request_line_nocr m Hm).
    rewrite <- (take_drop n (request_line m)), E. set_solver.
Qed.

End Requests.

Definition ex_server : HttpServer :=
  SetHttpCallback HttpServer_new (fun req resp =>
    if decide (path_ req = lit "/index") then SetBody (SetStatusCode resp k200Ok) (lit "hi")
    else DefaultHttpCallback req resp).

Definition ex_answer : bytes :=
  lit "HTTP/1.1 200 " ++ kCRLF ++ lit "Connection: close" ++ kCRLF ++ kCRLF ++ lit "hi".

Lemma OnMessage_answers_witness :
  exists b', OnMessage map_to_list 5 ex_server [] (buffer_of (message_text ex_message)) 7 =
      Some (Ok ([CSend ex_answer; CShutdown], b')) /\ holds b' [].
Proof.
  apply (OnMessage_answers map_to_list (fun m => reflexivity _) ex_server [] ex_message []
    (buffer_of (message_text ex_message)) 7 5).
  - apply ex_message_good.
  - rewrite app_nil_r. apply buffer_of_holds. vm_compute. discriminate.
  - simpl. lia.
  - constructor; [apply not_elem_of_nil|constructor|done|done].
  - vm_compute. reflexivity.
Defined.

Lemma OnMessage_loses_pieces_witness :
  let conn := @nil call in
  let bad := [CSend (lit "HTTP/1.1 400 Bad request" ++ kCRLF ++ kCRLF); CShutdown] in
  let b1 := buffer_of (request_line ex_message ++ kCRLF) in
  let b2 := buffer_of (header_text (m_headers ex_message)) in
  (exists b', OnMessage map_to_list 9 ex_server conn b1 0 = Some (Ok (conn, b')) /\ holds b' []) /\
  (exists b', OnMessage map_to_list 8 ex_server conn b2 1 = Some (Ok (conn ++ bad, b'))) /\
  (forall b3 n, holds b3 (take n (request_line ex_message)) -> exists b',
     OnMessage map_to_list 8 ex_server conn b3 0 = Some (Ok (conn ++ bad, b'))).
Proof.
  intros conn bad b1 b2.
  apply (OnMessage_loses_pieces map_to_list (fun m => reflexivity _) ex_server conn ex_message b1 b2 0 1 7).
  - apply ex_message_good.
  - repeat constructor; by apply (bool_decide_unpack _).
  - apply buffer_of_holds. vm_compute. discriminate.
  - apply buffer_of_holds. vm_compute. discriminate.
Defined.
