(* ===== verification/Channel.v ===== *)
(** * Channels and the poller interface
      (ryan_network/net/channel.h, channel.cc, poller.h, poller.cc)

    A [Channel*] is a number; the channels themselves live in a store that
    the channels, the poller and the loop share, because a poller writes the
    [index_] and [revents_] of channels it only holds pointers to.  A
    callback is a value of a type [CB] that an interpreter runs on the state
    of the program.  The virtual functions of [Poller] are the class
    [Poller]; [EpollPoller] and [PollPoller] are its instances. *)

From S2P Require Import Prelude.

(** ** Events of epoll(7) and poll(2) *)

Definition EPOLLIN : Z := 1.
Definition EPOLLPRI : Z := 2.
Definition EPOLLOUT : Z := 4.
Definition EPOLLERR : Z := 8.
Definition EPOLLHUP : Z := 16.

(** src: ryan_network/net/channel.cc:5-5 Channel::kNoneEvent *)
Definition kNoneEvent : Z := 0.
(** src: ryan_network/net/channel.cc:6-6 Channel::kReadEvent *)
Definition kReadEvent : Z := Z.lor EPOLLIN EPOLLPRI.
(** src: ryan_network/net/channel.cc:7-7 Channel::kWriteEvent *)
Definition kWriteEvent : Z := EPOLLOUT.

(** [if (a & b)] *)
Definition has (a b : Z) : bool := negb (Z.land a b =? 0).

Section Channel.
Context {CB : Type}.

(** [tie_] is the address of the object tied to, [None] before [Tie].
    src: ryan_network/net/channel.h:99-114 Channel *)
Record Channel := mkChannel {
  fd_ : Z;
  events_ : Z;
  revents_ : Z;
  index_ : Z;
  tie_ : option Z;
  tied_ : bool;
  read_callback_ : option CB;
  write_callback_ : option CB;
  close_callback_ : option CB;
  error_callback_ : option CB
}.

(** src: ryan_network/net/channel.cc:9-10 Channel::Channel *)
Definition Channel_new (fd : Z) : Channel :=
  mkChannel fd 0 0 (-1) None false None None None None.

(** src: ryan_network/net/channel.h:34-34 Channel::SetReadCallback *)
Definition SetReadCallback (ch : Channel) (cb : CB) : Channel :=
  mkChannel (fd_ ch) (events_ ch) (revents_ ch) (index_ ch) (tie_ ch) (tied_ ch)
    (Some cb) (write_callback_ ch) (close_callback_ ch) (error_callback_ ch).
(** src: ryan_network/net/channel.h:35-35 Channel::SetWriteCallback *)
Definition SetWriteCallback (ch : Channel) (cb : CB) : Channel :=
  mkChannel (fd_ ch) (events_ ch) (revents_ ch) (index_ ch) (tie_ ch) (tied_ ch)
    (read_callback_ ch) (Some cb) (close_callback_ ch) (error_callback_ ch).
(** src: ryan_network/net/channel.h:36-36 Channel::SetCloseCallback *)
Definition SetCloseCallback (ch : Channel) (cb : CB) : Channel :=
  mkChannel (fd_ ch) (events_ ch) (revents_ ch) (index_ ch) (tie_ ch) (tied_ ch)
    (read_callback_ ch) (write_callback_ ch) (Some cb) (error_callback_ ch).
(** src: ryan_network/net/channel.h:37-37 Channel::SetErrorCallback *)
Definition SetErrorCallback (ch : Channel) (cb : CB) : Channel :=
  mkChannel (fd_ ch) (events_ ch) (revents_ ch) (index_ ch) (tie_ ch) (tied_ ch)
    (read_callback_ ch) (write_callback_ ch) (close_callback_ ch) (Some cb).

(** src: ryan_network/net/channel.cc:16-20 Channel::Tie *)
Definition Tie (ch : Channel) (obj : Z) : Channel :=
  mkChannel (fd_ ch) (events_ ch) (revents_ ch) (index_ ch) (Some obj) true
    (read_callback_ ch) (write_callback_ ch) (close_callback_ ch) (error_callback_ ch).

(** The assignment [events_ = e] of the calls below. *)
Definition set_events (ch : Channel) (e : Z) : Channel :=
  mkChannel (fd_ ch) e (revents_ ch) (index_ ch) (tie_ ch) (tied_ ch)
    (read_callback_ ch) (write_callback_ ch) (close_callback_ ch) (error_callback_ ch).
(** src: ryan_network/net/channel.h:44-44 Channel::set_revents *)
Definition set_revents (ch : Channel) (revt : Z) : Channel :=
  mkChannel (fd_ ch) (events_ ch) revt (index_ ch) (tie_ ch) (tied_ ch)
    (read_callback_ ch) (write_callback_ ch) (close_callback_ ch) (error_callback_ ch).
(** src: ryan_network/net/channel.h:80-80 Channel::set_index *)
Definition set_index (ch : Channel) (idx : Z) : Channel :=
  mkChannel (fd_ ch) (events_ ch) (revents_ ch) idx (tie_ ch) (tied_ ch)
    (read_callback_ ch) (write_callback_ ch) (close_callback_ ch) (error_callback_ ch).

(** src: ryan_network/net/channel.h:69-69 Channel::IsNoneEvent *)
Definition IsNoneEvent (ch : Channel) : bool := events_ ch =? kNoneEvent.
(** src: ryan_network/net/channel.h:70-70 Channel::IsWriting *)
Definition IsWriting (ch : Channel) : bool := has (events_ ch) kWriteEvent.
(** src: ryan_network/net/channel.h:71-71 Channel::IsReading *)
Definition IsReading (ch : Channel) : bool := has (events_ ch) kReadEvent.

(** ** The store and the poller *)

(** The channels by address; following a pointer to none is undefined. *)
Definition deref (store : gmap Z Channel) (c : Z) : result Channel :=
  match store !! c with
  | Some ch => Ok ch
  | None => Fault FUndef
  end.

(** The members of the base class; [owner_loop_] is represented by the
    thread the loop belongs to.
    src: ryan_network/net/poller.h:44-49 Poller *)
Record PollerBase := mkPollerBase { channels_ : gmap Z Z; owner_loop_ : Z }.

(** src: ryan_network/net/poller.cc:3-3 Poller::Poller *)
Definition PollerBase_new (loop : Z) : PollerBase := mkPollerBase ∅ loop.

(** [tid] is the calling thread.
    src: ryan_network/net/poller.h:39-41 Poller::AssertInLoopThread *)
Definition AssertInLoopThread (b : PollerBase) (tid : Z) : result unit :=
  if tid =? owner_loop_ b then Ok tt else Fault FAbort.

(** src: ryan_network/net/poller.cc:6-10 Poller::HasChannel *)
Definition HasChannel (b : PollerBase) (store : gmap Z Channel) (c : Z) : result bool :=
  ch ← deref store c;
  Ok (bool_decide (channels_ b !! fd_ ch = Some c)).

(** A poller together with the store. *)
Record net (P : Type) := mkNet { poller_ : P; store_ : gmap Z Channel }.

End Channel.

Arguments Channel : clear implicits.
Arguments mkNet {CB P} poller_ store_.
Arguments poller_ {CB P} n.
Arguments store_ {CB P} n.
Arguments net : clear implicits.

(** The interface [Poller] requires of a derived class: [UpdateChannel] and
    [RemoveChannel], called by thread [tid] on channel [c].
    src: ryan_network/net/poller.h:24-25 Poller::UpdateChannel *)
Class Poller (CB P : Type) := {
  base : P -> PollerBase;
  UpdateChannel : Z -> Z -> net CB P -> result (net CB P);
  RemoveChannel : Z -> Z -> net CB P -> result (net CB P)
}.

(** ** Changing the events *)

Section Update.
Context {CB P : Type} `{!Poller CB P}.

(** [Channel::Update] goes through [EventLoop::UpdateChannel], which hands
    the call to the poller.
    src: ryan_network/net/channel.cc:26-30 Channel::Update *)
Definition Update (tid c : Z) (n : net CB P) : result (net CB P) := UpdateChannel tid c n.

(** [events_ = f(events_); Update();] *)
Definition change_events (f : Z -> Z) (tid c : Z) (n : net CB P) : result (net CB P) :=
  ch ← deref (store_ n) c;
  Update tid c (mkNet (poller_ n) (<[c := set_events ch (f (events_ ch))]> (store_ n))).

(** src: ryan_network/net/channel.h:47-50 Channel::EnableReading *)
Definition EnableReading : Z -> Z -> net CB P -> result (net CB P) :=
  change_events (fun e => Z.lor e kReadEvent).
(** src: ryan_network/net/channel.h:51-54 Channel::DisableReading *)
Definition DisableReading : Z -> Z -> net CB P -> result (net CB P) :=
  change_events (fun e => Z.land e (Z.lnot kReadEvent)).
(** src: ryan_network/net/channel.h:55-58 Channel::EnableWriting *)
Definition EnableWriting : Z -> Z -> net CB P -> result (net CB P) :=
  change_events (fun e => Z.lor e kWriteEvent).
(** src: ryan_network/net/channel.h:59-62 Channel::DisableWriting *)
Definition DisableWriting : Z -> Z -> net CB P -> result (net CB P) :=
  change_events (fun e => Z.land e (Z.lnot kWriteEvent)).
(** src: ryan_network/net/channel.h:63-66 Channel::DisableAll *)
Definition DisableAll : Z -> Z -> net CB P -> result (net CB P) :=
  change_events (fun e => Z.land e kNoneEvent).

(** src: ryan_network/net/channel.cc:33-36 Channel::Remove *)
Definition Remove (tid c : Z) (n : net CB P) : result (net CB P) := RemoveChannel tid c n.

End Update.

(** ** Handling events *)

Section Handle.
Context {CB S : Type}.
(** the channel in the state of the program, what running a callback does
    to it, and whether the object at an address still exists *)
Context (chan : S -> result (Channel CB)) (run : CB -> Z -> S -> result S).
Context (alive : S -> Z -> bool).

(** [if (cb) cb();] *)
Definition call_if (cb : option CB) (t : Z) (s : S) : result S :=
  match cb with
  | Some cb => run cb t s
  | None => Ok s
  end.

(** Every condition reads the channel again: a callback may have changed it.
    src: ryan_network/net/channel.cc:59-92 Channel::HandleEventWithGuard *)
Definition HandleEventWithGuard (receiveTime : Z) (s : S) : result S :=
  ch ← chan s;
  s ← (if has (revents_ ch) EPOLLHUP && negb (has (revents_ ch) EPOLLIN)
       then call_if (close_callback_ ch) receiveTime s else Ok s);
  ch ← chan s;
  s ← (if has (revents_ ch) EPOLLERR
       then call_if (error_callback_ ch) receiveTime s else Ok s);
  ch ← chan s;
  s ← (if has (revents_ ch) (Z.lor EPOLLIN EPOLLPRI)
       then call_if (read_callback_ ch) receiveTime s else Ok s);
  ch ← chan s;
  if has (revents_ ch) EPOLLOUT
  then call_if (write_callback_ ch) receiveTime s else Ok s.

(** [tie_.lock()] gives null when the object is gone.
    src: ryan_network/net/channel.cc:39-56 Channel::HandleEvent *)
Definition HandleEvent (receiveTime : Z) (s : S) : result S :=
  ch ← chan s;
  if tied_ ch then
    if (match tie_ ch with Some obj => alive s obj | None => false end)
    then HandleEventWithGuard receiveTime s
    else Ok s
  else HandleEventWithGuard receiveTime s.

End Handle.
