(* ===== verification/EpollPoller.v ===== *)
(** * EpollPoller (ryan_network/net/epoll_poller.h, epoll_poller.cc)

    The epoll instance of the kernel is the class [Epoll]; [EpollLaws] says
    what epoll_ctl(2) documents for the three operations on descriptors that
    are (or are not) in the interest list. *)

From S2P Require Import Prelude Channel.

(** ** The kernel's side *)

Inductive epoll_op := EPOLL_CTL_ADD | EPOLL_CTL_DEL | EPOLL_CTL_MOD.

#[export] Instance epoll_op_eq_dec : EqDecision epoll_op.
Proof. solve_decision. Defined.

(** [epoll_interest] maps a descriptor to its events and user data;
    [epoll_ctl] returns the result of the call. *)
Class Epoll (K : Type) := {
  epoll_interest : K -> gmap Z (Z * Z);
  epoll_ctl : K -> epoll_op -> Z -> Z * Z -> Z * K
}.

Class EpollLaws (K : Type) `{Epoll K} := {
  ctl_add : forall k fd ev, epoll_interest k !! fd = None ->
    exists k', epoll_ctl k EPOLL_CTL_ADD fd ev = (0, k') /\
      epoll_interest k' = <[fd := ev]> (epoll_interest k);
  ctl_mod : forall k fd ev, is_Some (epoll_interest k !! fd) ->
    exists k', epoll_ctl k EPOLL_CTL_MOD fd ev = (0, k') /\
      epoll_interest k' = <[fd := ev]> (epoll_interest k);
  ctl_del : forall k fd ev, is_Some (epoll_interest k !! fd) ->
    exists k', epoll_ctl k EPOLL_CTL_DEL fd ev = (0, k') /\
      epoll_interest k' = delete fd (epoll_interest k)
}.

(** What epoll_wait(2) reports: the ready events with their user data, or an
    error. *)
Inductive epoll_wait_result := Ready (l : list (Z * Z)) | WaitError (errno : Z).

(** ** The poller *)

(** src: ryan_network/net/epoll_poller.cc:14-14 kNew *)
Definition kNew : Z := -1.
(** src: ryan_network/net/epoll_poller.cc:15-15 kAdded *)
Definition kAdded : Z := 1.
(** src: ryan_network/net/epoll_poller.cc:16-16 kDeleted *)
Definition kDeleted : Z := 2.

(** src: ryan_network/net/epoll_poller.h:35-35 EpollPoller::kInitEventListSize *)
Definition kInitEventListSize : nat := 16.

Section EpollPoller.
Context {CB K : Type} `{Epoll K}.

(** An [epoll_event] is its events and its [data.ptr].
    src: ryan_network/net/epoll_poller.h:42-43 EpollPoller *)
Record EpollPoller := mkEpollPoller {
  base_ : PollerBase;
  epollfd_ : K;
  events_list_ : list (Z * Z)
}.

(** [epoll] is what [epoll_create1] gave; a failure is [LOG_FATAL].
    src: ryan_network/net/epoll_poller.cc:20-27 EpollPoller::EpollPoller *)
Definition EpollPoller_new (loop : Z) (epoll : option K) : result EpollPoller :=
  match epoll with
  | Some k => Ok (mkEpollPoller (PollerBase_new loop) k (replicate kInitEventListSize (0, 0)))
  | None => Fault FAbort
  end.

(** A failed addition or change is [LOG_FATAL], a failed removal is logged.
    src: ryan_network/net/epoll_poller.cc:143-159 EpollPoller::Update *)
Definition epoll_Update (operation : epoll_op) (c : Z) (n : net CB EpollPoller)
    : result (net CB EpollPoller) :=
  let p := poller_ n in
  ch ← deref (store_ n) c;
  let '(r, k) := epoll_ctl (epollfd_ p) operation (fd_ ch) (u32 (events_ ch), c) in
  let n := mkNet (mkEpollPoller (base_ p) k (events_list_ p)) (store_ n) in
  if r <? 0 then
    if decide (operation = EPOLL_CTL_DEL) then Ok n else Fault FAbort
  else Ok n.

Definition with_base (p : EpollPoller) (b : PollerBase) : EpollPoller :=
  mkEpollPoller b (epollfd_ p) (events_list_ p).

Definition put (c : Z) (ch : Channel CB) (n : net CB EpollPoller) : net CB EpollPoller :=
  mkNet (poller_ n) (<[c := ch]> (store_ n)).

(** src: ryan_network/net/epoll_poller.cc:66-107 EpollPoller::UpdateChannel *)
Definition epoll_UpdateChannel (tid c : Z) (n : net CB EpollPoller)
    : result (net CB EpollPoller) :=
  let p := poller_ n in
  let b := base_ p in
  _ ← AssertInLoopThread b tid;
  ch ← deref (store_ n) c;
  let index := index_ ch in
  let fd := fd_ ch in
  if (index =? kNew) || (index =? kDeleted) then
    b ← (if index =? kNew then
           _ ← assert_ (bool_decide (channels_ b !! fd = None));
           Ok (mkPollerBase (<[fd := c]> (channels_ b)) (owner_loop_ b))
         else
           _ ← assert_ (bool_decide (is_Some (channels_ b !! fd)));
           _ ← assert_ (bool_decide (channels_ b !! fd = Some c));
           Ok b);
    epoll_Update EPOLL_CTL_ADD c
      (put c (set_index ch kAdded) (mkNet (with_base p b) (store_ n)))
  else
    _ ← assert_ (bool_decide (is_Some (channels_ b !! fd)));
    _ ← assert_ (bool_decide (channels_ b !! fd = Some c));
    _ ← assert_ (index =? kAdded);
    if IsNoneEvent ch then
      n ← epoll_Update EPOLL_CTL_DEL c n;
      Ok (put c (set_index ch kDeleted) n)
    else epoll_Update EPOLL_CTL_MOD c n.

(** src: ryan_network/net/epoll_poller.cc:120-141 EpollPoller::RemoveChannel *)
Definition epoll_RemoveChannel (tid c : Z) (n : net CB EpollPoller)
    : result (net CB EpollPoller) :=
  let p := poller_ n in
  let b := base_ p in
  _ ← AssertInLoopThread b tid;
  ch ← deref (store_ n) c;
  let fd := fd_ ch in
  _ ← assert_ (bool_decide (is_Some (channels_ b !! fd)));
  _ ← assert_ (bool_decide (channels_ b !! fd = Some c));
  _ ← assert_ (IsNoneEvent ch);
  let index := index_ ch in
  _ ← assert_ ((index =? kAdded) || (index =? kDeleted));
  let b := mkPollerBase (delete fd (channels_ b)) (owner_loop_ b) in
  let n := mkNet (with_base p b) (store_ n) in
  n ← (if index =? kAdded then epoll_Update EPOLL_CTL_DEL c n else Ok n);
  Ok (put c (set_index ch kNew) n).

(** [i] counts up to [num_events], an [int].
    src: ryan_network/net/epoll_poller.cc:110-118 EpollPoller::FillActiveChannels *)
Fixpoint epoll_fill (events : list (Z * Z)) (active : list Z) (store : gmap Z (Channel CB))
    : result (list Z * gmap Z (Channel CB)) :=
  match events with
  | [] => Ok (active, store)
  | (ev, c) :: events =>
      ch ← deref store c;
      epoll_fill events (active ++ [c]) (<[c := set_revents ch (s32 ev)]> store)
  end.

(** The result of [epoll_wait] is kept in a [size_t]; the second component
    is [active_channels].
    src: ryan_network/net/epoll_poller.cc:31-60 EpollPoller::Poll *)
Definition epoll_Poll (wait : epoll_wait_result) (n : net CB EpollPoller) (active : list Z)
    : result (list Z * net CB EpollPoller) :=
  let p := poller_ n in
  let '(r, events) := match wait with
    | Ready l => (zlen l, l ++ drop (length l) (events_list_ p))
    | WaitError _ => (-1, events_list_ p)
    end in
  let num_events := u64 r in
  let p := mkEpollPoller (base_ p) (epollfd_ p) events in
  if 0 <? num_events then
    '(active, store) ← epoll_fill (take (Z.to_nat (s32 num_events)) events) active (store_ n);
    let p := if num_events =? zlen events
             then mkEpollPoller (base_ p) (epollfd_ p)
                    (events ++ replicate (length events) (0, 0))
             else p in
    Ok (active, mkNet p store)
  else Ok (active, mkNet p (store_ n)).

#[export] Instance epoll_poller : Poller CB EpollPoller := {
  base := base_;
  UpdateChannel := epoll_UpdateChannel;
  RemoveChannel := epoll_RemoveChannel
}.

End EpollPoller.

Arguments EpollPoller : clear implicits.

(** The kernel as its interest list, failing as documented. *)
#[export] Instance gmap_epoll : Epoll (gmap Z (Z * Z)) := {
  epoll_interest k := k;
  epoll_ctl k op fd ev :=
    match op, k !! fd with
    | EPOLL_CTL_ADD, None => (0, <[fd := ev]> k)
    | EPOLL_CTL_ADD, Some _ => (-1, k)
    | EPOLL_CTL_MOD, Some _ => (0, <[fd := ev]> k)
    | EPOLL_CTL_DEL, Some _ => (0, delete fd k)
    | _, None => (-1, k)
    end
}.

#[export] Instance gmap_epoll_laws : EpollLaws (gmap Z (Z * Z)).
Proof.
  split; intros k fd ev Hk; simpl in *; eexists; (split; [|reflexivity]).
  - by rewrite Hk.
  - by destruct Hk as [? ->].
  - by destruct Hk as [? ->].
Qed.
