(* ===== verification/PollPoller.v ===== *)
(** * PollPoller (ryan_network/net/poll_poller.h, poll_poller.cc)

    The vector [poll_fds_] is a list; [poll] of the kernel is the argument
    that gives its result and the [revents] it stores. *)

From S2P Require Import Prelude Channel.

(** ** struct pollfd *)

Record pollfd := mkPollfd { pfd_fd : Z; pfd_events : Z; pfd_revents : Z }.

(** What poll(2) reports: the number of entries with events and the
    [revents] of each entry, or an error. *)
Inductive poll_result := Polled (n : Z) (revents : list Z) | PollError (errno : Z).

Section PollPoller.
Context {CB : Type}.

(** src: ryan_network/net/poll_poller.h:26-27 PollPoller *)
Record PollPoller := mkPollPoller { pbase_ : PollerBase; poll_fds_ : list pollfd }.

(** src: ryan_network/net/poll_poller.cc:12-12 PollPoller::PollPoller *)
Definition PollPoller_new (loop : Z) : PollPoller := mkPollPoller (PollerBase_new loop) [].

(** The loop over [poll_fds_] stops when [num_events] entries were found.
    src: ryan_network/net/poll_poller.cc:35-50 PollPoller::FillActiveChannels *)
Fixpoint poll_fill (b : PollerBase) (num_events : Z) (pfds : list pollfd) (active : list Z)
    (store : gmap Z (Channel CB)) : result (list Z * gmap Z (Channel CB)) :=
  match pfds with
  | [] => Ok (active, store)
  | pfd :: pfds =>
      if 0 <? num_events then
        if 0 <? pfd_revents pfd then
          match channels_ b !! pfd_fd pfd with
          | None => Fault FAssert
          | Some c =>
              ch ← deref store c;
              _ ← assert_ (fd_ ch =? pfd_fd pfd);
              poll_fill b (num_events - 1) pfds (active ++ [c])
                (<[c := set_revents ch (pfd_revents pfd)]> store)
          end
        else poll_fill b num_events pfds active store
      else Ok (active, store)
  end.

Definition store_revents (pfds : list pollfd) (revents : list Z) : list pollfd :=
  zip_with (fun p r => mkPollfd (pfd_fd p) (pfd_events p) r) pfds revents.

(** src: ryan_network/net/poll_poller.cc:16-33 PollPoller::Poll *)
Definition poll_Poll (poll : poll_result) (n : net CB PollPoller) (active : list Z)
    : result (list Z * net CB PollPoller) :=
  let p := poller_ n in
  match poll with
  | PollError _ => Ok (active, n)
  | Polled num_events revents =>
      let p := mkPollPoller (pbase_ p) (store_revents (poll_fds_ p) revents) in
      if 0 <? num_events then
        '(active, store) ← poll_fill (pbase_ p) num_events (poll_fds_ p) active (store_ n);
        Ok (active, mkNet p store)
      else Ok (active, mkNet p (store_ n))
  end.

(** [assert(channels_.find(fd) != end); assert(channels_[fd] == channel);] *)
Definition assert_registered (b : PollerBase) (fd c : Z) : result unit :=
  _ ← assert_ (bool_decide (is_Some (channels_ b !! fd)));
  assert_ (bool_decide (channels_ b !! fd = Some c)).

(** [events] is a [short] and [fd] an [int].
    src: ryan_network/net/poll_poller.cc:52-82 PollPoller::UpdateChannel *)
Definition poll_UpdateChannel (tid c : Z) (n : net CB PollPoller) : result (net CB PollPoller) :=
  let p := poller_ n in
  let b := pbase_ p in
  _ ← AssertInLoopThread b tid;
  ch ← deref (store_ n) c;
  if index_ ch <? 0 then
    _ ← assert_ (bool_decide (channels_ b !! fd_ ch = None));
    let pfd := mkPollfd (fd_ ch) (s16 (events_ ch)) 0 in
    let pfds := poll_fds_ p ++ [pfd] in
    let idx := s32 (zlen pfds) - 1 in
    Ok (mkNet (mkPollPoller (mkPollerBase (<[pfd_fd pfd := c]> (channels_ b)) (owner_loop_ b)) pfds)
          (<[c := set_index ch idx]> (store_ n)))
  else
    _ ← assert_registered b (fd_ ch) c;
    let idx := index_ ch in
    _ ← assert_ ((0 <=? idx) && (idx <? s32 (zlen (poll_fds_ p))));
    match poll_fds_ p !! Z.to_nat idx with
    | None => Fault FUndef
    | Some pfd =>
        _ ← assert_ ((pfd_fd pfd =? fd_ ch) || (pfd_fd pfd =? - fd_ ch - 1));
        let fd := if IsNoneEvent ch then - fd_ ch - 1 else fd_ ch in
        Ok (mkNet (mkPollPoller b
                     (<[Z.to_nat idx := mkPollfd fd (s16 (events_ ch)) 0]> (poll_fds_ p)))
              (store_ n))
    end.

(** [iter_swap(begin() + idx, end() - 1); pop_back();] leaves the last entry
    at [idx] and drops the entry that was there.
    src: ryan_network/net/poll_poller.cc:101-107 PollPoller::RemoveChannel *)
Definition swap_remove (pfds : list pollfd) (idx : nat) : list pollfd :=
  match pfds !! idx, last pfds with
  | Some pfd, Some back =>
      removelast (<[(length pfds - 1)%nat := pfd]> (<[idx := back]> pfds))
  | _, _ => pfds
  end.

(** src: ryan_network/net/poll_poller.cc:84-109 PollPoller::RemoveChannel *)
Definition poll_RemoveChannel (tid c : Z) (n : net CB PollPoller) : result (net CB PollPoller) :=
  let p := poller_ n in
  let b := pbase_ p in
  _ ← AssertInLoopThread b tid;
  ch ← deref (store_ n) c;
  _ ← assert_registered b (fd_ ch) c;
  _ ← assert_ (IsNoneEvent ch);
  let idx := index_ ch in
  _ ← assert_ ((0 <=? idx) && (idx <? s32 (zlen (poll_fds_ p))));
  match poll_fds_ p !! Z.to_nat idx with
  | None => Fault FUndef
  | Some pfd =>
      _ ← assert_ ((pfd_fd pfd =? - fd_ ch - 1) && (pfd_events pfd =? events_ ch));
      let chans := delete (fd_ ch) (channels_ b) in
      let b := mkPollerBase chans (owner_loop_ b) in
      if u64 idx =? zlen (poll_fds_ p) - 1 then
        Ok (mkNet (mkPollPoller b (removelast (poll_fds_ p))) (store_ n))
      else
        match last (poll_fds_ p) with
        | None => Fault FUndef
        | Some back =>
            let channelAtEnd := pfd_fd back in
            let channelAtEnd := if channelAtEnd <? 0 then - channelAtEnd - 1 else channelAtEnd in
            match chans !! channelAtEnd with
            | None => Fault FUndef
            | Some moved =>
                mch ← deref (store_ n) moved;
                Ok (mkNet (mkPollPoller b (swap_remove (poll_fds_ p) (Z.to_nat idx)))
                      (<[moved := set_index mch idx]> (store_ n)))
            end
        end
  end.

#[export] Instance poll_poller : Poller CB PollPoller := {
  base := pbase_;
  UpdateChannel := poll_UpdateChannel;
  RemoveChannel := poll_RemoveChannel
}.

End PollPoller.

(** src: ryan_network/net/default_poller.cc:7-13 Poller::NewDefaultPoller *)
Definition NewDefaultPoller {E : Type} (getenv_use_poll : bool) (epoll : result E) (loop : Z)
    : result (PollPoller + E) :=
  if getenv_use_poll then Ok (inl (PollPoller_new loop))
  else e ← epoll; Ok (inr e).
