(* ===== verification/PollerSpec.v ===== *)
(** * What a poller promises

    [PollerContract] states [UpdateChannel] and [RemoveChannel] on the set of
    watched descriptors, for any poller; both pollers of the library meet it.
    The loop and the connections only rely on this contract. *)

From S2P Require Import Prelude Channel EpollPoller PollPoller.

Section Contract.
Context {CB : Type}.

(** Two stores that differ in the [index_] of channels only: a poller may
    use that field as it likes. *)
Definition same_channels (s1 s2 : gmap Z (Channel CB)) : Prop :=
  forall c, (fun ch => set_index ch 0) <$> s1 !! c = (fun ch => set_index ch 0) <$> s2 !! c.

Lemma same_channels_refl s : same_channels s s.
Proof. done. Qed.

Lemma same_channels_index s c ch idx :
  s !! c = Some ch -> same_channels s (<[c := set_index ch idx]> s).
Proof.
  intros H c'. destruct (decide (c = c')) as [<-|Hn].
  - by rewrite lookup_insert_eq, H.
  - by rewrite lookup_insert_ne.
Qed.

Lemma same_channels_lookup s1 s2 c ch :
  same_channels s1 s2 -> s1 !! c = Some ch -> exists i, s2 !! c = Some (set_index ch i).
Proof.
  intros Hs Hc. specialize (Hs c). rewrite Hc in Hs. destruct (s2 !! c) as [ch'|]; [|done].
  exists (index_ ch'). simpl in Hs. injection Hs. intros. destruct ch, ch'; simpl in *. by subst.
Qed.

End Contract.

#[export] Instance same_channels_equiv CB : Equivalence (@same_channels CB).
Proof.
  split.
  - intros s. apply same_channels_refl.
  - intros s1 s2 H c. by rewrite H.
  - intros s1 s2 s3 H1 H2 c. by rewrite H1.
Qed.

(** The contract, for an invariant [inv] and a relation [watches]:
    [watches n fd e c] means that the kernel reports events [e] of [fd] to
    channel [c].  A channel that is new (index -1) or registered may change
    its events; the descriptor is watched with the new events, or not at all
    once they are empty.  A channel without events whose descriptor is not
    watched may be removed.  A channel that is not registered may be created
    or overwritten. *)
Record poller_contract (CB P : Type) `{!Poller CB P} (inv : net CB P -> Prop)
    (watches : net CB P -> Z -> Z -> Z -> Prop) : Prop := {
  update_contract : forall n c ch f e,
    let b := base (poller_ n) in
    inv n -> store_ n !! c = Some ch -> 0 <= fd_ ch ->
    f (events_ ch) = e -> 0 <= e < 2 ^ 15 ->
    (index_ ch = -1 /\ channels_ b !! fd_ ch = None /\ Z.of_nat (size (channels_ b)) < 2 ^ 31 - 1)
    \/ (channels_ b !! fd_ ch = Some c /\ (e <> 0 \/ watches n (fd_ ch) (events_ ch) c)) ->
    exists n', change_events f (owner_loop_ b) c n = Ok n' /\ inv n' /\
      base (poller_ n') = mkPollerBase (<[fd_ ch := c]> (channels_ b)) (owner_loop_ b) /\
      same_channels (<[c := set_events ch e]> (store_ n)) (store_ n') /\
      forall fd' e' c', watches n' fd' e' c' <->
        if decide (fd' = fd_ ch)
        then c' = c /\ e' = e /\ (e <> 0 \/ channels_ b !! fd_ ch = None)
        else watches n fd' e' c';
  remove_contract : forall n c ch,
    let b := base (poller_ n) in
    inv n -> store_ n !! c = Some ch -> channels_ b !! fd_ ch = Some c ->
    events_ ch = 0 -> (forall e c', ~ watches n (fd_ ch) e c') ->
    exists n', Remove (owner_loop_ b) c n = Ok n' /\ inv n' /\
      base (poller_ n') = mkPollerBase (delete (fd_ ch) (channels_ b)) (owner_loop_ b) /\
      same_channels (store_ n) (store_ n') /\
      forall fd' e' c', watches n' fd' e' c' <-> watches n fd' e' c';
  fresh_contract : forall n c ch,
    inv n -> (forall fd, channels_ (base (poller_ n)) !! fd <> Some c) ->
    let n' := mkNet (poller_ n) (<[c := ch]> (store_ n)) in
    inv n' /\ forall fd' e' c', watches n' fd' e' c' <-> watches n fd' e' c'
}.

(** The interface the rest of the library relies on. *)
Class PollerContract (CB P : Type) `{!Poller CB P} := {
  net_inv : net CB P -> Prop;
  watches : net CB P -> Z -> Z -> Z -> Prop;
  net_contract : poller_contract CB P net_inv watches
}.

(** A call from another thread ends the program. *)
Lemma AssertInLoopThread_other b tid : tid <> owner_loop_ b -> AssertInLoopThread b tid = Fault FAbort.
Proof. intros. unfold AssertInLoopThread. by rewrite (proj2 (Z.eqb_neq _ _)). Qed.

Lemma AssertInLoopThread_own b : AssertInLoopThread b (owner_loop_ b) = Ok tt.
Proof. unfold AssertInLoopThread. by rewrite Z.eqb_refl. Qed.

(** ** EpollPoller *)

Section EpollOk.
Context {CB K : Type} `{EpollLaws K}.
Abbreviation enet := (net CB (EpollPoller K)).

(** How the kernel's entry for [fd] follows from the channel. *)
Definition epoll_entry (ch : Channel CB) (c : Z) (entry : option (Z * Z)) : Prop :=
  (index_ ch = kAdded /\ entry = Some (events_ ch, c)) \/
  (index_ ch = kDeleted /\ entry = None /\ events_ ch = 0).

Record epoll_inv (n : enet) : Prop := {
  ei_channel : forall fd c, channels_ (base_ (poller_ n)) !! fd = Some c ->
    exists ch, store_ n !! c = Some ch /\ fd_ ch = fd /\ 0 <= events_ ch < 2 ^ 15 /\
      epoll_entry ch c (epoll_interest (epollfd_ (poller_ n)) !! fd);
  ei_none : forall fd, channels_ (base_ (poller_ n)) !! fd = None ->
    epoll_interest (epollfd_ (poller_ n)) !! fd = None
}.

Definition epoll_watches (n : enet) (fd e c : Z) : Prop :=
  epoll_interest (epollfd_ (poller_ n)) !! fd = Some (e, c).

(** What every step of the epoll poller leaves alone: entries of other
    descriptors.  [k] is the kernel's side after the step, [ch'] the channel. *)
Lemma epoll_inv_step (n : enet) c ch ch' b k ev :
  epoll_inv n -> fd_ ch' = fd_ ch -> store_ n !! c = Some ch -> 0 <= events_ ch' < 2 ^ 15 ->
  (forall c', channels_ (base_ (poller_ n)) !! fd_ ch = Some c' -> c' = c) ->
  channels_ b = <[fd_ ch := c]> (channels_ (base_ (poller_ n))) ->
  (forall fd, fd <> fd_ ch -> epoll_interest k !! fd = epoll_interest (epollfd_ (poller_ n)) !! fd) ->
  epoll_entry ch' c (epoll_interest k !! fd_ ch) ->
  epoll_inv (mkNet (mkEpollPoller b k ev) (<[c := ch']> (store_ n))).
Proof.
  intros [Hc Hn] Hfd Hch He Hown Hb Hk Hent. split; simpl; rewrite Hb.
  - intros fd c0. destruct (decide (fd = fd_ ch)) as [->|Hne].
    + rewrite lookup_insert_eq. intros [= <-]. exists ch'. by rewrite lookup_insert_eq.
    + rewrite lookup_insert_ne by done. intros Hf. destruct (Hc _ _ Hf) as (ch0 & Hl0 & Hf0 & He0 & Hent0).
      exists ch0. rewrite Hk by done. rewrite lookup_insert_ne; [done|]. intros <-. congruence.
  - intros fd. destruct (decide (fd = fd_ ch)) as [->|Hne].
    + by rewrite lookup_insert_eq.
    + rewrite lookup_insert_ne by done. rewrite Hk by done. apply Hn.
Qed.

Lemma epoll_Update_ok (n : enet) op c ch k r :
  store_ n !! c = Some ch -> 0 <= events_ ch < 2 ^ 15 ->
  epoll_ctl (epollfd_ (poller_ n)) op (fd_ ch) (events_ ch, c) = (r, k) -> r = 0 ->
  epoll_Update op c n =
    Ok (mkNet (mkEpollPoller (base_ (poller_ n)) k (events_list_ (poller_ n))) (store_ n)).
Proof.
  intros Hc He Hk ->. unfold epoll_Update, deref. rewrite Hc, bind_Ok.
  rewrite uwrap_small by lia. by rewrite Hk.
Qed.


(** The conclusion of [update_contract] for a poller whose kernel side is
    [entry] at the descriptor after the call. *)
Lemma epoll_updated (n : enet) c ch e idx k ev :
  let b := mkPollerBase (<[fd_ ch := c]> (channels_ (base_ (poller_ n))))
             (owner_loop_ (base_ (poller_ n))) in
  epoll_inv n -> store_ n !! c = Some ch -> 0 <= e < 2 ^ 15 ->
  (forall c', channels_ (base_ (poller_ n)) !! fd_ ch = Some c' -> c' = c) ->
  epoll_interest k = (if decide (idx = kAdded) then <[fd_ ch := (e, c)]> else delete (fd_ ch))
                       (epoll_interest (epollfd_ (poller_ n))) ->
  idx = kAdded \/ (idx = kDeleted /\ e = 0) ->
  let n' := mkNet (mkEpollPoller b k ev) (<[c := set_index (set_events ch e) idx]> (store_ n)) in
  epoll_inv n' /\ base_ (poller_ n') = b /\
  same_channels (<[c := set_events ch e]> (store_ n)) (store_ n') /\
  forall fd' e' c', epoll_watches n' fd' e' c' <->
    if decide (fd' = fd_ ch) then c' = c /\ e' = e /\ idx = kAdded else epoll_watches n fd' e' c'.
Proof.
  intros b Hinv Hc He Hown Hk Hidx n'.
  assert (epoll_interest k !! fd_ ch = if decide (idx = kAdded) then Some (e, c) else None) as Hfd.
  { rewrite Hk. case_decide; [by rewrite lookup_insert_eq|by rewrite lookup_delete_eq]. }
  assert (forall fd, fd <> fd_ ch ->
    epoll_interest k !! fd = epoll_interest (epollfd_ (poller_ n)) !! fd) as Hother.
  { intros fd Hne. rewrite Hk. case_decide; [by rewrite lookup_insert_ne|by rewrite lookup_delete_ne]. }
  split; [|split; [done|split]].
  - apply (epoll_inv_step n c ch); try done.
    rewrite Hfd. unfold epoll_entry. simpl. destruct Hidx as [->|[-> ->]]; [by left|by right].
  - unfold n'. simpl. intros c'. destruct (decide (c = c')) as [<-|Hne].
    + rewrite !lookup_insert_eq. done.
    + by rewrite !lookup_insert_ne.
  - intros fd' e' c'. unfold epoll_watches, n'. simpl.
    destruct (decide (fd' = fd_ ch)) as [Hd|Hd].
    + rewrite Hd, Hfd. case_decide; naive_solver.
    + by rewrite Hother.
Qed.

(** The kernel is told to watch a channel whose events have just been set. *)
Lemma epoll_add_at (n : enet) c ch e b' k :
  0 <= e < 2 ^ 15 -> epoll_ctl (epollfd_ (poller_ n)) EPOLL_CTL_ADD (fd_ ch) (e, c) = (0, k) ->
  epoll_Update EPOLL_CTL_ADD c (put c (set_index (set_events ch e) kAdded)
    (mkNet (with_base (poller_ n) b') (<[c := set_events ch e]> (store_ n)))) =
  Ok (mkNet (mkEpollPoller b' k (events_list_ (poller_ n)))
        (<[c := set_index (set_events ch e) kAdded]> (store_ n))).
Proof.
  intros He Hk. erewrite epoll_Update_ok; [|by apply lookup_insert_eq|done|exact Hk|done].
  cbn. by rewrite insert_insert_eq.
Qed.

Lemma epoll_update_ok (n : enet) c ch f e :
  epoll_inv n -> store_ n !! c = Some ch -> f (events_ ch) = e -> 0 <= e < 2 ^ 15 ->
  (index_ ch = -1 /\ channels_ (base_ (poller_ n)) !! fd_ ch = None)
  \/ (channels_ (base_ (poller_ n)) !! fd_ ch = Some c /\
      (e <> 0 \/ epoll_watches n (fd_ ch) (events_ ch) c)) ->
  exists idx k,
    change_events f (owner_loop_ (base_ (poller_ n))) c n = Ok (mkNet
      (mkEpollPoller (mkPollerBase (<[fd_ ch := c]> (channels_ (base_ (poller_ n))))
                        (owner_loop_ (base_ (poller_ n)))) k (events_list_ (poller_ n)))
      (<[c := set_index (set_events ch e) idx]> (store_ n))) /\
    epoll_interest k = (if decide (idx = kAdded) then <[fd_ ch := (e, c)]> else delete (fd_ ch))
                         (epoll_interest (epollfd_ (poller_ n))) /\
    (idx = kAdded \/ (idx = kDeleted /\ e = 0)) /\
    (idx = kAdded <-> e <> 0 \/ channels_ (base_ (poller_ n)) !! fd_ ch = None).
Proof.
  intros Hinv Hc Hf He Hcase. unfold change_events, deref. rewrite Hc, bind_Ok, Hf.
  unfold Update. cbn [UpdateChannel epoll_poller]. unfold epoll_UpdateChannel, deref.
  cbn [poller_ store_]. rewrite AssertInLoopThread_own, bind_Ok, lookup_insert_eq, bind_Ok.
  cbn [index_ fd_ set_events].
  pose proof (fun b' k => epoll_add_at n c ch e b' k He) as Hadd.
  destruct Hcase as [[Hidx Hnone]|[Hreg Hw]].
  - rewrite Hidx. cbn [Z.eqb Pos.eqb kNew orb]. rewrite bool_decide_true by done. cbn [assert_].
    rewrite !bind_Ok.
    destruct (ctl_add (epollfd_ (poller_ n)) (fd_ ch) (e, c)) as (k & Hk & Hki);
      [by apply Hinv|].
    exists kAdded, k. rewrite (Hadd _ _ Hk). split; [done|]. split; [by rewrite decide_True|].
    split; [by left|]. naive_solver.
  - destruct (ei_channel n Hinv _ _ Hreg) as (ch0 & Hc0 & _ & Hev & Hent).
    rewrite Hc in Hc0. injection Hc0 as <-.
    assert (mkPollerBase (<[fd_ ch := c]> (channels_ (base_ (poller_ n))))
              (owner_loop_ (base_ (poller_ n))) = base_ (poller_ n)) as Hb.
    { rewrite insert_id by done. by destruct (base_ (poller_ n)). }
    rewrite Hb. destruct Hent as [[Hidx Hin]|(Hidx & Hin & Hz)]; rewrite Hidx; cbn [Z.eqb kAdded kNew
      kDeleted Pos.eqb orb]; rewrite !bool_decide_true by (done || by eexists); cbn [assert_];
      rewrite !bind_Ok.
    + destruct (decide (e = 0)) as [->|Hne].
      * destruct (ctl_del (epollfd_ (poller_ n)) (fd_ ch) (0, c)) as (k & Hk & Hki); [by eexists|].
        exists kDeleted, k. unfold IsNoneEvent. cbn [events_ set_events kNoneEvent Z.eqb].
        erewrite epoll_Update_ok; [|by apply lookup_insert_eq|done|exact Hk|done].
        rewrite bind_Ok. unfold put. cbn. rewrite insert_insert_eq. split; [done|].
        rewrite Hki. split; [done|]. split; [by right|]. rewrite Hreg. naive_solver.
      * destruct (ctl_mod (epollfd_ (poller_ n)) (fd_ ch) (e, c)) as (k & Hk & Hki); [by eexists|].
        exists kAdded, k. unfold IsNoneEvent. cbn [events_ set_events].
        rewrite (proj2 (Z.eqb_neq _ _)) by done.
        erewrite epoll_Update_ok; [|by apply lookup_insert_eq|done|exact Hk|done].
        cbn [poller_ store_]. split.
        { do 3 f_equal. destruct ch; simpl in *. by rewrite Hidx. }
        rewrite decide_True by done. split; [done|]. split; [by left|]. naive_solver.
    + destruct (ctl_add (epollfd_ (poller_ n)) (fd_ ch) (e, c)) as (k & Hk & Hki); [done|].
      exists kAdded, k. rewrite (Hadd _ _ Hk). split; [done|]. rewrite decide_True by done.
      split; [done|]. split; [by left|]. unfold epoll_watches in Hw. rewrite Hin in Hw. naive_solver.
Qed.

Lemma epoll_remove_ok (n : enet) c ch :
  epoll_inv n -> store_ n !! c = Some ch ->
  channels_ (base_ (poller_ n)) !! fd_ ch = Some c ->
  events_ ch = 0 -> (forall e c', ~ epoll_watches n (fd_ ch) e c') ->
  let n' := mkNet (mkEpollPoller (mkPollerBase (delete (fd_ ch) (channels_ (base_ (poller_ n))))
                      (owner_loop_ (base_ (poller_ n)))) (epollfd_ (poller_ n))
                      (events_list_ (poller_ n)))
                  (<[c := set_index ch kNew]> (store_ n)) in
  Remove (owner_loop_ (base_ (poller_ n))) c n = Ok n' /\ epoll_inv n'.
Proof.
  intros Hinv Hc Hreg Hz Hw n'.
  destruct (ei_channel n Hinv _ _ Hreg) as (ch0 & Hc0 & _ & _ & Hent).
  rewrite Hc in Hc0. injection Hc0 as <-.
  assert (index_ ch = kDeleted /\ epoll_interest (epollfd_ (poller_ n)) !! fd_ ch = None)
    as [Hidx Hnone].
  { destruct Hent as [[_ Hin]|(? & ? & _)]; [|done]. by destruct (Hw _ _ Hin). }
  split.
  - unfold Remove. cbn [RemoveChannel epoll_poller]. unfold epoll_RemoveChannel, deref.
    rewrite AssertInLoopThread_own, bind_Ok, Hc, bind_Ok.
    rewrite !bool_decide_true by (done || by eexists). unfold IsNoneEvent.
    rewrite Hz, Hidx. done.
  - destruct Hinv as [Hi Hn]. split; simpl.
    + intros fd c' [Hne Hf]%lookup_delete_Some.
      destruct (Hi _ _ Hf) as (ch' & Hc' & Hfd & He & Hent'). exists ch'.
      rewrite lookup_insert_ne; [done|]. intros <-. congruence.
    + intros fd [<-|Hf]%lookup_delete_None; [done|by apply Hn].
Qed.

Lemma epoll_contract : poller_contract CB (EpollPoller K) epoll_inv epoll_watches.
Proof.
  split; cbn [base epoll_poller].
  - intros n c ch f e Hinv Hc Hfd Hf He Hcase.
    destruct (epoll_update_ok n c ch f e) as (idx & k & H1 & H2 & H3 & H4); [done..|naive_solver|].
    eexists. split; [exact H1|].
    destruct (epoll_updated n c ch e idx k (events_list_ (poller_ n)) Hinv Hc He) as (H5 & H6 & H7 & H8);
      [naive_solver|done|done|].
    split; [exact H5|]. split; [exact H6|]. split; [exact H7|].
    intros fd' e' c'. rewrite H8. destruct (decide (fd' = fd_ ch)); naive_solver.
  - intros n c ch Hinv Hc Hreg Hz Hw.
    destruct (epoll_remove_ok n c ch) as [H1 H2]; [done..|].
    eexists. split; [exact H1|]. split; [exact H2|]. split; [done|]. split; [|done].
    by apply same_channels_index.
  - intros n c ch [Hc Hn] Hfresh. split; [|done]. split; simpl; [|done].
    intros fd c' Hf. destruct (Hc _ _ Hf) as (ch' & Hc' & Hr). exists ch'.
    rewrite lookup_insert_ne; [done|]. intros <-. by apply (Hfresh fd).
Qed.

End EpollOk.

(** C6: EpollPoller meets the contract of a poller.  Whatever calls came
    before, changing the events of a channel on the owner's thread trips no
    assertion and no LOG_FATAL, and afterwards the kernel reports exactly the
    new events of that descriptor to that channel (the index of the channel
    selects EPOLL_CTL_ADD, MOD or DEL correctly), all other descriptors as
    before; a disabled channel can be removed, and its descriptor registered
    again.  A new poller starts in the invariant. *)
Theorem EpollPoller_refines (CB K : Type) `{EpollLaws K} :
  poller_contract CB (EpollPoller K) epoll_inv epoll_watches /\
  forall loop k p store, epoll_interest k = ∅ -> EpollPoller_new loop (Some k) = Ok p ->
    epoll_inv (mkNet p store : net CB _).
Proof.
  split; [apply epoll_contract|]. intros loop k p store Hk [= <-].
  by split; simpl; [done|]; rewrite Hk.
Qed.

Lemma EpollPoller_refines_witness :
  poller_contract nat (EpollPoller (gmap Z (Z * Z))) epoll_inv epoll_watches /\
  forall loop (k : gmap Z (Z * Z)) p store, epoll_interest k = ∅ ->
    EpollPoller_new loop (Some k) = Ok p -> epoll_inv (mkNet p store : net nat _).
Proof. apply (EpollPoller_refines nat (gmap Z (Z * Z))). Defined.

#[export] Instance epoll_poller_contract CB K `{EpollLaws K} : PollerContract CB (EpollPoller K) :=
  {| net_contract := epoll_contract |}.

(** ** PollPoller *)

Lemma removelast_take {A} (l : list A) : removelast l = take (length l - 1) l.
Proof.
  induction l as [|a [|b l] IH]; [done|done|].
  change (removelast (a :: b :: l)) with (a :: removelast (b :: l)). rewrite IH. simpl.
  by rewrite Nat.sub_0_r.
Qed.

Lemma removelast_lookup {A} (l : list A) j :
  (S j < length l)%nat -> removelast l !! j = l !! j.
Proof. intros. rewrite removelast_take. apply lookup_take_lt. lia. Qed.

Lemma length_removelast {A} (l : list A) : length (removelast l) = (length l - 1)%nat.
Proof. rewrite removelast_take, length_take. lia. Qed.

Lemma length_swap_remove l idx :
  (idx < length l)%nat -> length (swap_remove l idx) = (length l - 1)%nat.
Proof.
  intros H. unfold swap_remove. destruct (lookup_lt_is_Some_2 l idx H) as [x Hx].
  rewrite Hx, last_lookup.
  destruct (lookup_lt_is_Some_2 l (pred (length l)) ltac:(lia)) as [y Hy]. rewrite Hy.
  by rewrite length_removelast, !length_insert.
Qed.

Lemma swap_remove_lookup l idx j back :
  (S idx < length l)%nat -> (S j < length l)%nat -> last l = Some back ->
  swap_remove l idx !! j = if decide (j = idx) then Some back else l !! j.
Proof.
  intros Hi Hj Hb. unfold swap_remove.
  destruct (lookup_lt_is_Some_2 l idx ltac:(lia)) as [x Hx]. rewrite Hx, Hb.
  rewrite removelast_lookup by (rewrite !length_insert; lia).
  rewrite list_lookup_insert_ne by lia. case_decide as Hd.
  - subst j. apply list_lookup_insert_eq. lia.
  - by apply list_lookup_insert_ne.
Qed.

Section PollOk.
Context {CB : Type}.
Abbreviation pnet := (net CB PollPoller).
Abbreviation chans n := (channels_ (pbase_ (poller_ n))).
Abbreviation fds n := (poll_fds_ (poller_ n)).

(** The entry of a channel: its descriptor, or [- fd - 1] to be ignored. *)
Definition poll_entry (ch : Channel CB) (pfd : pollfd) : Prop :=
  0 <= fd_ ch /\ 0 <= events_ ch < 2 ^ 15 /\ pfd_events pfd = events_ ch /\
  (pfd_fd pfd = fd_ ch \/ pfd_fd pfd = - fd_ ch - 1 /\ events_ ch = 0).

Record poll_inv (n : pnet) : Prop := {
  pi_channel : forall fd c, chans n !! fd = Some c ->
    exists ch pfd, store_ n !! c = Some ch /\ fd_ ch = fd /\ 0 <= index_ ch /\
      fds n !! Z.to_nat (index_ ch) = Some pfd /\ poll_entry ch pfd;
  pi_entry : forall i pfd, fds n !! i = Some pfd ->
    exists fd c ch, chans n !! fd = Some c /\ store_ n !! c = Some ch /\ index_ ch = Z.of_nat i;
  pi_size : length (fds n) = size (chans n) /\ zlen (fds n) < 2 ^ 31
}.

Definition poll_watches (n : pnet) (fd e c : Z) : Prop :=
  chans n !! fd = Some c /\ exists ch pfd, store_ n !! c = Some ch /\
    fds n !! Z.to_nat (index_ ch) = Some pfd /\ pfd_fd pfd = fd /\ pfd_events pfd = e.

(** The channel of an entry is unique: the entry names its descriptor. *)
Lemma poll_entry_fd ch1 ch2 pfd : poll_entry ch1 pfd -> poll_entry ch2 pfd -> fd_ ch1 = fd_ ch2.
Proof. unfold poll_entry. intros. lia. Qed.

Lemma pi_other (n : pnet) c ch fd c' ch' :
  poll_inv n -> chans n !! fd_ ch = Some c -> store_ n !! c = Some ch ->
  chans n !! fd = Some c' -> store_ n !! c' = Some ch' -> fd <> fd_ ch ->
  c' <> c /\ Z.to_nat (index_ ch') <> Z.to_nat (index_ ch).
Proof.
  intros Hinv H1 Hs1 H2 Hs2 Hne.
  destruct (pi_channel n Hinv _ _ H1) as (ch1 & p1 & E1 & F1 & _ & L1 & P1).
  destruct (pi_channel n Hinv _ _ H2) as (ch2 & p2 & E2 & F2 & _ & L2 & P2).
  simplify_eq. split; [congruence|]. intros E. rewrite E in L2. simplify_eq.
  by pose proof (poll_entry_fd _ _ _ P1 P2).
Qed.

(** A new channel goes to the end of the vector. *)
(** The net in which a new channel has the last entry. *)
Definition poll_added (n : pnet) (c : Z) (ch : Channel CB) (e : Z) : pnet :=
  mkNet (mkPollPoller (mkPollerBase (<[fd_ ch := c]> (chans n)) (owner_loop_ (pbase_ (poller_ n))))
           (fds n ++ [mkPollfd (fd_ ch) e 0]))
        (<[c := set_index (set_events ch e) (zlen (fds n))]> (store_ n)).

Lemma poll_fresh (n : pnet) c ch :
  poll_inv n -> store_ n !! c = Some ch -> chans n !! fd_ ch = None ->
  forall fd c', chans n !! fd = Some c' -> fd <> fd_ ch /\ c' <> c.
Proof.
  intros Hinv Hc Hnone fd c' Hf. split; [congruence|]. intros ->.
  destruct (pi_channel n Hinv _ _ Hf) as (ch1 & _ & E1 & F1 & _). congruence.
Qed.

Lemma fds_last (n : pnet) p : (fds n ++ [p]) !! Z.to_nat (zlen (fds n)) = Some p.
Proof. rewrite lookup_app_r by lia. by replace (_ - _)%nat with 0%nat by lia. Qed.

Lemma poll_add_inv (n : pnet) c ch e :
  poll_inv n -> store_ n !! c = Some ch -> 0 <= fd_ ch -> 0 <= e < 2 ^ 15 ->
  chans n !! fd_ ch = None -> Z.of_nat (size (chans n)) < 2 ^ 31 - 1 ->
  poll_inv (poll_added n c ch e).
Proof.
  intros Hinv Hc Hfd He Hnone Hsz. pose proof (poll_fresh n c ch Hinv Hc Hnone) as Hother.
  pose proof (fds_last n (mkPollfd (fd_ ch) e 0)) as Hlast. unfold poll_added.
  destruct (pi_size n Hinv) as [Hs1 Hs2]. split; simpl.
  - intros fd c'. destruct (decide (fd = fd_ ch)) as [->|Hne].
    + rewrite lookup_insert_eq. intros [= <-]. rewrite lookup_insert_eq.
      eexists _, _. split; [done|]. split; [done|]. cbn [index_ set_index]. split; [lia|].
      split; [exact Hlast|]. split; [done|]. split; [done|]. split; [done|]. by left.
    + rewrite lookup_insert_ne by done. intros Hf.
      destruct (pi_channel n Hinv _ _ Hf) as (ch1 & p1 & E1 & F1 & G1 & L1 & P1).
      exists ch1, p1. rewrite lookup_insert_ne by (intros <-; by destruct (Hother _ _ Hf)).
      rewrite lookup_app_l by by eapply lookup_lt_Some. done.
  - intros i pfd [Hi|[Hi Hp]]%lookup_app_Some.
    + destruct (pi_entry n Hinv _ _ Hi) as (fd & c' & ch' & H1 & H2 & H3).
      exists fd, c', ch'. pose proof (Hother _ _ H1) as [? ?].
      by rewrite !lookup_insert_ne by congruence.
    + apply list_lookup_singleton_Some in Hp as [Hp <-].
      exists (fd_ ch), c, (set_index (set_events ch e) (zlen (fds n))).
      rewrite !lookup_insert_eq. cbn [index_ set_index].
      split; [done|]. split; [done|]. lia.
  - rewrite length_app, map_size_insert_None by done. simpl. lia.
Qed.

Lemma poll_add_watches (n : pnet) c ch e :
  poll_inv n -> store_ n !! c = Some ch -> 0 <= fd_ ch -> 0 <= e < 2 ^ 15 ->
  chans n !! fd_ ch = None -> Z.of_nat (size (chans n)) < 2 ^ 31 - 1 ->
  forall fd' e' c', poll_watches (poll_added n c ch e) fd' e' c' <->
    if decide (fd' = fd_ ch) then c' = c /\ e' = e else poll_watches n fd' e' c'.
Proof.
  intros Hinv Hc Hfd He Hnone Hsz. pose proof (poll_fresh n c ch Hinv Hc Hnone) as Hother.
  pose proof (fds_last n (mkPollfd (fd_ ch) e 0)) as Hlast. unfold poll_added.
  intros fd' e' c'. unfold poll_watches. cbn [poller_ pbase_ poll_fds_ channels_ store_].
  destruct (decide (fd' = fd_ ch)) as [->|Hne].
  - rewrite lookup_insert_eq. split.
    + intros [[= <-] (ch1 & p & Hs & Hl & _ & Hp)]. rewrite lookup_insert_eq in Hs. simplify_eq.
      cbn [index_ set_index] in Hl. rewrite Hlast in Hl. by simplify_eq.
    + intros [-> ->]. split; [done|]. rewrite lookup_insert_eq. eexists _, _.
      split; [done|]. cbn [index_ set_index]. by rewrite Hlast.
  - rewrite lookup_insert_ne by done. split; intros [Hf (ch1 & p & Hs & Hl & Hp)];
      (split; [done|]); pose proof (Hother _ _ Hf) as [_ Hn]; exists ch1, p.
    + rewrite lookup_insert_ne in Hs by congruence.
      destruct (pi_channel n Hinv _ _ Hf) as (ch2 & p2 & E2 & _ & _ & L2 & _).
      rewrite lookup_app_l in Hl; [done|]. simplify_eq. by eapply lookup_lt_Some.
    + rewrite lookup_insert_ne by congruence. split; [done|].
      rewrite lookup_app_l by by eapply lookup_lt_Some. done.
Qed.

Lemma poll_add_ok (n : pnet) c ch e :
  poll_inv n -> store_ n !! c = Some ch -> 0 <= fd_ ch -> 0 <= e < 2 ^ 15 ->
  chans n !! fd_ ch = None -> Z.of_nat (size (chans n)) < 2 ^ 31 - 1 ->
  let n' := poll_added n c ch e in
  poll_inv n' /\ forall fd' e' c', poll_watches n' fd' e' c' <->
    if decide (fd' = fd_ ch) then c' = c /\ e' = e else poll_watches n fd' e' c'.
Proof. intros. split; [by apply poll_add_inv|by apply poll_add_watches]. Qed.

(** A registered channel rewrites its own entry. *)
(** The net in which the entry of a channel that [poll_fds_] has is written anew. *)
Definition poll_changed (n : pnet) (c : Z) (ch : Channel CB) (e fd0 : Z) : pnet :=
  mkNet (mkPollPoller (pbase_ (poller_ n)) (<[Z.to_nat (index_ ch) := mkPollfd fd0 e 0]> (fds n)))
        (<[c := set_events ch e]> (store_ n)).

Lemma poll_change_inv (n : pnet) c ch e fd0 :
  poll_inv n -> store_ n !! c = Some ch -> 0 <= e < 2 ^ 15 -> chans n !! fd_ ch = Some c ->
  fd0 = (if e =? 0 then - fd_ ch - 1 else fd_ ch) ->
  poll_inv (poll_changed n c ch e fd0).
Proof.
  intros Hinv Hc He Hreg Hfd0. destruct (pi_channel n Hinv _ _ Hreg) as (ch1 & p1 & E1 & _ & G1 & L1 & (Hfd & Hev & _ & _)).
  simplify_eq. pose proof (lookup_lt_Some _ _ _ L1) as Hlt. unfold poll_changed.
  assert (Hown : <[Z.to_nat (index_ ch) := mkPollfd (if e =? 0 then - fd_ ch - 1 else fd_ ch) e 0]> (fds n)
    !! Z.to_nat (index_ ch) = Some (mkPollfd (if e =? 0 then - fd_ ch - 1 else fd_ ch) e 0))
    by by apply list_lookup_insert_eq.
  split; simpl.
  - intros fd c' Hf. destruct (decide (fd = fd_ ch)) as [->|Hne].
    + rewrite Hreg in Hf. injection Hf as <-. rewrite lookup_insert_eq.
      eexists _, _. split; [done|]. split; [done|]. split; [done|]. split; [exact Hown|].
      split; [done|]. split; [done|]. split; [done|]. simpl.
      destruct (Z.eqb_spec e 0); [by right|by left].
    + destruct (pi_channel n Hinv _ _ Hf) as (ch2 & p2 & E2 & F2 & G2 & L2 & P2).
      destruct (pi_other n c ch fd c' ch2 Hinv Hreg Hc Hf E2 Hne) as [Hcc Hii].
      exists ch2, p2. rewrite lookup_insert_ne by congruence.
      by rewrite list_lookup_insert_ne by congruence.
  - intros i pfd Hi.
    assert (exists pfd, fds n !! i = Some pfd) as [pfd' Hi'].
    { apply lookup_lt_is_Some_2. apply lookup_lt_Some in Hi. by rewrite length_insert in Hi. }
    destruct (pi_entry n Hinv _ _ Hi') as (fd & c' & ch' & H1 & H2 & H3).
    destruct (decide (c = c')) as [<-|Hcc].
    + exists fd, c, (set_events ch e). rewrite lookup_insert_eq. by simplify_eq.
    + exists fd, c', ch'. by rewrite lookup_insert_ne.
  - rewrite length_insert. apply Hinv.
Qed.

Lemma poll_change_watches (n : pnet) c ch e fd0 :
  poll_inv n -> store_ n !! c = Some ch -> 0 <= e < 2 ^ 15 -> chans n !! fd_ ch = Some c ->
  fd0 = (if e =? 0 then - fd_ ch - 1 else fd_ ch) ->
  forall fd' e' c', poll_watches (poll_changed n c ch e fd0) fd' e' c' <->
    if decide (fd' = fd_ ch) then c' = c /\ e' = e /\ e <> 0 else poll_watches n fd' e' c'.
Proof.
  intros Hinv Hc He Hreg Hfd0. destruct (pi_channel n Hinv _ _ Hreg) as (ch1 & p1 & E1 & _ & G1 & L1 & (Hfd & Hev & _ & _)).
  simplify_eq. pose proof (lookup_lt_Some _ _ _ L1) as Hlt. unfold poll_changed.
  assert (Hown : <[Z.to_nat (index_ ch) := mkPollfd (if e =? 0 then - fd_ ch - 1 else fd_ ch) e 0]> (fds n)
    !! Z.to_nat (index_ ch) = Some (mkPollfd (if e =? 0 then - fd_ ch - 1 else fd_ ch) e 0))
    by by apply list_lookup_insert_eq.
  intros fd' e' c'. unfold poll_watches. cbn [poller_ pbase_ poll_fds_ channels_ store_].
  destruct (decide (fd' = fd_ ch)) as [->|Hne].
  - rewrite Hreg. split.
    + intros [[= <-] (ch1 & p & Hs & Hl & Hp1 & Hp2)]. rewrite lookup_insert_eq in Hs. simplify_eq.
      cbn [index_ set_events] in Hl. rewrite Hown in Hl. simplify_eq. simpl in *.
      destruct (Z.eqb_spec e 0); [lia|done].
    + intros (-> & -> & Hz). split; [done|]. rewrite lookup_insert_eq. eexists _, _.
      split; [done|]. cbn [index_ set_events]. rewrite Hown. simpl.
      by rewrite (proj2 (Z.eqb_neq _ _)).
  - split; intros [Hf (ch2 & p & Hs & Hl & Hp)]; (split; [done|]); exists ch2, p;
      destruct (pi_channel n Hinv _ _ Hf) as (ch3 & p3 & E3 & _ & _ & L3 & _);
      destruct (pi_other n c ch fd' c' ch3 Hinv Hreg Hc Hf E3 Hne) as [Hcc Hii].
    + rewrite lookup_insert_ne in Hs by congruence. simplify_eq.
      by rewrite list_lookup_insert_ne in Hl.
    + rewrite lookup_insert_ne by congruence. simplify_eq.
      by rewrite list_lookup_insert_ne.
Qed.

Lemma poll_change_ok (n : pnet) c ch e fd0 :
  poll_inv n -> store_ n !! c = Some ch -> 0 <= e < 2 ^ 15 -> chans n !! fd_ ch = Some c ->
  fd0 = (if e =? 0 then - fd_ ch - 1 else fd_ ch) ->
  let n' := poll_changed n c ch e fd0 in
  poll_inv n' /\ forall fd' e' c', poll_watches n' fd' e' c' <->
    if decide (fd' = fd_ ch) then c' = c /\ e' = e /\ e <> 0 else poll_watches n fd' e' c'.
Proof. intros. split; [by apply poll_change_inv|by apply poll_change_watches]. Qed.

(** Whatever replaces the entry of a removed channel: every other channel
    keeps an entry, found at its possibly new index. *)
Lemma poll_removed (n : pnet) c ch pf st :
  poll_inv n -> store_ n !! c = Some ch -> chans n !! fd_ ch = Some c ->
  length pf = (length (fds n) - 1)%nat -> same_channels (store_ n) st ->
  (forall fd c' ch', chans n !! fd = Some c' -> fd <> fd_ ch -> store_ n !! c' = Some ch' ->
     exists ch2, st !! c' = Some ch2 /\ 0 <= index_ ch2 /\
       pf !! Z.to_nat (index_ ch2) = fds n !! Z.to_nat (index_ ch')) ->
  (forall i pfd, pf !! i = Some pfd -> exists fd c' ch',
     chans n !! fd = Some c' /\ fd <> fd_ ch /\ st !! c' = Some ch' /\ index_ ch' = Z.of_nat i) ->
  let n' := mkNet (mkPollPoller (mkPollerBase (delete (fd_ ch) (chans n))
                     (owner_loop_ (pbase_ (poller_ n)))) pf) st in
  (forall e c', ~ poll_watches n (fd_ ch) e c') ->
  poll_inv n' /\ forall fd' e' c', poll_watches n' fd' e' c' <-> poll_watches n fd' e' c'.
Proof.
  intros Hinv Hc Hreg Hlen Hsame Hmoved Hentry n' Hw. split.
  - destruct (pi_size n Hinv) as [Hs1 Hs2]. split; simpl.
    + intros fd c' [Hne Hf]%lookup_delete_Some.
      destruct (pi_channel n Hinv _ _ Hf) as (ch1 & p1 & E1 & F1 & G1 & L1 & P1).
      destruct (Hmoved fd c' ch1 Hf ltac:(done) E1) as (ch2 & E2 & G2 & L2).
      destruct (same_channels_lookup _ _ _ _ Hsame E1) as (i & Hi).
      exists ch2, p1. rewrite E2 in Hi. injection Hi as ->. rewrite L2. done.
    + intros i pfd Hi. destruct (Hentry _ _ Hi) as (fd & c' & ch' & H1 & H2 & H3).
      exists fd, c', ch'. by rewrite lookup_delete_ne.
    + rewrite map_size_delete_Some by by eexists. lia.
  - intros fd' e' c'. unfold poll_watches, n'. cbn [poller_ pbase_ poll_fds_ channels_ store_].
    destruct (decide (fd' = fd_ ch)) as [->|Hne].
    { rewrite lookup_delete_eq. split; [by intros [? _]|].
      intros H. by destruct (Hw e' c'). }
    rewrite lookup_delete_ne by done.
    split; intros [Hf (ch1 & p & Hs & Hl & Hp)]; (split; [done|]);
      destruct (pi_channel n Hinv _ _ Hf) as (ch2 & p2 & E2 & F2 & G2 & L2 & P2);
      destruct (Hmoved fd' c' ch2 Hf Hne E2) as (ch3 & E3 & G3 & L3); simplify_eq.
    + exists ch2, p. by rewrite <- L3.
    + exists ch3, p. by rewrite L3.
Qed.

(** Every channel but the last entry's keeps its index. *)
Lemma poll_pop_ok (n : pnet) c ch :
  poll_inv n -> store_ n !! c = Some ch -> chans n !! fd_ ch = Some c ->
  index_ ch = zlen (fds n) - 1 -> (forall e c', ~ poll_watches n (fd_ ch) e c') ->
  let n' := mkNet (mkPollPoller (mkPollerBase (delete (fd_ ch) (chans n))
                     (owner_loop_ (pbase_ (poller_ n)))) (removelast (fds n))) (store_ n) in
  poll_inv n' /\ forall fd' e' c', poll_watches n' fd' e' c' <-> poll_watches n fd' e' c'.
Proof.
  intros Hinv Hc Hreg Hidx Hw. apply (poll_removed n c ch); try done.
  - apply length_removelast.
  - intros fd c' ch' Hf Hne Hc'. exists ch'.
    destruct (pi_other n c ch fd c' ch' Hinv Hreg Hc Hf Hc' Hne) as [_ Hii].
    destruct (pi_channel n Hinv _ _ Hf) as (ch1 & p1 & E1 & F1 & G1 & L1 & P1). simplify_eq.
    apply lookup_lt_Some in L1. rewrite removelast_lookup by lia. done.
  - intros i pfd Hi.
    assert (S i < length (fds n))%nat as Hlt.
    { apply lookup_lt_Some in Hi. rewrite length_removelast in Hi. lia. }
    rewrite removelast_lookup in Hi by lia.
    destruct (pi_entry n Hinv _ _ Hi) as (fd & c' & ch' & H1 & H2 & H3).
    exists fd, c', ch'. split; [done|]. split; [|done]. intros ->. simplify_eq. lia.
Qed.

(** The channel of the last entry moves to the hole. *)
Lemma poll_swap_ok (n : pnet) c ch back moved mch :
  poll_inv n -> store_ n !! c = Some ch -> chans n !! fd_ ch = Some c ->
  0 <= index_ ch < zlen (fds n) - 1 -> last (fds n) = Some back ->
  (exists fd, chans n !! fd = Some moved /\ fd <> fd_ ch) ->
  store_ n !! moved = Some mch -> index_ mch = zlen (fds n) - 1 ->
  (forall e c', ~ poll_watches n (fd_ ch) e c') ->
  let n' := mkNet (mkPollPoller (mkPollerBase (delete (fd_ ch) (chans n))
                     (owner_loop_ (pbase_ (poller_ n))))
                     (swap_remove (fds n) (Z.to_nat (index_ ch))))
              (<[moved := set_index mch (index_ ch)]> (store_ n)) in
  poll_inv n' /\ forall fd' e' c', poll_watches n' fd' e' c' <-> poll_watches n fd' e' c'.
Proof.
  intros Hinv Hc Hreg Hidx Hback (mfd & Hm & Hmne) Hmch Hmidx Hw.
  pose proof Hback as Hback2. rewrite last_lookup in Hback2.
  apply (poll_removed n c ch); try done.
  - apply length_swap_remove. lia.
  - by apply same_channels_index.
  - intros fd c' ch' Hf Hne Hc'.
    destruct (pi_other n c ch fd c' ch' Hinv Hreg Hc Hf Hc' Hne) as [_ Hii].
    destruct (pi_channel n Hinv _ _ Hf) as (ch1 & p1 & E1 & F1 & G1 & L1 & P1). simplify_eq.
    pose proof (lookup_lt_Some _ _ _ L1) as Hlt.
    destruct (decide (c' = moved)) as [->|Hcm].
    + rewrite lookup_insert_eq. eexists. split; [done|]. cbn [index_ set_index].
      split; [lia|]. simplify_eq.
      rewrite (swap_remove_lookup _ _ _ back) by (done || lia). rewrite decide_True by done.
      rewrite Hmidx. rewrite <- Hback2. f_equal. lia.
    + exists ch'. rewrite lookup_insert_ne by done. split; [done|]. split; [done|].
      assert (Z.to_nat (index_ ch') <> Z.to_nat (index_ mch)) as Hjm.
      { destruct (decide (fd_ ch' = mfd)) as [E|Hfm]; [congruence|].
        destruct (pi_channel n Hinv _ _ Hm) as (ch3 & p3 & E3 & F3 & _). simplify_eq.
        by apply (pi_other n moved mch (fd_ ch') c' ch'). }
      rewrite (swap_remove_lookup _ _ _ back) by (done || lia). by rewrite decide_False.
  - intros i pfd Hi.
    assert (S i < length (fds n))%nat as Hlt.
    { apply lookup_lt_Some in Hi. rewrite length_swap_remove in Hi by lia. lia. }
    rewrite (swap_remove_lookup _ _ _ back) in Hi by (done || lia). case_decide as Hd.
    + exists mfd, moved, (set_index mch (index_ ch)). rewrite lookup_insert_eq.
      cbn [index_ set_index]. split; [done|]. split; [done|]. split; [done|]. lia.
    + destruct (pi_entry n Hinv _ _ Hi) as (fd & c' & ch' & H1 & H2 & H3).
      exists fd, c', ch'. split; [done|]. split; [intros ->; simplify_eq; lia|].
      rewrite lookup_insert_ne; [done|]. intros <-. simplify_eq. lia.
Qed.

Lemma assert_registered_ok b fd c : channels_ b !! fd = Some c -> assert_registered b fd c = Ok tt.
Proof.
  intros H. unfold assert_registered. rewrite H, !bool_decide_true; [done|done|by eexists].
Qed.

Lemma poll_update_contract (n : pnet) c ch f e :
  let b := pbase_ (poller_ n) in
  poll_inv n -> store_ n !! c = Some ch -> 0 <= fd_ ch -> f (events_ ch) = e -> 0 <= e < 2 ^ 15 ->
  (index_ ch = -1 /\ channels_ b !! fd_ ch = None /\ Z.of_nat (size (channels_ b)) < 2 ^ 31 - 1)
  \/ (channels_ b !! fd_ ch = Some c /\ (e <> 0 \/ poll_watches n (fd_ ch) (events_ ch) c)) ->
  exists n', change_events f (owner_loop_ b) c n = Ok n' /\ poll_inv n' /\
    pbase_ (poller_ n') = mkPollerBase (<[fd_ ch := c]> (channels_ b)) (owner_loop_ b) /\
    same_channels (<[c := set_events ch e]> (store_ n)) (store_ n') /\
    forall fd' e' c', poll_watches n' fd' e' c' <->
      if decide (fd' = fd_ ch)
      then c' = c /\ e' = e /\ (e <> 0 \/ channels_ b !! fd_ ch = None)
      else poll_watches n fd' e' c'.
Proof.
  intros b Hinv Hc Hfd Hf He Hcase. unfold change_events, deref, Update.
  rewrite Hc, bind_Ok, Hf. cbn [UpdateChannel poll_poller]. unfold poll_UpdateChannel, deref.
  cbn [poller_ store_]. fold b.
  rewrite AssertInLoopThread_own, bind_Ok, lookup_insert_eq, bind_Ok.
  cbn [index_ fd_ events_ set_events]. rewrite (swrap_small 16) by lia.
  destruct (pi_size n Hinv) as [Hs1 Hs2].
  destruct Hcase as [(Hidx & Hnone & Hsz)|[Hreg Hw]].
  - rewrite Hidx. cbn [Z.ltb Z.compare]. rewrite bool_decide_true by done. cbn [assert_].
    rewrite bind_Ok. cbn [pfd_fd]. rewrite insert_insert_eq.
    replace (s32 (zlen (fds n ++ [mkPollfd (fd_ ch) e 0])) - 1) with (zlen (fds n)).
    2:{ unfold b in Hsz. rewrite length_app. simpl. rewrite swrap_small by lia. lia. }
    destruct (poll_add_ok n c ch e) as [H1 H2]; [done..|].
    eexists. split; [reflexivity|]. split; [exact H1|]. split; [done|]. split.
    + intros c'. cbn [store_]. destruct (decide (c = c')) as [<-|Hcc].
      * rewrite !lookup_insert_eq. reflexivity.
      * rewrite !lookup_insert_ne by done. reflexivity.
    + intros fd' e' c'. etransitivity; [apply H2|].
      destruct (decide (fd' = fd_ ch)); naive_solver.
  - destruct (pi_channel n Hinv _ _ Hreg) as (ch1 & p1 & E1 & F1 & G1 & L1 & P1). simplify_eq.
    pose proof (lookup_lt_Some _ _ _ L1) as Hlt.
    rewrite (proj2 (Z.ltb_ge _ _)) by lia. rewrite assert_registered_ok by done.
    rewrite bind_Ok. rewrite swrap_small by lia.
    rewrite (proj2 (Z.leb_le _ _)), (proj2 (Z.ltb_lt _ _)) by lia. cbn [andb assert_].
    rewrite bind_Ok, L1.
    assert ((pfd_fd p1 =? fd_ ch) || (pfd_fd p1 =? - fd_ ch - 1) = true) as ->.
    { destruct P1 as (_ & _ & _ & [->|[-> _]]); rewrite ?Z.eqb_refl; [done|by rewrite orb_true_r]. }
    cbn [assert_]. rewrite bind_Ok.
    destruct (poll_change_ok n c ch (f (events_ ch)) _ Hinv Hc He Hreg eq_refl) as [H1 H2].
    eexists. split; [reflexivity|]. split; [exact H1|]. split.
    { simpl. rewrite insert_id by done. unfold b. by destruct (pbase_ (poller_ n)). }
    split; [done|].
    intros fd' e' c'. etransitivity; [apply H2|]. unfold b in *. destruct (decide (fd' = fd_ ch)); naive_solver.
Qed.

Lemma poll_remove_contract (n : pnet) c ch :
  let b := pbase_ (poller_ n) in
  poll_inv n -> store_ n !! c = Some ch -> channels_ b !! fd_ ch = Some c ->
  events_ ch = 0 -> (forall e c', ~ poll_watches n (fd_ ch) e c') ->
  exists n', Remove (owner_loop_ b) c n = Ok n' /\ poll_inv n' /\
    pbase_ (poller_ n') = mkPollerBase (delete (fd_ ch) (channels_ b)) (owner_loop_ b) /\
    same_channels (store_ n) (store_ n') /\
    forall fd' e' c', poll_watches n' fd' e' c' <-> poll_watches n fd' e' c'.
Proof.
  intros b Hinv Hc Hreg Hz Hw. destruct (pi_size n Hinv) as [Hs1 Hs2].
  destruct (pi_channel n Hinv _ _ Hreg) as (ch1 & p1 & E1 & F1 & G1 & L1 & P1).
  rewrite Hc in E1. injection E1 as <-. pose proof (lookup_lt_Some _ _ _ L1) as Hlt.
  assert (pfd_fd p1 = - fd_ ch - 1 /\ pfd_events p1 = events_ ch) as [Hp1 Hp2].
  { destruct P1 as (_ & _ & He & [Hp|[Hp _]]); [|done].
    destruct (Hw (events_ ch) c). split; [done|]. by exists ch, p1. }
  unfold Remove. cbn [RemoveChannel poll_poller]. unfold poll_RemoveChannel, deref.
  fold b. rewrite AssertInLoopThread_own, bind_Ok, Hc, bind_Ok, assert_registered_ok, bind_Ok by done.
  unfold IsNoneEvent. rewrite Hz. cbn [Z.eqb kNoneEvent assert_]. rewrite bind_Ok.
  rewrite swrap_small by lia.
  rewrite (proj2 (Z.leb_le _ _)), (proj2 (Z.ltb_lt _ _)) by lia. cbn [andb assert_].
  rewrite bind_Ok, L1, Hp1, Hp2, Hz, !Z.eqb_refl. cbn [andb assert_]. rewrite bind_Ok.
  rewrite uwrap_small by lia. destruct (Z.eqb_spec (index_ ch) (zlen (fds n) - 1)) as [Hi|Hi].
  - destruct (poll_pop_ok n c ch Hinv Hc Hreg Hi Hw) as [H1 H2].
    eexists. split; [reflexivity|]. split; [exact H1|]. by split.
  - destruct (last (fds n)) as [back|] eqn:Hback.
    2:{ apply last_None in Hback. rewrite Hback in Hlt. simpl in Hlt. lia. }
    pose proof Hback as Hb2. rewrite last_lookup in Hb2.
    destruct (pi_entry n Hinv _ _ Hb2) as (mfd & moved & mch & M1 & M2 & M3).
    destruct (pi_channel n Hinv _ _ M1) as (mch1 & p2 & E2 & F2 & G2 & L2 & P2).
    rewrite M2 in E2. injection E2 as <-. rewrite M3, Nat2Z.id, Hb2 in L2. injection L2 as <-.
    assert (mfd <> fd_ ch) as Hmne.
    { intros ->. unfold b in Hreg. simplify_eq. lia. }
    assert ((if pfd_fd back <? 0 then - pfd_fd back - 1 else pfd_fd back) = mfd) as ->.
    { destruct P2 as (? & _ & _ & [->|[-> _]]); destruct (Z.ltb_spec (fd_ mch) 0);
        destruct (Z.ltb_spec (- fd_ mch - 1) 0); lia. }
    rewrite lookup_delete_ne by done. unfold b. rewrite M1, M2, bind_Ok.
    destruct (poll_swap_ok n c ch back moved mch Hinv Hc Hreg) as [H1 H2];
      [lia|done|by exists mfd|done|lia|done|].
    eexists. split; [reflexivity|]. split; [exact H1|]. split; [done|]. split; [|exact H2].
    by apply same_channels_index.
Qed.

Lemma poll_fresh_contract (n : pnet) c ch :
  poll_inv n -> (forall fd, chans n !! fd <> Some c) ->
  let n' := mkNet (poller_ n) (<[c := ch]> (store_ n)) in
  poll_inv n' /\ forall fd' e' c', poll_watches n' fd' e' c' <-> poll_watches n fd' e' c'.
Proof.
  intros [H1 H2 H3] Hfresh n'.
  assert (Hne : forall fd c', chans n !! fd = Some c' -> <[c := ch]> (store_ n) !! c' = store_ n !! c').
  { intros fd c' Hf. apply lookup_insert_ne. intros <-. by apply (Hfresh fd). }
  split; [split; simpl|].
  - intros fd c' Hf. rewrite (Hne fd c' Hf). by apply H1.
  - intros i pfd Hi. destruct (H2 i pfd Hi) as (fd & c' & ch' & G1 & G2 & G3).
    exists fd, c', ch'. by rewrite (Hne fd c' G1).
  - done.
  - intros fd e c'. unfold poll_watches, n'. cbn [poller_ store_].
    split; intros [Hf Hr]; (split; [exact Hf|]); by rewrite (Hne fd c' Hf) in *.
Qed.

Lemma pollpoller_contract : poller_contract CB PollPoller poll_inv poll_watches.
Proof.
  split; cbn [base poll_poller];
    [apply poll_update_contract|apply poll_remove_contract|apply poll_fresh_contract].
Qed.

End PollOk.

(** C15: PollPoller meets the same contract.  The vector given to poll(2) and the
    channels stay in step: every registered channel has the one entry its index
    says, with its events, and the descriptor is negated when there are none;
    removing a channel moves the last entry into the hole and updates that
    channel's index; no assertion fails, no index is out of range. *)
Theorem PollPoller_refines (CB : Type) :
  poller_contract CB PollPoller poll_inv poll_watches /\
  forall loop store, poll_inv (mkNet (PollPoller_new loop) store : net CB _).
Proof. split; [apply pollpoller_contract|]. intros loop store. by split. Qed.

#[export] Instance poll_poller_contract CB : PollerContract CB PollPoller :=
  {| net_contract := pollpoller_contract |}.

(** ** Poll *)

Section EpollPoll.
Context {CB K : Type}.

(** [revents_] of a channel after the reported events were stored in turn. *)
Fixpoint fill_store (l : list (Z * Z)) (store : gmap Z (Channel CB)) : gmap Z (Channel CB) :=
  match l with
  | [] => store
  | (ev, c) :: l => fill_store l (alter (fun ch => set_revents ch ev) c store)
  end.

Lemma epoll_fill_ok l active (store : gmap Z (Channel CB)) :
  Forall (fun p : Z * Z => 0 <= fst p < 2 ^ 31 /\ is_Some (store !! snd p)) l ->
  epoll_fill l active store = Ok (active ++ l.*2, fill_store l store).
Proof.
  revert active store. induction l as [|[ev c] l IH]; intros active store Hl.
  - by rewrite app_nil_r.
  - apply Forall_cons in Hl as [[Hev [ch Hc]] Hl]. cbn [fst snd] in *.
    cbn [epoll_fill]. unfold deref. rewrite Hc, bind_Ok, swrap_small by lia.
    assert (<[c := set_revents ch ev]> store = alter (fun ch => set_revents ch ev) c store) as ->.
    { apply map_eq. intros c'. destruct (decide (c = c')) as [<-|Hne].
      - by rewrite lookup_insert_eq, lookup_alter_eq, Hc.
      - by rewrite lookup_insert_ne, lookup_alter_ne. }
    rewrite IH.
    + cbn [fmap list_fmap snd fill_store]. by rewrite <- app_assoc.
    + eapply Forall_impl; [exact Hl|]. intros [ev' c'] [? [ch' Hc']]. split; [done|].
      simpl in *. destruct (decide (c = c')) as [<-|Hne].
      * rewrite lookup_alter_eq, Hc'. by eexists.
      * rewrite lookup_alter_ne by done. by eexists.
Qed.

(** C28: [EpollPoller::Poll] hands over what the kernel reports: the channels of
    the ready events are appended to the active list in the kernel's order,
    each with its events stored, and the event array doubles when it was full.
    When [epoll_wait] fails the result, -1, is stored in a [size_t], so the
    branch for events is taken (the branch that reports the error never is);
    nothing is read, no channel becomes active and nothing changes. *)
Theorem epoll_Poll_reports (n : net CB (EpollPoller K)) (active : list Z) :
  zlen (events_list_ (poller_ n)) <= 2 ^ 31 - 1 ->
  (forall l, (length l <= length (events_list_ (poller_ n)))%nat ->
     Forall (fun p : Z * Z => 0 <= fst p < 2 ^ 31 /\ is_Some (store_ n !! snd p)) l ->
     exists n', epoll_Poll (Ready l) n active = Ok (active ++ l.*2, n') /\
       store_ n' = fill_store l (store_ n) /\
       base_ (poller_ n') = base_ (poller_ n) /\ epollfd_ (poller_ n') = epollfd_ (poller_ n) /\
       length (events_list_ (poller_ n')) =
         ((if decide (length l = length (events_list_ (poller_ n)) /\ l <> [])
           then 2 else 1) * length (events_list_ (poller_ n)))%nat) /\
  (forall errno, epoll_Poll (WaitError errno) n active = Ok (active, n) /\ 0 < u64 (-1)).
Proof.
  intros Hlen. split.
  - intros l Hl Hok. unfold epoll_Poll. rewrite uwrap_small by lia.
    assert (length (l ++ drop (length l) (events_list_ (poller_ n)))
      = length (events_list_ (poller_ n))) as Hlen'.
    { rewrite length_app, length_drop. lia. }
    destruct (Z.ltb_spec 0 (zlen l)) as [Hpos|Hz].
    + rewrite swrap_small by lia. rewrite Nat2Z.id, take_app_length, epoll_fill_ok by done.
      rewrite bind_Ok. eexists. split; [reflexivity|]. split; [done|].
      rewrite Hlen'. destruct (Z.eqb_spec (zlen l) (zlen (events_list_ (poller_ n)))) as [E|E].
      * do 2 (split; [done|]). simpl. rewrite length_app, length_replicate, Hlen'.
        rewrite decide_True; [lia|]. split; [lia|]. by destruct l.
      * do 2 (split; [done|]). simpl events_list_. rewrite Hlen'. rewrite decide_False by lia. lia.
    + destruct l; [|simpl in Hz; lia]. eexists. split; [rewrite app_nil_r; reflexivity|].
      do 3 (split; [done|]). simpl. rewrite decide_False by naive_solver. rewrite drop_0. lia.
  - intros errno. split; [|done]. unfold epoll_Poll. cbn [mbind].
    change (u64 (-1)) with (2 ^ 64 - 1). change (s32 (2 ^ 64 - 1)) with (-1).
    rewrite (proj2 (Z.ltb_lt _ _)) by lia. cbn [Z.to_nat take epoll_fill].
    change (Z.to_nat (-1)) with 0%nat. rewrite take_0. cbn [epoll_fill]. rewrite bind_Ok.
    rewrite (proj2 (Z.eqb_neq _ _)) by lia. by destruct n as [[] ?].
Qed.

End EpollPoll.

Lemma epoll_Poll_reports_witness :
  let p := mkEpollPoller (PollerBase_new 0) (∅ : gmap Z (Z * Z)) (replicate 2 (0, 0)) in
  let n := mkNet p {[ 7 := Channel_new (CB := nat) 3; 8 := Channel_new 4 ]} in
  (exists n', epoll_Poll (Ready [(1, 8); (4, 7)]) n [] = Ok ([8; 7], n') /\
     length (events_list_ (poller_ n')) = 4%nat) /\
  forall errno, epoll_Poll (WaitError errno) n [] = Ok ([], n).
Proof.
  intros p n. destruct (epoll_Poll_reports n []) as [H1 H2]; [simpl; lia|].
  split; [|intros errno; apply H2].
  destruct (H1 [(1, 8); (4, 7)]) as (n' & E & _ & _ & _ & L); [vm_compute; lia| |].
  - repeat constructor; simpl; (lia || done).
  - exists n'. split; [exact E|]. rewrite L. reflexivity.
Defined.
