(* ===== verification/EventLoop.v ===== *)
(** * EventLoop (ryan_network/net/event_loop.h, event_loop.cc)

    The calls as functions on the state of the program, of which the loop is
    a part; the calling thread is an argument.  A functor is a value that an
    interpreter runs.  The eventfd of the kernel is the class [Eventfd], with
    the laws eventfd(2) documents.  [Steps] gives the same operations as
    steps that other threads can interleave with. *)

From S2P Require Import Prelude Channel.

(** [efd_counter] is the counter; a non-blocking write adds 1 or fails when
    the counter is at its maximum, a non-blocking read resets it or fails when
    it is zero.  The results are the byte counts of write(2) and read(2). *)
Class Eventfd (E : Type) := {
  efd_counter : E -> Z;
  efd_write : E -> Z * E;
  efd_read : E -> Z * E
}.

Class EventfdLaws (E : Type) `{Eventfd E} := {
  efd_write_pos : forall e, 0 <= efd_counter e -> 0 < efd_counter (snd (efd_write e));
  efd_read_zero : forall e, efd_counter (snd (efd_read e)) = 0
}.

#[export] Instance Z_eventfd : Eventfd Z := {
  efd_counter e := e;
  efd_write e := if e + 1 <=? 2 ^ 64 - 2 then (8, e + 1) else (-1, e);
  efd_read e := if e =? 0 then (-1, e) else (8, 0)
}.

#[export] Instance Z_eventfd_laws : EventfdLaws Z.
Proof.
  split; intros e; cbn.
  - intros. destruct (Z.leb_spec (e + 1) (2 ^ 64 - 2)); cbn [snd]; lia.
  - by destruct (Z.eqb_spec e 0).
Qed.

(** src: ryan_network/net/event_loop.cc:16-16 kPollTimeMs *)
Definition kPollTimeMs : Z := 10000.

(** [poller_], with the channels it shares, is [net_]; the timer queue is
    module [TimerQueue]; [mutex_] makes the steps of [Steps] atomic.
    src: ryan_network/net/event_loop.h:99-120 EventLoop *)
Record EventLoop (CB P E F : Type) := mkEventLoop {
  looping_ : bool;
  quit_ : bool;
  calling_pending_functors_ : bool;
  thread_id_ : Z;
  poll_return_time_ : Z;
  net_ : net CB P;
  wakeup_fd_ : E;
  wakeup_channel_ : Z;
  active_channels_ : list Z;
  pending_functors_ : list F
}.
Arguments mkEventLoop {CB P E F}.
Arguments looping_ {CB P E F}.
Arguments quit_ {CB P E F}.
Arguments calling_pending_functors_ {CB P E F}.
Arguments thread_id_ {CB P E F}.
Arguments poll_return_time_ {CB P E F}.
Arguments net_ {CB P E F}.
Arguments wakeup_fd_ {CB P E F}.
Arguments wakeup_channel_ {CB P E F}.
Arguments active_channels_ {CB P E F}.
Arguments pending_functors_ {CB P E F}.

Section EventLoop.
Context {CB P E F : Type} `{!Poller CB P} `{!Eventfd E}.
Abbreviation loop := (EventLoop CB P E F).

Definition set_looping (b : bool) (l : loop) : loop :=
  mkEventLoop b (quit_ l) (calling_pending_functors_ l) (thread_id_ l) (poll_return_time_ l)
    (net_ l) (wakeup_fd_ l) (wakeup_channel_ l) (active_channels_ l) (pending_functors_ l).
Definition set_quit (b : bool) (l : loop) : loop :=
  mkEventLoop (looping_ l) b (calling_pending_functors_ l) (thread_id_ l) (poll_return_time_ l)
    (net_ l) (wakeup_fd_ l) (wakeup_channel_ l) (active_channels_ l) (pending_functors_ l).
Definition set_calling (b : bool) (l : loop) : loop :=
  mkEventLoop (looping_ l) (quit_ l) b (thread_id_ l) (poll_return_time_ l)
    (net_ l) (wakeup_fd_ l) (wakeup_channel_ l) (active_channels_ l) (pending_functors_ l).
Definition set_polled (t : Z) (n : net CB P) (active : list Z) (l : loop) : loop :=
  mkEventLoop (looping_ l) (quit_ l) (calling_pending_functors_ l) (thread_id_ l) t
    n (wakeup_fd_ l) (wakeup_channel_ l) active (pending_functors_ l).
Definition set_net (n : net CB P) (l : loop) : loop :=
  set_polled (poll_return_time_ l) n (active_channels_ l) l.
Definition set_wakeup_fd (e : E) (l : loop) : loop :=
  mkEventLoop (looping_ l) (quit_ l) (calling_pending_functors_ l) (thread_id_ l)
    (poll_return_time_ l) (net_ l) e (wakeup_channel_ l) (active_channels_ l) (pending_functors_ l).
Definition set_pending (fs : list F) (l : loop) : loop :=
  mkEventLoop (looping_ l) (quit_ l) (calling_pending_functors_ l) (thread_id_ l)
    (poll_return_time_ l) (net_ l) (wakeup_fd_ l) (wakeup_channel_ l) (active_channels_ l) fs.

(** src: ryan_network/net/event_loop.h:61-61 EventLoop::IsInLoopThread *)
Definition IsInLoopThread (tid : Z) (l : loop) : bool := thread_id_ l =? tid.

(** src: ryan_network/net/event_loop.h:63-67 EventLoop::AssertInLoopThread *)
Definition loop_AssertInLoopThread (tid : Z) (l : loop) : result unit :=
  if negb (IsInLoopThread tid l) then Fault FAbort else Ok tt.

(** A short write is only logged.
    src: ryan_network/net/event_loop.cc:157-163 EventLoop::Wakeup *)
Definition Wakeup (l : loop) : loop := set_wakeup_fd (snd (efd_write (wakeup_fd_ l))) l.

(** src: ryan_network/net/event_loop.cc:165-171 EventLoop::HandleRead *)
Definition HandleRead (l : loop) : loop := set_wakeup_fd (snd (efd_read (wakeup_fd_ l))) l.

(** src: ryan_network/net/event_loop.cc:173-175 EventLoop::UpdateChannel *)
Definition loop_UpdateChannel (tid c : Z) (l : loop) : result loop :=
  n ← UpdateChannel tid c (net_ l); Ok (set_net n l).

(** src: ryan_network/net/event_loop.cc:177-179 EventLoop::RemoveChannel *)
Definition loop_RemoveChannel (tid c : Z) (l : loop) : result loop :=
  n ← RemoveChannel tid c (net_ l); Ok (set_net n l).

(** src: ryan_network/net/event_loop.cc:181-183 EventLoop::HasChannel *)
Definition loop_HasChannel (c : Z) (l : loop) : result bool :=
  HasChannel (base (poller_ (net_ l))) (store_ (net_ l)) c.

(** The constructor, called by thread [tid]: [other] says whether the thread
    already has a loop ([t_loop_in_this_thread]), [wc] is the address and
    [wakeup] the callback of the wakeup channel, [evfd] the eventfd that was
    created, if any; the third argument of [net] is the state after the timer
    queue was built.
    src: ryan_network/net/event_loop.cc:36-62 EventLoop::EventLoop *)
Definition EventLoop_new (tid : Z) (n : net CB P) (evfd : option E) (fd wc : Z) (wakeup : CB)
    (other : bool) : result loop :=
  match evfd with
  | None => Fault FAbort
  | Some e =>
      if other then Fault FAbort else
      let ch := SetReadCallback (Channel_new fd) wakeup in
      n ← EnableReading tid wc (mkNet (poller_ n) (<[wc := ch]> (store_ n)));
      Ok (mkEventLoop false false false tid 0 n e wc [] [])
  end.

(** src: ryan_network/net/event_loop.cc:64-73 EventLoop::~EventLoop *)
Definition EventLoop_destroy (tid : Z) (l : loop) : result loop :=
  n ← DisableAll tid (wakeup_channel_ l) (net_ l);
  n ← Remove tid (wakeup_channel_ l) n;
  Ok (set_net n l).

(** The first statement of [QueueInLoop], under the mutex.
    src: ryan_network/net/event_loop.cc:132-135 EventLoop::QueueInLoop *)
Definition enqueue (cb : F) (l : loop) : loop := set_pending (pending_functors_ l ++ [cb]) l.

(** Its second statement.
    src: ryan_network/net/event_loop.cc:145-148 EventLoop::QueueInLoop *)
Definition wakeup_if_needed (tid : Z) (l : loop) : loop :=
  if negb (IsInLoopThread tid l) || calling_pending_functors_ l then Wakeup l else l.

(** src: ryan_network/net/event_loop.cc:131-149 EventLoop::QueueInLoop *)
Definition QueueInLoop (tid : Z) (cb : F) (l : loop) : loop :=
  wakeup_if_needed tid (enqueue cb l).

(** src: ryan_network/net/event_loop.cc:104-116 EventLoop::Quit *)
Definition Quit (tid : Z) (l : loop) : loop :=
  let l := set_quit true l in
  if IsInLoopThread tid l then Wakeup l else l.

(** [functors.swap(pending_functors_)] into an empty vector, with the flag
    set before it.
    src: ryan_network/net/event_loop.cc:186-198 EventLoop::DoPendingFunctors *)
Definition take_functors (l : loop) : list F * loop :=
  let l := set_calling true l in
  (pending_functors_ l, set_pending [] l).

(** ** Calls that run callbacks

    [W] is the state of the program; [run] runs a functor and [handle] the
    [HandleEvent] of a channel. *)
Section Run.
Context {W : Type} (get : W -> loop) (put : loop -> W -> W).
Context (run : F -> W -> result W) (handle : Z -> Z -> W -> result W).

Definition modify (f : loop -> loop) (w : W) : W := put (f (get w)) w.

(** src: ryan_network/net/event_loop.cc:119-129 EventLoop::RunInLoop *)
Definition RunInLoop (tid : Z) (cb : F) (w : W) : result W :=
  if IsInLoopThread tid (get w) then run cb w
  else Ok (modify (QueueInLoop tid cb) w).

(** [for (const Functor& functor : functors) functor();] *)
Fixpoint run_all (fs : list F) (w : W) : result W :=
  match fs with
  | [] => Ok w
  | f :: fs => w ← run f w; run_all fs w
  end.

(** src: ryan_network/net/event_loop.cc:185-205 EventLoop::DoPendingFunctors *)
Definition DoPendingFunctors (w : W) : result W :=
  let '(functors, l) := take_functors (get w) in
  w ← run_all functors (put l w);
  Ok (modify (set_calling false) w).

(** [for (Channel* channel : active_channels_) channel->HandleEvent(...);]
    src: ryan_network/net/event_loop.cc:89-91 EventLoop::Loop *)
Fixpoint handle_all (cs : list Z) (t : Z) (w : W) : result W :=
  match cs with
  | [] => Ok w
  | c :: cs => w ← handle c t w; handle_all cs t w
  end.

(** One turn of the loop; [poll] is what [Poll] does, with the time it
    returns.
    src: ryan_network/net/event_loop.cc:84-100 EventLoop::Loop *)
Definition Loop_turn (poll : net CB P -> list Z -> result (list Z * net CB P)) (t : Z) (w : W)
    : result W :=
  '(active, n) ← poll (net_ (get w)) [];
  let w := modify (set_polled t n active) w in
  w ← handle_all active t w;
  DoPendingFunctors w.

(** The loop goes on for as long as the kernel has answers ([polls]); the
    result says whether it ended because of [quit_].
    src: ryan_network/net/event_loop.cc:84-100 EventLoop::Loop *)
Fixpoint Loop_turns (polls : list ((net CB P -> list Z -> result (list Z * net CB P)) * Z)) (w : W)
    : result (bool * W) :=
  if quit_ (get w) then Ok (true, w) else
  match polls with
  | [] => Ok (false, w)
  | (poll, t) :: polls => w ← Loop_turn poll t w; Loop_turns polls w
  end.

(** src: ryan_network/net/event_loop.cc:75-102 EventLoop::Loop *)
Definition Loop (tid : Z) polls (w : W) : result (bool * W) :=
  _ ← assert_ (negb (looping_ (get w)));
  _ ← loop_AssertInLoopThread tid (get w);
  let w := modify (fun l => set_quit false (set_looping true l)) w in
  '(ended, w) ← Loop_turns polls w;
  Ok (ended, if (ended : bool) then modify (set_looping false) w else w).

End Run.

End EventLoop.
