(* ===== verification/EventLoopSpec.v ===== *)
(** * Properties of EventLoop

    [Steps] interleaves the loop thread with threads that call [QueueInLoop]
    and [Quit]: the mutex and the atomic flags make the two statements of
    [QueueInLoop] one step each.  The loop thread may queue functors itself
    while it runs callbacks. *)

From S2P Require Import Prelude Channel EventLoop.

Section Steps.
Context {CB P E F : Type} `{!Poller CB P} `{!Eventfd E} `{!EventfdLaws E}.
Abbreviation loop := (EventLoop CB P E F).
Abbreviation counter l := (efd_counter (wakeup_fd_ l)).

(** Where the loop thread is in [Loop]. *)
Inductive location :=
  | AtWhile
  | AtPoll
  | AtHandle (cs : list Z)
  | AtSwap
  | AtRun (fs : list F)
  | AtEnd.

(** [calls]: the threads between the two statements of [QueueInLoop];
    [queued] and [executed]: the functors queued and run so far. *)
Record conf := mkConf {
  lp : loop;
  loc : location;
  calls : list Z;
  queued : list F;
  executed : list F
}.

Definition at_loc (c : conf) (l : loop) (p : location) : conf :=
  mkConf l p (calls c) (queued c) (executed c).

(** A step of the loop thread. *)
Inductive loop_step : conf -> conf -> Prop :=
  | step_while c : loc c = AtWhile -> quit_ (lp c) = false ->
      loop_step c (at_loc c (lp c) AtPoll)
  | step_exit c : loc c = AtWhile -> quit_ (lp c) = true ->
      loop_step c (at_loc c (set_looping false (lp c)) AtEnd)
  | step_poll c n t cs : loc c = AtPoll ->
      (wakeup_channel_ (lp c) ∈ cs <-> 0 < counter (lp c)) ->
      loop_step c (at_loc c (set_polled t n cs (lp c)) (AtHandle cs))
  | step_wakeup_channel c cs : loc c = AtHandle (wakeup_channel_ (lp c) :: cs) ->
      loop_step c (at_loc c (HandleRead (lp c)) (AtHandle cs))
  | step_channel c ch cs : loc c = AtHandle (ch :: cs) -> ch <> wakeup_channel_ (lp c) ->
      loop_step c (at_loc c (lp c) (AtHandle cs))
  | step_handled c : loc c = AtHandle [] -> loop_step c (at_loc c (lp c) AtSwap)
  | step_swap c : loc c = AtSwap ->
      loop_step c (at_loc c (snd (take_functors (lp c))) (AtRun (fst (take_functors (lp c)))))
  | step_run c f fs : loc c = AtRun (f :: fs) ->
      loop_step c (mkConf (lp c) (AtRun fs) (calls c) (queued c) (executed c ++ [f]))
  | step_ran c : loc c = AtRun [] ->
      loop_step c (at_loc c (set_calling false (lp c)) AtWhile).

(** The loop thread runs a callback. *)
Definition in_callback (p : location) : Prop :=
  match p with AtHandle _ | AtRun _ => True | _ => False end.

Inductive step : conf -> conf -> Prop :=
  | step_loop c c' : thread_id_ (lp c) ∉ calls c -> loop_step c c' -> step c c'
  | step_enqueue c tid f : tid ∉ calls c ->
      (tid = thread_id_ (lp c) -> in_callback (loc c)) ->
      step c (mkConf (enqueue f (lp c)) (loc c) (tid :: calls c) (queued c ++ [f]) (executed c))
  | step_wakeup c tid cs : calls c ≡ₚ tid :: cs ->
      step c (mkConf (wakeup_if_needed tid (lp c)) (loc c) cs (queued c) (executed c))
  | step_quit c tid : (tid = thread_id_ (lp c) -> in_callback (loc c)) ->
      step c (mkConf (Quit tid (lp c)) (loc c) (calls c) (queued c) (executed c)).

(** The loop has entered its [while] with nothing queued. *)
Definition initial (c : conf) : Prop :=
  loc c = AtWhile /\ calls c = [] /\ queued c = [] /\ executed c = [] /\
  pending_functors_ (lp c) = [] /\ calling_pending_functors_ (lp c) = false /\
  0 <= counter (lp c).

(** ** The invariant *)

Definition running (p : location) : list F := match p with AtRun fs => fs | _ => [] end.

(** Where a pending functor needs a wakeup to be seen. *)
Definition past_swap (p : location) : Prop :=
  match p with AtWhile | AtPoll | AtRun _ => True | _ => False end.

Record inv (c : conf) : Prop := {
  inv_order : queued c = executed c ++ running (loc c) ++ pending_functors_ (lp c);
  inv_calling : calling_pending_functors_ (lp c) = match loc c with AtRun _ => true | _ => false end;
  inv_counter : 0 <= counter (lp c);
  inv_own : thread_id_ (lp c) ∈ calls c -> in_callback (loc c);
  inv_wakeup : past_swap (loc c) -> pending_functors_ (lp c) <> [] ->
    0 < counter (lp c) \/ calls c <> []
}.

Lemma initial_inv c : initial c -> inv c.
Proof.
  intros (H1 & H2 & H3 & H4 & H5 & H6 & H7). destruct c as [l p ca q ex]; simpl in *; subst.
  split; simpl; rewrite ?H5; try done. set_solver.
Qed.

Lemma loop_step_inv c c' : thread_id_ (lp c) ∉ calls c -> inv c -> loop_step c c' -> inv c'.
Proof.
  intros Hown Hinv Hstep. pose proof efd_read_zero (wakeup_fd_ (lp c)) as Hread.
  destruct Hinv as [H1 H2 H3 _ H5].
  destruct Hstep; rewrite H in *; split; cbn in *; try done; try lia.
  - rewrite H1. by rewrite app_nil_r.
  - by rewrite H1, <- app_assoc.
Qed.

Lemma counter_Wakeup (l : loop) : 0 <= counter l -> 0 < counter (Wakeup l).
Proof. apply efd_write_pos. Qed.

Lemma IsInLoopThread_spec tid (l : loop) : IsInLoopThread tid l = true <-> tid = thread_id_ l.
Proof. unfold IsInLoopThread. rewrite Z.eqb_eq. done. Qed.

Lemma step_inv c c' : inv c -> step c c' -> inv c'.
Proof.
  intros Hinv Hstep. destruct Hstep as [c c' Hn Hs|c tid f Hn Hcb|c tid cs Hp|c tid Hcb].
  - by eapply loop_step_inv.
  - destruct Hinv as [H1 H2 H3 H4 H5]. split; simpl; try done.
    + rewrite H1. by rewrite <- !app_assoc.
    + intros [Heq|Hin]%elem_of_cons; auto.
    + by right.
  - destruct Hinv as [H1 H2 H3 H4 H5]. pose proof (counter_Wakeup (lp c) H3) as Hw.
    assert (Hown : thread_id_ (lp c) ∈ cs -> thread_id_ (lp c) ∈ calls c) by (rewrite Hp; set_solver).
    assert (tid ∈ calls c) as Htid by (rewrite Hp; set_solver).
    unfold wakeup_if_needed.
    destruct (negb (IsInLoopThread tid (lp c)) || calling_pending_functors_ (lp c)) eqn:Ew.
    + simpl in Hw. split; simpl; auto; lia.
    + split; simpl; auto.
      apply orb_false_iff in Ew as [Et%negb_false_iff Ec].
      apply IsInLoopThread_spec in Et. subst tid. specialize (H4 Htid).
      rewrite H2 in Ec. destruct (loc c); try done.
  - destruct Hinv as [H1 H2 H3 H4 H5]. unfold Quit.
    pose proof (counter_Wakeup (set_quit true (lp c)) H3) as Hw.
    destruct (IsInLoopThread tid (set_quit true (lp c))).
    + simpl in Hw. split; simpl; auto; lia.
    + by split.
Qed.

Lemma reachable_inv c0 c : initial c0 -> rtc step c0 c -> inv c.
Proof.
  intros H0. apply rtc_invariant; [|by apply initial_inv]. intros x y Hx Hst. by eapply step_inv.
Qed.

(** ** Running what is pending *)

Definition loop_steps : conf -> conf -> Prop := rtc loop_step.

Lemma run_functors c fs :
  loc c = AtRun fs ->
  loop_steps c (mkConf (set_calling false (lp c)) AtWhile (calls c) (queued c) (executed c ++ fs)).
Proof.
  revert c. induction fs as [|f fs IH]; intros [l p ca q ex] Hl; simpl in Hl; subst p.
  - rewrite app_nil_r. eapply rtc_l; [by apply step_ran|]. apply rtc_refl.
  - eapply rtc_l; [by eapply step_run|]. simpl.
    specialize (IH (mkConf l (AtRun fs) ca q (ex ++ [f])) eq_refl). simpl in IH.
    rewrite <- app_assoc in IH. exact IH.
Qed.

Lemma handle_channels c cs :
  loc c = AtHandle cs -> exists l, loop_steps c (at_loc c l AtSwap) /\
    pending_functors_ l = pending_functors_ (lp c).
Proof.
  revert c. induction cs as [|ch cs IH]; intros [l p ca q ex] Hl; simpl in Hl; subst p.
  - exists l. split; [|done]. eapply rtc_l; [by apply step_handled|]. apply rtc_refl.
  - destruct (decide (ch = wakeup_channel_ l)) as [->|Hne].
    + destruct (IH (mkConf (HandleRead l) (AtHandle cs) ca q ex) eq_refl) as (l' & Hs & Hp).
      exists l'. split; [|done]. eapply rtc_l; [by apply step_wakeup_channel|]. exact Hs.
    + destruct (IH (mkConf l (AtHandle cs) ca q ex) eq_refl) as (l' & Hs & Hp).
      exists l'. split; [|done]. eapply rtc_l; [by eapply step_channel|]. exact Hs.
Qed.

Lemma poll_then_run c (cs : list Z) (n : net CB P) (t : Z) :
  loc c = AtPoll -> (wakeup_channel_ (lp c) ∈ cs <-> 0 < counter (lp c)) ->
  exists c', loop_steps c c' /\ loc c' = AtWhile /\
    executed c' = executed c ++ pending_functors_ (lp c).
Proof.
  destruct c as [l p ca q ex]. intros Hl Hcs. simpl in *. subst p.
  destruct (handle_channels (mkConf (set_polled t n cs l) (AtHandle cs) ca q ex) cs eq_refl)
    as (l' & Hs & Hp).
  pose proof (run_functors (mkConf (snd (take_functors l')) (AtRun (fst (take_functors l'))) ca q ex)
    _ eq_refl) as Hr.
  eexists. split.
  - eapply rtc_l; [by apply (step_poll _ n t cs)|]. etransitivity; [exact Hs|].
    eapply rtc_l; [by apply step_swap|]. exact Hr.
  - split; [done|]. simpl in *. by rewrite Hp.
Qed.

End Steps.

Arguments location : clear implicits.
Arguments conf : clear implicits.

(** ** An example *)

(** A poller that does nothing. *)
#[local] Instance unit_poller : Poller nat unit := {
  base _ := PollerBase_new 1;
  UpdateChannel _ _ n := Ok n;
  RemoveChannel _ _ n := Ok n
}.

(** A loop of thread 1 with wakeup channel 7 and no other channel. *)
Definition ex_loop (pending : list nat) (counter : Z) : EventLoop nat unit Z nat :=
  mkEventLoop true false false 1 0 (mkNet tt ∅) counter 7 [] pending.

Definition ex_start : conf nat unit Z nat := mkConf (ex_loop [] 0) AtWhile [] [] [].

(** Threads 2 and 3 each queue a functor while the loop polls. *)
Definition ex_queued : conf nat unit Z nat :=
  mkConf (ex_loop [4; 5]%nat 2) AtPoll [] [4; 5]%nat [].

Lemma ex_start_initial : initial ex_start.
Proof. repeat split. done. Qed.

Lemma ex_queued_reachable : rtc step ex_start ex_queued.
Proof.
  eapply rtc_l. { apply step_loop; [set_solver|]. by apply step_while. }
  eapply rtc_l. { by apply (step_enqueue _ 2 4%nat); [set_solver|]. }
  eapply rtc_l. { by apply (step_enqueue _ 3 5%nat); [set_solver|]. }
  eapply rtc_l. { by apply (step_wakeup _ 2 [3]); apply perm_swap. }
  eapply rtc_l. { by apply (step_wakeup _ 3 []). }
  apply rtc_refl.
Qed.

(** C9: functors run in the order they were queued, once each.  In every
    interleaving of the loop with threads that queue functors, the functors
    run so far, followed by those taken for the current turn and those still
    pending, are the functors queued so far. *)
Theorem functors_in_order {CB P E F : Type} `{!Poller CB P} `{!Eventfd E} `{!EventfdLaws E}
    (c0 c : conf CB P E F) :
  initial c0 -> rtc step c0 c ->
  queued c = executed c ++ running (loc c) ++ pending_functors_ (lp c).
Proof. intros H0 Hr. by apply (reachable_inv c0 c). Qed.


Lemma functors_in_order_witness : queued ex_queued = executed ex_queued ++ [] ++ [4; 5]%nat.
Proof. apply (functors_in_order ex_start ex_queued ex_start_initial ex_queued_reachable). Defined.


(** ** Functors that queue functors *)

Section Snapshot.
Context {CB P E F : Type} `{!Poller CB P} `{!Eventfd E} `{!EventfdLaws E}.
(** the functors a functor queues, in its own thread *)
Context (spawned : F -> list F).
Abbreviation world := (EventLoop CB P E F * list F)%type.

(** Running [f] records it and queues what it spawns. *)
Definition run_spawning (f : F) (w : world) : result world :=
  Ok (foldl (fun l g => QueueInLoop (thread_id_ l) g l) (fst w) (spawned f), snd w ++ [f]).

(** What queueing [gs] from a functor leaves of a loop. *)
Lemma spawn_all gs (l : EventLoop CB P E F) :
  calling_pending_functors_ l = true -> 0 <= efd_counter (wakeup_fd_ l) ->
  let l' := foldl (fun l g => QueueInLoop (thread_id_ l) g l) l gs in
  pending_functors_ l' = pending_functors_ l ++ gs /\ calling_pending_functors_ l' = true /\
  thread_id_ l' = thread_id_ l /\ quit_ l' = quit_ l /\
  (gs <> [] \/ 0 < efd_counter (wakeup_fd_ l) -> 0 < efd_counter (wakeup_fd_ l')) /\
  0 <= efd_counter (wakeup_fd_ l').
Proof.
  revert l. induction gs as [|g gs IH]; intros l Hc He; simpl.
  - rewrite app_nil_r. repeat split; auto. by intros [?|?].
  - assert (0 < efd_counter (wakeup_fd_ (QueueInLoop (thread_id_ l) g l))) as Hpos.
    { unfold QueueInLoop, wakeup_if_needed. simpl. rewrite Hc, orb_true_r. simpl.
      by apply efd_write_pos. }
    destruct (IH (QueueInLoop (thread_id_ l) g l)) as (H1 & H2 & H3 & H4 & H5 & H6).
    { unfold QueueInLoop, wakeup_if_needed. simpl. by rewrite Hc, orb_true_r. }
    { lia. }
    rewrite H1, H3, H4. unfold QueueInLoop, wakeup_if_needed in *. simpl in *.
    rewrite Hc, orb_true_r in *. simpl in *. rewrite <- app_assoc. repeat split; auto.
Qed.

Lemma run_all_spawning fs (l : EventLoop CB P E F) tr :
  calling_pending_functors_ l = true -> 0 <= efd_counter (wakeup_fd_ l) ->
  exists l', run_all run_spawning fs (l, tr) = Ok (l', tr ++ fs) /\
    pending_functors_ l' = pending_functors_ l ++ concat (spawned <$> fs) /\
    thread_id_ l' = thread_id_ l /\ quit_ l' = quit_ l /\
    (concat (spawned <$> fs) <> [] \/ 0 < efd_counter (wakeup_fd_ l) ->
     0 < efd_counter (wakeup_fd_ l')).
Proof.
  revert l tr. induction fs as [|f fs IH]; intros l tr Hc He.
  - exists l. cbn. rewrite !app_nil_r. repeat split. by intros [?|?].
  - change (run_all run_spawning (f :: fs) (l, tr)) with
      (run_all run_spawning fs (foldl (fun l g => QueueInLoop (thread_id_ l) g l) l (spawned f),
                                tr ++ [f])).
    destruct (spawn_all (spawned f) l Hc He) as (H1 & H2 & H3 & H4 & H5 & H6).
    destruct (IH _ (tr ++ [f]) H2 H6) as (l' & G1 & G2 & G3 & G4 & G5).
    exists l'. rewrite G1, G2, G3, G4, H1, H3, H4. cbn [fmap list_fmap concat].
    rewrite <- !app_assoc. repeat split. intros Hor. apply G5.
    destruct Hor as [Hne|?]; [|right; auto].
    destruct (spawned f) as [|g gs] eqn:Es; [left; exact Hne|right; apply H5; by left].
Qed.

End Snapshot.

(** C38: [DoPendingFunctors] runs a snapshot.  It runs exactly the functors
    that were pending when it was called, in order, even if they queue
    further functors: those are pending afterwards, in the order they were
    queued, and the eventfd is readable when there are any, so the next poll
    returns at once for them.  So a functor that queues itself does not keep
    the loop from polling. *)
Theorem DoPendingFunctors_snapshot {CB P E F : Type} `{!Poller CB P} `{!Eventfd E} `{!EventfdLaws E}
    (spawned : F -> list F) (l : EventLoop CB P E F) (trace : list F) :
  0 <= efd_counter (wakeup_fd_ l) ->
  exists l', DoPendingFunctors fst (fun l w => (l, snd w)) (run_spawning spawned) (l, trace) =
      Ok (l', trace ++ pending_functors_ l) /\
    pending_functors_ l' = concat (spawned <$> pending_functors_ l) /\
    calling_pending_functors_ l' = false /\ quit_ l' = quit_ l /\
    (pending_functors_ l' <> [] -> 0 < efd_counter (wakeup_fd_ l')).
Proof.
  intros He. unfold DoPendingFunctors. cbn [take_functors fst snd].
  destruct (run_all_spawning spawned (pending_functors_ l) (set_pending [] (set_calling true l)) trace)
    as (l' & H1 & H2 & H3 & H4 & H5); [done|done|].
  cbn [pending_functors_ set_calling]. rewrite H1, bind_Ok.
  eexists. split; [reflexivity|]. simpl. split; [exact H2|]. split; [done|]. split; [exact H4|].
  intros Hne. apply H5. left. by rewrite H2 in Hne.
Qed.

Lemma DoPendingFunctors_snapshot_witness :
  exists l', DoPendingFunctors fst (fun l w => (l, snd w))
      (run_spawning (fun f => if Nat.eqb f 0 then [0; 1]%nat else [])) (ex_loop [2; 0]%nat 0, []) =
      Ok (l', [2; 0]%nat) /\
    pending_functors_ l' = [0; 1]%nat /\ calling_pending_functors_ l' = false /\ quit_ l' = false /\
    (pending_functors_ l' <> [] -> 0 < efd_counter (wakeup_fd_ l')).
Proof.
  apply (DoPendingFunctors_snapshot (fun f => if Nat.eqb f 0 then [0; 1]%nat else [])
    (ex_loop [2; 0]%nat 0) []). done.
Defined.

Lemma Loop_clears_quit {CB P E F : Type} `{!Poller CB P} `{!Eventfd E} (l : EventLoop CB P E F)
    run handle :
  looping_ l = false ->
  exists l', Loop id (fun l _ => l) run handle (thread_id_ l) [] l = Ok (false, l').
Proof.
  intros Hl. eexists. unfold Loop, loop_AssertInLoopThread, IsInLoopThread, id.
  rewrite Hl, Z.eqb_refl. reflexivity.
Qed.

(** [Quit] wakes the wrong thread.  Called from another thread, where the
    loop may be blocked in poll, it only sets the flag: the eventfd stays as
    it is, and a loop that polls with nothing else to report stays there until
    the poll times out.  Called from the loop's own thread, which is not
    polling, it writes to the eventfd.  And a [Quit] that comes before [Loop] is
    forgotten: [Loop] starts by clearing the flag and polls. *)
Theorem Quit_wakes_own_thread {CB P E F : Type} `{!Poller CB P} `{!Eventfd E} `{!EventfdLaws E}
    (l : EventLoop CB P E F) (tid : Z) :
  0 <= efd_counter (wakeup_fd_ l) ->
  quit_ (Quit tid l) = true /\
  (tid <> thread_id_ l -> wakeup_fd_ (Quit tid l) = wakeup_fd_ l) /\
  (tid = thread_id_ l -> 0 < efd_counter (wakeup_fd_ (Quit tid l))) /\
  (looping_ l = false -> forall run handle, exists l',
     Loop id (fun l _ => l) run handle (thread_id_ l) [] (Quit tid l) = Ok (false, l')).
Proof.
  intros He. unfold Quit. destruct (IsInLoopThread tid (set_quit true l)) eqn:Et;
    (split; [done|]); (split; [|split]).
  - intros Hne. apply IsInLoopThread_spec in Et. done.
  - intros _. apply efd_write_pos. done.
  - intros Hl run handle. by apply (Loop_clears_quit (Wakeup (set_quit true l))).
  - done.
  - intros ->. by rewrite (proj2 (IsInLoopThread_spec _ _)) in Et.
  - intros Hl run handle. by apply (Loop_clears_quit (set_quit true l)).
Qed.

Lemma Quit_wakes_own_thread_witness :
  let l := set_looping false (ex_loop [] 0) in
  quit_ (Quit 2 l) = true /\
  (2 <> 1 -> wakeup_fd_ (Quit 2 l) = wakeup_fd_ l) /\
  (2 = 1 -> 0 < efd_counter (wakeup_fd_ (Quit 2 l))) /\
  (false = false -> forall run handle, exists l',
     Loop id (fun l _ => l) run handle 1 [] (Quit 2 l) = Ok (false, l')).
Proof. intros l. apply (Quit_wakes_own_thread l 2). done. Defined.
