(* ===== verification/InetAddress.v ===== *)
(** * Addresses (ryan_network/net/inet_address.h, inet_address.cc)

    [sin_port] and [s_addr] hold the integers of network byte order, as
    [htons] and [htonl] leave them on a little-endian host. *)

From S2P Require Import Prelude Format Endian.

(** ** struct sockaddr_in *)

Definition AF_INET : Z := 2.
Definition INADDR_ANY : Z := 0.

Record sockaddr_in := mkSockaddr { sin_family : Z; sin_port : Z; s_addr : Z }.

#[export] Instance sockaddr_in_eq_dec : EqDecision sockaddr_in.
Proof. solve_decision. Defined.

(** [inet_ntop(AF_INET, ...)]: the four bytes of the address in memory order,
    in decimal. *)
Definition inet_ntop (addr : Z) : bytes :=
  match le_bytes 4 addr with
  | [a; b; c; d] => dec (byte_val a) ++ lit "." ++ dec (byte_val b) ++ lit "."
                      ++ dec (byte_val c) ++ lit "." ++ dec (byte_val d)
  | _ => []
  end.

(** ** InetAddress *)

(** src: ryan_network/net/inet_address.h:24-24 InetAddress *)
Record InetAddress := mkInetAddress { addr_ : sockaddr_in }.

(** The argument [ip] is not used.
    src: ryan_network/net/inet_address.cc:3-10 InetAddress::InetAddress *)
Definition InetAddress_new (port : Z) (ip : bytes) : InetAddress :=
  mkInetAddress (mkSockaddr AF_INET (bswap 2 port) (bswap 4 INADDR_ANY)).

(** src: ryan_network/net/inet_address.h:13-13 InetAddress::InetAddress *)
Definition InetAddress_default : InetAddress := InetAddress_new 0 (lit "127.0.0.1").

(** src: ryan_network/net/inet_address.h:21-21 InetAddress::SetSockAddr *)
Definition SetSockAddr (a : InetAddress) (addr : sockaddr_in) : InetAddress := mkInetAddress addr.

(** src: ryan_network/net/inet_address.cc:12-16 InetAddress::ToIp *)
Definition ToIp (a : InetAddress) : bytes := inet_ntop (s_addr (addr_ a)).

(** [buf] has 64 bytes; [sprintf] writes behind the address.
    src: ryan_network/net/inet_address.cc:18-25 InetAddress::ToIpPort *)
Definition ToIpPort (a : InetAddress) : result bytes :=
  let ip := inet_ntop (s_addr (addr_ a)) in
  let port := bswap 2 (sin_port (addr_ a)) in
  let text := ip ++ lit ":" ++ dec port in
  _ ← defined_if (Nat.ltb (length text) 64);
  Ok text.

(** src: ryan_network/net/inet_address.cc:27-27 InetAddress::ToPort *)
Definition ToPort (a : InetAddress) : Z := bswap 2 (sin_port (addr_ a)).

Lemma length_dec_small n : 0 <= n < 100000 -> (length (dec n) <= 5)%nat.
Proof.
  intros H. unfold dec. rewrite (proj2 (Z.ltb_ge _ _)) by lia. unfold dec_nat.
  rewrite length_rev, (digits_fuel 10 ltac:(lia) 5 digit_fuel) by (unfold digit_fuel; lia).
  apply length_digits.
Qed.

(** Four numbers of a byte and one of a port, with their separators. *)
Lemma ToIpPort_short a : exists text, ToIpPort a = Ok text /\ zlen text <= 29.
Proof.
  unfold ToIpPort.
  assert (Hb : forall b, (length (dec (byte_val b)) <= 5)%nat)
    by (intros b; apply length_dec_small; pose proof (byte_val_range b); lia).
  pose proof (bswap_range 2 (sin_port (addr_ a))) as Hr.
  pose proof (length_dec_small (bswap 2 (sin_port (addr_ a))) ltac:(lia)) as Hd.
  set (p := dec (bswap 2 (sin_port (addr_ a)))) in *. clearbody p.
  unfold inet_ntop. pose proof (length_le_bytes 4 (s_addr (addr_ a))) as Hl.
  destruct (le_bytes 4 (s_addr (addr_ a))) as [|b1 [|b2 [|b3 [|b4 [|b5 l]]]]]; try discriminate Hl.
  pose proof (Hb b1). pose proof (Hb b2). pose proof (Hb b3). pose proof (Hb b4).
  rewrite defined_Ok.
  - eexists. split; [reflexivity|]. rewrite !length_app. simpl. lia.
  - apply Nat.ltb_lt. rewrite !length_app. simpl. lia.
Qed.

(** The port round-trips through network order and the text of an address
    always fits the 64-byte buffer; but the [ip] argument of the constructor is
    ignored: every address built from a port is 0.0.0.0. *)
Theorem InetAddress_ignores_ip (port : Z) (ip : bytes) :
  0 <= port < 2 ^ 16 ->
  let a := InetAddress_new port ip in
  ToPort a = port /\ ToIp a = lit "0.0.0.0" /\
  ToIpPort a = Ok (lit "0.0.0.0:" ++ dec port) /\
  forall addr, exists text, ToIpPort (mkInetAddress addr) = Ok text.
Proof.
  intros Hp a.
  assert (bswap 2 (bswap 2 port) = port) as Hport.
  { rewrite bswap_involutive. apply Z.mod_small. exact Hp. }
  assert (Htext : forall addr, exists text, ToIpPort (mkInetAddress addr) = Ok text).
  { intros addr. destruct (ToIpPort_short (mkInetAddress addr)) as (text & E & _). by exists text. }
  split; [exact Hport|]. split; [reflexivity|]. split; [|exact Htext].
  destruct (Htext (addr_ a)) as [text Ht]. unfold ToIpPort in Ht.
  apply bind_Ok_inv in Ht as ([] & Hd & _). unfold ToIpPort.
  change (mkInetAddress (addr_ a)) with a in Hd. rewrite Hd, bind_Ok.
  unfold a. cbn [addr_ InetAddress_new sin_port s_addr]. by rewrite Hport.
Qed.

Lemma InetAddress_ignores_ip_witness :
  let a := InetAddress_new 8080 (lit "10.0.0.1") in
  ToPort a = 8080 /\ ToIp a = lit "0.0.0.0" /\
  ToIpPort a = Ok (lit "0.0.0.0:" ++ dec 8080) /\
  forall addr, exists text, ToIpPort (mkInetAddress addr) = Ok text.
Proof. apply (InetAddress_ignores_ip 8080 (lit "10.0.0.1")). lia. Defined.
