(* ===== verification/Double.v ===== *)
(** * double

    The [double] of the C++ program is a [spec_float] of precision 53 and maximal
    exponent 1024, with the standard library's arithmetic.  The lemmas show where it is
    exact: integers below 2^53, their products, and comparing a quotient by a million
    with an integer. *)

From Stdlib Require Export Floats.SpecFloat.
From S2P Require Import Prelude.

Abbreviation double := spec_float.
Definition double_mul (x y : double) : double := SFmul 53 1024 x y.
Definition double_div (x y : double) : double := SFdiv 53 1024 x y.
Definition double_of_Z (z : Z) : double := binary_normalize 53 1024 z 0 false.

(** [static_cast<int64_t>(x)]: towards zero, undefined when the result does
    not fit. *)
Definition double_to_int64 (x : double) : result Z :=
  match x with
  | S754_zero _ => Ok 0
  | S754_finite s m e =>
      let a := if 0 <=? e then Z.pos m * 2 ^ e else Z.pos m / 2 ^ (- e) in
      let z := if s then - a else a in
      _ ← defined_if ((- 2 ^ 63 <=? z) && (z <? 2 ^ 63));
      Ok z
  | _ => Fault FUndef
  end.

(** ** Mantissas of 53 digits *)

Lemma digits2_bounds p : 2 ^ (Z.pos (digits2_pos p) - 1) <= Z.pos p < 2 ^ Z.pos (digits2_pos p).
Proof.
  induction p as [p IH|p IH|]; cbn [digits2_pos]; [| |done];
    rewrite Pos2Z.inj_succ, Z.pow_succ_r by lia;
    replace (Z.succ (Z.pos (digits2_pos p)) - 1) with (Z.succ (Z.pos (digits2_pos p) - 1)) by lia;
    rewrite Z.pow_succ_r by lia; lia.
Qed.

Lemma Zdigits2_unique m k : 0 <= k -> 2 ^ k <= m < 2 ^ (k + 1) -> Zdigits2 m = k + 1.
Proof.
  intros Hk Hm. destruct m as [|p|p]; [pose proof (Z.pow_pos_nonneg 2 k); lia| |pose proof (Z.pow_pos_nonneg 2 k); lia].
  cbn [Zdigits2]. pose proof (digits2_bounds p) as Hp. set (d := Z.pos (digits2_pos p)) in *.
  destruct (Z.lt_trichotomy d (k + 1)) as [H|[H|H]]; [|done|].
  - assert (2 ^ d <= 2 ^ k) by (apply Z.pow_le_mono_r; lia). lia.
  - assert (2 ^ (k + 1) <= 2 ^ (d - 1)) by (apply Z.pow_le_mono_r; lia). lia.
Qed.

(** A number is normal: its mantissa has all the digits. *)
Definition normal (m : Z) : Prop := 2 ^ 52 <= m < 2 ^ 53.

Lemma fexp_normal e : -1074 <= e -> fexp 53 1024 (53 + e) = e.
Proof. intros H. unfold fexp, emin. lia. Qed.

Lemma shr_fexp_normal m e l : normal m -> -1074 <= e -> shr_fexp 53 1024 m e l = (shr_record_of_loc m l, e).
Proof.
  intros Hm He. unfold shr_fexp. rewrite (Zdigits2_unique m 52), fexp_normal, Z.sub_diag by (lia || exact Hm). done.
Qed.

(** One digit too many. *)
Lemma shr_fexp_one m e l : 2 ^ 53 <= m < 2 ^ 54 -> -1074 <= e ->
  shr_fexp 53 1024 m e l = (shr_1 (shr_record_of_loc m l), e + 1).
Proof.
  intros Hm He. unfold shr_fexp. rewrite (Zdigits2_unique m 53) by (lia || exact Hm).
  replace (53 + 1 + e) with (53 + (e + 1)) by lia. rewrite fexp_normal by lia.
  by replace (e + 1 - e) with 1 by lia.
Qed.

Lemma shr_1_double k : 0 <= k -> shr_1 (Build_shr_record (2 * k) false false) = Build_shr_record k false false.
Proof. by destruct k. Qed.

Lemma iter_pos_nat {A} (f : A -> A) n : forall x, SpecFloat.iter_pos f n x = Nat.iter (Pos.to_nat n) f x.
Proof.
  induction n as [n IH|n IH|]; intros x; cbn [SpecFloat.iter_pos]; [| |done].
  - rewrite !IH, Pos2Nat.inj_xI. cbn [Nat.iter]. rewrite <- Nat.iter_add, <- Nat.iter_succ_r. cbn [Nat.iter]. f_equal. f_equal. lia.
  - rewrite !IH, Pos2Nat.inj_xO, <- Nat.iter_add. f_equal. lia.
Qed.

Lemma shr_exact k e p : 0 <= k -> 0 <= p -> shr (Build_shr_record (k * 2 ^ p) false false) e p = (Build_shr_record k false false, e + p).
Proof.
  intros Hk Hp. destruct p as [|p|p]; [by rewrite Z.mul_1_r, Z.add_0_r| |lia]. unfold shr. rewrite iter_pos_nat. f_equal.
  rewrite <- (positive_nat_Z p). induction (Pos.to_nat p) as [|n IH]; [by rewrite Z.mul_1_r|].
  rewrite Nat2Z.inj_succ, Z.pow_succ_r, Nat.iter_succ_r by lia. replace (k * (2 * 2 ^ Z.of_nat n)) with (2 * (k * 2 ^ Z.of_nat n)) by lia.
  rewrite shr_1_double by (pose proof (Z.pow_pos_nonneg 2 (Z.of_nat n)); nia). exact IH.
Qed.

Lemma shr_fexp_exact k e p : normal k -> 0 <= p -> -1074 <= e ->
  shr_fexp 53 1024 (k * 2 ^ p) e loc_Exact = (Build_shr_record k false false, e + p).
Proof.
  intros [Hk1 Hk2] Hp He. unfold shr_fexp. pose proof (Z.pow_pos_nonneg 2 p ltac:(lia) Hp) as H2.
  rewrite (Zdigits2_unique _ (52 + p)).
  - replace (52 + p + 1 + e) with (53 + (e + p)) by lia. rewrite fexp_normal by lia. replace (e + p - e) with p by lia.
    cbn [shr_record_of_loc]. apply shr_exact; lia.
  - lia.
  - replace (52 + p + 1) with (53 + p) by lia. rewrite !Z.pow_add_r by lia. nia.
Qed.

(** ** Rounding *)

Lemma round_aux_exact s k e p : normal k -> 0 <= p -> -1074 <= e -> e + p <= 971 ->
  binary_round_aux 53 1024 s (k * 2 ^ p) e loc_Exact = S754_finite s (Z.to_pos k) (e + p).
Proof.
  intros Hk Hp He Hmax. unfold binary_round_aux. rewrite (shr_fexp_exact k e p) by done. cbn [loc_of_shr_record shr_m round_nearest_even].
  rewrite (shr_fexp_normal k (e + p)) by (done || lia). cbn [shr_record_of_loc shr_m]. destruct Hk as [Hk _].
  destruct k as [|k|k]; [by apply Z.leb_le in Hk| |by apply Z.leb_le in Hk]. rewrite (proj2 (Z.leb_le _ _)) by lia. done.
Qed.

(** The remainder of a division tells on which side of the middle the quotient is. *)
Definition near (m : Z) (num den : Z) : Prop := - den <= 2 * (m * den - num) <= den.

Lemma round_near q r den : 0 < den -> Z.even den = true -> 0 <= r < den ->
  near (round_nearest_even q (loc_of_shr_record (shr_record_of_loc q (new_location den r)))) (q * den + r) den.
Proof.
  intros Hd He Hr. unfold new_location, new_location_even, near. rewrite He. destruct (Z.eqb_spec r 0) as [->|Hr0]; [cbn [shr_record_of_loc loc_of_shr_record round_nearest_even]; lia|].
  destruct (Z.compare_spec (2 * r) den) as [E|E|E]; cbn [shr_record_of_loc loc_of_shr_record round_nearest_even]; [destruct (Z.even q)| |]; lia.
Qed.

(** With a digit too many. *)
Lemma round_near_one q r den : 0 < q -> 0 < den -> Z.even den = true -> 0 <= r < den ->
  let mrs := shr_1 (shr_record_of_loc q (new_location den r)) in
  shr_m mrs = q / 2 /\ near (round_nearest_even (shr_m mrs) (loc_of_shr_record mrs)) (q * den + r) (2 * den).
Proof.
  intros Hq Hd He Hr. unfold new_location, new_location_even, near. rewrite He.
  destruct q as [|q|q]; [done| |done].
  assert (Z.pos q / 2 = Z.div2 (Z.pos q)) as -> by (by rewrite Z.div2_div).
  destruct (Z.eqb_spec r 0) as [->|Hr0]; [|destruct (Z.compare_spec (2 * r) den) as [E|E|E]]; destruct q as [q|q|];
    cbn [shr_record_of_loc shr_1 loc_of_shr_record round_nearest_even shr_m orb Z.div2 Pos.div2]; (split; [done|]);
    try case_match; rewrite ?(Pos2Z.inj_xI q), ?(Pos2Z.inj_xO q); lia.
Qed.

(** What rounding gives for a mantissa that is normal, or just above. *)
Lemma round_finish s m e : 2 ^ 52 <= m <= 2 ^ 53 -> -1074 <= e -> e <= 970 ->
  exists m' e', (let '(mrs, e1) := shr_fexp 53 1024 m e loc_Exact in
     match shr_m mrs with
     | Z0 => S754_zero s
     | Zpos m => if e1 <=? 1024 - 53 then S754_finite s m e1 else S754_infinity s
     | _ => S754_nan
     end) = S754_finite s (Z.to_pos m') e' /\ normal m' /\ e <= e' <= e + 1 /\ m' * 2 ^ (e' - e) = m.
Proof.
  intros Hm He Hmax. destruct (decide (m = 2 ^ 53)) as [->|Hne].
  - exists (2 ^ 52), (e + 1). replace (2 ^ 53) with (2 ^ 52 * 2 ^ 1) by done. rewrite (shr_fexp_exact (2 ^ 52) e 1) by (done || lia). cbn [shr_m].
    change (2 ^ 52) with (Z.pos (2 ^ 52)). rewrite (proj2 (Z.leb_le _ _)) by lia. replace (e + 1 - e) with 1 by lia. repeat split; lia || done.
  - exists m, e. assert (normal m) as Hn by (split; lia). rewrite shr_fexp_normal by done. cbn [shr_record_of_loc shr_m].
    destruct m as [|m|m]; [lia| |lia]. rewrite (proj2 (Z.leb_le _ _)) by lia. rewrite Z.sub_diag, Z.mul_1_r.
    split; [done|]. split; [done|]. split; [lia|done].
Qed.

(** ** Integers *)

Lemma iter_xO m d : Z.pos (Pos.iter xO m d) = Z.pos m * 2 ^ Z.pos d.
Proof.
  rewrite Pos2Nat.inj_iter, <- (positive_nat_Z d). induction (Pos.to_nat d) as [|n IH]; [cbn; lia|].
  rewrite Nat2Z.inj_succ, Z.pow_succ_r by lia.
  cbn [nat_rect]. rewrite Pos2Z.inj_xO, IH. lia.
Qed.

Lemma round_integer s p : Z.pos p < 2 ^ 53 ->
  exists e, 0 <= e <= 52 /\ normal (Z.pos p * 2 ^ e) /\ 2 ^ (52 - e) <= Z.pos p /\
    binary_round 53 1024 s p 0 = S754_finite s (Z.to_pos (Z.pos p * 2 ^ e)) (- e).
Proof.
  intros Hp. unfold binary_round. pose proof (digits2_bounds p) as Hd. set (d := Z.pos (digits2_pos p)) in *.
  assert (d <= 53) as Hd1 by (destruct (Z.le_gt_cases d 53); [done|]; assert (2 ^ 53 <= 2 ^ (d - 1)) by (apply Z.pow_le_mono_r; lia); lia).
  exists (53 - d). replace (fexp 53 1024 (d + 0)) with (- (53 - d)) by (unfold fexp, emin; lia).
  assert (normal (Z.pos p * 2 ^ (53 - d))) as Hn.
  { unfold normal. replace 52 with (d - 1 + (53 - d)) by lia. replace (2 ^ 53) with (2 ^ (d + (53 - d))) by (f_equal; lia).
    rewrite !Z.pow_add_r by lia. pose proof (Z.pow_pos_nonneg 2 (53 - d)). nia. }
  split; [lia|]. split; [done|]. split; [replace (52 - (53 - d)) with (d - 1) by lia; apply Hd|].
  assert (shl_align p 0 (- (53 - d)) = (Z.to_pos (Z.pos p * 2 ^ (53 - d)), - (53 - d))) as ->.
  { unfold shl_align. destruct (53 - d) as [|x|x] eqn:Ex; [by rewrite Z.mul_1_r| |lia].
    cbn [Z.opp Z.sub Z.add]. by rewrite <- iter_xO. }
  rewrite Z2Pos.id by (destruct Hn as [Hn _]; lia). rewrite <- (Z.mul_1_r (Z.pos p * 2 ^ (53 - d))) at 1.
  change 1 with (2 ^ 0) at 1. rewrite (round_aux_exact s _ (- (53 - d)) 0) by (done || lia). by rewrite Z.add_0_r.
Qed.

(** ** Seconds *)

Definition million : Z := 1000000.

Lemma double_million : double_of_Z million = S754_finite false (Z.to_pos (million * 2 ^ 33)) (-33).
Proof. vm_compute. done. Qed.

Lemma round_nearest_range m l : m <= round_nearest_even m l <= m + 1.
Proof. destruct l as [|[]]; cbn [round_nearest_even]; try case_match; lia. Qed.

(** The quotient of two normal numbers has 53 digits, or 54. *)
Lemma quotient_digits m1 m2 : normal m1 -> normal m2 -> 2 ^ 52 <= m1 * 2 ^ 53 / m2 < 2 ^ 54.
Proof.
  intros H1 H2. unfold normal in *. split; [apply Z.div_le_lower_bound|apply Z.div_lt_upper_bound]; lia.
Qed.

Lemma near_scale m m' k num den : m' * k = m -> 0 < den -> 0 < k -> near m num den -> near m' num (k * den).
Proof.
  intros <- Hd Hk Hn. unfold near in *. replace (m' * (k * den)) with (m' * k * den) by lia.
  assert (1 * den <= k * den) by (apply Z.mul_le_mono_nonneg_r; lia). lia.
Qed.

Lemma near_cancel k m num den : 0 < k -> near m (k * num) (k * den) -> near m num den.
Proof. unfold near. intros Hk [H1 H2]. split; apply (Z.mul_le_mono_pos_l _ _ k Hk); lia. Qed.

(** The mantissa before the last adjustment. *)
Lemma round_div_near s q r den e : 2 ^ 52 <= q < 2 ^ 54 -> 0 < den -> Z.even den = true -> 0 <= r < den -> -1000 <= e <= 900 ->
  exists m e', binary_round_aux 53 1024 s q e (new_location den r) = S754_finite s (Z.to_pos m) e' /\ normal m /\
    e <= e' <= e + 2 /\ near m (q * den + r) (2 ^ (e' - e) * den).
Proof.
  intros Hq Hd He Hr Hmax. unfold binary_round_aux. destruct (decide (q < 2 ^ 53)) as [Hlt|Hge].
  - rewrite shr_fexp_normal by (split || idtac; lia). set (mrs := shr_record_of_loc q (new_location den r)).
    assert (shr_m mrs = q) as -> by (subst mrs; by destruct (new_location den r) as [|[]]).
    pose proof (round_near q r den Hd He Hr) as Hn. fold mrs in Hn. set (m := round_nearest_even q (loc_of_shr_record mrs)) in *.
    pose proof (round_nearest_range q (loc_of_shr_record mrs)) as Hm. fold m in Hm.
    destruct (round_finish s m e) as (m' & e' & -> & Hm' & He' & E); [lia|lia|lia|].
    exists m', e'. split; [done|]. split; [done|]. split; [lia|].
    apply (near_scale m); [by rewrite E|lia|apply Z.pow_pos_nonneg; lia|done].
  - rewrite shr_fexp_one by lia. pose proof (round_near_one q r den ltac:(lia) Hd He Hr) as [Hs Hn]. cbv zeta in Hn.
    set (mrs := shr_1 (shr_record_of_loc q (new_location den r))) in *. rewrite Hs in *.
    assert (2 ^ 52 <= q / 2 < 2 ^ 53) as Hq2 by (split; [apply Z.div_le_lower_bound|apply Z.div_lt_upper_bound]; lia).
    set (m := round_nearest_even (q / 2) (loc_of_shr_record mrs)) in *.
    pose proof (round_nearest_range (q / 2) (loc_of_shr_record mrs)) as Hm. fold m in Hm.
    destruct (round_finish s m (e + 1)) as (m' & e' & -> & Hm' & He' & E); [lia|lia|lia|].
    exists m', e'. split; [done|]. split; [done|]. split; [lia|]. replace (e' - e) with (Z.succ (e' - (e + 1))) by lia.
    rewrite Z.pow_succ_r by lia. replace (2 * 2 ^ (e' - (e + 1)) * den) with (2 ^ (e' - (e + 1)) * (2 * den)) by lia.
    apply (near_scale m); [by rewrite E|lia|apply Z.pow_pos_nonneg; lia|done].
Qed.

(** A quotient by a million is the nearest double. *)
Lemma div_million s p : Z.pos p < 2 ^ 52 ->
  exists m E, double_div (binary_round 53 1024 s p 0) (double_of_Z million) = S754_finite s (Z.to_pos m) (- E) /\
    normal m /\ 19 <= E <= 72 /\ near m (Z.pos p * 2 ^ E) million.
Proof.
  intros Hp. destruct (round_integer s p) as (e & He & Hn & Hlow & ->); [lia|]. rewrite double_million.
  assert (1 <= e) as He1.
  { destruct (decide (e = 0)) as [->|?]; [|lia]. rewrite Z.sub_0_r in Hlow. lia. }
  set (m1 := Z.pos p * 2 ^ e) in *. set (m2 := million * 2 ^ 33). assert (normal m2) as Hn2 by done.
  unfold double_div, SFdiv, SFdiv_core_binary. rewrite (Z2Pos.id m1), (Z2Pos.id m2) by (done || destruct Hn; lia).
  rewrite (Zdigits2_unique m1 52), (Zdigits2_unique m2 52) by (lia || done).
  replace (fexp 53 1024 (52 + 1 + - e - (52 + 1 + -33))) with (-20 - e) by (unfold fexp, emin; lia).
  rewrite Z.min_l by lia. replace (- e - -33 - (-20 - e)) with 53 by lia. rewrite Z.shiftl_mul_pow2 by lia.
  pose proof (Z_div_mod (m1 * 2 ^ 53) m2 ltac:(done)) as Hdm. pose proof (quotient_digits m1 m2 Hn Hn2) as Hq.
  assert (m1 * 2 ^ 53 / m2 = fst (Z.div_eucl (m1 * 2 ^ 53) m2)) as Eq by (unfold Z.div; by destruct (Z.div_eucl _ _)).
  rewrite Eq in Hq. clear Eq. destruct (Z.div_eucl (m1 * 2 ^ 53) m2) as [q r]. cbn [fst] in Hq. destruct Hdm as [Hdm Hr].
  destruct (round_div_near (xorb s false) q r m2 (-20 - e)) as (m & e' & -> & Hm & He' & Hnear); [lia|done|done|lia|lia|].
  exists m, (- e'). rewrite xorb_false_r, Z.opp_involutive. split; [done|]. split; [done|]. split; [lia|].
  apply (near_cancel (2 ^ (e' - (-20 - e)) * 2 ^ 33)); [apply Z.mul_pos_pos; [apply Z.pow_pos_nonneg; lia|done]|].
  replace (2 ^ (e' - (-20 - e)) * 2 ^ 33 * (Z.pos p * 2 ^ (- e'))) with (q * m2 + r);
    [by replace (2 ^ (e' - (-20 - e)) * 2 ^ 33 * million) with (2 ^ (e' - (-20 - e)) * m2) by (unfold m2; lia)|].
  transitivity (m1 * 2 ^ 53); [lia|]. unfold m1. rewrite <- Z.mul_assoc, <- Z.pow_add_r by lia.
  replace (e + 53) with (- e' + (e' - (-20 - e) + 33)) by lia. rewrite !Z.pow_add_r by lia. lia.
Qed.

Lemma ltb_normal n F m E : normal (n * 2 ^ F) -> normal m -> 0 <= E -> 0 <= F ->
  SFltb (S754_finite false (Z.to_pos (n * 2 ^ F)) (- F)) (S754_finite false (Z.to_pos m) (- E)) = (n * 2 ^ E <? m).
Proof.
  intros [H1 H1'] [H2 H2'] HE HF. unfold SFltb, SFcompare. pose proof (Z.pow_pos_nonneg 2 E ltac:(lia) HE) as PE.
  pose proof (Z.pow_pos_nonneg 2 F ltac:(lia) HF) as PF. destruct (Z.compare_spec (- F) (- E)) as [E1|E1|E1].
  - assert (F = E) as -> by lia. rewrite <- (Z2Pos.id m) at 2 by lia. rewrite <- (Z2Pos.id (n * 2 ^ E)) at 2 by lia.
    unfold Z.ltb, Z.compare, Pos.compare. by destruct (Pos.compare_cont _ _ _).
  - symmetry. apply Z.ltb_lt. replace F with (E + (F - E - 1) + 1) in H1' by lia. rewrite !Z.pow_add_r in H1' by lia.
    pose proof (Z.pow_pos_nonneg 2 (F - E - 1) ltac:(lia) ltac:(lia)).
    assert (0 < n) by nia. assert (n * 2 ^ E * 1 <= n * 2 ^ E * 2 ^ (F - E - 1)) by (apply Z.mul_le_mono_nonneg_l; nia). lia.
  - symmetry. apply Z.ltb_ge. replace E with (F + (E - F - 1) + 1) by lia. rewrite !Z.pow_add_r by lia.
    pose proof (Z.pow_pos_nonneg 2 (E - F - 1) ltac:(lia) ltac:(lia)).
    assert (n * 2 ^ F * 1 <= n * 2 ^ F * 2 ^ (E - F - 1)) by (apply Z.mul_le_mono_nonneg_l; lia). lia.
Qed.

Lemma near_ltb n d m E : 19 <= E -> near m (d * 2 ^ E) million -> (n * 2 ^ E <? m) = (n * million <? d).
Proof.
  intros HE Hn. unfold near, million in *. replace E with (19 + (E - 19)) in * by lia. rewrite Z.pow_add_r in * by lia.
  pose proof (Z.pow_pos_nonneg 2 (E - 19) ltac:(lia) ltac:(lia)) as HX. set (X := 2 ^ (E - 19)) in *. clearbody X. change (2 ^ 19) with 524288 in *.
  destruct (Z.ltb_spec (n * 1000000) d) as [H|H].
  - apply Z.ltb_lt. assert ((n * 1000000 + 1) * X <= d * X) by (apply Z.mul_le_mono_nonneg_r; lia). lia.
  - apply Z.ltb_ge. assert (d * X <= n * 1000000 * X) by (apply Z.mul_le_mono_nonneg_r; lia). lia.
Qed.

(** Seconds are compared as exactly as microseconds: with a number of seconds ... *)
Lemma seconds_gt d n : - 2 ^ 52 < d < 2 ^ 52 -> 0 <= n < 2 ^ 53 ->
  SFltb (double_of_Z n) (double_div (double_of_Z d) (double_of_Z million)) = (n * million <? d).
Proof.
  intros Hd Hn. destruct d as [|p|p].
  - rewrite double_million. change (double_div _ _) with (S754_zero false). rewrite (proj2 (Z.ltb_ge _ _)) by (unfold million; lia).
    destruct n as [|n|n]; [done| |lia]. cbn [double_of_Z binary_normalize]. destruct (round_integer false n) as (F & _ & _ & _ & ->); [lia|done].
  - destruct (div_million false p ltac:(lia)) as (m & E & Em & Hm & HE & Hnear). cbn [double_of_Z binary_normalize]. rewrite Em.
    destruct n as [|n|n]; [|destruct (round_integer false n) as (F & HF & Hnn & _ & Er)|]; [..|lia].
    + cbn [double_of_Z binary_normalize SFltb SFcompare]. by rewrite (proj2 (Z.ltb_lt _ _)) by lia.
    + lia.
    + cbn [double_of_Z binary_normalize]. rewrite Er, ltb_normal by (done || lia). apply near_ltb; [lia|done].
  - destruct (div_million true p ltac:(lia)) as (m & E & Em & _). cbn [double_of_Z binary_normalize]. rewrite Em.
    rewrite (proj2 (Z.ltb_ge _ _)) by (unfold million; lia).
    destruct n as [|n|n]; [done| |lia]. cbn [double_of_Z binary_normalize]. destruct (round_integer false n) as (F & _ & _ & _ & ->); [lia|done].
Qed.

(** ... and with zero. *)
Lemma seconds_neg d : - 2 ^ 52 < d < 2 ^ 52 ->
  SFltb (double_div (double_of_Z d) (double_of_Z million)) (double_of_Z 0) = (d <? 0).
Proof.
  intros Hd. destruct d as [|p|p]; [by rewrite double_million| |].
  - destruct (div_million false p ltac:(lia)) as (m & E & Em & _). cbn [double_of_Z binary_normalize]. by rewrite Em.
  - destruct (div_million true p ltac:(lia)) as (m & E & Em & _). cbn [double_of_Z binary_normalize]. by rewrite Em.
Qed.

(** A whole number of seconds is a whole number of microseconds. *)
Lemma mul_million s p : Z.pos p * million < 2 ^ 53 ->
  exists f, 0 <= f <= 52 /\ normal (Z.pos p * million * 2 ^ f) /\
    double_mul (binary_round 53 1024 s p 0) (double_of_Z million) = S754_finite s (Z.to_pos (Z.pos p * million * 2 ^ f)) (- f).
Proof.
  intros Hp. destruct (round_integer s p) as (e & He & Hn & _ & ->); [unfold million in Hp; lia|]. rewrite double_million.
  destruct (round_integer s (p * 1000000)) as (f & Hf & Hnf & _ & _); [exact Hp|].
  change (Z.pos (p * 1000000)) with (Z.pos p * million) in Hnf. exists f. split; [done|]. split; [done|].
  unfold double_mul, SFmul. rewrite xorb_false_r, Pos2Z.inj_mul, (Z2Pos.id (Z.pos p * 2 ^ e)), (Z2Pos.id (million * 2 ^ 33)) by (done || destruct Hn; lia).
  assert (f <= e + 33) as Hfe.
  { destruct (Z.le_gt_cases f (e + 33)) as [|Hgt]; [done|]. exfalso. replace f with (e + (f - e - 1) + 1) in Hnf by lia.
    rewrite !Z.pow_add_r in Hnf by lia. destruct Hnf as [_ Hnf], Hn as [Hn _]. pose proof (Z.pow_pos_nonneg 2 (f - e - 1) ltac:(lia) ltac:(lia)).
    assert (Z.pos p * 2 ^ e * 1 <= Z.pos p * 2 ^ e * 2 ^ (f - e - 1)) by (apply Z.mul_le_mono_nonneg_l; lia). unfold million in Hnf. lia. }
  replace (Z.pos p * 2 ^ e * (million * 2 ^ 33)) with (Z.pos p * million * 2 ^ f * 2 ^ (e + 33 - f)).
  - rewrite round_aux_exact by (done || lia). f_equal. lia.
  - rewrite <- !Z.mul_assoc, <- Z.pow_add_r by lia. replace (f + (e + 33 - f)) with (e + 33) by lia. rewrite Z.pow_add_r by lia. lia.
Qed.

Lemma mul_to_int64 s p : Z.pos p * million < 2 ^ 53 ->
  double_to_int64 (double_mul (binary_round 53 1024 s p 0) (double_of_Z million)) =
    Ok (if s then - (Z.pos p * million) else Z.pos p * million).
Proof.
  intros Hp. destruct (mul_million s p Hp) as (f & Hf & Hn & ->). unfold double_to_int64.
  assert ((if 0 <=? - f then Z.pos (Z.to_pos (Z.pos p * million * 2 ^ f)) * 2 ^ (- f)
    else Z.pos (Z.to_pos (Z.pos p * million * 2 ^ f)) / 2 ^ (- - f)) = Z.pos p * million) as ->.
  { rewrite Z2Pos.id by (destruct Hn; lia). destruct (Z.leb_spec 0 (- f)).
    - assert (f = 0) as -> by lia. by rewrite !Z.mul_1_r.
    - rewrite Z.opp_involutive. apply Z.div_mul, Z.pow_nonzero; lia. }
  assert (0 < Z.pos p * million) by done. unfold defined_if. destruct s; cbv iota; by rewrite (proj2 (Z.leb_le _ _)), (proj2 (Z.ltb_lt _ _)) by lia.
Qed.

Lemma seconds_to_int64 i : - 2 ^ 53 < i * million < 2 ^ 53 ->
  double_to_int64 (double_mul (double_of_Z i) (double_of_Z million)) = Ok (i * million).
Proof.
  intros Hi. destruct i as [|p|p]; [done| |]; cbn [double_of_Z binary_normalize]; by rewrite mul_to_int64 by lia.
Qed.
