(* ===== verification/Timestamp.v ===== *)
(** * Timestamps and timers
      (ryan_network/base/timestamp.h, timestamp.cc, ryan_network/timer/timer.h, timer.cc) *)

From S2P Require Import Prelude Format.
From S2P Require Export Double.

(** signed arithmetic of type [int64_t] *)
Definition int64 (z : Z) : result Z :=
  _ ← defined_if ((- 2 ^ 63 <=? z) && (z <? 2 ^ 63)); Ok z.

(** ** Timestamp *)

(** src: ryan_network/base/timestamp.h:37-37 Timestamp::kMicroSecondsPerSecond *)
Definition kMicroSecondsPerSecond : Z := 1000 * 1000.

(** A [Timestamp] is its microseconds.
    src: ryan_network/base/timestamp.h:9-44 Timestamp *)
Definition Timestamp : Type := Z.

(** src: ryan_network/base/timestamp.h:11-11 Timestamp::Timestamp *)
Definition Timestamp_new : Timestamp := 0.
(** src: ryan_network/base/timestamp.h:35-35 Timestamp::Invalid *)
Definition Invalid : Timestamp := Timestamp_new.

(** [gettimeofday] gives [tv_sec] and [tv_usec].
    src: ryan_network/base/timestamp.cc:4-11 Timestamp::Now *)
Definition Now (tv : Z * Z) : result Z :=
  s ← int64 (fst tv * kMicroSecondsPerSecond);
  int64 (s + snd tv).

(** src: ryan_network/base/timestamp.h:29-32 Timestamp::seconds_since_epoch *)
Definition seconds_since_epoch (t : Z) : Z := Z.quot t kMicroSecondsPerSecond.

(** ["%ld.%06ld"] into 32 bytes.
    src: ryan_network/base/timestamp.cc:14-20 Timestamp::ToString *)
Definition ToString (t : Z) : bytes :=
  let seconds := Z.quot t kMicroSecondsPerSecond in
  let microseconds := Z.rem t kMicroSecondsPerSecond in
  snprintf 32 (dec seconds ++ lit "." ++
    (if microseconds <? 0 then x2d :: dec_pad 5 (- microseconds) else dec_pad 6 microseconds)).

(** The fields of [struct tm] the formatter uses. *)
Record tm := mkTm { tm_year : Z; tm_mon : Z; tm_mday : Z; tm_hour : Z; tm_min : Z; tm_sec : Z }.

Definition pad (n : nat) (z : Z) : bytes :=
  if z <? 0 then x2d :: dec_pad (n - 1) (- z) else dec_pad n z.

(** [localtime] of the C library is the argument.
    src: ryan_network/base/timestamp.cc:25-43 Timestamp::ToFormattedString *)
Definition ToFormattedString (localtime : Z -> tm) (show_micro_seconds : bool) (t : Z) : bytes :=
  let seconds := Z.quot t kMicroSecondsPerSecond in
  let tm_time := localtime seconds in
  let date := pad 4 (tm_year tm_time + 1900) ++ lit "/" ++ pad 2 (tm_mon tm_time + 1) ++ lit "/"
    ++ pad 2 (tm_mday tm_time) ++ lit " " ++ pad 2 (tm_hour tm_time) ++ lit ":"
    ++ pad 2 (tm_min tm_time) ++ lit ":" ++ pad 2 (tm_sec tm_time) in
  if show_micro_seconds
  then snprintf 64 (date ++ lit "." ++ pad 6 (s32 (Z.rem t kMicroSecondsPerSecond)))
  else snprintf 64 date.

(** [operator<] and [operator==]
    src: ryan_network/base/timestamp.h:48-50 operator< *)
Definition time_lt (lhs rhs : Z) : bool := lhs <? rhs.
(** src: ryan_network/base/timestamp.h:52-54 operator== *)
Definition time_eq (lhs rhs : Z) : bool := lhs =? rhs.

(** src: ryan_network/base/timestamp.h:57-63 AddTime *)
Definition AddTime (timestamp : Z) (seconds : double) : result Z :=
  delta ← double_to_int64 (double_mul seconds (double_of_Z kMicroSecondsPerSecond));
  int64 (timestamp + delta).

(** src: ryan_network/base/timestamp.h:72-75 TimeDifference *)
Definition TimeDifference (high low : Z) : result double :=
  diff ← int64 (high - low);
  Ok (double_div (double_of_Z diff) (double_of_Z kMicroSecondsPerSecond)).

Lemma int64_ok z : - 2 ^ 63 <= z < 2 ^ 63 -> int64 z = Ok z.
Proof. intros Hz. unfold int64, defined_if. by rewrite (proj2 (Z.leb_le _ _)), (proj2 (Z.ltb_lt _ _)) by lia. Qed.

(** Whole seconds are added exactly. *)
Lemma AddTime_seconds t i : - 2 ^ 53 < i * kMicroSecondsPerSecond < 2 ^ 53 ->
  - 2 ^ 63 <= t + i * kMicroSecondsPerSecond < 2 ^ 63 -> AddTime t (double_of_Z i) = Ok (t + i * kMicroSecondsPerSecond).
Proof.
  intros Hi Ht. unfold AddTime. change kMicroSecondsPerSecond with million in *. rewrite seconds_to_int64 by done.
  by apply int64_ok.
Qed.

(** Comparing the seconds between two times, which are rounded, with a whole number of
    seconds is exact for times less than 2^52 microseconds (142 years) apart. *)
Lemma TimeDifference_seconds high low n : - 2 ^ 52 < high - low < 2 ^ 52 -> 0 <= n < 2 ^ 53 ->
  exists age, TimeDifference high low = Ok age /\
    SFltb (double_of_Z n) age = (n * kMicroSecondsPerSecond <? high - low) /\
    SFltb age (double_of_Z 0) = (high - low <? 0).
Proof.
  intros Hd Hn. unfold TimeDifference. rewrite int64_ok, bind_Ok by lia. eexists. split; [done|].
  split; [by apply seconds_gt|by apply seconds_neg].
Qed.

Example AddTime_examples :
  AddTime 5 (double_of_Z 3) = Ok 3000005 /\
  AddTime 0 (double_div (double_of_Z 1) (double_of_Z 10)) = Ok 100000 /\
  AddTime 7 (double_of_Z (-1)) = Ok (-999993) /\
  AddTime 0 (S754_infinity false) = Fault FUndef.
Proof. vm_compute. done. Qed.

Example ToString_examples :
  ToString 1686570268952562 = lit "1686570268.952562" /\ ToString 5000001 = lit "5.000001".
Proof. vm_compute. done. Qed.

(** ** Timer *)

Section Timer.
Context {CB : Type}.

(** src: ryan_network/timer/timer.h:33-36 Timer *)
Record Timer := mkTimer {
  callback_ : CB;
  expiration_ : Z;
  interval_ : double;
  repeat_ : bool
}.

(** src: ryan_network/timer/timer.h:17-21 Timer::Timer *)
Definition Timer_new (cb : CB) (when : Z) (interval : double) : Timer :=
  mkTimer cb when interval (SFltb (S754_zero false) interval).

(** src: ryan_network/timer/timer.cc:3-10 Timer::Restart *)
Definition Restart (t : Timer) (now : Z) : result Timer :=
  e ← (if repeat_ t then AddTime now (interval_ t) else Ok Timestamp_new);
  Ok (mkTimer (callback_ t) e (interval_ t) (repeat_ t)).

End Timer.
Arguments Timer : clear implicits.
