(* ===== verification/TimerQueue.v ===== *)
(** * TimerQueue (ryan_network/timer/timer_queue.h, timer_queue.cc)

    A [Timer*] is an address into a store of timers; [std::set<Entry>] is the
    list of its entries in ascending order.  [clock] gives the successive
    results of [Timestamp::Now()]; running a callback is a parameter.  All
    calls here run in the loop's thread; [AddTimer] only hands
    [AddTimerInLoop] to [EventLoop::RunInLoop]. *)

From S2P Require Import Prelude Timestamp.

(** ** std::set<std::pair<Timestamp, Timer*>> *)

Definition Entry : Type := Z * Z.

(** the order of pairs *)
Definition entry_lt (a b : Entry) : bool :=
  (fst a <? fst b) || ((fst a =? fst b) && (snd a <? snd b)).

(** An equal entry is not inserted again. *)
Fixpoint set_insert (e : Entry) (s : list Entry) : list Entry :=
  match s with
  | [] => [e]
  | f :: s' => if entry_lt e f then e :: s
               else if entry_lt f e then f :: set_insert e s' else s
  end.

(** the entries before [lower_bound(e)], and from it on *)
Fixpoint split_lower_bound (e : Entry) (s : list Entry) : list Entry * list Entry :=
  match s with
  | [] => ([], [])
  | f :: s' => if entry_lt f e
               then let '(a, b) := split_lower_bound e s' in (f :: a, b)
               else ([], s)
  end.

Definition UINTPTR_MAX : Z := 2 ^ 64 - 1.

(** [struct itimerspec]'s [it_value] *)
Record timespec := mkTimespec { tv_sec : Z; tv_nsec : Z }.

Section TimerQueue.
Context {CB : Type}.
Context (clock : nat -> Z).

(** [store] holds the timers that exist; [ticks] counts the readings of the
    clock; [armed_] is what [timerfd_] was last set to, with the time of
    the setting, [None] once it has fired.
    src: ryan_network/timer/timer_queue.h:47-53 TimerQueue *)
Record TimerQueue := mkTimerQueue {
  timers_ : list Entry;
  store : gmap Z (Timer CB);
  ticks : nat;
  armed_ : option (Z * timespec);
  calling_expired_timers_ : bool
}.

(** The channel of the timerfd is enabled by the constructor.
    src: ryan_network/timer/timer_queue.cc:36-43 TimerQueue::TimerQueue *)
Definition TimerQueue_new : TimerQueue := mkTimerQueue [] ∅ 0 None false.

Definition set_timers (q : TimerQueue) (s : list Entry) : TimerQueue :=
  mkTimerQueue s (store q) (ticks q) (armed_ q) (calling_expired_timers_ q).
Definition set_store (q : TimerQueue) (m : gmap Z (Timer CB)) : TimerQueue :=
  mkTimerQueue (timers_ q) m (ticks q) (armed_ q) (calling_expired_timers_ q).
Definition set_calling (q : TimerQueue) (b : bool) : TimerQueue :=
  mkTimerQueue (timers_ q) (store q) (ticks q) (armed_ q) b.
Definition set_armed (q : TimerQueue) (a : option (Z * timespec)) : TimerQueue :=
  mkTimerQueue (timers_ q) (store q) (ticks q) a (calling_expired_timers_ q).

(** [Timestamp::Now()] *)
Definition read_clock (q : TimerQueue) : Z * TimerQueue :=
  (clock (ticks q),
   mkTimerQueue (timers_ q) (store q) (S (ticks q)) (armed_ q) (calling_expired_timers_ q)).

(** [timer->...] *)
Definition timer_at (q : TimerQueue) (t : Z) : result (Timer CB) :=
  match store q !! t with
  | Some tm => Ok tm
  | None => Fault FUndef
  end.

(** The relative time [timerfd_settime] is given.
    src: ryan_network/timer/timer_queue.cc:78-88 TimerQueue::ResetTimerfd *)
Definition relative_time (expiration now : Z) : result timespec :=
  d ← int64 (expiration - now);
  let microSecondDif := if d <? 100 then 100 else d in
  Ok (mkTimespec (Z.quot microSecondDif kMicroSecondsPerSecond)
                 (Z.rem microSecondDif kMicroSecondsPerSecond * 1000)).

(** src: ryan_network/timer/timer_queue.cc:71-94 TimerQueue::ResetTimerfd *)
Definition ResetTimerfd (q : TimerQueue) (expiration : Z) : result TimerQueue :=
  let '(now, q) := read_clock q in
  ts ← relative_time expiration now;
  Ok (set_armed q (Some (now, ts))).

(** src: ryan_network/timer/timer_queue.cc:153-166 TimerQueue::Insert *)
Definition Insert (q : TimerQueue) (timer : Z) : result (bool * TimerQueue) :=
  tm ← timer_at q timer;
  let when := expiration_ tm in
  let earliestChanged :=
    match timers_ q with
    | [] => true
    | it :: _ => time_lt when (fst it)
    end in
  Ok (earliestChanged, set_timers q (set_insert (when, timer) (timers_ q))).

(** src: ryan_network/timer/timer_queue.cc:60-68 TimerQueue::AddTimerInLoop *)
Definition AddTimerInLoop (q : TimerQueue) (timer : Z) : result TimerQueue :=
  '(earliestChanged, q) ← Insert q timer;
  if (earliestChanged : bool) then
    tm ← timer_at q timer;
    ResetTimerfd q (expiration_ tm)
  else Ok q.

(** [AddTimer] called in the loop's thread; [timer] is the address the new
    object gets.
    src: ryan_network/timer/timer_queue.cc:55-58 TimerQueue::AddTimer *)
Definition AddTimer (q : TimerQueue) (timer : Z) (cb : CB) (when : Z) (interval : double)
    : result TimerQueue :=
  AddTimerInLoop (set_store q (<[timer := Timer_new cb when interval]> (store q))) timer.

(** src: ryan_network/timer/timer_queue.cc:106-115 TimerQueue::GetExpired *)
Definition GetExpired (q : TimerQueue) (now : Z) : list Entry * TimerQueue :=
  let sentry := (now, UINTPTR_MAX) in
  let '(expired, rest) := split_lower_bound sentry (timers_ q) in
  (expired, set_timers q rest).

(** The first statement of the loop: restart and insert, or delete.
    src: ryan_network/timer/timer_queue.cc:138-144 TimerQueue::Reset *)
Definition Reset_timer (t : Z) (tm : Timer CB) (q : TimerQueue) : result TimerQueue :=
  if repeat_ tm then
    let '(now, q) := read_clock q in
    tm ← Restart tm now;
    '(_, q) ← Insert (set_store q (<[t := tm]> (store q))) t;
    Ok q
  else Ok (set_store q (delete t (store q))).

(** Its second statement.
    src: ryan_network/timer/timer_queue.cc:147-149 TimerQueue::Reset *)
Definition Reset_rearm (q : TimerQueue) : result TimerQueue :=
  match timers_ q with
  | [] => Ok q
  | first :: _ => tm ← timer_at q (snd first); ResetTimerfd q (expiration_ tm)
  end.

(** src: ryan_network/timer/timer_queue.cc:136-150 TimerQueue::Reset *)
Fixpoint Reset_loop (expired : list Entry) (q : TimerQueue) : result TimerQueue :=
  match expired with
  | [] => Ok q
  | it :: expired =>
      tm ← timer_at q (snd it);
      q ← Reset_timer (snd it) tm q;
      q ← Reset_rearm q;
      Reset_loop expired q
  end.

(** src: ryan_network/timer/timer_queue.cc:134-151 TimerQueue::Reset *)
Definition Reset (q : TimerQueue) (expired : list Entry) (now : Z) : result TimerQueue :=
  Reset_loop expired q.

(** ** Firing *)

(** what running a callback does to the queue *)
Context (run : CB -> TimerQueue -> result TimerQueue).

(** [for (const Entry& it : expired) it.second->Run();]
    src: ryan_network/timer/timer_queue.cc:125-127 TimerQueue::HandleRead *)
Fixpoint run_expired (expired : list Entry) (q : TimerQueue) : result TimerQueue :=
  match expired with
  | [] => Ok q
  | it :: expired =>
      tm ← timer_at q (snd it);
      q ← run (callback_ tm) q;
      run_expired expired q
  end.

(** Reading the descriptor resets it.
    src: ryan_network/timer/timer_queue.cc:117-132 TimerQueue::HandleRead *)
Definition HandleRead (q : TimerQueue) : result TimerQueue :=
  let '(now, q) := read_clock q in
  let q := set_armed q None in
  let '(expired, q) := GetExpired q now in
  q ← run_expired expired (set_calling q true);
  Reset (set_calling q false) expired now.

(** The destructor deletes the timers that are left.
    src: ryan_network/timer/timer_queue.cc:45-53 TimerQueue::~TimerQueue *)
Definition TimerQueue_destroy (q : TimerQueue) : TimerQueue :=
  set_store q (foldl (fun m (e : Entry) => delete (snd e) m) (store q) (timers_ q)).

End TimerQueue.

Arguments TimerQueue : clear implicits.
