(* ===== verification/TimerSpec.v ===== *)
(** * Properties of TimerQueue *)

From Stdlib Require Import Sorting.Sorted Floats.SpecFloat.
From S2P Require Import Prelude Timestamp TimerQueue.

(** ** The set *)

Abbreviation ascending := (StronglySorted (fun a b => entry_lt a b = true)).

Lemma entry_lt_spec a b :
  entry_lt a b = true <-> fst a < fst b \/ (fst a = fst b /\ snd a < snd b).
Proof. unfold entry_lt. lia. Qed.

Lemma elem_of_set_insert e s x : x ∈ set_insert e s <-> x = e \/ x ∈ s.
Proof.
  induction s as [|f s IH]; simpl; [set_solver|].
  destruct (entry_lt e f) eqn:E1; [set_solver|]. destruct (entry_lt f e) eqn:E2; [set_solver|].
  assert (e = f) as ->; [|set_solver].
  destruct e as [a b], f as [c d]. unfold entry_lt in *. simpl in *.
  f_equal; lia.
Qed.

Lemma set_insert_ascending e s : ascending s -> ascending (set_insert e s).
Proof.
  induction 1 as [|f s Hs IH Hf]; simpl; [repeat constructor|].
  destruct (entry_lt e f) eqn:E1.
  - constructor; [by constructor|]. constructor; [done|].
    rewrite Forall_forall in Hf |- *. intros x Hx. specialize (Hf x Hx).
    rewrite entry_lt_spec in *. lia.
  - destruct (entry_lt f e) eqn:E2; [|by constructor]. constructor; [done|].
    rewrite Forall_forall in Hf |- *. intros x [->|Hx]%elem_of_set_insert; auto.
Qed.

(** What has expired at [now] is what is due, and nothing else. *)
Lemma split_lower_bound_filter now s :
  ascending s -> Forall (fun e : Entry => snd e < UINTPTR_MAX) s ->
  split_lower_bound (now, UINTPTR_MAX) s =
    (filter (fun e : Entry => fst e <= now) s, filter (fun e : Entry => now < fst e) s).
Proof.
  intros Hs Hp. induction Hs as [|[w t] s Hs IH Hf]; [done|].
  apply Forall_cons in Hp as [Ht Hp]. simpl in Ht. cbn [split_lower_bound].
  rewrite !filter_cons. cbn [fst].
  destruct (entry_lt (w, t) (now, UINTPTR_MAX)) eqn:E.
  - apply entry_lt_spec in E. simpl in E. rewrite decide_True, decide_False by lia.
    by rewrite IH.
  - assert (now < w) as Hlt.
    { apply Z.nle_gt. intros Hle. assert (entry_lt (w, t) (now, UINTPTR_MAX) = true); [|congruence].
      apply entry_lt_spec. simpl. lia. }
    rewrite decide_False, decide_True by lia.
    assert (Hall : Forall (fun e : Entry => now < fst e) s).
    { rewrite Forall_forall in Hf |- *. intros x Hx. specialize (Hf x Hx).
      rewrite entry_lt_spec in Hf. simpl in Hf. lia. }
    assert (filter (fun e : Entry => fst e <= now) s = []) as ->.
    { clear -Hall. induction Hall as [|x l Hx Hl IHl]; [done|]. rewrite filter_cons.
      rewrite decide_False by lia. done. }
    f_equal. f_equal. clear -Hall. induction Hall as [|x l Hx Hl IHl]; [done|].
    rewrite filter_cons, decide_True by done. by rewrite <- IHl.
Qed.

(** ** The invariant *)

Section Timers.
Context {CB : Type} (clock : nat -> Z).
Context (clock_range : forall n, 0 <= clock n < 2 ^ 62).
Abbreviation queue := (TimerQueue CB).

(** Times that can be subtracted, intervals that can be added to the
    clock. *)
Definition time_ok (t : Z) : Prop := - 2 ^ 62 <= t < 2 ^ 62.
Definition timer_ok (tm : Timer CB) : Prop :=
  time_ok (expiration_ tm) /\
  (repeat_ tm = true -> forall n, exists e, AddTime (clock n) (interval_ tm) = Ok e /\ time_ok e).

Record queue_ok (q : queue) : Prop := {
  qo_sorted : ascending (timers_ q);
  qo_entry : forall w t, (w, t) ∈ timers_ q ->
    exists tm, store q !! t = Some tm /\ expiration_ tm = w;
  qo_timer : forall t tm, store q !! t = Some tm -> timer_ok tm /\ 0 <= t < UINTPTR_MAX
}.

(** The timerfd is set to the time left until the earliest timer. *)
Definition armed_first (q : queue) : Prop :=
  match timers_ q with
  | [] => True
  | first :: _ => exists now ts, armed_ q = Some (now, ts) /\ relative_time (fst first) now = Ok ts
  end.

Lemma relative_time_inv e now ts :
  relative_time e now = Ok ts ->
  0 <= tv_sec ts /\ 0 <= tv_nsec ts < 10 ^ 9 /\
  tv_sec ts * 10 ^ 9 + tv_nsec ts = 1000 * Z.max 100 (e - now).
Proof.
  unfold relative_time, int64. intros H. inv_bind.
  set (d := if e - now <? 100 then 100 else e - now).
  assert (d = Z.max 100 (e - now)) as <- by (unfold d; destruct (Z.ltb_spec (e - now) 100); lia).
  assert (100 <= d) by (unfold d; destruct (Z.ltb_spec (e - now) 100); lia).
  unfold kMicroSecondsPerSecond. rewrite Z.quot_div_nonneg, Z.rem_mod_nonneg by lia.
  pose proof (Z.div_mod d (1000 * 1000) ltac:(lia)).
  pose proof (Z.mod_pos_bound d (1000 * 1000) ltac:(lia)).
  pose proof (Z.div_pos d (1000 * 1000) ltac:(lia) ltac:(lia)). lia.
Qed.

Lemma relative_time_ok e now :
  time_ok e -> 0 <= now < 2 ^ 62 -> exists ts, relative_time e now = Ok ts.
Proof.
  intros He Hn. unfold relative_time, int64, time_ok in *.
  rewrite defined_Ok by lia. rewrite !bind_Ok. by eexists.
Qed.

Lemma ResetTimerfd_ok (q : queue) e :
  time_ok e -> exists now ts, ResetTimerfd clock q e =
      Ok (set_armed (snd (read_clock clock q)) (Some (now, ts))) /\ relative_time e now = Ok ts.
Proof using clock_range.
  intros He. unfold ResetTimerfd, read_clock.
  destruct (relative_time_ok e (clock (ticks q)) He (clock_range _)) as (ts & Ht).
  exists (clock (ticks q)), ts. by rewrite Ht.
Qed.

(** Setting the timerfd changes nothing the invariant is about. *)
Lemma queue_ok_ext (q q' : queue) :
  queue_ok q -> timers_ q' = timers_ q -> store q' = store q -> queue_ok q'.
Proof. intros [] Ht Hs. split; rewrite ?Ht, ?Hs; done. Qed.

Lemma Insert_ok (q : queue) t tm :
  queue_ok q -> store q !! t = Some tm ->
  exists b, Insert q t = Ok (b, set_timers q (set_insert (expiration_ tm, t) (timers_ q))) /\
    queue_ok (set_timers q (set_insert (expiration_ tm, t) (timers_ q))) /\
    (b = true <-> match timers_ q with [] => True | f :: _ => expiration_ tm < fst f end).
Proof.
  intros [H1 H2 H3] Ht. unfold Insert, timer_at. rewrite Ht, bind_Ok.
  eexists. split; [reflexivity|]. split.
  - split; simpl; [by apply set_insert_ascending| |done].
    intros w t' [[= -> ->]|Hin]%elem_of_set_insert; [by exists tm|by apply H2].
  - destruct (timers_ q) as [|f l]; [done|]. unfold time_lt. lia.
Qed.

(** The first entry after an insertion that did not come first. *)
Lemma set_insert_first (e f : Entry) (s : list Entry) :
  fst f <= fst e -> exists g s', set_insert e (f :: s) = g :: s' /\ fst g = fst f.
Proof.
  intros Hle. simpl. destruct (entry_lt e f) eqn:E1.
  - apply entry_lt_spec in E1. exists e, (f :: s). split; [done|]. lia.
  - destruct (entry_lt f e); by eexists _, _.
Qed.

Lemma set_insert_earliest (e f : Entry) (s : list Entry) :
  fst e < fst f -> set_insert e (f :: s) = e :: f :: s.
Proof. intros Hlt. simpl. by rewrite (proj2 (entry_lt_spec e f)) by (left; done). Qed.

Lemma AddTimerInLoop_ok (q : queue) t tm :
  queue_ok q -> armed_first q -> store q !! t = Some tm ->
  exists q', AddTimerInLoop clock q t = Ok q' /\ queue_ok q' /\ armed_first q' /\
    timers_ q' = set_insert (expiration_ tm, t) (timers_ q) /\ store q' = store q.
Proof using clock_range.
  intros Hq Ha Ht. unfold AddTimerInLoop.
  destruct (Insert_ok q t tm Hq Ht) as (b & -> & Hq' & Hb). rewrite bind_Ok.
  destruct b.
  - unfold timer_at. cbn [store set_timers]. rewrite Ht, bind_Ok.
    pose proof (qo_timer q Hq t tm Ht) as [[He _] _].
    destruct (ResetTimerfd_ok (set_timers q (set_insert (expiration_ tm, t) (timers_ q)))
      (expiration_ tm) He) as (now & ts & -> & Hts).
    eexists. split; [reflexivity|]. split; [by eapply queue_ok_ext|]. split; [|done].
    unfold armed_first. cbn [timers_ set_timers set_armed read_clock snd armed_]. destruct (timers_ q) as [|f l].
    + simpl. by exists now, ts.
    + rewrite set_insert_earliest by by apply Hb. by exists now, ts.
  - eexists. split; [reflexivity|]. split; [done|]. split; [|done].
    unfold armed_first in *. cbn [timers_ set_timers armed_]. destruct (timers_ q) as [|f l]; [by destruct Hb as [_ Hb]; discriminate Hb|].
    destruct (set_insert_first (expiration_ tm, t) f l) as (g & s' & -> & Hg).
    { simpl. destruct Hb as [_ Hb]. destruct (Z.lt_ge_cases (expiration_ tm) (fst f)); [|done].
      by discriminate Hb. }
    by rewrite Hg.
Qed.

(** ** Running and resetting *)

(** What running callbacks may do: create timers and add them. *)
Record extends (q q' : queue) : Prop := {
  ex_store : store q ⊆ store q';
  ex_kept : forall e, e ∈ timers_ q -> e ∈ timers_ q';
  ex_new : forall w t, (w, t) ∈ timers_ q' -> (w, t) ∈ timers_ q \/ store q !! t = None
}.

Lemma extends_refl q : extends q q.
Proof. split; auto. Qed.

Lemma extends_trans q1 q2 q3 : extends q1 q2 -> extends q2 q3 -> extends q1 q3.
Proof.
  intros [S1 K1 N1] [S2 K2 N2]. split; auto; [by etransitivity|].
  intros w t [Hin|Hn]%N2; [by apply N1|]. right.
  destruct (store q1 !! t) as [tm|] eqn:E; [|done].
  rewrite (lookup_weaken _ _ _ _ E S1) in Hn. done.
Qed.

Definition callbacks_ok (run : CB -> queue -> result queue) : Prop :=
  forall cb q, queue_ok q -> exists q', run cb q = Ok q' /\ queue_ok q' /\ extends q q'.

Lemma run_expired_ok run expired (q : queue) :
  callbacks_ok run -> queue_ok q -> (forall e, e ∈ expired -> is_Some (store q !! snd e)) ->
  exists q', run_expired run expired q = Ok q' /\ queue_ok q' /\ extends q q'.
Proof.
  intros Hrun. revert q. induction expired as [|e l IH]; intros q Hq Hl.
  - exists q. split; [done|]. split; [done|apply extends_refl].
  - cbn [run_expired]. destruct (Hl e ltac:(set_solver)) as [tm Ht]. unfold timer_at.
    rewrite Ht, bind_Ok. destruct (Hrun (callback_ tm) q Hq) as (q1 & -> & Hq1 & E1).
    rewrite bind_Ok. destruct (IH q1 Hq1) as (q2 & H2 & Hq2 & E2).
    { intros e' He'. destruct (Hl e' ltac:(set_solver)) as [tm' Ht'].
      exists tm'. by apply (lookup_weaken _ _ _ _ Ht'), E1. }
    exists q2. split; [done|]. split; [done|]. by eapply extends_trans.
Qed.

(** Not in the set under any time. *)
Definition not_queued (q : queue) (t : Z) : Prop := forall w, (w, t) ∉ timers_ q.

(** [t], which was [tm], expires again one interval after a reading of the clock. *)
Definition restarted (q : queue) (t : Z) (tm : Timer CB) : Prop :=
  exists n w, AddTime (clock n) (interval_ tm) = Ok w /\ (w, t) ∈ timers_ q /\
    store q !! t = Some (mkTimer (callback_ tm) w (interval_ tm) true).

(** One turn of the loop of [Reset] on a timer: restarted and inserted, or
    deleted. *)
Lemma reset_one (q : queue) t tm :
  queue_ok q -> store q !! t = Some tm -> not_queued q t ->
  exists q1, Reset_timer clock t tm q = Ok q1 /\ queue_ok q1 /\
    (forall e, e ∈ timers_ q -> e ∈ timers_ q1) /\
    (forall w t', (w, t') ∈ timers_ q1 -> (w, t') ∈ timers_ q \/ t' = t) /\
    (forall t', t' <> t -> store q1 !! t' = store q !! t') /\
    (if repeat_ tm then restarted q1 t tm else store q1 !! t = None).
Proof.
  intros Hq Ht Hnq. pose proof Hq as [H1 H2 H3]. destruct (H3 t tm Ht) as [[Hte Htr] Hrange].
  unfold Reset_timer.
  destruct (repeat_ tm) eqn:Er.
  - unfold read_clock. destruct (Htr eq_refl (ticks q)) as (e & He & Hok). unfold Restart.
    rewrite Er, He, !bind_Ok. cbn [set_store store timers_ ticks].
    set (tm' := mkTimer (callback_ tm) e (interval_ tm) true).
    match goal with |- context [Insert ?x t] => set (q0 := x) end.
    assert (queue_ok q0) as Hq0.
    { split; simpl; [done| |].
      - intros w t' Hin. rewrite lookup_insert_ne; [by apply H2|]. intros <-. by apply (Hnq w).
      - intros t' tm0 [[-> <-]|[_ Hl]]%lookup_insert_Some; [|by apply (H3 t')].
        split; [split; [done|]|done]. simpl. intros _. apply Htr. done. }
    destruct (Insert_ok q0 t tm' Hq0) as (b & -> & Hq1 & _); [apply lookup_insert_eq|].
    rewrite bind_Ok. eexists. split; [reflexivity|]. split; [exact Hq1|]. simpl.
    split; [|split; [|split]].
    + intros x Hx. apply elem_of_set_insert. by right.
    + intros w t' [[= -> ->]|Hin]%elem_of_set_insert; auto.
    + intros t' Hne. by rewrite lookup_insert_ne.
    + exists (ticks q), e. split; [done|]. split; [apply elem_of_set_insert; by left|]. apply lookup_insert_eq.
  - eexists. split; [reflexivity|]. split; [|split; [done|split; [auto|split]]].
    + split; simpl; [done| |].
      * intros w t' Hin. rewrite lookup_delete_ne; [by apply H2|]. intros <-. by apply (Hnq w).
      * intros t' tm0 [_ Hl]%lookup_delete_Some. by apply (H3 t').
    + intros t' Hne. simpl. by rewrite lookup_delete_ne.
    + simpl. by rewrite lookup_delete_eq.
Qed.

Lemma rearm_ok (q : queue) :
  queue_ok q -> exists q', Reset_rearm clock q = Ok q' /\
    queue_ok q' /\ armed_first q' /\ timers_ q' = timers_ q /\ store q' = store q.
Proof using clock_range.
  intros Hq. unfold armed_first, Reset_rearm. destruct (timers_ q) as [|[w t] l] eqn:El.
  - exists q. rewrite El. done.
  - destruct (qo_entry q Hq w t) as (tm & Ht & Hw); [rewrite El; set_solver|].
    unfold timer_at. cbn [snd]. rewrite Ht, bind_Ok.
    pose proof (qo_timer q Hq t tm Ht) as [[He _] _].
    destruct (ResetTimerfd_ok q (expiration_ tm) He) as (now & ts & -> & Hts).
    eexists. split; [reflexivity|]. split; [by eapply queue_ok_ext|]. simpl. rewrite El.
    split; [|done]. exists now, ts. simpl. by rewrite <- Hw.
Qed.

Lemma Reset_loop_ok expired (q : queue) :
  queue_ok q -> NoDup expired.*2 ->
  (forall e, e ∈ expired -> is_Some (store q !! snd e) /\ not_queued q (snd e)) ->
  exists q', Reset_loop clock expired q = Ok q' /\ queue_ok q' /\
    (forall e, e ∈ timers_ q -> e ∈ timers_ q') /\
    (forall t tm, t ∈ expired.*2 -> store q !! t = Some tm ->
       if repeat_ tm then restarted q' t tm else store q' !! t = None) /\
    (forall t, t ∉ expired.*2 -> store q' !! t = store q !! t) /\
    (forall w t, (w, t) ∈ timers_ q' -> (w, t) ∈ timers_ q \/ t ∈ expired.*2) /\
    (expired <> [] \/ armed_first q -> armed_first q').
Proof using clock_range.
  revert q. induction expired as [|[w t] l IH]; intros q Hq Hnd Hl.
  - exists q. split; [done|]. split; [done|]. split; [done|]. split; [set_solver|].
    split; [done|]. split; [by left|]. by intros [?|?].
  - cbn [fmap list_fmap snd] in Hnd. apply NoDup_cons in Hnd as [Hnin Hnd].
    destruct (Hl (w, t) ltac:(set_solver)) as [[tm Ht] Hnq]. cbn [snd] in *.
    destruct (reset_one q t tm Hq Ht Hnq) as (q1 & G1 & Hq1 & K1 & N1 & S1 & R1).
    destruct (rearm_ok q1 Hq1) as (q2 & G2 & Hq2 & A2 & T2 & S2).
    destruct (IH q2 Hq2 Hnd) as (q3 & G3 & Hq3 & K3 & R3 & S3 & O3 & A3).
    { intros e He. destruct (Hl e ltac:(set_solver)) as [Hs Hn].
      assert (snd e <> t) as Hne.
      { intros Heq. apply Hnin. rewrite <- Heq. by apply (list_elem_of_fmap_2 snd). }
      rewrite S2, S1 by done. split; [done|]. intros w'. rewrite T2.
      intros [Hin|Hin]%N1; [by apply (Hn w')|done]. }
    exists q3. split.
    { assert (timer_at q t = Ok tm) as Hta by (unfold timer_at; by rewrite Ht).
      cbn [Reset_loop snd]. rewrite Hta, bind_Ok, G1, bind_Ok, G2, bind_Ok. exact G3. }
    split; [done|]. split; [intros e He; apply K3; rewrite T2; auto|]. split; [|split; [|split]].
    + intros t' tm' Hin Ht'. cbn [fmap list_fmap snd] in Hin. apply elem_of_cons in Hin as [->|Hin].
      * rewrite Ht in Ht'. injection Ht' as <-. destruct (repeat_ tm).
        -- destruct R1 as (n & w' & Hw' & Hin' & Hs'). exists n, w'. split; [done|].
           split; [apply K3; by rewrite T2|]. by rewrite S3, S2.
        -- rewrite S3 by done. by rewrite S2.
      * apply R3; [done|]. rewrite S2, S1; [done|]. intros ->. done.
    + intros t' Hnt. cbn [fmap list_fmap snd] in Hnt. rewrite S3, S2, S1; [done|set_solver|set_solver].
    + intros w' t' [Hin|Hin]%O3; [|right; set_solver]. rewrite T2 in Hin. apply N1 in Hin as [Hin| ->]; [by left|].
      right. set_solver.
    + intros _. apply A3. by right.
Qed.

(** The pointers of the set are distinct: the time of an entry is the
    expiration of its timer. *)
Lemma queued_distinct (q : queue) : queue_ok q -> NoDup (timers_ q).*2.
Proof.
  intros [H1 H2 _]. induction H1 as [|[w t] l Hs IH Hf]; cbn [fmap list_fmap snd]; constructor.
  - intros ([w' t'] & Heq & Hin)%list_elem_of_fmap. simpl in Heq. subst t'.
    destruct (H2 w t ltac:(set_solver)) as (tm & E1 & E2).
    destruct (H2 w' t ltac:(set_solver)) as (tm' & E3 & E4).
    rewrite Forall_forall in Hf. specialize (Hf _ Hin). apply entry_lt_spec in Hf. simpl in Hf.
    simplify_eq. lia.
  - apply IH. intros w' t' Hin. apply H2. set_solver.
Qed.

Lemma NoDup_filter_snd (f : Entry -> Prop) `{!forall e, Decision (f e)} l :
  NoDup l.*2 -> NoDup (filter f l).*2.
Proof.
  induction l as [|e l IH]; cbn [fmap list_fmap]; [done|]. intros [Hn Hd]%NoDup_cons.
  rewrite filter_cons. case_decide; cbn [fmap list_fmap]; [|auto]. constructor; auto.
  intros (e' & He & Hin)%list_elem_of_fmap. apply Hn. rewrite He.
  apply list_elem_of_fmap_2. apply list_elem_of_filter in Hin. tauto.
Qed.

(** The queue when the callbacks of a firing at time [now] start. *)
Definition fired (q : queue) (now : Z) : queue :=
  mkTimerQueue (filter (fun e : Entry => now < fst e) (timers_ q)) (store q) (S (ticks q)) None true.

Lemma HandleRead_unfold run (q : queue) :
  queue_ok q -> let now := clock (ticks q) in
  let expired := filter (fun e : Entry => fst e <= now) (timers_ q) in
  HandleRead clock run q =
    (q ← run_expired run expired (fired q now); Reset_loop clock expired (TimerQueue.set_calling q false)).
Proof.
  intros Hq now expired. unfold HandleRead, read_clock, GetExpired.
  cbn [timers_ set_armed ticks store calling_expired_timers_].
  rewrite split_lower_bound_filter; [done|apply Hq|].
  apply Forall_forall. intros [w t] Hin. destruct (qo_entry q Hq w t Hin) as (tm & Ht & _).
  by apply (qo_timer q Hq t tm).
Qed.

Lemma fired_ok (q : queue) now : queue_ok q -> queue_ok (fired q now).
Proof.
  intros [H1 H2 H3]. split; simpl; [|intros w t [_ Hin]%list_elem_of_filter; by apply H2|done].
  clear -H1. induction H1 as [|e l Hs IH Hf]; [constructor|]. rewrite filter_cons.
  case_decide; [|done]. constructor; [done|].
  rewrite Forall_forall in Hf |- *. intros x [_ Hx]%list_elem_of_filter. by apply Hf.
Qed.

(** Callbacks called one after the other. *)
Definition run_callbacks (run : CB -> queue -> result queue) (cbs : list CB) (q : queue) : result queue :=
  foldl (fun r cb => q ← r; run cb q) (Ok q) cbs.

(** The callbacks of timers, in the order of the list. *)
Definition callbacks_of (l : list Entry) (q : queue) : list CB :=
  omap (fun e : Entry => callback_ <$> store q !! snd e) l.

Lemma run_callbacks_cons run cb cbs q q1 :
  run cb q = Ok q1 -> run_callbacks run (cb :: cbs) q = run_callbacks run cbs q1.
Proof. intros E. unfold run_callbacks. cbn [foldl]. by rewrite bind_Ok, E. Qed.

Lemma callbacks_of_cons e l q tm :
  store q !! snd e = Some tm -> callbacks_of (e :: l) q = callback_ tm :: callbacks_of l q.
Proof. intros Ht. unfold callbacks_of. cbn. by rewrite Ht. Qed.

Lemma callbacks_of_weaken l q q1 : (forall e, e ∈ l -> is_Some (store q !! snd e)) -> store q ⊆ store q1 ->
  callbacks_of l q1 = callbacks_of l q.
Proof.
  intros Hl Hs. induction l as [|e l IH]; [done|]. destruct (Hl e ltac:(left)) as [tm Ht].
  rewrite (callbacks_of_cons _ _ _ _ Ht), (callbacks_of_cons _ _ _ _ (lookup_weaken _ _ _ _ Ht Hs)). f_equal.
  apply IH. intros e' He'. apply Hl. by right.
Qed.

Lemma run_expired_callbacks run expired (q : queue) :
  callbacks_ok run -> queue_ok q -> (forall e, e ∈ expired -> is_Some (store q !! snd e)) ->
  run_expired run expired q = run_callbacks run (callbacks_of expired q) q.
Proof.
  intros Hrun. revert q. induction expired as [|e l IH]; intros q Hq Hl; [done|].
  destruct (Hl e ltac:(left)) as [tm Ht]. rewrite (callbacks_of_cons _ _ _ _ Ht). cbn [run_expired]. unfold timer_at.
  rewrite Ht, bind_Ok. destruct (Hrun (callback_ tm) q Hq) as (q1 & E & Hq1 & E1).
  rewrite E, bind_Ok, (run_callbacks_cons _ _ _ _ _ E), IH; [|done|].
  - f_equal. apply callbacks_of_weaken; [|apply E1]. intros e' He'. apply Hl. by right.
  - intros e' He'. destruct (Hl e' ltac:(by right)) as [tm' Ht']. exists tm'. by apply (lookup_weaken _ _ _ _ Ht'), E1.
Qed.

Lemma HandleRead_ok run (q : queue) :
  callbacks_ok run -> queue_ok q ->
  let now := clock (ticks q) in
  let expired := filter (fun e : Entry => fst e <= now) (timers_ q) in
  length (callbacks_of expired q) = length expired /\
  exists q1 q', run_callbacks run (callbacks_of expired q) (fired q now) = Ok q1 /\
    HandleRead clock run q = Ok q' /\ queue_ok q' /\
    (forall e, e ∈ timers_ q -> now < fst e -> e ∈ timers_ q') /\
    (forall e, e ∈ timers_ q1 -> e ∈ timers_ q') /\
    (forall w t, (w, t) ∈ timers_ q' -> (w, t) ∈ timers_ q1 \/ t ∈ expired.*2) /\
    (forall t, t ∉ expired.*2 -> store q' !! t = store q1 !! t) /\
    (forall w t tm, (w, t) ∈ expired -> store q !! t = Some tm ->
       if repeat_ tm then restarted q' t tm else store q' !! t = None) /\
    (expired <> [] -> armed_first q').
Proof using clock_range.
  intros Hrun Hq now expired. rewrite HandleRead_unfold by done. fold now expired.
  assert (Hlive : forall w t, (w, t) ∈ expired -> is_Some (store q !! t) /\ not_queued (fired q now) t).
  { intros w t [Hw Hin]%list_elem_of_filter. simpl in Hw.
    destruct (qo_entry q Hq w t Hin) as (tm & Ht & Hx). split; [by exists tm|].
    intros w' [Hw' Hin']%list_elem_of_filter. simpl in Hw'.
    destruct (qo_entry q Hq w' t Hin') as (tm' & Ht' & Hx'). simplify_eq. lia. }
  assert (Hlive' : forall e, e ∈ expired -> is_Some (store q !! snd e)) by (intros [w t] He; by apply (Hlive w t)).
  split.
  { clear -Hlive'. induction expired as [|e l IH]; [done|].
    destruct (Hlive' e ltac:(left)) as [tm Ht]. rewrite (callbacks_of_cons _ _ _ _ Ht). cbn. f_equal. apply IH. intros e' He'. apply Hlive'. by right. }
  pose proof (run_expired_callbacks run expired (fired q now) Hrun (fired_ok q now Hq) Hlive') as Hcb.
  change (callbacks_of expired (fired q now)) with (callbacks_of expired q) in Hcb. rewrite <- Hcb.
  destruct (run_expired_ok run expired (fired q now) Hrun (fired_ok q now Hq) Hlive') as (q1 & H1 & Hq1 & [E1 E2 E3]).
  rewrite H1, bind_Ok. set (q1' := TimerQueue.set_calling q1 false).
  destruct (Reset_loop_ok expired q1') as (q' & G1 & G2 & G3 & G4 & G5 & G6 & G7).
  { by eapply queue_ok_ext. }
  { apply NoDup_filter_snd. by apply queued_distinct. }
  { intros [w t] He. destruct (Hlive w t He) as [[tm Ht] Hn]. split.
    - exists tm. by apply (lookup_weaken _ _ _ _ Ht).
    - intros w' [Hin|Hnone]%E3; [by apply (Hn w')|]. simpl in Hnone. cbn [snd] in *. congruence. }
  exists q1, q'. split; [done|]. split; [exact G1|]. split; [exact G2|]. split; [|split; [exact G3|]].
  { intros e He Hlt. apply G3, E2. by apply list_elem_of_filter. }
  split; [exact G6|]. split; [exact G5|]. split.
  - intros w t tm He Ht. apply (G4 t tm).
    + by apply (list_elem_of_fmap_2 snd expired (w, t)).
    + by apply (lookup_weaken _ _ _ _ Ht).
  - intros Hne. apply G7. by left.
Qed.

End Timers.

(** C19: a firing runs the timers that are due, and only those.  With a queue whose set and timers
    agree and callbacks that only create and add timers, [HandleRead] succeeds: it calls the callback
    of every timer whose time is not after the reading of the clock, once each, in the order of
    their times.  What it leaves is what those calls left ([q1]), but for the timers that ran: the
    timers that were not due and those the callbacks added are in the set and stored as they were; a
    repeating timer that ran is queued and stored again at its interval after a reading of the
    clock, and a one-shot timer is deleted; nothing else is in the set; and if any timer ran, the
    timerfd is set to the earliest one left. *)
Theorem HandleRead_fires {CB : Type} (clock : nat -> Z) (run : CB -> TimerQueue CB -> result (TimerQueue CB))
    (q : TimerQueue CB) :
  (forall n, 0 <= clock n < 2 ^ 62) -> callbacks_ok clock run -> queue_ok clock q ->
  let now := clock (ticks q) in
  let expired := filter (fun e : Entry => fst e <= now) (timers_ q) in
  length (callbacks_of expired q) = length expired /\
  exists q1 q', run_callbacks run (callbacks_of expired q) (fired q now) = Ok q1 /\
    HandleRead clock run q = Ok q' /\ queue_ok clock q' /\
    (forall e, e ∈ timers_ q -> now < fst e -> e ∈ timers_ q') /\
    (forall e, e ∈ timers_ q1 -> e ∈ timers_ q') /\
    (forall w t, (w, t) ∈ timers_ q' -> (w, t) ∈ timers_ q1 \/ t ∈ expired.*2) /\
    (forall t, t ∉ expired.*2 -> store q' !! t = store q1 !! t) /\
    (forall w t tm, (w, t) ∈ expired -> store q !! t = Some tm ->
       if repeat_ tm then restarted clock q' t tm else store q' !! t = None) /\
    (expired <> [] -> armed_first q').
Proof. intros Hc Hr Hq. by apply HandleRead_ok. Qed.

(** The timerfd is always set to the earliest timer when timers are added.
    Adding a new timer keeps the set sorted and consistent, and keeps the timerfd
    set to the time left until the first timer (at least 100 microseconds, in
    seconds and nanoseconds the kernel accepts), resetting it only when the new
    timer comes first. *)
Theorem AddTimer_arms {CB : Type} (clock : nat -> Z) (q : TimerQueue CB) (t : Z) (cb : CB)
    (when : Z) (interval : double) :
  (forall n, 0 <= clock n < 2 ^ 62) -> queue_ok clock q -> armed_first q ->
  store q !! t = None -> 0 <= t < UINTPTR_MAX -> timer_ok clock (Timer_new cb when interval) ->
  exists q', AddTimer clock q t cb when interval = Ok q' /\ queue_ok clock q' /\
    timers_ q' = set_insert (when, t) (timers_ q) /\
    exists first rest now ts, timers_ q' = first :: rest /\ armed_ q' = Some (now, ts) /\
      fst first <= when /\ 0 <= tv_sec ts /\ 0 <= tv_nsec ts < 10 ^ 9 /\
      tv_sec ts * 10 ^ 9 + tv_nsec ts = 1000 * Z.max 100 (fst first - now).
Proof.
  intros Hc Hq Ha Hn Ht Hok. unfold AddTimer.
  set (q0 := set_store q _).
  assert (queue_ok clock q0) as Hq0.
  { destruct Hq as [H1 H2 H3]. split; simpl; [done| |].
    - intros w t' Hin. destruct (H2 w t' Hin) as (tm & Hs & Hw). exists tm.
      rewrite lookup_insert_ne; [done|]. intros <-. congruence.
    - intros t' tm [[<- <-]|[_ Hs]]%lookup_insert_Some; [done|by apply (H3 t')]. }
  destruct (AddTimerInLoop_ok clock Hc q0 t (Timer_new cb when interval) Hq0 Ha)
    as (q' & G1 & G2 & G3 & G4 & G5); [apply lookup_insert_eq|].
  cbn [expiration_ Timer_new timers_ q0 set_store] in G4.
  exists q'. split; [exact G1|]. split; [exact G2|]. split; [exact G4|].
  unfold armed_first in G3. assert (Hin : (when, t) ∈ timers_ q').
  { rewrite G4. apply elem_of_set_insert. by left. }
  pose proof (qo_sorted clock q' G2) as Hs.
  destruct (timers_ q') as [|first rest]; [set_solver|].
  destruct G3 as (now & ts & Ha' & Hts). exists first, rest, now, ts.
  split; [done|]. split; [done|]. split; [|by apply relative_time_inv].
  apply elem_of_cons in Hin as [<-|Hin]; [done|]. inversion Hs as [|? ? _ Hall]. subst.
  rewrite Forall_forall in Hall. specialize (Hall _ Hin). apply entry_lt_spec in Hall. simpl in Hall. lia.
Qed.

(** C39: a firing that comes early is the last.  If the timerfd fires while no
    timer is due -- the timerfd counts monotonic time, the times compared are wall
    clock time, which can be set back -- then [HandleRead] runs nothing and
    leaves the set as it is, but does not set the timerfd again: [Reset] only
    does so inside its loop over the expired timers.  The timers left wait until
    an earlier one is added. *)
Theorem early_firing_disarms {CB : Type} (clock : nat -> Z)
    (run : CB -> TimerQueue CB -> result (TimerQueue CB)) (q : TimerQueue CB) :
  queue_ok clock q -> timers_ q <> [] -> Forall (fun e : Entry => clock (ticks q) < fst e) (timers_ q) ->
  exists q', HandleRead clock run q = Ok q' /\ timers_ q' = timers_ q /\ store q' = store q /\
    armed_ q' = None.
Proof.
  intros Hq Hne Hall. rewrite HandleRead_unfold by done.
  assert (filter (fun e : Entry => fst e <= clock (ticks q)) (timers_ q) = []) as ->.
  { clear -Hall. induction Hall as [|x l Hx Hl IH]; [done|]. rewrite filter_cons.
    by rewrite decide_False by lia. }
  eexists. split; [reflexivity|]. simpl. split; [|done].
  clear -Hall. induction Hall as [|x l Hx Hl IH]; [done|]. rewrite filter_cons.
  rewrite decide_True by done. by rewrite IH.
Qed.

(** ** An example: a one-shot timer at 10, a repeating one at 20 *)

(** a clock that stands at [c] *)
Definition still (c : Z) (n : nat) : Z := c.
Abbreviation ex_clock := (still 15).
Definition ex_timers : gmap Z (Timer nat) :=
  {[ 1 := Timer_new 1%nat 10 (S754_zero false); 2 := Timer_new 2%nat 20 (double_of_Z 3) ]}.
Definition ex_queue : TimerQueue nat :=
  mkTimerQueue [(10, 1); (20, 2)] ex_timers 0 (Some (0, mkTimespec 0 100000)) false.
Definition ex_run (cb : nat) (q : TimerQueue nat) : result (TimerQueue nat) := Ok q.

Lemma ex_run_ok c : callbacks_ok (still c) ex_run.
Proof. intros cb q Hq. exists q. split; [done|]. split; [done|]. by split; auto. Qed.

Lemma repeat_ok c (cb : nat) (w i : Z) :
  time_ok w -> 0 <= i < 2 ^ 32 -> 0 <= c < 2 ^ 61 -> timer_ok (still c) (Timer_new cb w (double_of_Z i)).
Proof.
  intros Hw Hi Hc. split; [done|]. intros _ n. exists (c + i * kMicroSecondsPerSecond). unfold kMicroSecondsPerSecond, time_ok, still.
  split; [apply AddTime_seconds; unfold kMicroSecondsPerSecond|]; lia.
Qed.

Lemma once_ok c (cb : nat) (w : Z) : time_ok w -> timer_ok (still c) (Timer_new cb w (S754_zero false)).
Proof. by split. Qed.

Lemma ex_queue_ok c :
  0 <= c < 100 -> queue_ok (still c) ex_queue.
Proof.
  intros Hc. split; simpl.
  - repeat constructor.
  - intros w t [[= -> ->]|[[= -> ->]|Hn%elem_of_nil]%elem_of_cons]%elem_of_cons; [..|done];
      eexists; (split; [vm_compute; reflexivity|done]).
  - intros t tm. unfold ex_timers.
    intros [[<- <-]|[_ [<- <-]%lookup_singleton_Some]]%lookup_insert_Some.
    + split; [apply once_ok; unfold time_ok|unfold UINTPTR_MAX]; lia.
    + split; [apply repeat_ok; unfold time_ok; lia|unfold UINTPTR_MAX; lia].
Qed.

Lemma HandleRead_fires_witness :
  let expired := filter (fun e : Entry => fst e <= 15) (timers_ ex_queue) in
  length (callbacks_of expired ex_queue) = length expired /\
  exists q1 q', run_callbacks ex_run (callbacks_of expired ex_queue) (fired ex_queue 15) = Ok q1 /\
    HandleRead ex_clock ex_run ex_queue = Ok q' /\ queue_ok ex_clock q' /\
    (forall e, e ∈ timers_ ex_queue -> 15 < fst e -> e ∈ timers_ q') /\
    (forall e, e ∈ timers_ q1 -> e ∈ timers_ q') /\
    (forall w t, (w, t) ∈ timers_ q' -> (w, t) ∈ timers_ q1 \/ t ∈ expired.*2) /\
    (forall t, t ∉ expired.*2 -> store q' !! t = store q1 !! t) /\
    (forall w t tm, (w, t) ∈ expired -> store ex_queue !! t = Some tm ->
       if repeat_ tm then restarted ex_clock q' t tm else store q' !! t = None) /\
    (expired <> [] -> armed_first q').
Proof.
  apply (HandleRead_fires ex_clock ex_run ex_queue).
  - intros n. unfold still. lia.
  - apply ex_run_ok.
  - apply ex_queue_ok; lia.
Defined.

Lemma AddTimer_arms_witness :
  exists q', AddTimer ex_clock ex_queue 3 7%nat 5 (S754_zero false) = Ok q' /\ queue_ok ex_clock q' /\
    timers_ q' = [(5, 3); (10, 1); (20, 2)] /\
    exists first rest now ts, timers_ q' = first :: rest /\ armed_ q' = Some (now, ts) /\
      fst first <= 5 /\ 0 <= tv_sec ts /\ 0 <= tv_nsec ts < 10 ^ 9 /\
      tv_sec ts * 10 ^ 9 + tv_nsec ts = 1000 * Z.max 100 (fst first - now).
Proof.
  apply (AddTimer_arms ex_clock ex_queue 3 7%nat 5 (S754_zero false)).
  - intros n. unfold still. lia.
  - apply ex_queue_ok; lia.
  - exists 0, (mkTimespec 0 100000). split; [done|]. vm_compute. reflexivity.
  - vm_compute. reflexivity.
  - unfold UINTPTR_MAX. lia.
  - apply once_ok. unfold time_ok. lia.
Defined.

Lemma early_firing_disarms_witness :
  exists q', HandleRead (still 3) ex_run ex_queue = Ok q' /\ timers_ q' = timers_ ex_queue /\
    store q' = store ex_queue /\ armed_ q' = None.
Proof.
  apply (early_firing_disarms (still 3) ex_run ex_queue).
  - apply ex_queue_ok; lia.
  - discriminate.
  - repeat constructor; simpl; unfold still; lia.
Defined.
