(* ===== verification/LoopTimers.v ===== *)
(** * Timers of an EventLoop (ryan_network/net/event_loop.h, base/weak_callback.h)

    [RunAt], [RunAfter] and [RunEvery] may be called by any thread: the timer is made by the
    caller, and [AddTimerInLoop] runs in the loop's thread, at once or as a functor.  A program
    here is an [EventLoop] and its [TimerQueue]; the functors are those of the timer queue and
    the user's. *)

From Stdlib Require Import Floats.SpecFloat.
From S2P Require Import Prelude Channel EventLoop Timestamp TimerQueue TimerSpec.

(** [std::bind(&TimerQueue::AddTimerInLoop, this, timer)], or any other functor. *)
Inductive task (F : Type) :=
  | TAddTimer (timer : Z)
  | TUser (f : F).
Arguments TAddTimer {F} timer.
Arguments TUser {F} f.

(** A weak pointer, given by the address of its object, and the member function to call.
    src: ryan_network/base/weak_callback.h:23-25 WeakCallback *)
Record WeakCallback (M : Type) := mkWeakCallback { object_ : Z; function_ : M }.
Arguments mkWeakCallback {M}.
Arguments object_ {M}.
Arguments function_ {M}.

(** src: ryan_network/base/weak_callback.h:28-32 MakeWeakCallback *)
Definition MakeWeakCallback {M} (object : Z) (function : M) : WeakCallback M := mkWeakCallback object function.

(** [lock] says whether the object still exists; [call] is the call of the member function.
    src: ryan_network/base/weak_callback.h:16-21 WeakCallback::operator() *)
Definition WeakCallback_call {M S : Type} (lock : S -> Z -> bool) (call : Z -> M -> S -> result S)
    (w : WeakCallback M) (s : S) : result S :=
  if lock s (object_ w) then call (object_ w) (function_ w) s else Ok s.

Section LoopTimers.
Context {C P E F CB : Type} `{!Eventfd E}.
Context (clock : nat -> Z).

Record program := mkProgram {
  p_loop : EventLoop C P E (task F);
  p_timers : TimerQueue CB
}.

Definition put_loop (l : EventLoop C P E (task F)) (w : program) : program := mkProgram l (p_timers w).
Definition put_timers (q : TimerQueue CB) (w : program) : program := mkProgram (p_loop w) q.

(** What the user's functors do. *)
Context (run_user : F -> program -> result program).

Definition run_task (f : task F) (w : program) : result program :=
  match f with
  | TAddTimer timer => q ← AddTimerInLoop clock (p_timers w) timer; Ok (put_timers q w)
  | TUser f => run_user f w
  end.

(** Called by thread [tid]; [timer] is the address of the new object.
    src: ryan_network/timer/timer_queue.cc:55-58 TimerQueue::AddTimer *)
Definition AddTimer (tid timer : Z) (cb : CB) (when : Z) (interval : double) (w : program) : result program :=
  let w := put_timers (set_store (p_timers w) (<[timer := Timer_new cb when interval]> (store (p_timers w)))) w in
  RunInLoop p_loop put_loop run_task tid (TAddTimer timer) w.

(** src: ryan_network/net/event_loop.h:73-75 EventLoop::RunAt *)
Definition RunAt (tid timer : Z) (timestamp : Z) (cb : CB) : program -> result program :=
  AddTimer tid timer cb timestamp (S754_zero false).

(** [now] is what [Timestamp::Now()] returns.
    src: ryan_network/net/event_loop.h:79-82 EventLoop::RunAfter *)
Definition RunAfter (tid timer now : Z) (wait_time : double) (cb : CB) (w : program) : result program :=
  time ← AddTime now wait_time;
  RunAt tid timer time cb w.

(** src: ryan_network/net/event_loop.h:86-89 EventLoop::RunEvery *)
Definition RunEvery (tid timer now : Z) (interval : double) (cb : CB) (w : program) : result program :=
  timestamp ← AddTime now interval;
  AddTimer tid timer cb timestamp interval w.

Definition run_pending : program -> result program := DoPendingFunctors p_loop put_loop run_task.
End LoopTimers.

(** ** A timer asked for *)

(** The three calls, with what [Now()] returned. *)
Inductive timer_kind :=
  | KAt (timestamp : Z)
  | KAfter (now : Z) (wait_time : double)
  | KEvery (now : Z) (interval : double).

Record request (CB : Type) := mkRequest { rq_thread : Z; rq_timer : Z; rq_callback : CB; rq_kind : timer_kind }.
Arguments mkRequest {CB}.
Arguments rq_thread {CB}.
Arguments rq_timer {CB}.
Arguments rq_callback {CB}.
Arguments rq_kind {CB}.

(** The time at which the timer expires first, and its interval. *)
Definition kind_time (k : timer_kind) : result Z :=
  match k with KAt t => Ok t | KAfter now d | KEvery now d => AddTime now d end.
Definition kind_interval (k : timer_kind) : double :=
  match k with KEvery _ d => d | _ => S754_zero false end.

Section Requests.
Context {C P E F CB : Type} `{!Eventfd E} `{!EventfdLaws E}.
Context (clock : nat -> Z) (clock_range : forall n, 0 <= clock n < 2 ^ 62).
Context (run_user : F -> program (C := C) (P := P) (E := E) (F := F) (CB := CB) ->
                    result (program (C := C) (P := P) (E := E) (F := F) (CB := CB))).
Abbreviation W := (program (C := C) (P := P) (E := E) (F := F) (CB := CB)).

Definition make_request (r : request CB) (w : W) : result W :=
  match rq_kind r with
  | KAt t => RunAt clock run_user (rq_thread r) (rq_timer r) t (rq_callback r) w
  | KAfter now d => RunAfter clock run_user (rq_thread r) (rq_timer r) now d (rq_callback r) w
  | KEvery now d => RunEvery clock run_user (rq_thread r) (rq_timer r) now d (rq_callback r) w
  end.

Fixpoint make_requests (rs : list (request CB)) (w : W) : result W :=
  match rs with
  | [] => Ok w
  | r :: rs => w ← make_request r w; make_requests rs w
  end.

(** The timer has a time, in range, and an address that no other timer has. *)
Record good_request (r : request CB) (w : Z) : Prop := {
  gr_time : kind_time (rq_kind r) = Ok w;
  gr_timer : timer_ok clock (Timer_new (rq_callback r) w (kind_interval (rq_kind r)));
  gr_address : 0 <= rq_timer r < UINTPTR_MAX
}.

Lemma make_request_unfold r w t : kind_time (rq_kind r) = Ok t ->
  make_request r w = AddTimer clock run_user (rq_thread r) (rq_timer r) (rq_callback r) t (kind_interval (rq_kind r)) w.
Proof.
  unfold make_request, RunAt, RunAfter, RunEvery. destruct (rq_kind r); cbn; [by intros [= ->]|by intros ->..].
Qed.

Definition timers_ok (q : TimerQueue CB) : Prop := queue_ok clock q /\ armed_first q.

(** What is on its way: the timers that other threads made and the loop has not yet taken. *)
Record on_the_way (w : W) (e : Entry) : Prop := {
  ow_pending : TAddTimer (snd e) ∈ pending_functors_ (p_loop w);
  ow_store : exists tm, store (p_timers w) !! snd e = Some tm /\ expiration_ tm = fst e
}.

Lemma queue_ok_insert (q : TimerQueue CB) t tm :
  queue_ok clock q -> store q !! t = None -> timer_ok clock tm -> 0 <= t < UINTPTR_MAX ->
  queue_ok clock (set_store q (<[t := tm]> (store q))).
Proof.
  intros [H1 H2 H3] Hn Hok Ht. split; simpl; [done| |].
  - intros w t' Hin. destruct (H2 w t' Hin) as (tm' & Hs & Hw). exists tm'.
    rewrite lookup_insert_ne; [done|]. intros <-. congruence.
  - intros t' tm' [[<- <-]|[_ Hs]]%lookup_insert_Some; [done|by apply (H3 t')].
Qed.

(** The timers whose functors are pending exist. *)
Definition pending_stored (w : W) : Prop :=
  forall t, TAddTimer t ∈ pending_functors_ (p_loop w) -> is_Some (store (p_timers w) !! t).

(** What requests leave in place. *)
Record grown (w w' : W) : Prop := {
  gw_thread : thread_id_ (p_loop w') = thread_id_ (p_loop w);
  gw_pending : exists fs, pending_functors_ (p_loop w') = pending_functors_ (p_loop w) ++ fs;
  gw_counter : 0 <= efd_counter (wakeup_fd_ (p_loop w)) -> 0 <= efd_counter (wakeup_fd_ (p_loop w'));
  gw_awake : 0 < efd_counter (wakeup_fd_ (p_loop w)) -> 0 < efd_counter (wakeup_fd_ (p_loop w'));
  gw_store : store (p_timers w) ⊆ store (p_timers w');
  gw_timers : forall e, e ∈ timers_ (p_timers w) -> e ∈ timers_ (p_timers w');
  gw_stored : pending_stored w -> pending_stored w'
}.

#[local] Instance grown_preorder : PreOrder grown.
Proof.
  split; [intros w; split; auto; exists []; by rewrite app_nil_r|].
  intros a b c [A1 [fs A2] A3 A4 A5 A6 A7] [B1 [gs B2] B3 B4 B5 B6 B7]. split; auto; [congruence| |by etransitivity].
  exists (fs ++ gs). by rewrite B2, A2, app_assoc.
Qed.

Lemma on_the_way_grown w w' e : grown w w' -> on_the_way w e -> on_the_way w' e.
Proof.
  intros [_ [fs Hp] _ _ Hs _ _] [H1 (tm & H2 & H3)]. split; [rewrite Hp; set_solver|].
  exists tm. split; [by eapply lookup_weaken|done].
Qed.

Definition requested (w : W) (e : Entry) : Prop := e ∈ timers_ (p_timers w) \/ on_the_way w e.

Lemma requested_grown w w' e : grown w w' -> requested w e -> requested w' e.
Proof. intros Hg [He|He]; [left; by apply (gw_timers w w')|right; by apply (on_the_way_grown w)]. Qed.

(** One request: a timer of the loop's own thread is in the set, one of another thread is on the
    way and the loop awake. *)
Lemma make_request_ok r t w :
  good_request r t -> timers_ok (p_timers w) -> store (p_timers w) !! rq_timer r = None ->
  0 <= efd_counter (wakeup_fd_ (p_loop w)) ->
  exists w', make_request r w = Ok w' /\ grown w w' /\ timers_ok (p_timers w') /\ requested w' (t, rq_timer r) /\
    store (p_timers w') = <[rq_timer r := Timer_new (rq_callback r) t (kind_interval (rq_kind r))]> (store (p_timers w)) /\
    (rq_thread r <> thread_id_ (p_loop w) -> 0 < efd_counter (wakeup_fd_ (p_loop w'))).
Proof using clock_range EventfdLaws0.
  intros [Ht Hok Hr] [Hq Ha] Hn Hc. rewrite (make_request_unfold _ _ _ Ht). unfold AddTimer, RunInLoop, IsInLoopThread.
  set (tm := Timer_new _ _ _). set (q0 := set_store _ _). cbn [p_loop put_timers].
  assert (Hq0 : queue_ok clock q0) by by apply queue_ok_insert.
  assert (Hs0 : store (p_timers w) ⊆ store q0) by by apply insert_subseteq.
  destruct (Z.eqb_spec (thread_id_ (p_loop w)) (rq_thread r)) as [E1|E1].
  - cbn [run_task p_timers put_timers].
    destruct (AddTimerInLoop_ok clock clock_range q0 (rq_timer r) tm Hq0 Ha) as (q' & -> & G2 & G3 & G4 & G5);
      [apply lookup_insert_eq|].
    rewrite bind_Ok. eexists. split; [reflexivity|]. cbn [p_timers p_loop put_timers]. split; [|split; [done|split]].
    + split; cbn [p_timers p_loop put_timers]; auto; [exists []; by rewrite app_nil_r|by rewrite G5| |].
      * intros e He. rewrite G4. apply elem_of_set_insert. by right.
      * intros Hp t' Ht'. cbn. rewrite G5. eapply lookup_weaken_is_Some; [by apply Hp|done].
    + left. cbn. rewrite G4. apply elem_of_set_insert. by left.
    + split; [done|]. congruence.
  - eexists. split; [reflexivity|]. unfold modify, QueueInLoop, wakeup_if_needed, IsInLoopThread.
    cbn [p_timers p_loop put_timers put_loop thread_id_ enqueue set_pending].
    rewrite (proj2 (Z.eqb_neq _ _)) by done. cbn.
    pose proof (efd_write_pos (wakeup_fd_ (p_loop w)) Hc) as Hpos. split; [|split; [done|split]].
    + split; cbn; auto; [by eexists|lia|].
      intros Hp t' Ht'. cbn in *. apply elem_of_app in Ht' as [Ht'|Ht'].
      * eapply lookup_weaken_is_Some; [by apply Hp|done].
      * apply list_elem_of_singleton in Ht' as [= ->]. rewrite lookup_insert_eq. by eexists.
    + right. split; cbn; [set_solver|]. exists tm. split; [apply lookup_insert_eq|done].
    + done.
Qed.

(** The timer of a request, as it is stored. *)
Definition request_timer (r : request CB) (t : Z) : Timer CB := Timer_new (rq_callback r) t (kind_interval (rq_kind r)).

Lemma make_requests_ok rs : forall ts w,
  Forall2 good_request rs ts -> timers_ok (p_timers w) -> NoDup (map rq_timer rs) ->
  Forall (fun r => store (p_timers w) !! rq_timer r = None) rs -> 0 <= efd_counter (wakeup_fd_ (p_loop w)) ->
  exists w', make_requests rs w = Ok w' /\ grown w w' /\ timers_ok (p_timers w') /\
    Forall2 (fun r t => requested w' (t, rq_timer r) /\ store (p_timers w') !! rq_timer r = Some (request_timer r t)) rs ts /\
    (Exists (fun r => rq_thread r <> thread_id_ (p_loop w)) rs -> 0 < efd_counter (wakeup_fd_ (p_loop w'))).
Proof using clock_range EventfdLaws0.
  induction rs as [|r rs IH]; intros ts w Hg Hq Hnd Hf Hc.
  - apply Forall2_nil_inv_l in Hg as ->. exists w. split; [done|]. split; [done|]. split; [done|].
    split; [constructor|]. intros Hx%Exists_nil. done.
  - apply Forall2_cons_inv_l in Hg as (t & ts' & Hr & Hg & ->). apply Forall_cons in Hf as [Hn Hf].
    cbn [map] in Hnd. apply NoDup_cons in Hnd as [Hni Hnd].
    destruct (make_request_ok r t w Hr Hq Hn Hc) as (w1 & E1 & G1 & Q1 & R1 & S1 & A1).
    destruct (IH ts' w1 Hg Q1 Hnd) as (w' & E' & G' & Q' & R' & A').
    { rewrite Forall_forall in Hf |- *. intros r' Hr'. rewrite S1, lookup_insert_ne; [by apply Hf|].
      intros Ei. apply Hni. rewrite Ei. by apply list_elem_of_fmap_2. }
    { by apply G1. }
    exists w'. cbn [make_requests]. rewrite E1, bind_Ok. split; [done|]. split; [by etransitivity|]. split; [done|]. split.
    + constructor; [|done]. split; [by apply (requested_grown w1)|].
      eapply lookup_weaken; [|apply G']. rewrite S1. apply lookup_insert_eq.
    + intros [Hx|Hx]%Exists_cons; [by apply G', A1|]. apply A'. by rewrite (gw_thread w w1 G1).
Qed.

(** The user's functors may make timers and requests of their own. *)
Definition users_ok : Prop := forall f w, timers_ok (p_timers w) ->
  exists w', run_user f w = Ok w' /\ timers_ok (p_timers w') /\ extends (p_timers w) (p_timers w').

Lemma run_tasks_ok fs : users_ok -> forall w,
  timers_ok (p_timers w) -> (forall t, TAddTimer t ∈ fs -> is_Some (store (p_timers w) !! t)) ->
  exists w', run_all (run_task clock run_user) fs w = Ok w' /\ timers_ok (p_timers w') /\
    store (p_timers w) ⊆ store (p_timers w') /\
    (forall e, e ∈ timers_ (p_timers w) -> e ∈ timers_ (p_timers w')) /\
    forall t tm, TAddTimer t ∈ fs -> store (p_timers w) !! t = Some tm -> (expiration_ tm, t) ∈ timers_ (p_timers w').
Proof using clock_range EventfdLaws0.
  intros Hu. induction fs as [|f fs IH]; intros w Hq Hs; [exists w; set_solver|].
  assert (exists w1, run_task clock run_user f w = Ok w1 /\ timers_ok (p_timers w1) /\
    store (p_timers w) ⊆ store (p_timers w1) /\ (forall e, e ∈ timers_ (p_timers w) -> e ∈ timers_ (p_timers w1)) /\
    forall t tm, f = TAddTimer t -> store (p_timers w) !! t = Some tm -> (expiration_ tm, t) ∈ timers_ (p_timers w1))
    as (w1 & E1 & Q1 & S1 & K1 & A1).
  { destruct f as [t|f]; cbn [run_task].
    - destruct (Hs t) as [tm Ht]; [left|]. destruct Hq as [Hq Ha].
      destruct (AddTimerInLoop_ok clock clock_range _ t tm Hq Ha Ht) as (q' & -> & G2 & G3 & G4 & G5). rewrite bind_Ok.
      eexists. split; [reflexivity|]. cbn [p_timers put_timers]. rewrite G4, G5. split; [done|]. split; [done|]. split.
      + intros e He. apply elem_of_set_insert. by right.
      + intros t' tm' [= <-] Ht'. apply elem_of_set_insert. left. congruence.
    - destruct (Hu f w Hq) as (w1 & E1 & Q1 & [X1 X2 X3]). by exists w1. }
  destruct (IH w1 Q1) as (w' & E' & Q' & S' & K' & A').
  { intros t Ht. destruct (Hs t) as [tm Htm]; [by right|]. exists tm. by eapply lookup_weaken. }
  exists w'. cbn [run_all]. rewrite E1, bind_Ok. split; [done|]. split; [done|]. split; [by etransitivity|].
  split; [auto|]. intros t tm [Ef|Hin]%elem_of_cons Ht; [by apply K', A1|]. apply A'; [done|]. by eapply lookup_weaken.
Qed.

Lemma run_pending_ok w : users_ok -> timers_ok (p_timers w) ->
  pending_stored w ->
  exists w', run_pending clock run_user w = Ok w' /\ timers_ok (p_timers w') /\ store (p_timers w) ⊆ store (p_timers w') /\
    forall e, requested w e -> e ∈ timers_ (p_timers w').
Proof using clock_range EventfdLaws0.
  intros Hu Hq Hs. unfold run_pending, DoPendingFunctors, take_functors. set (w0 := put_loop _ w).
  change (pending_functors_ (EventLoop.set_calling true (p_loop w))) with (pending_functors_ (p_loop w)).
  destruct (run_tasks_ok (pending_functors_ (p_loop w)) Hu w0 Hq Hs) as (w1 & E1 & Q1 & S1 & K1 & A1).
  rewrite E1, bind_Ok. eexists. split; [reflexivity|].
  split; [done|]. split; [done|]. intros [w2 t] [He|[Hp (tm & Ht & Ew)]]; [by apply K1|].
  cbn in Ew. rewrite <- Ew. by apply A1.
Qed.
End Requests.


(** ** Two threads *)

(** The loop belongs to thread 1 and holds the two timers of [ex_queue]; thread 2 asks for a
    timer every 3 seconds, thread 1 for one at 5 microseconds, when a functor that does nothing is pending. *)
Definition ex_program : program (C := unit) (P := unit) (E := Z) (F := unit) (CB := nat) :=
  mkProgram (mkEventLoop true false false 1 0 (mkNet tt ∅) 0 7 [] [TUser tt]) ex_queue.
Definition ex_requests : list (request nat) :=
  [mkRequest 2 3 8%nat (KEvery 15 (double_of_Z 3)); mkRequest 1 4 9%nat (KAt 5)].
Definition ex_user (f : unit) (w : program (C := unit) (P := unit) (E := Z) (F := unit) (CB := nat)) := Ok w.

