(* ===== verification/LogStream.v ===== *)
(** * FixedBuffer and LogStream
      (ryan_network/buffer/fixed_buffer.h, ryan_network/logger/log_stream.h, log_stream.cc)

    A [FixedBuffer] is the array [data_], whose initial contents are
    indeterminate, and the offset of [curr_] in it.  The text a stream holds is
    what lies before [curr_]. *)

From Stdlib Require Import Floats.SpecFloat.
From S2P Require Import Prelude Format Timestamp.

(** ** FixedBuffer *)

(** src: ryan_network/buffer/fixed_buffer.h:12-12 kSmallBuffer *)
Definition kSmallBuffer : Z := 4000.
(** src: ryan_network/buffer/fixed_buffer.h:13-13 kLargeBuffer *)
Definition kLargeBuffer : Z := 4000 * 1000.

(** src: ryan_network/buffer/fixed_buffer.h:42-43 FixedBuffer *)
Record FixedBuffer := mkFixedBuffer { data_ : bytes; curr_ : Z }.

(** [garbage] is what the memory of the object holds.
    src: ryan_network/buffer/fixed_buffer.h:18-18 FixedBuffer::FixedBuffer *)
Definition FixedBuffer_new (garbage : bytes) : FixedBuffer := mkFixedBuffer garbage 0.

(** src: ryan_network/buffer/fixed_buffer.h:40-40 FixedBuffer::end *)
Definition fb_end (b : FixedBuffer) : Z := zlen (data_ b).
(** src: ryan_network/buffer/fixed_buffer.h:31-31 FixedBuffer::Avail *)
Definition Avail (b : FixedBuffer) : Z := s32 (fb_end b - curr_ b).
(** src: ryan_network/buffer/fixed_buffer.h:28-28 FixedBuffer::Length *)
Definition Length (b : FixedBuffer) : Z := s32 (fb_end b - 0).
(** src: ryan_network/buffer/fixed_buffer.h:32-32 FixedBuffer::Add *)
Definition Add (b : FixedBuffer) (len : Z) : FixedBuffer := mkFixedBuffer (data_ b) (curr_ b + len).
(** src: ryan_network/buffer/fixed_buffer.h:34-34 FixedBuffer::Reset *)
Definition Reset (b : FixedBuffer) : FixedBuffer := mkFixedBuffer (data_ b) 0.
(** src: ryan_network/buffer/fixed_buffer.h:35-35 FixedBuffer::Bzero *)
Definition Bzero (b : FixedBuffer) : FixedBuffer :=
  mkFixedBuffer (replicate (length (data_ b)) x00) (curr_ b).

(** [memcpy] copies from an array [buf].
    src: ryan_network/buffer/fixed_buffer.h:20-26 FixedBuffer::Append *)
Definition fb_Append (b : FixedBuffer) (buf : bytes) (len : Z) : result FixedBuffer :=
  if u64 (Avail b) >? u64 len then
    src ← read_bytes buf 0 (u64 len);
    d ← write_bytes (data_ b) (curr_ b) src;
    Ok (mkFixedBuffer d (curr_ b + u64 len))
  else Ok b.

(** src: ryan_network/buffer/fixed_buffer.h:37-37 FixedBuffer::ToString *)
Definition fb_ToString (b : FixedBuffer) : result bytes := read_bytes (data_ b) 0 (Length b).

(** ** LogStream *)

(** [data_] points to an array.
    src: ryan_network/logger/log_stream.h:35-44 GeneralTemplate *)
Record GeneralTemplate := mkGeneralTemplate { gt_data : bytes; gt_len : Z }.

(** src: ryan_network/logger/log_stream.h:83-83 LogStream *)
Record LogStream := mkLogStream { buffer_ : FixedBuffer }.

(** src: ryan_network/logger/log_stream.h:78-78 LogStream::kMaxNumericSize *)
Definition kMaxNumericSize : Z := 48.

(** src: ryan_network/logger/log_stream.h:50-50 LogStream::Append *)
Definition Append (s : LogStream) (data : bytes) (len : Z) : result LogStream :=
  b ← fb_Append (buffer_ s) data len; Ok (mkLogStream b).
(** src: ryan_network/logger/log_stream.h:52-52 LogStream::ResetBuffer *)
Definition ResetBuffer (s : LogStream) : LogStream := mkLogStream (Reset (buffer_ s)).

(** src: ryan_network/logger/log_stream.cc:6-7 digits *)
Definition digits : bytes := lit "9876543210123456789".
(** src: ryan_network/logger/log_stream.cc:9-9 digitsHex *)
Definition digitsHex : bytes := lit "0123456789ABCDEF".

(** [zero[remainder]], [zero] pointing at the tenth character of [digits] *)
Definition zero_at (remainder : Z) : result byte :=
  _ ← defined_if (0 <=? 9 + remainder);
  match digits !! Z.to_nat (9 + remainder) with
  | Some c => Ok c
  | None => Fault FUndef
  end.

(** The characters of the loop, in the order they are written; the fuel bounds
    the number of digits of a 64-bit integer.
    src: ryan_network/logger/log_stream.cc:23-27 LogStream::FormatInteger *)
Fixpoint format_loop (fuel : nat) (num : Z) : result bytes :=
  match fuel with
  | O => Ok []
  | S fuel =>
      let remainder := Z.rem num 10 in
      c ← zero_at remainder;
      let num := Z.quot num 10 in
      if negb (num =? 0) then l ← format_loop fuel num; Ok (c :: l) else Ok [c]
  end.

(** Write [l] and a terminator at [start], reverse [l] in place. *)
Definition write_reversed (d : bytes) (start : Z) (l : bytes) : result bytes :=
  d ← write_bytes d start (l ++ [x00]);
  w ← read_bytes d start (zlen l);
  write_bytes d start (rev w).

(** src: ryan_network/logger/log_stream.cc:14-35 LogStream::FormatInteger *)
Definition FormatInteger (s : LogStream) (num : Z) : result LogStream :=
  if Avail (buffer_ s) >=? kMaxNumericSize then
    let start := curr_ (buffer_ s) in
    let negative := num <? 0 in
    l ← format_loop digit_fuel num;
    let l := if negative then l ++ [x2d] else l in
    d ← write_reversed (data_ (buffer_ s)) start l;
    Ok (mkLogStream (Add (mkFixedBuffer d start) (s32 (zlen l))))
  else Ok s.

(** src: ryan_network/logger/log_stream.cc:101-112 ConvertHex *)
Fixpoint hex_loop (fuel : nat) (i : Z) : result bytes :=
  match fuel with
  | O => Ok []
  | S fuel =>
      let lsd := i mod 16 in
      let i := i / 16 in
      match digitsHex !! Z.to_nat lsd with
      | Some c => if negb (i =? 0) then l ← hex_loop fuel i; Ok (c :: l) else Ok [c]
      | None => Fault FUndef
      end
  end.

(** src: ryan_network/logger/log_stream.cc:101-112 ConvertHex *)
Definition ConvertHex (d : bytes) (buf : Z) (value : Z) : result (Z * bytes) :=
  l ← hex_loop digit_fuel value;
  d ← write_reversed d buf l;
  Ok (zlen l, d).

(** ** ["%.12g"]

    A finite double is the fraction [num / den].  [exponent10] is its decimal
    exponent; [round12] its first twelve digits, rounded half to even. *)

Fixpoint exponent10 (fuel : nat) (x num den : Z) : Z :=
  match fuel with
  | O => x
  | S fuel =>
      if den * 10 ^ Z.max x 0 <=? num * 10 ^ Z.max (- x) 0 then x
      else exponent10 fuel (x - 1) num den
  end.

Definition round_even (n d : Z) : Z :=
  let q := n / d in let r := n mod d in
  if 2 * r <? d then q else if d <? 2 * r then q + 1 else if Z.even q then q else q + 1.

Definition round12 (x num den : Z) : Z :=
  round_even (num * 10 ^ Z.max (11 - x) 0) (den * 10 ^ Z.max (x - 11) 0).

Fixpoint drop_zeros (l : bytes) : bytes :=
  match l with
  | [] => []
  | c :: l' => if decide (c = x30) then drop_zeros l' else l
  end.

(** The digits of the fraction without trailing zeros, and without the point
    when none is left. *)
Definition fraction (l : bytes) : bytes :=
  match rev (drop_zeros (rev l)) with
  | [] => []
  | l => x2e :: l
  end.

Definition format_g12_pos (num den : Z) : bytes :=
  let x := exponent10 640 308 num den in
  let d := round12 x num den in
  let '(x, d) := if d =? 10 ^ 12 then (x + 1, 10 ^ 11) else (x, d) in
  let t := dec d in
  if (x <? -4) || (12 <=? x) then
    take 1 t ++ fraction (drop 1 t) ++ lit "e" ++ lit (if x <? 0 then "-" else "+") ++ dec_pad 2 (Z.abs x)
  else if x <? 0 then lit "0" ++ fraction (replicate (Z.to_nat (- x - 1)) x30 ++ t)
  else take (Z.to_nat (x + 1)) t ++ fraction (drop (Z.to_nat (x + 1)) t).

Definition format_g12 (v : double) : bytes :=
  match v with
  | S754_nan => lit "nan"
  | S754_infinity s => lit (if s then "-inf" else "inf")
  | S754_zero s => lit (if s then "-0" else "0")
  | S754_finite s m e =>
      lit (if s then "-" else "") ++ format_g12_pos (Z.pos m * 2 ^ Z.max e 0) (2 ^ Z.max (- e) 0)
  end.

Example format_g12_examples :
  format_g12 (double_of_Z 100) = lit "100" /\
  format_g12 (double_div (double_of_Z (-1)) (double_of_Z 8)) = lit "-0.125" /\
  format_g12 (double_div (double_of_Z 1) (double_of_Z 3)) = lit "0.333333333333" /\
  format_g12 (double_of_Z 100000000000000000000) = lit "1e+20" /\
  format_g12 (double_div (double_of_Z 123456789012345) (double_of_Z 1000000000)) = lit "123456.789012" /\
  format_g12 (double_div (double_of_Z 5) (double_of_Z 1000000)) = lit "5e-06" /\
  format_g12 (double_of_Z 999999999999999) = lit "1e+15".
Proof. vm_compute. done. Qed.

(** ** operator<<

    [stream_] followed by the type of the argument. *)

(** src: ryan_network/logger/log_stream.cc:47-50 LogStream::operator<<(int) *)
Definition stream_int (s : LogStream) (v : Z) : result LogStream := FormatInteger s v.
(** src: ryan_network/logger/log_stream.cc:52-55 LogStream::operator<<(unsigned int) *)
Definition stream_unsigned_int (s : LogStream) (v : Z) : result LogStream := FormatInteger s v.
(** src: ryan_network/logger/log_stream.cc:37-40 LogStream::operator<<(short) *)
Definition stream_short (s : LogStream) (v : Z) : result LogStream := stream_int s v.
(** src: ryan_network/logger/log_stream.cc:42-45 LogStream::operator<<(unsigned short) *)
Definition stream_unsigned_short (s : LogStream) (v : Z) : result LogStream := stream_unsigned_int s v.
(** src: ryan_network/logger/log_stream.cc:57-60 LogStream::operator<<(long) *)
Definition stream_long (s : LogStream) (v : Z) : result LogStream := FormatInteger s v.
(** src: ryan_network/logger/log_stream.cc:62-65 LogStream::operator<<(unsigned long) *)
Definition stream_unsigned_long (s : LogStream) (v : Z) : result LogStream := FormatInteger s v.
(** src: ryan_network/logger/log_stream.cc:67-70 LogStream::operator<<(long long) *)
Definition stream_long_long (s : LogStream) (v : Z) : result LogStream := FormatInteger s v.
(** src: ryan_network/logger/log_stream.cc:72-75 LogStream::operator<<(unsigned long long) *)
Definition stream_unsigned_long_long (s : LogStream) (v : Z) : result LogStream := FormatInteger s v.

(** Without room the function ends with no [return].
    src: ryan_network/logger/log_stream.cc:82-89 LogStream::operator<<(double) *)
Definition stream_double (s : LogStream) (v : double) : result LogStream :=
  if Avail (buffer_ s) >=? kMaxNumericSize then
    let text := format_g12 v in
    d ← write_bytes (data_ (buffer_ s)) (curr_ (buffer_ s)) (snprintf 48 text ++ [x00]);
    Ok (mkLogStream (Add (mkFixedBuffer d (curr_ (buffer_ s))) (zlen text)))
  else Fault FUndef.

(** Every [float] is a [double].
    src: ryan_network/logger/log_stream.cc:77-80 LogStream::operator<<(float) *)
Definition stream_float (s : LogStream) (v : double) : result LogStream := stream_double s v.

(** src: ryan_network/logger/log_stream.cc:91-94 LogStream::operator<<(char) *)
Definition stream_char (s : LogStream) (c : byte) : result LogStream := Append s [c] 1.

(** src: ryan_network/logger/log_stream.cc:114-124 LogStream::operator<<(void) *)
Definition stream_pointer (s : LogStream) (v : Z) : result LogStream :=
  if Avail (buffer_ s) >=? kMaxNumericSize then
    let buf := curr_ (buffer_ s) in
    d ← write_bytes (data_ (buffer_ s)) buf [x30];
    d ← write_bytes d (buf + 1) [x78];
    '(len, d) ← ConvertHex d (buf + 2) v;
    Ok (mkLogStream (Add (mkFixedBuffer d buf) (len + 2)))
  else Ok s.

(** The argument is the characters before the terminator, [None] the null
    pointer.
    src: ryan_network/logger/log_stream.cc:126-133 LogStream::operator<<(char) *)
Definition stream_c_str (s : LogStream) (str : option bytes) : result LogStream :=
  match str with
  | Some str => Append s str (zlen str)
  | None => Append s (lit "(null)") 6
  end.

(** src: ryan_network/logger/log_stream.cc:135-137 LogStream::operator<<(unsigned_char) *)
Definition stream_u_str (s : LogStream) (str : option bytes) : result LogStream := stream_c_str s str.

(** src: ryan_network/logger/log_stream.cc:139-142 LogStream::operator<<(std::string) *)
Definition stream_string (s : LogStream) (str : bytes) : result LogStream :=
  Append s str (zlen str).

(** src: ryan_network/logger/log_stream.cc:144-147 LogStream::operator<<(Buffer) *)
Definition stream_buffer (s : LogStream) (buf : FixedBuffer) : result LogStream :=
  str ← fb_ToString buf; stream_string s str.

(** src: ryan_network/logger/log_stream.cc:149-152 LogStream::operator<<(GeneralTemplate) *)
Definition stream_template (s : LogStream) (g : GeneralTemplate) : result LogStream :=
  Append s (gt_data g) (gt_len g).
