(* ===== verification/Logging.v ===== *)
(** * Logger (ryan_network/logger/logging.h, logging.cc)

    One [LOG_...] statement makes a [Logger], sends items to its stream and
    destroys it.  The globals are a record [logging]; its two functions are
    passed the process's output, which they extend.  What the C library and the
    kernel give (the clock, [localtime], [strerror_r], the memory a stack object starts
    with) are arguments. *)

From S2P Require Import Prelude Format Timestamp LogStream.

(** src: ryan_network/logger/logging.h:15-29 SourceFile *)
Record SourceFile := mkSourceFile { sf_data : bytes; size_ : Z }.

(** [strrchr(filename, '/')]: what follows the last slash, if there is one *)
Fixpoint after_last_slash (l : bytes) : option bytes :=
  match l with
  | [] => None
  | c :: l' =>
      match after_last_slash l' with
      | Some r => Some r
      | None => if decide (c = x2f) then Some l' else None
      end
  end.

(** src: ryan_network/logger/logging.h:17-25 SourceFile::SourceFile *)
Definition SourceFile_new (filename : bytes) : SourceFile :=
  let data := match after_last_slash filename with Some r => r | None => filename end in
  mkSourceFile data (s32 (zlen data)).

(** src: ryan_network/logger/logging.h:33-41 Logger::LogLevel *)
Inductive LogLevel := TRACE | DEBUG | INFO | WARN | ERROR | FATAL | LEVEL_COUNT.

#[export] Instance LogLevel_eq_dec : EqDecision LogLevel.
Proof. solve_decision. Defined.

Definition level_value (l : LogLevel) : Z :=
  match l with
  | TRACE => 0 | DEBUG => 1 | INFO => 2 | WARN => 3 | ERROR => 4 | FATAL => 5 | LEVEL_COUNT => 6
  end.

(** An index past the array is undefined.
    src: ryan_network/logger/logging.cc:17-19 get_level_name *)
Definition get_level_name (l : LogLevel) : result bytes :=
  match l with
  | TRACE => Ok (lit "TRACE ")
  | DEBUG => Ok (lit "DEBUG ")
  | INFO => Ok (lit "INFO  ")
  | WARN => Ok (lit "WARN  ")
  | ERROR => Ok (lit "ERROR ")
  | FATAL => Ok (lit "FATAL ")
  | LEVEL_COUNT => Fault FUndef
  end.

(** ["%4d"] *)
Definition pad_space (n : nat) (s : bytes) : bytes := replicate (n - length s) x20 ++ s.

Section Logger.
(** the two readings of [Timestamp::Now()], and the C library *)
Context (now now' : Z) (localtime : Z -> tm) (strerror_r : Z -> bytes).
(** what the stack memory of the stream holds *)
Context (garbage : bytes).

(** src: ryan_network/logger/logging.cc:11-14 GetErrnoMsg *)
Definition GetErrnoMsg (saved_errno : Z) : bytes := strerror_r saved_errno.

(** [thread_info::t_time]: the text, its terminator, and the rest of the array
    (zero until a longer text is written).
    src: ryan_network/logger/logging.cc:53-64 Logger::Impl::FormatTime *)
Definition t_time (time : Z) : bytes :=
  let seconds := Z.quot time kMicroSecondsPerSecond in
  let tm_time := localtime seconds in
  let text := snprintf 64 (pad_space 4 (dec (tm_year tm_time + 1900)) ++ lit "/" ++
      pad 2 (tm_mon tm_time + 1) ++ lit "/" ++ pad 2 (tm_mday tm_time) ++ lit " " ++
      pad 2 (tm_hour tm_time) ++ lit ":" ++ pad 2 (tm_min tm_time) ++ lit ":" ++
      pad 2 (tm_sec tm_time)) in
  text ++ replicate (64 - length text) x00.

(** src: ryan_network/logger/logging.cc:69-70 Logger::Impl::FormatTime *)
Definition usec_buf (time : Z) : bytes :=
  let microseconds := s32 (Z.rem time kMicroSecondsPerSecond) in
  let text := snprintf 32 (pad 6 microseconds ++ lit " ") in
  text ++ replicate (32 - length text) x00.

(** src: ryan_network/logger/logging.cc:52-75 Logger::Impl::FormatTime *)
Definition FormatTime (s : LogStream) : result LogStream :=
  s ← stream_template s (mkGeneralTemplate (t_time now') 20);
  s ← stream_c_str s (Some (lit "."));
  stream_template s (mkGeneralTemplate (usec_buf now') 7).

(** src: ryan_network/logger/logging.h:72-76 Logger::Impl *)
Record Logger := mkLogger {
  time_ : Z;
  stream_ : LogStream;
  level_ : LogLevel;
  line_ : Z;
  basename_ : SourceFile
}.

Definition set_stream (l : Logger) (s : LogStream) : Logger :=
  mkLogger (time_ l) s (level_ l) (line_ l) (basename_ l).

(** src: ryan_network/logger/logging.cc:34-49 Logger::Impl::Impl *)
Definition Impl_new (level : LogLevel) (saved_errno : Z) (file : bytes) (line : Z) : result Logger :=
  s ← FormatTime (mkLogStream (FixedBuffer_new garbage));
  name ← get_level_name level;
  s ← stream_template s (mkGeneralTemplate name 6);
  s ← (if negb (saved_errno =? 0) then
         s ← stream_c_str s (Some (GetErrnoMsg saved_errno));
         s ← stream_c_str s (Some (lit " (errno="));
         s ← stream_int s saved_errno;
         stream_c_str s (Some (lit ") "))
       else Ok s);
  Ok (mkLogger now s level line (SourceFile_new file)).

(** src: ryan_network/logger/logging.cc:77-80 Logger::Impl::Finish *)
Definition Finish (l : Logger) : result Logger :=
  s ← stream_c_str (stream_ l) (Some (lit " - "));
  s ← stream_template s (mkGeneralTemplate (sf_data (basename_ l)) (size_ (basename_ l)));
  s ← stream_char s x3a;
  s ← stream_int s (line_ l);
  s ← stream_char s x0a;
  Ok (set_stream l s).

(** src: ryan_network/logger/logging.cc:83-83 Logger::Logger(file,line) *)
Definition Logger_new (file : bytes) (line : Z) : result Logger := Impl_new INFO 0 file line.
(** src: ryan_network/logger/logging.cc:85-86 Logger::Logger(file,line,level) *)
Definition Logger_new_level (file : bytes) (line : Z) (level : LogLevel) : result Logger :=
  Impl_new level 0 file line.
(** src: ryan_network/logger/logging.cc:89-93 Logger::Logger(file,line,level,func) *)
Definition Logger_new_func (file : bytes) (line : Z) (level : LogLevel) (func : bytes) : result Logger :=
  l ← Impl_new level 0 file line;
  s ← stream_c_str (stream_ l) (Some func);
  s ← stream_char s x20;
  Ok (set_stream l s).
(** src: ryan_network/logger/logging.cc:95-96 Logger::Logger(file,line,to_abort) *)
Definition Logger_new_errno (errno : Z) (file : bytes) (line : Z) (to_abort : bool) : result Logger :=
  Impl_new (if to_abort then FATAL else ERROR) errno file line.

(** The globals; an output function is given the array, the length and what was
    output so far.
    src: ryan_network/logger/logging.cc:23-32 g_LogLevel,g_output,g_flush *)
Record logging := mkLogging {
  g_LogLevel : LogLevel;
  g_output : bytes -> Z -> bytes -> result bytes;
  g_flush : bytes -> bytes;
  out : bytes
}.

(** src: ryan_network/logger/logging.cc:25-27 DefaultOutput *)
Definition DefaultOutput (data : bytes) (len : Z) (out : bytes) : result bytes :=
  d ← read_bytes data 0 len; Ok (out ++ d).
(** src: ryan_network/logger/logging.cc:29-29 DefaultFlush *)
Definition DefaultFlush (out : bytes) : bytes := out.
(** src: ryan_network/logger/logging.cc:21-21 InitLogLevel *)
Definition InitLogLevel : LogLevel := INFO.
Definition logging_init : logging := mkLogging InitLogLevel DefaultOutput DefaultFlush [].

(** src: ryan_network/logger/logging.h:85-85 log_level *)
Definition log_level (g : logging) : LogLevel := g_LogLevel g.
(** src: ryan_network/logger/logging.cc:111-111 Logger::SetLogLevel *)
Definition SetLogLevel (g : logging) (level : LogLevel) : logging :=
  mkLogging level (g_output g) (g_flush g) (out g).
(** src: ryan_network/logger/logging.cc:113-113 Logger::SetOutput *)
Definition SetOutput (g : logging) (f : bytes -> Z -> bytes -> result bytes) : logging :=
  mkLogging (g_LogLevel g) f (g_flush g) (out g).
(** src: ryan_network/logger/logging.cc:115-115 Logger::SetFlush *)
Definition SetFlush (g : logging) (f : bytes -> bytes) : logging :=
  mkLogging (g_LogLevel g) (g_output g) f (out g).

(** A [FATAL] message is flushed before the program aborts.
    src: ryan_network/logger/logging.cc:98-109 Logger::~Logger *)
Definition Logger_destroy (l : Logger) (g : logging) : result logging :=
  l ← Finish l;
  let buf := buffer_ (stream_ l) in
  o ← g_output g (data_ buf) (Length buf) (out g);
  let g := mkLogging (g_LogLevel g) (g_output g) (g_flush g) o in
  if decide (level_ l = FATAL) then Fault FAbort
  else Ok g.

(** ** The macros

    [items] are the arguments of [<<] after the macro. *)
Definition log_statement (mk : result Logger) (items : LogStream -> result LogStream) (g : logging)
    : result logging :=
  l ← mk;
  s ← items (stream_ l);
  Logger_destroy (set_stream l s) g.

(** src: ryan_network/logger/logging.h:94-96 LOG_TRACE *)
Definition LOG_TRACE (file : bytes) (line : Z) (func : bytes) items (g : logging) : result logging :=
  if level_value (log_level g) <=? level_value TRACE
  then log_statement (Logger_new_func file line TRACE func) items g else Ok g.
(** src: ryan_network/logger/logging.h:97-99 LOG_DEBUG *)
Definition LOG_DEBUG (file : bytes) (line : Z) (func : bytes) items (g : logging) : result logging :=
  if level_value (log_level g) <=? level_value DEBUG
  then log_statement (Logger_new_func file line DEBUG func) items g else Ok g.
(** src: ryan_network/logger/logging.h:100-101 LOG_INFO *)
Definition LOG_INFO (file : bytes) (line : Z) items (g : logging) : result logging :=
  if level_value (log_level g) <=? level_value INFO
  then log_statement (Logger_new file line) items g else Ok g.
(** src: ryan_network/logger/logging.h:102-102 LOG_WARN *)
Definition LOG_WARN (file : bytes) (line : Z) := log_statement (Logger_new_level file line WARN).
(** src: ryan_network/logger/logging.h:103-103 LOG_ERROR *)
Definition LOG_ERROR (file : bytes) (line : Z) := log_statement (Logger_new_level file line ERROR).
(** src: ryan_network/logger/logging.h:104-104 LOG_FATAL *)
Definition LOG_FATAL (file : bytes) (line : Z) := log_statement (Logger_new_level file line FATAL).
(** src: ryan_network/logger/logging.h:105-105 LOG_SYSERR *)
Definition LOG_SYSERR (errno : Z) (file : bytes) (line : Z) :=
  log_statement (Logger_new_errno errno file line false).
(** src: ryan_network/logger/logging.h:106-106 LOG_SYSFATAL *)
Definition LOG_SYSFATAL (errno : Z) (file : bytes) (line : Z) :=
  log_statement (Logger_new_errno errno file line true).
End Logger.
