(* ===== verification/LogSpec.v ===== *)
(** * Properties of the log stream and the logger *)

From S2P Require Import Prelude Format Timestamp LogStream Logging.

(** ** FixedBuffer *)

Definition contents (b : FixedBuffer) : bytes := take (Z.to_nat (curr_ b)) (data_ b).

(** [n] is [SIZE]. *)
Record fb_ok (n : Z) (b : FixedBuffer) : Prop := {
  fb_size : zlen (data_ b) = n;
  fb_small : n < 2 ^ 31;
  fb_curr : 0 <= curr_ b <= n
}.

Lemma length_contents n b : fb_ok n b -> zlen (contents b) = curr_ b.
Proof. intros [H1 H2 H3]. unfold contents. rewrite length_take. lia. Qed.

Lemma Avail_ok n b : fb_ok n b -> Avail b = n - curr_ b.
Proof. intros [H1 H2 H3]. unfold Avail, fb_end. rewrite H1. apply swrap_small; lia. Qed.

Lemma Length_ok n b : fb_ok n b -> Length b = n.
Proof. intros [H1 H2 H3]. unfold Length, fb_end. rewrite H1. rewrite swrap_small; lia. Qed.

Lemma FixedBuffer_new_ok n g : zlen g = n -> n < 2 ^ 31 -> fb_ok n (FixedBuffer_new g).
Proof. intros H1 H2. split; simpl; lia. Qed.

Lemma Reset_ok n b : fb_ok n b -> fb_ok n (Reset b) /\ contents (Reset b) = [].
Proof. intros [H1 H2 H3]. split; [split; simpl; lia|done]. Qed.

(** Writing text where the cursor stands and moving the cursor over it. *)
Lemma write_at_cursor n b text junk d :
  fb_ok n b -> curr_ b + zlen (text ++ junk) <= n ->
  write_bytes (data_ b) (curr_ b) (text ++ junk) = Ok d ->
  fb_ok n (mkFixedBuffer d (curr_ b + zlen text)) /\
  contents (mkFixedBuffer d (curr_ b + zlen text)) = contents b ++ text.
Proof.
  intros [H1 H2 H3] Hfit (_ & _ & Hl & Hd)%write_bytes_inv.
  rewrite length_app in Hfit. split; [split; simpl; lia|].
  unfold contents. simpl. rewrite Hd.
  replace (Z.to_nat (curr_ b + zlen text)) with (Z.to_nat (curr_ b) + length text)%nat by lia.
  rewrite take_app_add' by (rewrite length_take; lia). f_equal.
  rewrite <- app_assoc. apply take_app_length.
Qed.

Lemma write_cursor_Ok d c text :
  0 <= c -> c + zlen text <= zlen d -> exists d', write_bytes d c text = Ok d'.
Proof. intros. rewrite write_bytes_Ok by lia. by eexists. Qed.

Lemma fb_Append_ok n b buf len :
  fb_ok n b -> 0 <= len < 2 ^ 64 -> len <= zlen buf ->
  exists b', fb_Append b buf len = Ok b' /\ fb_ok n b' /\
    contents b' = contents b ++ (if n - curr_ b >? len then take (Z.to_nat len) buf else []).
Proof.
  intros Hb Hl Hlen. unfold fb_Append. rewrite (Avail_ok n) by done.
  pose proof Hb as [H1 H2 H3]. rewrite !uwrap_small by lia.
  destruct (Z.gtb_spec (n - curr_ b) len) as [Hf|Hf]; [|exists b; by rewrite app_nil_r].
  rewrite read_bytes_Ok, bind_Ok by lia. rewrite drop_0.
  set (w := take (Z.to_nat len) buf).
  assert (zlen w = len) as Hw by (unfold w; rewrite length_take; lia).
  destruct (write_bytes (data_ b) (curr_ b) w) as [d|] eqn:E; [|rewrite write_bytes_Ok in E by lia; done].
  rewrite bind_Ok. eexists. split; [reflexivity|]. rewrite <- Hw.
  apply write_at_cursor with (junk := []); rewrite ?app_nil_r; [done|lia|done].
Qed.

(** ** Numbers *)

Lemma zero_at_digit r : -10 < r < 10 -> zero_at r = Ok (digit (Z.abs r)).
Proof.
  intros Hr.
  assert (r = -9 \/ r = -8 \/ r = -7 \/ r = -6 \/ r = -5 \/ r = -4 \/ r = -3 \/ r = -2 \/ r = -1 \/
    r = 0 \/ r = 1 \/ r = 2 \/ r = 3 \/ r = 4 \/ r = 5 \/ r = 6 \/ r = 7 \/ r = 8 \/ r = 9) as Hc by lia.
  repeat destruct Hc as [->|Hc]; [..|subst r]; vm_compute; reflexivity.
Qed.

Lemma format_loop_digits fuel num :
  format_loop fuel num = Ok (digits_rev 10 fuel (Z.abs num)).
Proof.
  revert num. induction fuel as [|fuel IH]; intros num; [done|]. cbn [format_loop digits_rev].
  assert (Z.abs (Z.rem num 10) = Z.abs num mod 10) as Hr.
  { rewrite <- Z.rem_abs by lia. apply Z.rem_mod_nonneg; lia. }
  assert (Z.abs (Z.quot num 10) = Z.abs num / 10) as Hq.
  { rewrite <- Z.quot_abs by lia. apply Z.quot_div_nonneg; lia. }
  pose proof (Z.mod_pos_bound (Z.abs num) 10 ltac:(lia)) as Hb.
  rewrite zero_at_digit by lia. rewrite bind_Ok, Hr, IH, Hq.
  destruct (Z.eqb_spec (Z.quot num 10) 0) as [E|E]; simpl negb; cbn match.
  - rewrite (proj2 (Z.eqb_eq _ _)) by lia. done.
  - rewrite (proj2 (Z.eqb_neq _ _)) by lia. by rewrite bind_Ok.
Qed.

Lemma hex_loop_digits fuel i : 0 <= i -> hex_loop fuel i = Ok (digits_rev 16 fuel i).
Proof.
  revert i. induction fuel as [|fuel IH]; intros i Hi; [done|]. cbn [hex_loop digits_rev].
  pose proof (Z.mod_pos_bound i 16 ltac:(lia)) as Hb.
  assert (digitsHex !! Z.to_nat (i mod 16) = Some (digit (i mod 16))) as ->.
  { remember (i mod 16) as r eqn:Er. clear Er.
    assert (r = 0 \/ r = 1 \/ r = 2 \/ r = 3 \/ r = 4 \/ r = 5 \/ r = 6 \/ r = 7 \/ r = 8 \/ r = 9 \/
      r = 10 \/ r = 11 \/ r = 12 \/ r = 13 \/ r = 14 \/ r = 15) as Hc by lia.
    repeat destruct Hc as [->|Hc]; [..|subst r]; vm_compute; reflexivity. }
  destruct (Z.eqb_spec (i / 16) 0); simpl negb; cbn match; [done|].
  rewrite IH by (apply Z.div_pos; lia). by rewrite bind_Ok.
Qed.

(** the digits of a number below [base ^ n] are at most [n] *)
Lemma length_digits_small base n z :
  2 <= base <= 16 -> 0 <= z < base ^ Z.of_nat n -> (0 < n <= digit_fuel)%nat ->
  (length (digits_rev base digit_fuel z) <= n)%nat.
Proof.
  intros Hb Hz Hn. rewrite (digits_fuel base Hb n digit_fuel) by (done || lia).
  apply length_digits.
Qed.

Lemma write_reversed_ok d start l :
  0 <= start -> start + zlen l + 1 <= zlen d ->
  write_reversed d start l = write_bytes d start (rev l ++ [x00]).
Proof.
  intros Hs Hl. unfold write_reversed.
  rewrite (write_bytes_Ok d start (l ++ [x00])) by (rewrite ?length_app; simpl; lia).
  rewrite bind_Ok, length_app. cbn [length].
  set (d' := _ ++ _ ++ _).
  assert (length (take (Z.to_nat start) d) = Z.to_nat start) as Ht by (rewrite length_take; lia).
  assert (zlen d' = zlen d) as Hd'.
  { unfold d'. rewrite !length_app, Ht, length_drop. simpl. lia. }
  rewrite read_bytes_Ok, bind_Ok by lia.
  assert (take (Z.to_nat (zlen l)) (drop (Z.to_nat start) d') = l) as ->.
  { unfold d'. rewrite drop_app_length' by lia. rewrite Nat2Z.id, <- app_assoc. apply take_app_length. }
  rewrite !write_bytes_Ok by (rewrite ?length_app, ?length_rev; simpl; lia).
  f_equal. unfold d' at 1. rewrite take_app_length' by lia. rewrite <- app_assoc. f_equal. f_equal.
  rewrite length_app, !length_rev. cbn [length]. unfold d'.
  rewrite (app_assoc (take _ _) (l ++ [x00])), (app_assoc (take _ _) l).
  rewrite <- (app_assoc _ [x00]). rewrite drop_app_length' by (rewrite length_app; lia). done.
Qed.

(** ** operator<< *)

(** Anything that can be sent to a stream. *)
Inductive item :=
  | Short (v : Z)
  | UShort (v : Z)
  | Int (v : Z)
  | UInt (v : Z)
  | Long (v : Z)
  | ULong (v : Z)
  | LongLong (v : Z)
  | ULongLong (v : Z)
  | Float (v : double)
  | Double (v : double)
  | Char (c : byte)
  | Pointer (v : Z)
  | CStr (str : option bytes)
  | UStr (str : option bytes)
  | Str (str : bytes)
  | Buf (b : FixedBuffer)
  | Tmpl (g : GeneralTemplate).

Definition put (i : item) (s : LogStream) : result LogStream :=
  match i with
  | Short v => stream_short s v
  | UShort v => stream_unsigned_short s v
  | Int v => stream_int s v
  | UInt v => stream_unsigned_int s v
  | Long v => stream_long s v
  | ULong v => stream_unsigned_long s v
  | LongLong v => stream_long_long s v
  | ULongLong v => stream_unsigned_long_long s v
  | Float v => stream_float s v
  | Double v => stream_double s v
  | Char c => stream_char s c
  | Pointer v => stream_pointer s v
  | CStr str => stream_c_str s str
  | UStr str => stream_u_str s str
  | Str str => stream_string s str
  | Buf b => stream_buffer s b
  | Tmpl g => stream_template s g
  end.

Inductive shape := Number | Text.

(** How much room an item asks for, and what it writes: a number wants
    [kMaxNumericSize] bytes, a text one byte more than it has; the text of a
    buffer is its whole array. *)
Definition item_shape (i : item) : shape :=
  match i with
  | Char _ | CStr _ | UStr _ | Str _ | Buf _ | Tmpl _ => Text
  | _ => Number
  end.

Definition item_text (i : item) : bytes :=
  match i with
  | Short v | UShort v | Int v | UInt v | Long v | ULong v | LongLong v | ULongLong v => dec v
  | Float v | Double v => format_g12 v
  | Char c => [c]
  | Pointer v => lit "0x" ++ hex v
  | CStr str | UStr str => default (lit "(null)") str
  | Str str => str
  | Buf b => data_ b
  | Tmpl g => take (Z.to_nat (gt_len g)) (gt_data g)
  end.

Definition fits (i : item) (s : LogStream) : bool :=
  let room := kSmallBuffer - curr_ (buffer_ s) in
  match item_shape i with
  | Number => room >=? kMaxNumericSize
  | Text => room >? zlen (item_text i)
  end.

(** The arguments the types and the callers allow. *)
Definition item_ok (i : item) : Prop :=
  match i with
  | Short v => - 2 ^ 15 <= v < 2 ^ 15
  | UShort v => 0 <= v < 2 ^ 16
  | Int v => - 2 ^ 31 <= v < 2 ^ 31
  | UInt v => 0 <= v < 2 ^ 32
  | Long v | LongLong v => - 2 ^ 63 <= v < 2 ^ 63
  | ULong v | ULongLong v | Pointer v => 0 <= v < 2 ^ 64
  | Float v | Double v => zlen (format_g12 v) < kMaxNumericSize
  | Char _ => True
  | CStr str | UStr str => zlen (default [] str) < 2 ^ 63
  | Str str => zlen str < 2 ^ 63
  | Buf b => fb_ok kSmallBuffer b
  | Tmpl g => 0 <= gt_len g <= zlen (gt_data g) /\ gt_len g < 2 ^ 31
  end.

Abbreviation stream_ok s := (fb_ok kSmallBuffer (buffer_ s)).
Abbreviation stream_text s := (contents (buffer_ s)).

(** What [put i s] has to do, for an item that says when it fits. *)
Definition puts (text : bytes) (fit : bool) (s : LogStream) (r : result LogStream) : Prop :=
  exists s', r = Ok s' /\ stream_ok s' /\
    stream_text s' = stream_text s ++ (if fit then text else []).

Lemma Append_ok s data len :
  stream_ok s -> 0 <= len < 2 ^ 64 -> len <= zlen data ->
  puts (take (Z.to_nat len) data) (kSmallBuffer - curr_ (buffer_ s) >? len) s (Append s data len).
Proof.
  intros Hs Hl Hd. destruct (fb_Append_ok _ _ data len Hs Hl Hd) as (b & Hb & H1 & H2).
  unfold Append. rewrite Hb, bind_Ok. by exists (mkLogStream b).
Qed.

Lemma Append_all_ok s data :
  stream_ok s -> zlen data < 2 ^ 63 ->
  puts data (kSmallBuffer - curr_ (buffer_ s) >? zlen data) s (Append s data (zlen data)).
Proof.
  intros Hs Hd. pose proof (Append_ok s data (zlen data) Hs ltac:(lia) ltac:(lia)) as H.
  by rewrite Nat2Z.id, take_ge in H by lia.
Qed.

(** A number's text and its terminator, written at the cursor. *)
Lemma number_ok s text d :
  stream_ok s -> zlen text < kMaxNumericSize -> kSmallBuffer - curr_ (buffer_ s) >= kMaxNumericSize ->
  write_bytes (data_ (buffer_ s)) (curr_ (buffer_ s)) (text ++ [x00]) = d ->
  exists d', d = Ok d' /\
    puts text true s (Ok (mkLogStream (Add (mkFixedBuffer d' (curr_ (buffer_ s))) (zlen text)))).
Proof.
  intros Hs Ht Hr Hd. pose proof Hs as [H1 H2 H3]. unfold kMaxNumericSize in *.
  assert (Hw : exists d', d = Ok d').
  { subst d. rewrite write_bytes_Ok by (rewrite ?length_app; simpl; lia). by eexists. }
  destruct Hw as [d' ->]. exists d'. split; [done|]. eexists. split; [reflexivity|].
  unfold Add. simpl.
  apply (write_at_cursor kSmallBuffer (buffer_ s) text [x00] d'); [done|rewrite length_app; simpl; lia|done].
Qed.

Lemma length_dec_22 v : - 2 ^ 64 < v < 2 ^ 64 -> zlen (dec v) < 22.
Proof.
  intros Hv. unfold dec, dec_nat.
  assert (forall z, 0 <= z < 2 ^ 64 -> (length (digits_rev 10 digit_fuel z) <= 20)%nat) as Hz.
  { intros z Hz. apply length_digits_small; [lia| |unfold digit_fuel; lia].
    change (10 ^ Z.of_nat 20) with 100000000000000000000. lia. }
  destruct (Z.ltb_spec v 0); cbn [length]; rewrite length_rev.
  - specialize (Hz (- v) ltac:(lia)). lia.
  - specialize (Hz v ltac:(lia)). lia.
Qed.

Lemma FormatInteger_ok s v :
  stream_ok s -> - 2 ^ 64 < v < 2 ^ 64 ->
  puts (dec v) (kSmallBuffer - curr_ (buffer_ s) >=? kMaxNumericSize) s (FormatInteger s v).
Proof.
  intros Hs Hv. unfold FormatInteger. rewrite (Avail_ok kSmallBuffer) by done.
  destruct (Z.geb_spec (kSmallBuffer - curr_ (buffer_ s)) kMaxNumericSize) as [Hf|Hf];
    [|exists s; by rewrite app_nil_r].
  rewrite format_loop_digits, bind_Ok. set (l := if v <? 0 then _ else _).
  assert (rev l = dec v) as Hl.
  { unfold l, dec, dec_nat. destruct (Z.ltb_spec v 0); [|by rewrite Z.abs_eq by lia].
    rewrite rev_app_distr, Z.abs_neq by lia. done. }
  pose proof (length_dec_22 v Hv) as Hlen. pose proof Hs as [H1 H2 H3].
  assert (zlen l = zlen (dec v)) as Hll by (by rewrite <- Hl, length_rev).
  unfold kMaxNumericSize in Hf.
  rewrite write_reversed_ok, Hl, Hll by lia. rewrite swrap_small by lia.
  destruct (number_ok s (dec v) _ Hs ltac:(unfold kMaxNumericSize; lia)
    ltac:(unfold kMaxNumericSize; lia) eq_refl) as (d' & -> & Hp). exact Hp.
Qed.

Lemma stream_double_ok s v :
  stream_ok s -> zlen (format_g12 v) < kMaxNumericSize ->
  (kSmallBuffer - curr_ (buffer_ s) >=? kMaxNumericSize) = true ->
  puts (format_g12 v) true s (stream_double s v).
Proof.
  intros Hs Hv Hf. unfold stream_double. rewrite (Avail_ok kSmallBuffer), Hf by done.
  unfold snprintf. rewrite take_ge by (unfold kMaxNumericSize in Hv; simpl; lia).
  destruct (number_ok s (format_g12 v) _ Hs Hv ltac:(lia) eq_refl) as (d' & -> & Hp). exact Hp.
Qed.

Lemma stream_pointer_ok s v :
  stream_ok s -> 0 <= v < 2 ^ 64 ->
  puts (lit "0x" ++ hex v) (kSmallBuffer - curr_ (buffer_ s) >=? kMaxNumericSize) s (stream_pointer s v).
Proof.
  intros Hs Hv. unfold stream_pointer. rewrite (Avail_ok kSmallBuffer) by done.
  destruct (Z.geb_spec (kSmallBuffer - curr_ (buffer_ s)) kMaxNumericSize) as [Hf|Hf];
    [|exists s; by rewrite app_nil_r].
  pose proof Hs as [H1 H2 H3]. unfold kMaxNumericSize in Hf.
  pose proof (length_digits_small 16 16 v ltac:(lia) ltac:(lia) ltac:(unfold digit_fuel; lia)) as Hl.
  assert (zlen (hex v) <= 16) as Hh by (unfold hex; rewrite length_rev; lia).
  destruct s as [[d c]]. cbn [buffer_ data_ curr_] in *.
  destruct (write_cursor_Ok d c [x30] ltac:(lia) ltac:(simpl; lia)) as [d1 E1]. rewrite E1, bind_Ok.
  destruct (write_at_cursor kSmallBuffer (mkFixedBuffer d c) [x30] [] d1 Hs ltac:(simpl; lia) E1)
    as [[G1 _ G3] C1]. cbn [data_ curr_ length] in *.
  destruct (write_cursor_Ok d1 (c + 1) [x78] ltac:(lia) ltac:(simpl; lia)) as [d2 E2]. rewrite E2, bind_Ok.
  destruct (write_at_cursor kSmallBuffer (mkFixedBuffer d1 (c + 1)) [x78] [] d2
    ltac:(split; simpl; lia) ltac:(simpl; lia) E2) as [[K1 _ K3] C2]. cbn [data_ curr_ length] in *.
  unfold ConvertHex. rewrite hex_loop_digits, bind_Ok by lia.
  rewrite write_reversed_ok by lia. fold (hex v).
  assert (zlen (digits_rev 16 digit_fuel v) = zlen (hex v)) as -> by (unfold hex; by rewrite length_rev).
  destruct (write_cursor_Ok d2 (c + 2) (hex v ++ [x00]) ltac:(lia)
    ltac:(rewrite length_app; simpl; lia)) as [d3 E3]. rewrite E3, !bind_Ok.
  replace (c + 1 + Z.of_nat 1) with (c + 2) in * by lia.
  destruct (write_at_cursor kSmallBuffer (mkFixedBuffer d2 (c + 2)) (hex v) [x00] d3
    ltac:(split; simpl; lia) ltac:(rewrite length_app; simpl; lia) E3) as [G C3].
  cbn [data_ curr_] in *. eexists. split; [reflexivity|]. unfold Add. cbn [buffer_ data_ curr_].
  replace (c + (zlen (hex v) + 2)) with (c + 2 + zlen (hex v)) by lia. split; [exact G|].
  rewrite C3. change (Z.of_nat 1) with 1 in *. rewrite C2, C1, <- !app_assoc. done.
Qed.

Lemma stream_buffer_ok s b :
  stream_ok s -> fb_ok kSmallBuffer b -> puts [] false s (stream_buffer s b).
Proof.
  intros Hs Hb. unfold stream_buffer, fb_ToString. rewrite (Length_ok kSmallBuffer) by done.
  pose proof Hb as [B1 B2 B3]. rewrite read_bytes_Ok, bind_Ok by lia.
  rewrite drop_0, take_ge by lia. unfold stream_string.
  pose proof (Append_all_ok s (data_ b) Hs ltac:(lia)) as H.
  rewrite Z.gtb_ltb, (proj2 (Z.ltb_ge _ _)) in H by (destruct Hs; lia). done.
Qed.

Lemma put_ok (i : item) (s : LogStream) :
  stream_ok s -> item_ok i ->
  (forall v, i = Double v \/ i = Float v -> fits i s = true) ->
  puts (item_text i) (fits i s) s (put i s) /\ forall b, i = Buf b -> fits i s = false.
Proof.
  intros Hs Hi Hd.
  pose proof Hs as [H1 H2 H3]. split.
  - destruct i as [v|v|v|v|v|v|v|v|v|v|c|v|str|str|str|b|g]; simpl in Hi;
      try (apply FormatInteger_ok; [done|lia]);
      try (pose proof (Hd v ltac:(eauto)) as Hf; rewrite Hf; by apply stream_double_ok).
    + apply (Append_all_ok s [c] Hs). simpl. lia.
    + by apply stream_pointer_ok.
    + destruct str as [str|]; [by apply Append_all_ok|].
      apply (Append_all_ok s (lit "(null)") Hs). simpl. lia.
    + destruct str as [str|]; [by apply Append_all_ok|].
      apply (Append_all_ok s (lit "(null)") Hs). simpl. lia.
    + by apply Append_all_ok.
    + pose proof (stream_buffer_ok s b Hs Hi) as H. pose proof Hi as [B1 B2 B3].
      unfold fits. simpl. rewrite Z.gtb_ltb, (proj2 (Z.ltb_ge _ _)) by lia. done.
    + pose proof (Append_ok s (gt_data g) (gt_len g) Hs ltac:(lia) ltac:(lia)) as H.
      unfold fits. simpl. by rewrite length_take, Nat.min_l, Z2Nat.id by lia.
  - intros b ->. simpl in Hi. destruct Hi as [B1 B2 B3]. unfold fits. simpl. lia.
Qed.

(** C30: what [operator<<] does, on every overload.  It never writes outside
    the buffer and never splits an argument: what fits is written after the text already
    there -- integers in decimal with their sign, pointers in hexadecimal, null
    strings as ["(null)"] -- and what does not fit leaves the text as it was.  A
    number needs 48 bytes, a text one more than its length; as the length of a
    [FixedBuffer] is its capacity, sending one to a stream writes nothing.  A
    [double] without room is excluded: that overload then ends with no [return]. *)
Theorem stream_put (i : item) (s : LogStream) :
  stream_ok s -> item_ok i ->
  (forall v, i = Double v \/ i = Float v -> fits i s = true) ->
  exists s', put i s = Ok s' /\ stream_ok s' /\
    stream_text s' = stream_text s ++ (if fits i s then item_text i else []) /\
    (forall b, i = Buf b -> fits i s = false).
Proof.
  intros Hs Hi Hd. destruct (put_ok i s Hs Hi Hd) as [(s' & H1 & H2 & H3) H4]. by exists s'.
Qed.

(** A fresh stream on cleared memory. *)
Definition fresh : LogStream := mkLogStream (FixedBuffer_new (replicate 4000 x00)).

Lemma fresh_ok : stream_ok fresh.
Proof. apply FixedBuffer_new_ok; vm_compute; done. Qed.

Lemma stream_put_witness :
  exists s', put (Double (double_div (double_of_Z 1) (double_of_Z 2))) fresh = Ok s' /\ stream_ok s' /\
    stream_text s' = lit "0.5" /\
    (forall b, Double (double_div (double_of_Z 1) (double_of_Z 2)) = Buf b ->
       fits (Double (double_div (double_of_Z 1) (double_of_Z 2))) fresh = false).
Proof.
  apply (stream_put (Double (double_div (double_of_Z 1) (double_of_Z 2))) fresh fresh_ok).
  - vm_compute. reflexivity.
  - intros v _. vm_compute. reflexivity.
Defined.

(** ** Logger *)

Fixpoint put_all (l : list item) (s : LogStream) : result LogStream :=
  match l with
  | [] => Ok s
  | i :: l => s ← put i s; put_all l s
  end.

Definition text_of (l : list item) : bytes := concat (map item_text l).

(** an item that is neither a buffer nor a [double] *)
Definition plain (i : item) : Prop :=
  match i with Buf _ => False | _ => item_ok i end.

Lemma put_all_app l k s : put_all (l ++ k) s = (put_all l s ≫= put_all k).
Proof.
  revert s. induction l as [|i l IH]; intros s; [done|]. cbn [app put_all].
  rewrite bind_assoc. destruct (put i s); [|done]. by rewrite !bind_Ok, IH.
Qed.

(** A message that leaves room for one more number is written in full. *)
Lemma put_all_ok l s :
  stream_ok s -> Forall plain l ->
  zlen (stream_text s) + zlen (text_of l) + kMaxNumericSize <= kSmallBuffer ->
  exists s', put_all l s = Ok s' /\ stream_ok s' /\ stream_text s' = stream_text s ++ text_of l.
Proof.
  revert s. induction l as [|i l IH]; intros s Hs Hl Hroom.
  - exists s. by rewrite app_nil_r.
  - apply Forall_cons in Hl as [Hi Hl]. unfold text_of in Hroom. cbn [map concat] in Hroom.
    fold (text_of l) in Hroom. rewrite length_app in Hroom.
    pose proof (length_contents _ _ Hs) as Hc. unfold kMaxNumericSize in Hroom.
    assert (fits i s = true) as Hf.
    { unfold fits, kMaxNumericSize. destruct (item_shape i); lia. }
    assert (item_ok i) as Hok by (destruct i; done).
    destruct (put_ok i s Hs Hok ltac:(done)) as [(s1 & E1 & Hs1 & Ht1) _]. rewrite Hf in Ht1.
    destruct (IH s1 Hs1 Hl) as (s' & E & Hs' & Ht').
    { rewrite Ht1, length_app. unfold kMaxNumericSize. lia. }
    exists s'. cbn [put_all]. rewrite E1, bind_Ok. split; [done|]. split; [done|].
    rewrite Ht', Ht1, <- app_assoc. done.
Qed.

(** Both sides of an equation begin with the same statement. *)
Ltac same_step :=
  rewrite ?bind_assoc, ?bind_Ok; cbv beta;
  match goal with
  | |- mbind _ ?m = mbind _ ?m => destruct m; [rewrite !bind_Ok; cbv beta|done]
  end.

Lemma after_last_slash_le l :
  match after_last_slash l with Some r => (length r <= length l)%nat | None => True end.
Proof.
  induction l as [|c l IH]; simpl; [done|]. destruct (after_last_slash l); [lia|]. case_decide; [lia|done].
Qed.

(** an array of [n] characters a text was printed into *)
Lemma length_array n text :
  length (snprintf n text ++ replicate (n - length (snprintf n text)) x00) = n.
Proof. rewrite length_app, length_replicate. unfold snprintf. rewrite length_take. lia. Qed.

Section Lines.
Context (now now' : Z) (localtime : Z -> tm) (garbage : bytes) (file : bytes) (line : Z).

Definition prefix_items (name : bytes) : list item :=
  [Tmpl (mkGeneralTemplate (t_time localtime now') 20); CStr (Some (lit "."));
   Tmpl (mkGeneralTemplate (usec_buf now') 7); Tmpl (mkGeneralTemplate name 6)].

Definition suffix_items : list item :=
  [CStr (Some (lit " - ")); Tmpl (mkGeneralTemplate (sf_data (SourceFile_new file)) (size_ (SourceFile_new file)));
   Char x3a; Int line; Char x0a].

(** A log statement writes its items one after the other and outputs the array. *)
Lemma log_statement_items strerror_r level name items g :
  get_level_name level = Ok name -> level <> FATAL ->
  log_statement (Logger_new_level now now' localtime strerror_r garbage file line level)
    (put_all items) g =
  (s ← put_all (prefix_items name ++ items ++ suffix_items) (mkLogStream (FixedBuffer_new garbage));
   o ← g_output g (data_ (buffer_ s)) (Length (buffer_ s)) (out g);
   Ok (mkLogging (g_LogLevel g) (g_output g) (g_flush g) o)).
Proof.
  intros Hn Hl. unfold log_statement, Logger_new_level, Impl_new, FormatTime.
  rewrite !put_all_app. unfold prefix_items. cbn [put_all put]. rewrite Hn.
  repeat same_step. change (negb (0 =? 0)) with false. cbn match.
  rewrite put_all_app, !bind_Ok. cbn [stream_]. same_step.
  unfold Logger_destroy, Finish, suffix_items. cbn [put_all put stream_ set_stream level_ line_ basename_].
  repeat same_step. cbn [buffer_ stream_ set_stream level_]. same_step.
  by rewrite decide_False.
Qed.

(** The text of a line: the date and time and the terminator of [t_time], the
    microseconds, the level, the message, the file's name and the line. *)
Definition line_text (name message : bytes) : bytes :=
  take 20 (t_time localtime now') ++ lit "." ++ take 7 (usec_buf now') ++ name ++ message ++
  lit " - " ++ sf_data (SourceFile_new file) ++ lit ":" ++ dec line ++ [x0a].

Lemma text_of_line name items :
  length name = 6%nat -> zlen file < 2 ^ 31 ->
  text_of (prefix_items name ++ items ++ suffix_items) = line_text name (text_of items).
Proof.
  intros Hn Hf. unfold text_of, line_text, prefix_items, suffix_items. rewrite !map_app, !concat_app.
  cbn [map concat item_text default from_option gt_data gt_len app].
  rewrite (take_ge name) by (simpl; lia). rewrite ?app_nil_r, <- ?app_assoc.
  repeat f_equal. rewrite take_ge; [done|].
  unfold SourceFile_new. simpl. pose proof (after_last_slash_le file) as Hl.
  destruct (after_last_slash file) as [r|]; simpl in Hl; rewrite swrap_small; lia.
Qed.

Lemma line_items_plain name items :
  length name = 6%nat -> zlen file < 2 ^ 31 -> - 2 ^ 31 <= line < 2 ^ 31 -> Forall plain items ->
  Forall plain (prefix_items name ++ items ++ suffix_items).
Proof.
  intros Hlen Hf Hline Hi.
  assert (Ht : length (t_time localtime now') = 64%nat) by apply length_array.
  assert (Hu : length (usec_buf now') = 32%nat) by apply length_array.
  assert (Hsf : zlen (sf_data (SourceFile_new file)) < 2 ^ 31).
  { unfold SourceFile_new. simpl. pose proof (after_last_slash_le file).
    destruct (after_last_slash file); simpl in *; lia. }
  rewrite !Forall_app. split; [|split; [done|]]; unfold prefix_items, suffix_items;
    repeat constructor; simpl; rewrite ?Ht, ?Hu, ?Hlen; try lia;
    rewrite swrap_small by (simpl in Hsf; lia); simpl in Hsf; lia.
Qed.
End Lines.

(** ** The text of a line, written without the code's definitions *)

(** the last [n] decimal digits of a number, most significant first *)
Fixpoint decimals (n : nat) (z : Z) : bytes :=
  match n with
  | O => []
  | S n => decimals n (z / 10) ++ [nth (Z.to_nat (z mod 10)) (lit "0123456789") x00]
  end.

(** "YYYY/MM/DD hh:mm:ss" *)
Definition date_text (t : tm) : bytes :=
  decimals 4 (tm_year t + 1900) ++ lit "/" ++ decimals 2 (tm_mon t + 1) ++ lit "/" ++
  decimals 2 (tm_mday t) ++ lit " " ++ decimals 2 (tm_hour t) ++ lit ":" ++
  decimals 2 (tm_min t) ++ lit ":" ++ decimals 2 (tm_sec t).

(** the level's name, filled up with spaces to six characters *)
Definition level_text (l : LogLevel) : bytes :=
  let word := match l with
    | TRACE => lit "TRACE" | DEBUG => lit "DEBUG" | INFO => lit "INFO" | WARN => lit "WARN"
    | ERROR => lit "ERROR" | FATAL => lit "FATAL" | LEVEL_COUNT => [] end in
  word ++ replicate (6 - length word) x20.

(** The line of a statement at the calendar time [t] and [usec] microseconds.  The
    zero byte after the date is the terminator that [FormatTime] copies with it. *)
Definition log_text (t : tm) (usec : Z) (level : LogLevel) (message base : bytes) (line : Z) : bytes :=
  date_text t ++ [x00] ++ lit "." ++ decimals 6 usec ++ lit " " ++ level_text level ++
  message ++ lit " - " ++ base ++ lit ":" ++ dec line ++ [x0a].

(** What [localtime] gives for a date with a year of four digits. *)
Definition tm_ok (t : tm) : Prop :=
  1000 <= tm_year t + 1900 < 10000 /\ 0 <= tm_mon t < 12 /\ 1 <= tm_mday t <= 31 /\
  0 <= tm_hour t < 24 /\ 0 <= tm_min t < 60 /\ 0 <= tm_sec t <= 60.

Lemma length_decimals n z : length (decimals n z) = n.
Proof. revert z. induction n as [|n IH]; intros z; [done|]. simpl. rewrite length_app, IH. simpl. lia. Qed.

Lemma decimals_0 n : decimals n 0 = replicate n x30.
Proof.
  induction n as [|n IH]; [done|]. cbn [decimals]. change (0 / 10) with 0. rewrite IH.
  by rewrite <- replicate_cons_app.
Qed.

Lemma rev_replicate {A} n (x : A) : rev (replicate n x) = replicate n x.
Proof. rewrite rev_alt. apply reverse_replicate. Qed.

Lemma digit_table z : digit (z mod 10) = nth (Z.to_nat (z mod 10)) (lit "0123456789") x00.
Proof.
  pose proof (Z.mod_pos_bound z 10 ltac:(done)) as H. revert H. generalize (z mod 10). intros d H.
  assert (d = 0 \/ d = 1 \/ d = 2 \/ d = 3 \/ d = 4 \/ d = 5 \/ d = 6 \/ d = 7 \/ d = 8 \/ d = 9) as Hd by lia.
  repeat destruct Hd as [->|Hd]; try reflexivity. by subst.
Qed.

Lemma digits_decimals n f z :
  0 <= z < 10 ^ Z.of_nat n -> (0 < n <= f)%nat ->
  digits_rev 10 f z ++ replicate (n - length (digits_rev 10 f z)) x30 = rev (decimals n z).
Proof.
  revert f z. induction n as [|n IH]; intros f z Hz Hn; [lia|]. destruct f as [|f]; [lia|].
  cbn [digits_rev decimals]. rewrite rev_app_distr, digit_table. cbn [rev app length]. f_equal.
  pose proof (div_base_lt 10 ltac:(lia) z n Hz) as Hd.
  destruct (Z.eqb_spec (z / 10) 0) as [E|E].
  - rewrite E, decimals_0, rev_replicate. simpl. by rewrite Nat.sub_0_r.
  - rewrite Nat.sub_succ. apply IH; [done|]. destruct n; simpl in Hd; lia.
Qed.

(** [snprintf]'s [%0nd] gives all the digits of a number that has at most [n]. *)
Lemma pad_decimals n z : 0 <= z < 10 ^ Z.of_nat n -> (0 < n <= digit_fuel)%nat -> pad n z = decimals n z.
Proof.
  intros Hz Hn. unfold pad. rewrite (proj2 (Z.ltb_ge _ _)) by lia.
  unfold dec_pad, dec_nat. rewrite length_rev, <- (rev_involutive (decimals n z)). rewrite <- digits_decimals with (f := digit_fuel), rev_app_distr by done.
  by rewrite rev_replicate.
Qed.

(** ["%4d"] of a number with four digits *)
Lemma pad_space_decimals z : 1000 <= z < 10000 -> pad_space 4 (dec z) = decimals 4 z.
Proof.
  intros Hz. rewrite <- pad_decimals by (unfold digit_fuel; lia).
  unfold pad, pad_space, dec, dec_pad. rewrite (proj2 (Z.ltb_ge _ _)) by lia.
  enough (length (dec_nat z) = 4%nat) as -> by done. unfold dec_nat. rewrite length_rev.
  rewrite (digits_fuel 10 ltac:(lia) 4) by (unfold digit_fuel; lia). cbn [digits_rev].
  rewrite !Z.div_div by lia. simpl Z.mul. rewrite !(proj2 (Z.eqb_neq (z / _) 0)) by (Z.to_euclidean_division_equations; lia).
  cbn [length]. by case_match.
Qed.

Lemma length_date_text t : length (date_text t) = 19%nat.
Proof. unfold date_text. rewrite !length_app, !length_decimals. done. Qed.

(** The first twenty characters of the array are the date and its terminator. *)
Lemma t_time_20 localtime time :
  tm_ok (localtime (Z.quot time kMicroSecondsPerSecond)) ->
  take 20 (t_time localtime time) = date_text (localtime (Z.quot time kMicroSecondsPerSecond)) ++ [x00].
Proof.
  unfold t_time. set (t := localtime _). intros (H1 & H2 & H3 & H4 & H5 & H6).
  rewrite pad_space_decimals, !pad_decimals by (unfold digit_fuel; lia).
  fold (date_text t). pose proof (length_date_text t) as Hl.
  unfold snprintf. rewrite (take_ge (date_text t)) by lia. change 20%nat with (19 + 1)%nat.
  rewrite take_app_add' by done. rewrite Hl. done.
Qed.

Lemma usec_7 time : 0 <= time -> take 7 (usec_buf time) = decimals 6 (time mod 1000000) ++ lit " ".
Proof.
  intros Ht. unfold usec_buf. change kMicroSecondsPerSecond with 1000000. rewrite Z.rem_mod_nonneg by lia.
  pose proof (Z.mod_pos_bound time 1000000 ltac:(done)). rewrite swrap_small by lia.
  rewrite pad_decimals by (unfold digit_fuel; lia).
  set (text := decimals 6 _ ++ _). assert (length text = 7%nat) as Hl by (unfold text; by rewrite length_app, length_decimals).
  unfold snprintf. rewrite (take_ge text) by lia. by rewrite take_app_length' by done.
Qed.

(** What follows the last slash is the name of the file in its directory. *)
Lemma after_last_slash_base dir base :
  dir = [] \/ last dir = Some x2f -> x2f ∉ base ->
  default (dir ++ base) (after_last_slash (dir ++ base)) = base.
Proof.
  intros Hd Hb.
  assert (after_last_slash base = None) as Hn.
  { clear Hd. induction base as [|c b IH]; [done|]. cbn [after_last_slash]. rewrite IH by set_solver.
    rewrite decide_False by set_solver. done. }
  destruct Hd as [->|Hd]; [simpl; by rewrite Hn|].
  enough (after_last_slash (dir ++ base) = Some base) as -> by done.
  induction dir as [|c dir IH]; [done|]. cbn [app after_last_slash].
  destruct dir as [|d dir].
  - simpl in Hd. injection Hd as ->. simpl. by rewrite Hn.
  - by rewrite (IH Hd).
Qed.

(** Under a calendar time the code's text is the reference text. *)
Lemma line_text_ref now' localtime dir base line level name message :
  0 <= now' -> tm_ok (localtime (now' / 1000000)) ->
  dir = [] \/ last dir = Some x2f -> x2f ∉ base -> get_level_name level = Ok name ->
  line_text now' localtime (dir ++ base) line name message =
  log_text (localtime (now' / 1000000)) (now' mod 1000000) level message base line.
Proof.
  intros H0 Htm Hd Hb Hn. assert (now' / 1000000 = Z.quot now' kMicroSecondsPerSecond) as Eq.
  { change kMicroSecondsPerSecond with 1000000. by rewrite Z.quot_div_nonneg by lia. }
  unfold line_text, log_text. rewrite Eq in *. rewrite t_time_20, usec_7 by done.
  assert (sf_data (SourceFile_new (dir ++ base)) = base) as ->.
  { rewrite <- (after_last_slash_base dir base Hd Hb) at 2. unfold SourceFile_new. simpl.
    by destruct (after_last_slash _). }
  assert (name = level_text level) as -> by (destruct level; by simplify_eq/=).
  by rewrite <- !app_assoc.
Qed.

(** C31: what a log statement outputs.  A statement of a level other than [FATAL],
    whose line leaves room for a number, outputs "YYYY/MM/DD hh:mm:ss" of the local
    calendar time, a point, the six digits of the microseconds, a space, the level's
    name filled up to six characters, the message, " - ", the file's name without its
    directory, a colon, the line number and a line feed, in this order -- with a
    zero byte after the nineteen characters of the date and time, because
    [FormatTime] copies twenty; and it outputs the whole array of the stream: always
    [kSmallBuffer] bytes, whatever follows the line in it. *)
Theorem log_line (now now' : Z) (localtime : Z -> tm) (strerror_r : Z -> bytes) (garbage dir base : bytes)
    (line : Z) (level : LogLevel) (items : list item) (g : logging) :
  zlen garbage = kSmallBuffer -> 0 <= now' -> tm_ok (localtime (now' / 1000000)) ->
  dir = [] \/ last dir = Some x2f -> x2f ∉ base -> zlen (dir ++ base) < 2 ^ 31 -> - 2 ^ 31 <= line < 2 ^ 31 ->
  level <> FATAL -> level <> LEVEL_COUNT -> Forall plain items ->
  let text := log_text (localtime (now' / 1000000)) (now' mod 1000000) level (text_of items) base line in
  zlen text + kMaxNumericSize <= kSmallBuffer ->
  g_output g = DefaultOutput ->
  exists rest,
    log_statement (Logger_new_level now now' localtime strerror_r garbage (dir ++ base) line level)
      (put_all items) g =
    Ok (mkLogging (g_LogLevel g) (g_output g) (g_flush g) (out g ++ text ++ rest)) /\
    zlen (text ++ rest) = kSmallBuffer.
Proof.
  intros Hg H0 Htm Hdir Hbase Hf Hline Hl Hc Hi text Hroom Hout.
  assert (exists name, get_level_name level = Ok name) as [name Hn] by (destruct level; try done; eexists; reflexivity).
  pose proof (line_text_ref now' localtime dir base line level name (text_of items) H0 Htm Hdir Hbase Hn) as Eref.
  fold text in Eref. rewrite <- Eref in Hroom |- *. clear Eref text.
  assert (Hlen : length name = 6%nat) by (destruct level; simplify_eq/=; done).
  rewrite log_statement_items with (name := name) by done.
  destruct (put_all_ok (prefix_items now' localtime name ++ items ++ suffix_items (dir ++ base) line)
    (mkLogStream (FixedBuffer_new garbage))) as (s & Es & Hs & Hst).
  - by apply FixedBuffer_new_ok.
  - by apply line_items_plain.
  - rewrite text_of_line by done. simpl. lia.
  - pose proof Hs as [K1 K2 K3].
    assert (g_output g (data_ (buffer_ s)) (Length (buffer_ s)) (out g) =
      Ok (out g ++ data_ (buffer_ s))) as Ho.
    { rewrite Hout. unfold DefaultOutput. rewrite (Length_ok kSmallBuffer) by done.
      rewrite read_bytes_Ok, bind_Ok by lia. by rewrite drop_0, take_ge by lia. }
    rewrite Es, bind_Ok, Ho, bind_Ok.
    rewrite text_of_line in Hst by done. simpl in Hst.
    exists (drop (Z.to_nat (curr_ (buffer_ s))) (data_ (buffer_ s))).
    rewrite <- Hst at 1 2. unfold contents. by rewrite take_drop.
Qed.

Definition ex_tm (t : Z) : tm := mkTm 123 5 12 11 4 28.

Definition ex_items : list item := [Str (lit "fd "); Int 7].
Abbreviation ex_line :=
  (log_text (ex_tm (1686570268952562 / 1000000)) (1686570268952562 mod 1000000) WARN (text_of ex_items) (lit "channel.cc") 30).

Example line_text_example :
  ex_line = lit "2023/06/12 11:04:28" ++ [x00] ++ lit ".952562 WARN  fd 7 - channel.cc:30" ++ [x0a].
Proof. vm_compute. reflexivity. Qed.

Lemma log_line_witness :
  exists rest,
    log_statement (Logger_new_level 0 1686570268952562 ex_tm (fun _ => []) (replicate 4000 x7f)
        (lit "src/net/" ++ lit "channel.cc") 30 WARN) (put_all ex_items) logging_init =
    Ok (mkLogging (g_LogLevel logging_init) (g_output logging_init) (g_flush logging_init)
          (out logging_init ++ ex_line ++ rest)) /\
    zlen (ex_line ++ rest) = kSmallBuffer.
Proof.
  apply (log_line 0 1686570268952562 ex_tm (fun _ => []) (replicate 4000 x7f)
    (lit "src/net/") (lit "channel.cc") 30 WARN ex_items logging_init).
  - vm_compute. reflexivity.
  - lia.
  - unfold tm_ok, ex_tm. simpl. lia.
  - right. vm_compute. reflexivity.
  - apply (bool_decide_unpack _). vm_compute. exact I.
  - vm_compute. reflexivity.
  - lia.
  - discriminate.
  - discriminate.
  - repeat constructor; simpl; lia.
  - rewrite line_text_example. vm_compute. discriminate.
  - reflexivity.
Defined.
