(* ===== verification/LogFile.v ===== *)
(** * FileUtil and LogFile
      (ryan_network/logger/file_util.h, file_util.cc, log_file.h, log_file.cc)

    A [FileUtil] is the name of the file it has open for appending and the bytes
    its stream has accepted; [flushed] is how many of them were flushed.  A
    [LogFile] keeps the files it has closed.  What the C library and the kernel give
    is the class [Stdio]: how many bytes the n-th [fwrite_unlocked] accepts, and
    the n-th reading of [time].  The mutex of [Append] makes it atomic. *)

From S2P Require Import Prelude Format Timestamp.

(** [fwrite_unlocked] of [len] bytes accepts [accepts n len] of them. *)
Class Stdio := {
  accepts : nat -> Z -> Z;
  time_now : nat -> Z;
  local : Z -> tm
}.

(** It accepts no more than it is given, and the streams here do not fail: it
    accepts something.  The clock does not go back and is past the epoch. *)
Class StdioLaws `{Stdio} := {
  accepts_range n len : 0 < len -> 0 < accepts n len <= len;
  time_monotone n : time_now n <= time_now (S n);
  time_positive n : 0 < time_now n
}.

(** ** FileUtil *)

(** src: ryan_network/logger/file_util.h:18-20 FileUtil *)
Record FileUtil := mkFileUtil {
  fu_name : bytes;
  fu_data : bytes;
  flushed : nat;
  written_bytes_ : Z
}.

(** src: ryan_network/logger/file_util.cc:5-9 FileUtil::FileUtil *)
Definition FileUtil_new (filename : bytes) : FileUtil := mkFileUtil filename [] 0 0.

(** src: ryan_network/logger/file_util.h:13-13 FileUtil::written_bytes *)
Definition written_bytes (f : FileUtil) : Z := written_bytes_ f.

(** src: ryan_network/logger/file_util.cc:34-34 FileUtil::Flush *)
Definition Flush_file (f : FileUtil) : FileUtil :=
  mkFileUtil (fu_name f) (fu_data f) (length (fu_data f)) (written_bytes_ f).

(** [fclose] flushes.
    src: ryan_network/logger/file_util.cc:11-11 FileUtil::~FileUtil *)
Definition FileUtil_destroy (f : FileUtil) : FileUtil := Flush_file f.

Section LogFile.
Context `{!Stdio}.

(** The [n]-th call: the number accepted and the stream after it.
    src: ryan_network/logger/file_util.cc:36-45 FileUtil::Write *)
Definition Write (n : nat) (f : FileUtil) (data : bytes) (len : Z) : Z * FileUtil :=
  let k := accepts n len in
  (k, mkFileUtil (fu_name f) (fu_data f ++ take (Z.to_nat k) data) (flushed f) (written_bytes_ f)).

(** src: ryan_network/logger/file_util.cc:17-29 FileUtil::Append *)
Fixpoint Append_loop (fuel : nat) (n : nat) (f : FileUtil) (data : bytes) (len written : Z)
    : result (nat * FileUtil * Z) :=
  if written =? len then Ok (n, f, written) else
  match fuel with
  | O => Fault FFuel
  | S fuel =>
      let remain := len - written in
      from ← read_bytes data written remain;
      let '(k, f) := Write n f from remain in
      Append_loop fuel (S n) f data len (written + k)
  end.

(** The fuel is the number of bytes, each call accepting at least one.
    src: ryan_network/logger/file_util.cc:13-32 FileUtil::Append *)
Definition Append_file (n : nat) (f : FileUtil) (data : bytes) (len : Z) : result (nat * FileUtil) :=
  '(n, f, written) ← Append_loop (Z.to_nat len) n f data len 0;
  Ok (n, mkFileUtil (fu_name f) (fu_data f) (flushed f) (s64 (written_bytes_ f + written))).

(** ** LogFile *)

(** src: ryan_network/logger/log_file.h:36-36 LogFile::kRollPerSeconds_ *)
Definition kRollPerSeconds_ : Z := 60 * 60 * 24.

(** [closed] holds the files rolled away, [writes] and [ticks] count the calls of
    [fwrite] and [time].
    src: ryan_network/logger/log_file.h:23-34 LogFile *)
Record LogFile := mkLogFile {
  basename_ : bytes;
  roll_size_ : Z;
  flush_interval_ : Z;
  check_every_n_ : Z;
  count_ : Z;
  start_of_period_ : Z;
  last_roll_ : Z;
  last_flush_ : Z;
  file_ : option FileUtil;
  closed : list FileUtil;
  writes : nat;
  ticks : nat
}.

Definition set_count (l : LogFile) (c : Z) : LogFile :=
  mkLogFile (basename_ l) (roll_size_ l) (flush_interval_ l) (check_every_n_ l) c
    (start_of_period_ l) (last_roll_ l) (last_flush_ l) (file_ l) (closed l) (writes l) (ticks l).
Definition set_last_flush (l : LogFile) (t : Z) : LogFile :=
  mkLogFile (basename_ l) (roll_size_ l) (flush_interval_ l) (check_every_n_ l) (count_ l)
    (start_of_period_ l) (last_roll_ l) t (file_ l) (closed l) (writes l) (ticks l).
Definition set_file (l : LogFile) (n : nat) (f : FileUtil) : LogFile :=
  mkLogFile (basename_ l) (roll_size_ l) (flush_interval_ l) (check_every_n_ l) (count_ l)
    (start_of_period_ l) (last_roll_ l) (last_flush_ l) (Some f) (closed l) n (ticks l).
Definition tick (l : LogFile) : LogFile :=
  mkLogFile (basename_ l) (roll_size_ l) (flush_interval_ l) (check_every_n_ l) (count_ l)
    (start_of_period_ l) (last_roll_ l) (last_flush_ l) (file_ l) (closed l) (writes l) (S (ticks l)).

(** [time(NULL)] *)
Definition time (l : LogFile) : Z * LogFile := (time_now (ticks l), tick l).

(** [strftime(timebuf, sizeof timebuf, ".%Y%m%d-%H%M%S", &tm)] *)
Definition timebuf (t : tm) : bytes :=
  lit "." ++ dec (tm_year t + 1900) ++ pad 2 (tm_mon t + 1) ++ pad 2 (tm_mday t) ++ lit "-" ++
  pad 2 (tm_hour t) ++ pad 2 (tm_min t) ++ pad 2 (tm_sec t).

(** src: ryan_network/logger/log_file.cc:70-86 LogFile::GetLogFileName *)
Definition GetLogFileName (basename : bytes) (now : Z) : bytes :=
  basename ++ timebuf (local now) ++ lit ".log".

(** [file_.reset(new FileUtil(filename))] closes the file that was open.
    src: ryan_network/logger/log_file.cc:52-68 LogFile::RollFile *)
Definition RollFile (l : LogFile) : bool * LogFile :=
  let '(now, l) := time l in
  let filename := GetLogFileName (basename_ l) now in
  let start := Z.quot now kRollPerSeconds_ * kRollPerSeconds_ in
  if now >? last_roll_ l then
    (true, mkLogFile (basename_ l) (roll_size_ l) (flush_interval_ l) (check_every_n_ l) (count_ l)
       start now now (Some (FileUtil_new filename))
       (closed l ++ match file_ l with Some f => [FileUtil_destroy f] | None => [] end)
       (writes l) (ticks l))
  else (false, l).

(** src: ryan_network/logger/log_file.cc:3-15 LogFile::LogFile *)
Definition LogFile_new (basename : bytes) (rollSize flushInterval checkEveryN : Z) : LogFile :=
  snd (RollFile (mkLogFile basename rollSize flushInterval checkEveryN 0 0 0 0 None [] 0 0)).

(** src: ryan_network/logger/log_file.cc:45-48 LogFile::Flush *)
Definition Flush (l : LogFile) : result LogFile :=
  match file_ l with
  | Some f => Ok (set_file l (writes l) (Flush_file f))
  | None => Fault FUndef
  end.

(** The [int] becomes a [size_t].
    src: ryan_network/logger/log_file.cc:24-43 LogFile::AppendInLock *)
Definition AppendInLock (l : LogFile) (data : bytes) (len : Z) : result LogFile :=
  match file_ l with
  | None => Fault FUndef
  | Some f =>
      '(n, f) ← Append_file (writes l) f data (u64 len);
      let l := set_file l n f in
      if written_bytes f >? roll_size_ l then Ok (snd (RollFile l))
      else
        let l := set_count l (s32 (count_ l + 1)) in
        if count_ l >=? check_every_n_ l then
          let l := set_count l 0 in
          let '(now, l) := time l in
          let thisPeriod := Z.quot now kRollPerSeconds_ * kRollPerSeconds_ in
          if negb (thisPeriod =? start_of_period_ l) then Ok (snd (RollFile l))
          else if now - last_flush_ l >? flush_interval_ l then Flush (set_last_flush l now)
          else Ok l
        else Ok l
  end.

(** src: ryan_network/logger/log_file.cc:19-22 LogFile::Append *)
Definition Append (l : LogFile) (data : bytes) (len : Z) : result LogFile := AppendInLock l data len.

(** The destructor closes the file.
    src: ryan_network/logger/log_file.cc:17-17 LogFile::~LogFile *)
Definition LogFile_destroy (l : LogFile) : list FileUtil :=
  closed l ++ match file_ l with Some f => [FileUtil_destroy f] | None => [] end.
End LogFile.
