(* ===== verification/AsyncLogging.v ===== *)
(** * AsyncLogging
      (ryan_network/logger/async_logging.h, async_logging.cc)

    The threads that log share the [front] part, under [mutex_]; the logging
    thread has the [back] part of its own.  [Append] and the block of
    [ThreadFunc] that holds the lock are atomic; the rest of [ThreadFunc] runs
    between them.  A [unique_ptr] is an option; [heap n] is the memory the n-th
    [new Buffer] gets.  The file is anything one can append to and flush. *)

From S2P Require Import Prelude LogStream LogFile.

(** What [ThreadFunc] needs of its [output]. *)
Class Sink (O : Type) := {
  sink_Append : O -> bytes -> Z -> result O;
  sink_Flush : O -> result O
}.

#[export] Instance LogFile_Sink `{!Stdio} : Sink LogFile := {
  sink_Append := LogFile.Append;
  sink_Flush := LogFile.Flush
}.

(** [p->...] *)
Definition deref {A} (p : option A) : result A :=
  match p with Some a => Ok a | None => Fault FUndef end.

Section AsyncLogging.
Context (heap : nat -> bytes).

(** src: ryan_network/logger/async_logging.h:46-56 AsyncLogging *)
Record AsyncLogging := mkAsyncLogging {
  running_ : bool;
  current_buffer_ : option FixedBuffer;
  next_buffer_ : option FixedBuffer;
  buffers_ : list FixedBuffer;
  allocs : nat
}.

(** src: ryan_network/logger/async_logging.cc:7-22 AsyncLogging::AsyncLogging *)
Definition AsyncLogging_new : AsyncLogging :=
  mkAsyncLogging false (Some (Bzero (FixedBuffer_new (heap 0)))) (Some (Bzero (FixedBuffer_new (heap 1))))
    [] 2.

(** [Avail()] and [len] are compared as [int].
    src: ryan_network/logger/async_logging.cc:24-43 AsyncLogging::Append *)
Definition Append (a : AsyncLogging) (logline : bytes) (len : Z) : result AsyncLogging :=
  current ← deref (current_buffer_ a);
  if Avail current >? len then
    current ← fb_Append current logline len;
    Ok (mkAsyncLogging (running_ a) (Some current) (next_buffer_ a) (buffers_ a) (allocs a))
  else
    let buffers := buffers_ a ++ [current] in
    let '(current, next, allocs) :=
      match next_buffer_ a with
      | Some next => (next, None, allocs a)
      | None => (FixedBuffer_new (heap (allocs a)), None, S (allocs a))
      end in
    current ← fb_Append current logline len;
    Ok (mkAsyncLogging (running_ a) (Some current) next buffers allocs).

(** src: ryan_network/logger/async_logging.h:28-31 AsyncLogging::Start *)
Definition Start (a : AsyncLogging) : AsyncLogging :=
  mkAsyncLogging true (current_buffer_ a) (next_buffer_ a) (buffers_ a) (allocs a).

(** The part of [Stop] before the join.
    src: ryan_network/logger/async_logging.h:33-37 AsyncLogging::Stop *)
Definition Stop (a : AsyncLogging) : AsyncLogging :=
  mkAsyncLogging false (current_buffer_ a) (next_buffer_ a) (buffers_ a) (allocs a).

(** src: ryan_network/logger/async_logging.h:19-23 AsyncLogging::~AsyncLogging *)
Definition AsyncLogging_destroy (a : AsyncLogging) : AsyncLogging :=
  if running_ a then Stop a else a.

Context {O : Type} `{!Sink O}.

(** The local variables of [ThreadFunc].
    src: ryan_network/logger/async_logging.cc:47-55 AsyncLogging::ThreadFunc *)
Record back := mkBack {
  output : O;
  new_buffer1 : option FixedBuffer;
  new_buffer2 : option FixedBuffer;
  buffersToWrite : list FixedBuffer
}.

(** [LogFile output(basename_, roll_size_, false)]: the third parameter is the
    flush interval.
    src: ryan_network/logger/async_logging.cc:47-55 AsyncLogging::ThreadFunc *)
Definition ThreadFunc_init (output : O) (a : AsyncLogging) : AsyncLogging * back :=
  (mkAsyncLogging (running_ a) (current_buffer_ a) (next_buffer_ a) (buffers_ a) (S (S (allocs a))),
   mkBack output (Some (Bzero (FixedBuffer_new (heap (allocs a)))))
     (Some (Bzero (FixedBuffer_new (heap (S (allocs a)))))) []).

(** What follows the wait, under the lock.  Pushing a null pointer is no fault
    of its own: the loop that writes dereferences it.
    src: ryan_network/logger/async_logging.cc:65-73 AsyncLogging::ThreadFunc *)
Definition swap_buffers (a : AsyncLogging) (b : back) : result (AsyncLogging * back) :=
  current ← deref (current_buffer_ a);
  let '(next, new2) :=
    match next_buffer_ a with
    | Some next => (Some next, new_buffer2 b)
    | None => (new_buffer2 b, None)
    end in
  Ok (mkAsyncLogging (running_ a) (new_buffer1 b) next (buffersToWrite b) (allocs a),
      mkBack (output b) None new2 (buffers_ a ++ [current])).

(** src: ryan_network/logger/async_logging.cc:77-79 AsyncLogging::ThreadFunc *)
Fixpoint write_all (l : list FixedBuffer) (o : O) : result O :=
  match l with
  | [] => Ok o
  | buffer :: l => o ← sink_Append o (data_ buffer) (Length buffer); write_all l o
  end.

(** [std::move(v.back())], [v.pop_back()] and [Reset()]
    src: ryan_network/logger/async_logging.cc:86-98 AsyncLogging::ThreadFunc *)
Definition take_back (new_buffer : option FixedBuffer) (v : list FixedBuffer)
    : result (option FixedBuffer * list FixedBuffer) :=
  match new_buffer with
  | Some b => Ok (Some b, v)
  | None =>
      match last v with
      | Some b => Ok (Some (LogStream.Reset b), removelast v)
      | None => Fault FUndef
      end
  end.

(** The rest of the loop's body.
    src: ryan_network/logger/async_logging.cc:76-101 AsyncLogging::ThreadFunc *)
Definition write_out (b : back) : result back :=
  o ← write_all (buffersToWrite b) (output b);
  let v := if 2 <? zlen (buffersToWrite b) then take 2 (buffersToWrite b) else buffersToWrite b in
  '(new1, v) ← take_back (new_buffer1 b) v;
  '(new2, v) ← take_back (new_buffer2 b) v;
  o ← sink_Flush o;
  Ok (mkBack o new1 new2 []).

(** After the loop.
    src: ryan_network/logger/async_logging.cc:103-104 AsyncLogging::ThreadFunc *)
Definition finish (b : back) : result back :=
  o ← sink_Flush (output b); Ok (mkBack o (new_buffer1 b) (new_buffer2 b) (buffersToWrite b)).

(** ** Interleaving

    The logging thread is before the test of the loop, in its body before the
    lock, in its body after the lock, or has returned. *)
Inductive pc := Testing | Waiting | Writing | Done.

Record system := mkSystem { front : AsyncLogging; thread : back; at_ : pc }.

(** src: ryan_network/logger/async_logging.cc:56-104 AsyncLogging::ThreadFunc *)
Definition thread_step (s : system) : result system :=
  match at_ s with
  | Testing =>
      if running_ (front s) then Ok (mkSystem (front s) (thread s) Waiting)
      else b ← finish (thread s); Ok (mkSystem (front s) b Done)
  | Waiting =>
      '(a, b) ← swap_buffers (front s) (thread s); Ok (mkSystem a b Writing)
  | Writing =>
      b ← write_out (thread s); Ok (mkSystem (front s) b Testing)
  | Done => Ok s
  end.

Inductive event := Log (logline : bytes) | Thread | StopIt.

Definition sys_step (e : event) (s : system) : result system :=
  match e with
  | Log m => a ← Append (front s) m (zlen m); Ok (mkSystem a (thread s) (at_ s))
  | Thread => thread_step s
  | StopIt => Ok (mkSystem (Stop (front s)) (thread s) (at_ s))
  end.

Fixpoint run (l : list event) (s : system) : result system :=
  match l with
  | [] => Ok s
  | e :: l => s ← sys_step e s; run l s
  end.

(** after [Start] *)
Definition started (o : O) : system :=
  let '(a, b) := ThreadFunc_init o (Start AsyncLogging_new) in mkSystem a b Testing.
End AsyncLogging.
Arguments back : clear implicits.
Arguments system : clear implicits.
