(* ===== verification/AsyncSpec.v ===== *)
(** * Properties of the log files and of asynchronous logging *)

From S2P Require Import Prelude Timestamp LogStream LogSpec LogFile AsyncLogging.

(** ** What a sink promises

    Appending adds the bytes it is given, and nothing else, to what the sink has
    taken. *)
Class SinkLaws (O : Type) `{!Sink O} := {
  sink_ok : O -> Prop;
  sink_bytes : O -> bytes;
  sink_append_ok o d len :
    sink_ok o -> 0 <= len <= zlen d -> len < 2 ^ 31 ->
    exists o', sink_Append o d len = Ok o' /\ sink_ok o' /\
      sink_bytes o' = sink_bytes o ++ take (Z.to_nat len) d;
  sink_flush_ok o :
    sink_ok o -> exists o', sink_Flush o = Ok o' /\ sink_ok o' /\ sink_bytes o' = sink_bytes o
}.

(** ** LogFile *)

Definition file_bytes (l : LogFile) : bytes :=
  concat (map fu_data (closed l)) ++ match file_ l with Some f => fu_data f | None => [] end.

Definition has_file (l : LogFile) : Prop := is_Some (file_ l).

Section LogFileSpec.
Context {io : Stdio} {io_laws : StdioLaws}.

(** The loop ends: every call of [fwrite] takes at least one byte. *)
Lemma Append_loop_ok fuel n f data len written :
  0 <= written <= len -> len <= zlen data -> len - written <= Z.of_nat fuel ->
  exists n' f', Append_loop fuel n f data len written = Ok (n', f', len) /\
    fu_name f' = fu_name f /\ written_bytes_ f' = written_bytes_ f /\
    fu_data f' = fu_data f ++ take (Z.to_nat (len - written)) (drop (Z.to_nat written) data).
Proof using io_laws.
  revert n f written. induction fuel as [|fuel IH]; intros n f written Hw Hl Hf.
  - replace written with len by lia. exists n, f. simpl. rewrite Z.eqb_refl, Z.sub_diag, app_nil_r. done.
  - cbn [Append_loop]. destruct (Z.eqb_spec written len) as [->|Hne].
    { exists n, f. rewrite Z.sub_diag, app_nil_r. done. }
    rewrite read_bytes_Ok, bind_Ok by lia. unfold Write.
    pose proof (accepts_range n (len - written) ltac:(lia)) as Hk. set (k := accepts n _) in *.
    set (f1 := mkFileUtil _ _ _ _).
    destruct (IH (S n) f1 (written + k) ltac:(lia) ltac:(lia) ltac:(lia)) as (n' & f' & -> & H1 & H2 & H3).
    exists n', f'. split; [done|]. split; [done|]. split; [done|]. rewrite H3. unfold f1. cbn [fu_data].
    rewrite <- app_assoc. f_equal. rewrite take_take, Nat.min_l by lia.
    replace (Z.to_nat (len - written)) with (Z.to_nat k + Z.to_nat (len - (written + k)))%nat by lia.
    rewrite <- take_take_drop. f_equal. rewrite drop_drop. f_equal. f_equal. lia.
Qed.

Lemma Append_file_ok n f data len :
  0 <= len <= zlen data ->
  exists n' f', Append_file n f data len = Ok (n', f') /\ fu_name f' = fu_name f /\
    written_bytes_ f' = s64 (written_bytes_ f + len) /\
    fu_data f' = fu_data f ++ take (Z.to_nat len) data.
Proof using io_laws.
  intros Hl. unfold Append_file.
  destruct (Append_loop_ok (Z.to_nat len) n f data len 0) as (n' & f' & -> & H1 & H2 & H3); [lia..|].
  rewrite bind_Ok. exists n'. eexists. split; [reflexivity|]. cbn [fu_name written_bytes_ fu_data].
  rewrite H1, H2, H3, Z.sub_0_r, drop_0. done.
Qed.

(** Rolling loses nothing, and is only refused within one second of the last. *)
Lemma RollFile_ok l :
  has_file l ->
  let '(b, l') := RollFile l in
  has_file l' /\ file_bytes l' = file_bytes l /\ roll_size_ l' = roll_size_ l /\
  if b then exists f, file_ l' = Some f /\ fu_data f = [] /\ written_bytes_ f = 0
  else file_ l' = file_ l /\ time_now (ticks l) <= last_roll_ l.
Proof.
  intros [f Hf]. unfold RollFile, time, tick. cbn. destruct (Z.gtb_spec (time_now (ticks l)) (last_roll_ l)) as [H|H].
  - unfold has_file, file_bytes. simpl. rewrite Hf. split; [by eexists|].
    rewrite map_app, concat_app, !app_nil_r. simpl. rewrite app_nil_r.
    split; [done|]. split; [done|]. by eexists.
  - unfold has_file, file_bytes. simpl. rewrite Hf. split; [by eexists|]. split; [done|]. split; [done|].
    split; [done|lia].
Qed.

Lemma Flush_ok l :
  has_file l -> exists l', Flush l = Ok l' /\ has_file l' /\ file_bytes l' = file_bytes l /\
    roll_size_ l' = roll_size_ l /\ last_roll_ l' = last_roll_ l /\
    exists f f', file_ l = Some f /\ file_ l' = Some f' /\ fu_data f' = fu_data f /\
      written_bytes_ f' = written_bytes_ f.
Proof.
  intros [f Hf]. unfold Flush. rewrite Hf. eexists. split; [reflexivity|].
  unfold has_file, file_bytes. simpl. rewrite Hf. split; [by eexists|]. eauto 10.
Qed.

(** What appending [text] to [l], whose open file is [f], gives: the bytes added
    and no other; and a fresh file, or the old one that is not too large unless
    this second already had its roll. *)
Record appended (l : LogFile) (f : FileUtil) (text : bytes) (l' : LogFile) : Prop := {
  ap_bytes : file_bytes l' = file_bytes l ++ text;
  ap_size : roll_size_ l' = roll_size_ l;
  ap_file : exists f', file_ l' = Some f' /\
    ((fu_data f' = [] /\ written_bytes_ f' = 0) \/
     (fu_data f' = fu_data f ++ text /\ written_bytes_ f' = s64 (written_bytes_ f + zlen text) /\
      (written_bytes_ f' <= roll_size_ l \/ time_now (ticks l) <= last_roll_ l)))
}.

(** after the bytes were written to the file, which is now [f1] *)
Definition wrote (l : LogFile) (f : FileUtil) (text : bytes) (f1 : FileUtil) (l2 : LogFile) : Prop :=
  file_bytes l2 = file_bytes l ++ text /\ roll_size_ l2 = roll_size_ l /\ file_ l2 = Some f1 /\
  fu_data f1 = fu_data f ++ text /\ written_bytes_ f1 = s64 (written_bytes_ f + zlen text).

Lemma wrote_keep l f text f1 l2 :
  wrote l f text f1 l2 -> written_bytes_ f1 <= roll_size_ l -> appended l f text l2.
Proof. intros (H1 & H2 & H3 & H4 & H5) Hr. split; [done|done|]. exists f1. eauto 10. Qed.

Lemma wrote_roll l f text f1 l2 :
  wrote l f text f1 l2 ->
  written_bytes_ f1 <= roll_size_ l \/ (ticks l2 = ticks l /\ last_roll_ l2 = last_roll_ l) ->
  appended l f text (snd (RollFile l2)).
Proof.
  intros (H1 & H2 & H3 & H4 & H5) Hr. pose proof (RollFile_ok l2 ltac:(by eexists)) as H.
  destruct (RollFile l2) as [b l3]. destruct H as (K1 & K2 & K3 & K4). simpl.
  split; [congruence|congruence|]. destruct b.
  - destruct K4 as (f' & K4 & K5 & K6). exists f'. split; [done|]. by left.
  - destruct K4 as [K4 K5]. exists f1. split; [congruence|]. right. split; [done|]. split; [done|].
    destruct Hr as [Hr|[G5 G6]]; [by left|right; congruence].
Qed.

Lemma wrote_flush l f text f1 l2 :
  wrote l f text f1 l2 -> written_bytes_ f1 <= roll_size_ l ->
  exists l', Flush l2 = Ok l' /\ appended l f text l'.
Proof.
  intros (H1 & H2 & H3 & H4 & H5) Hr.
  destruct (Flush_ok l2 ltac:(by eexists)) as (l' & E & K1 & K2 & K3 & K4 & g & g' & G1 & G2 & G3 & G4).
  exists l'. split; [done|]. simplify_eq. split; [congruence|congruence|].
  exists g'. split; [done|]. right. split; [congruence|]. split; [congruence|]. left. congruence.
Qed.

Lemma AppendInLock_ok l data len f :
  file_ l = Some f -> 0 <= len <= zlen data -> len < 2 ^ 31 ->
  exists l', AppendInLock l data len = Ok l' /\ appended l f (take (Z.to_nat len) data) l'.
Proof using io_laws.
  intros Hf Hl Hl31. unfold AppendInLock. rewrite Hf, (uwrap_small 64) by lia.
  destruct (Append_file_ok (writes l) f data len Hl) as (n & f1 & -> & _ & Hw & Hd). rewrite bind_Ok.
  set (text := take (Z.to_nat len) data) in *.
  assert (zlen text = len) as Ht by (unfold text; rewrite length_take; lia). rewrite <- Ht in Hw.
  assert (Hwr : forall l2, roll_size_ l2 = roll_size_ l -> closed l2 = closed l -> file_ l2 = Some f1 ->
    wrote l f text f1 l2).
  { intros l2 G1 G2 G3. unfold wrote, file_bytes. rewrite G2, G3, Hf, Hd, app_assoc. done. }
  unfold written_bytes. cbn [set_file roll_size_].
  destruct (Z.gtb_spec (written_bytes_ f1) (roll_size_ l)) as [Hr|Hr].
  { eexists. split; [reflexivity|]. apply (wrote_roll l f text f1); [by apply Hwr|by right]. }
  case_match; [|eexists; split; [reflexivity|]; by apply (wrote_keep l f text f1); [apply Hwr|]].
  cbn [time]. case_match.
  { eexists. split; [reflexivity|]. apply (wrote_roll l f text f1); [by apply Hwr|by left]. }
  case_match; [|eexists; split; [reflexivity|]; by apply (wrote_keep l f text f1); [apply Hwr|]].
  by apply (wrote_flush l f text f1); [apply Hwr|].
Qed.

#[export] Instance LogFile_SinkLaws : SinkLaws LogFile.
Proof using io_laws.
  apply (Build_SinkLaws LogFile _ has_file file_bytes).
  - intros l d len [f Hf] Hl Hl31. destruct (AppendInLock_ok l d len f Hf Hl Hl31) as (l' & E & [A1 A2 A3]).
    exists l'. destruct A3 as (f' & A3 & _). split; [exact E|]. split; [by eexists|done].
  - intros l Hl. destruct (Flush_ok l Hl) as (l' & E & K1 & K2 & _). by exists l'.
Defined.
End LogFileSpec.

(** C29: what appending to a log file does.  Whatever the stream accepts per call, as
    long as it accepts something, the call returns; the bytes, and no others, are
    added to the files, in order, across the rolling of files; and afterwards the
    open file is a fresh one, or holds the old text and the new and is not
    larger than [roll_size_] -- unless the last roll was in this same second,
    which [RollFile] refuses to repeat. *)
Theorem LogFile_append `{StdioLaws} (l : LogFile) (data : bytes) (len : Z) (f : FileUtil) :
  file_ l = Some f -> 0 <= len <= zlen data -> len < 2 ^ 31 ->
  exists l' f', LogFile.Append l data len = Ok l' /\ file_ l' = Some f' /\
    file_bytes l' = file_bytes l ++ take (Z.to_nat len) data /\
    ((fu_data f' = [] /\ written_bytes f' = 0) \/
     (fu_data f' = fu_data f ++ take (Z.to_nat len) data /\
      written_bytes f' = s64 (written_bytes f + len) /\
      (written_bytes f' <= roll_size_ l \/ time_now (ticks l) <= last_roll_ l))).
Proof.
  intros Hf Hl Hl31. destruct (AppendInLock_ok l data len f Hf Hl Hl31) as (l' & E & [A1 A2 A3]).
  destruct A3 as (f' & A3 & A4). exists l', f'. split; [exact E|]. split; [done|]. split; [done|].
  rewrite length_take in A4. rewrite Nat.min_l, Z2Nat.id in A4 by lia. exact A4.
Qed.

(** On a stream that accepts nothing (a full disk) the loop goes on for ever,
    whatever the fuel. *)
Lemma Append_full_disk `{Stdio} (fuel n : nat) (f : FileUtil) (data : bytes) (len written : Z) :
  (forall n len, accepts n len = 0) -> 0 <= written < len -> len <= zlen data ->
  Append_loop fuel n f data len written = Fault FFuel.
Proof.
  intros Ha Hw Hl. revert n f. induction fuel as [|fuel IH]; intros n f; cbn [Append_loop];
    rewrite (proj2 (Z.eqb_neq _ _)) by lia; [done|].
  rewrite read_bytes_Ok, bind_Ok by lia. unfold Write. rewrite Ha, Z.add_0_r. apply IH.
Qed.

(** A stream that takes at most three bytes per call; a clock that stands. *)
Definition test_stdio : Stdio := {|
  accepts n len := Z.min len 3;
  time_now n := 86400 * 5 + 7;
  local t := mkTm 70 0 6 0 0 7
|}.

Lemma test_stdio_laws : @StdioLaws test_stdio.
Proof. split; simpl; intros; lia. Qed.

Definition ex_file : LogFile := @LogFile_new test_stdio (lit "app") 10 3 1024.

Lemma LogFile_append_witness :
  exists l' f', @LogFile.Append test_stdio ex_file (lit "hello, world") 12 = Ok l' /\ file_ l' = Some f' /\
    file_bytes l' = file_bytes ex_file ++ take (Z.to_nat 12) (lit "hello, world") /\
    ((fu_data f' = [] /\ written_bytes f' = 0) \/
     (fu_data f' = [] ++ take (Z.to_nat 12) (lit "hello, world") /\
      written_bytes f' = s64 (0 + 12) /\
      (written_bytes f' <= roll_size_ ex_file \/
       @time_now test_stdio (ticks ex_file) <= last_roll_ ex_file))).
Proof.
  apply (@LogFile_append test_stdio test_stdio_laws ex_file (lit "hello, world") 12
    (FileUtil_new (lit "app.19700106-000007.log"))).
  - vm_compute. reflexivity.
  - vm_compute. split; discriminate.
  - lia.
Defined.

(** ** AsyncLogging *)

Section Async.
Context (heap : nat -> bytes) (heap_size : forall n, zlen (heap n) = kLargeBuffer).
Context {O : Type} {sink : Sink O} {sink_laws : SinkLaws O}.

Abbreviation buf_ok := (fb_ok kLargeBuffer).
Abbreviation texts l := (concat (map contents l)).

(** A buffer kept in reserve is empty. *)
Definition spare (p : option FixedBuffer) : Prop :=
  match p with Some b => buf_ok b /\ contents b = [] | None => True end.

(** The arrays written out begin with the texts [ts]. *)
Definition begins (t d : bytes) : Prop := exists rest, d = t ++ rest /\ zlen d = kLargeBuffer.

Lemma buffer_begins b : buf_ok b -> begins (contents b) (data_ b).
Proof.
  intros [H1 H2 H3]. exists (drop (Z.to_nat (curr_ b)) (data_ b)). split; [|done].
  unfold contents. by rewrite take_drop.
Qed.

(** The state of the program: the messages logged so far are those written and
    those in the buffers, in order.  [o0] is the file as the thread opened it. *)
Record async_ok (o0 : O) (messages : list bytes) (s : system O) : Prop := {
  as_current : exists b, current_buffer_ (front s) = Some b /\ buf_ok b;
  as_next : spare (next_buffer_ (front s));
  as_lent : next_buffer_ (front s) = None -> buffers_ (front s) <> [];
  as_buffers : Forall buf_ok (buffers_ (front s) ++ buffersToWrite (thread s));
  as_spares : spare (new_buffer1 (thread s)) /\ spare (new_buffer2 (thread s));
  as_pc : match at_ s with
          | Writing => new_buffer1 (thread s) = None /\
              (if new_buffer2 (thread s) is Some _ then 1 <= zlen (buffersToWrite (thread s))
               else 2 <= zlen (buffersToWrite (thread s)))
          | _ => is_Some (new_buffer1 (thread s)) /\ is_Some (new_buffer2 (thread s)) /\
              buffersToWrite (thread s) = []
          end;
  as_sink : sink_ok (output (thread s));
  as_text : exists written arrays,
    sink_bytes (output (thread s)) = sink_bytes o0 ++ concat arrays /\
    Forall2 begins written arrays /\
    concat messages = concat written ++ texts (buffersToWrite (thread s)) ++
      texts (buffers_ (front s)) ++ from_option contents [] (current_buffer_ (front s))
}.

Lemma new_buffer_ok n : buf_ok (FixedBuffer_new (heap n)).
Proof using heap_size. apply FixedBuffer_new_ok; [done|]. unfold kLargeBuffer. lia. Qed.

Lemma Bzero_ok b : buf_ok b -> buf_ok (Bzero b).
Proof. intros [H1 H2 H3]. split; simpl; rewrite ?length_replicate; done. Qed.

(** The messages a buffer can hold: [FixedBuffer::Append] drops a longer one silently. *)
Definition kept (ms : list bytes) : list bytes := filter (fun m => zlen m < kLargeBuffer) ms.

Lemma kept_one m : concat (kept [m]) = if kLargeBuffer >? zlen m then m else [].
Proof.
  unfold kept. rewrite filter_cons. destruct (Z.gtb_spec kLargeBuffer (zlen m)).
  - rewrite decide_True by lia. cbn. by rewrite app_nil_r.
  - by rewrite decide_False by lia.
Qed.

(** Into a buffer with room a message goes whole. *)
Lemma append_whole b m :
  buf_ok b -> zlen m < kLargeBuffer - curr_ b ->
  exists b', fb_Append b m (zlen m) = Ok b' /\ buf_ok b' /\ contents b' = contents b ++ concat (kept [m]).
Proof.
  intros Hb Hm. pose proof Hb as [H1 H2 H3].
  destruct (fb_Append_ok _ b m (zlen m) Hb ltac:(lia) ltac:(lia)) as (b' & E & Hb' & Hc).
  exists b'. split; [done|]. split; [done|]. rewrite Hc, kept_one.
  rewrite !(proj2 (Z.gtb_lt _ _)), Nat2Z.id, take_ge by lia. done.
Qed.

(** Into an empty one it goes whole or not at all. *)
Lemma append_empty b m :
  buf_ok b -> curr_ b = 0 -> zlen m < 2 ^ 31 ->
  exists b', fb_Append b m (zlen m) = Ok b' /\ buf_ok b' /\ contents b' = contents b ++ concat (kept [m]).
Proof.
  intros Hb Hc0 Hm. destruct (fb_Append_ok _ b m (zlen m) Hb ltac:(lia) ltac:(lia)) as (b' & E & Hb' & Hc).
  exists b'. split; [done|]. split; [done|]. rewrite Hc, kept_one, Hc0, Z.sub_0_r, Nat2Z.id.
  by rewrite take_ge by lia.
Qed.

Lemma empty_curr b : buf_ok b -> contents b = [] -> curr_ b = 0.
Proof. intros Hb Hc. rewrite <- (length_contents _ _ Hb), Hc. done. Qed.

Lemma log_ok o0 ms s m :
  async_ok o0 ms s -> zlen m < 2 ^ 31 ->
  exists s', sys_step heap (Log m) s = Ok s' /\ async_ok o0 (ms ++ kept [m]) s'.
Proof using heap_size.
  intros [[b [Hc Hb]] Hn Hl Hbs Hsp Hpc Hk (w & arr & T1 & T2 & T3)] Hm.
  cbn [sys_step]. unfold Append. rewrite Hc. cbn [deref]. rewrite bind_Ok, (Avail_ok kLargeBuffer) by done.
  assert (Hgo : forall a b' bufs nxt,
    buf_ok b' -> spare nxt -> (nxt = None -> bufs <> []) -> Forall buf_ok (bufs ++ buffersToWrite (thread s)) ->
    texts bufs ++ contents b' = (texts (buffers_ (front s)) ++ contents b) ++ concat (kept [m]) ->
    async_ok o0 (ms ++ kept [m]) (mkSystem (mkAsyncLogging (running_ (front s)) (Some b') nxt bufs a) (thread s) (at_ s))).
  { intros a b' bufs nxt G1 G2 G3 G4 G5. split; simpl; try done; [by eauto|].
    exists w, arr. split; [done|]. split; [done|]. rewrite G5, concat_app, T3, Hc. cbn [from_option].
    by rewrite <- !app_assoc. }
  destruct (Z.gtb_spec (kLargeBuffer - curr_ b) (zlen m)) as [Hr|Hr].
  - destruct (append_whole b m Hb ltac:(lia)) as (b' & E & Hb' & Hct). rewrite E, !bind_Ok.
    eexists. split; [reflexivity|]. apply Hgo; try done. by rewrite Hct, app_assoc.
  - assert (Hnew : forall nb a, buf_ok nb -> contents nb = [] ->
      exists s', (x ← (current ← fb_Append nb m (zlen m);
         Ok (mkAsyncLogging (running_ (front s)) (Some current) None (buffers_ (front s) ++ [b]) a));
         Ok (mkSystem x (thread s) (at_ s))) = Ok s' /\ async_ok o0 (ms ++ kept [m]) s').
    { intros nb a G1 G2. destruct (append_empty nb m G1 (empty_curr nb G1 G2) Hm) as (b' & E & Hb' & Hct).
      rewrite E, !bind_Ok. eexists. split; [reflexivity|]. apply Hgo; try done.
      - intros _ Hnil. by destruct (buffers_ (front s)).
      - rewrite Forall_app in Hbs. rewrite !Forall_app. destruct Hbs. split; [|done]. split; [done|].
        by apply Forall_singleton.
      - rewrite Hct, G2, map_app, concat_app. cbn [map concat app]. by rewrite app_nil_r. }
    destruct (next_buffer_ (front s)) as [nb|]; [|by apply Hnew; [apply new_buffer_ok|]].
    destruct Hn as [Hn1 Hn2]. by apply Hnew.
Qed.

Lemma swap_ok o0 ms s :
  async_ok o0 ms s -> at_ s = Waiting ->
  exists s', thread_step s = Ok s' /\ async_ok o0 ms s'.
Proof.
  intros [[b [Hc Hb]] Hn Hl Hbs [Hs1 Hs2] Hpc Hk (w & arr & T1 & T2 & T3)] Hat.
  unfold thread_step, swap_buffers. rewrite Hat in *. rewrite Hc. cbn [deref]. rewrite bind_Ok.
  destruct Hpc as ([n1 E1] & [n2 E2] & E3). rewrite E1, E2, E3 in *. destruct Hs1 as [Hs1 Hs1'].
  rewrite app_nil_r in Hbs.
  assert (Hbw : Forall buf_ok (buffers_ (front s) ++ [b])) by (apply Forall_app; by rewrite Forall_singleton).
  assert (Ht : concat ms = concat w ++ texts (buffers_ (front s) ++ [b]) ++ [] ++ contents n1).
  { rewrite T3, Hc, Hs1', map_app, concat_app. simpl. by rewrite !app_nil_r. }
  destruct (next_buffer_ (front s)) as [nx|]; rewrite bind_Ok; eexists; (split; [reflexivity|]).
  - split; cbn; try done; [by eauto|..|by eauto 10].
    split; [done|]. rewrite length_app. simpl. lia.
  - split; cbn; try done; [by eauto|..|by eauto 10].
    split; [done|]. specialize (Hl eq_refl). destruct (buffers_ (front s)); [done|].
    rewrite length_app. simpl. lia.
Qed.

Lemma write_all_ok l o :
  Forall buf_ok l -> sink_ok o ->
  exists o', write_all l o = Ok o' /\ sink_ok o' /\ sink_bytes o' = sink_bytes o ++ concat (map data_ l).
Proof.
  revert o. induction l as [|b l IH]; intros o Hl Ho; [exists o; by rewrite app_nil_r|].
  apply Forall_cons in Hl as [Hb Hl]. cbn [write_all]. rewrite (Length_ok kLargeBuffer) by done.
  pose proof Hb as [H1 H2 H3].
  destruct (sink_append_ok o (data_ b) kLargeBuffer Ho ltac:(lia) H2) as (o1 & -> & Ho1 & E1).
  rewrite bind_Ok. destruct (IH o1 Hl Ho1) as (o' & -> & Ho' & E'). exists o'. split; [done|]. split; [done|].
  rewrite E', E1, <- app_assoc, take_ge by lia. done.
Qed.

(** A buffer given back is empty. *)
Lemma take_back_ok p v :
  spare p -> Forall buf_ok v -> (p = None -> 1 <= zlen v) ->
  exists b v', take_back p v = Ok (Some b, v') /\ spare (Some b) /\ Forall buf_ok v' /\
    zlen v' = zlen v - (if p is Some _ then 0 else 1).
Proof.
  intros Hp Hv Hl. destruct p as [b|].
  - exists b, v. split; [done|]. split; [done|]. split; [done|lia].
  - specialize (Hl eq_refl). unfold take_back.
    destruct v as [|c v] using rev_ind; [simpl in Hl; lia|]. rewrite last_snoc, removelast_last.
    apply Forall_app in Hv as [Hv Hc]. rewrite Forall_singleton in Hc.
    exists (Reset c), v. split; [done|]. split; [exact (Reset_ok _ c Hc)|]. split; [done|].
    rewrite length_app. simpl. lia.
Qed.

Lemma write_out_ok b :
  Forall buf_ok (buffersToWrite b) -> sink_ok (output b) -> new_buffer1 b = None -> spare (new_buffer2 b) ->
  (if new_buffer2 b is Some _ then 1 <= zlen (buffersToWrite b) else 2 <= zlen (buffersToWrite b)) ->
  exists o n1 n2, write_out b = Ok (mkBack o (Some n1) (Some n2) []) /\ spare (Some n1) /\ spare (Some n2) /\
    sink_ok o /\ sink_bytes o = sink_bytes (output b) ++ concat (map data_ (buffersToWrite b)).
Proof.
  intros Hbs Hk H1 H2 Hlen. unfold write_out.
  destruct (write_all_ok _ _ Hbs Hk) as (o1 & -> & Ho1 & E1). rewrite bind_Ok, H1. set (v := if 2 <? _ then take 2 _ else _).
  assert (Forall buf_ok v /\ (if new_buffer2 b is Some _ then 1 <= zlen v else 2 <= zlen v)) as [Hv Hvl].
  { unfold v. destruct (Z.ltb_spec 2 (zlen (buffersToWrite b))); [|done]. split; [by apply Forall_take|].
    rewrite length_take. destruct (new_buffer2 b); lia. }
  destruct (take_back_ok None v) as (n1 & v1 & -> & Hn1 & Hv1 & L1);
    [done|done|intros _; destruct (new_buffer2 b); lia|]. rewrite bind_Ok.
  destruct (take_back_ok (new_buffer2 b) v1) as (n2 & v2 & -> & Hn2 & Hv2 & L2);
    [done|done|intros Hnone; rewrite Hnone in Hvl; lia|]. rewrite bind_Ok.
  destruct (sink_flush_ok o1 Ho1) as (o & -> & Ho & Eo). rewrite bind_Ok.
  exists o, n1, n2. split; [done|]. split; [done|]. split; [done|]. split; [done|]. congruence.
Qed.

Lemma write_ok o0 ms s :
  async_ok o0 ms s -> at_ s = Writing ->
  exists s', thread_step s = Ok s' /\ async_ok o0 ms s'.
Proof.
  intros [Hc Hn Hl Hbs [Hs1 Hs2] Hpc Hk (w & arr & T1 & T2 & T3)] Hat.
  unfold thread_step. rewrite Hat in *. destruct Hpc as [P1 P2]. apply Forall_app in Hbs as [Hb1 Hb2].
  destruct (write_out_ok (thread s) Hb2 Hk P1 Hs2 P2) as (o & n1 & n2 & -> & G1 & G2 & G3 & G4).
  rewrite bind_Ok. eexists. split; [reflexivity|]. split; cbn; try done.
  - by rewrite app_nil_r.
  - exists (w ++ map contents (buffersToWrite (thread s))), (arr ++ map data_ (buffersToWrite (thread s))).
    split; [by rewrite G4, T1, concat_app, app_assoc|]. split; [|by rewrite T3, concat_app, <- app_assoc].
    apply Forall2_app; [done|]. clear -Hb2. induction Hb2; constructor; [by apply buffer_begins|done].
Qed.

Lemma thread_ok o0 ms s :
  async_ok o0 ms s -> exists s', thread_step s = Ok s' /\ async_ok o0 ms s'.
Proof.
  intros Hs. destruct (at_ s) eqn:Hat.
  - pose proof Hs as [Hc Hn Hl Hbs Hsp Hpc Hk Ht]. unfold thread_step. rewrite Hat in *.
    destruct (running_ (front s)); [eexists; split; [reflexivity|]; by split|].
    unfold finish. destruct (sink_flush_ok _ Hk) as (o & -> & Ho & Eo). rewrite !bind_Ok.
    eexists. split; [reflexivity|]. split; cbn; try done. by rewrite Eo.
  - by apply swap_ok.
  - by apply write_ok.
  - exists s. unfold thread_step. by rewrite Hat.
Qed.

Lemma started_ok o : sink_ok o -> async_ok o [] (started heap o).
Proof using heap_size.
  intros Ho. unfold started, ThreadFunc_init, Start, AsyncLogging_new.
  assert (Hz : forall n, spare (Some (Bzero (FixedBuffer_new (heap n))))).
  { intros n. split; [|done]. apply Bzero_ok, new_buffer_ok. }
  split; cbn; try done.
  - eexists. split; [done|]. apply Hz.
  - apply Hz.
  - split; apply Hz.
  - exists [], []. rewrite app_nil_r. split; [done|]. split; [constructor|done].
Qed.

(** the messages of a sequence of events *)
Definition logged (l : list event) : list bytes :=
  omap (fun e => match e with Log m => Some m | _ => None end) l.

Lemma async_run_ok l o0 ms s :
  async_ok o0 ms s -> Forall (fun m => zlen m < 2 ^ 31) (logged l) ->
  exists s', AsyncLogging.run heap l s = Ok s' /\ async_ok o0 (ms ++ kept (logged l)) s'.
Proof using heap_size.
  revert ms s. induction l as [|e l IH]; intros ms s Hs Hl; [exists s; by rewrite app_nil_r|].
  assert (exists s1 ms1, sys_step heap e s = Ok s1 /\ async_ok o0 (ms ++ kept ms1) s1 /\ logged (e :: l) = ms1 ++ logged l)
    as (s1 & ms1 & E1 & Hs1 & El).
  { destruct e as [m| |].
    - simpl in Hl. apply Forall_cons in Hl as [Hm Hl].
      destruct (log_ok o0 ms s m Hs Hm) as (s1 & E1 & Hs1). by exists s1, [m].
    - destruct (thread_ok o0 ms s Hs) as (s1 & E1 & Hs1). exists s1, []. by rewrite app_nil_r.
    - eexists _, []. rewrite app_nil_r. split; [reflexivity|]. split; [|done]. by destruct Hs. }
  cbn [AsyncLogging.run]. rewrite E1, bind_Ok, El in *. apply Forall_app in Hl as [_ Hl].
  destruct (IH _ _ Hs1 Hl) as (s' & E & Hs'). exists s'. split; [done|]. unfold kept in *. by rewrite filter_app, app_assoc.
Qed.
End Async.

(** C18: the logging thread loses and reorders nothing that fits in a buffer while it runs.  In any
    interleaving of messages, whose lengths are [int]s, with the steps of the thread, no null buffer
    is used -- the two spare buffers are always there when they are lent, and come back empty --, and
    the messages logged that are shorter than [kLargeBuffer], one after the other, are what begins
    the arrays written to the file, followed by what waits to be written, the full buffers and the
    current one.  A message of [kLargeBuffer] bytes or more is dropped whole and silently, without
    harm to the others.  What is written is whole arrays of [kLargeBuffer] bytes, not their texts. *)
Theorem AsyncLogging_in_order {O : Type} {sink : Sink O} {sink_laws : SinkLaws O} (heap : nat -> bytes)
    (o : O) (l : list event) :
  (forall n, zlen (heap n) = kLargeBuffer) -> sink_ok o ->
  Forall (fun m => zlen m < 2 ^ 31) (logged l) ->
  exists s' current written arrays,
    AsyncLogging.run heap l (started heap o) = Ok s' /\
    current_buffer_ (front s') = Some current /\
    sink_bytes (output (thread s')) = sink_bytes o ++ concat arrays /\
    Forall2 begins written arrays /\
    concat (filter (fun m => zlen m < kLargeBuffer) (logged l)) =
      concat written ++ concat (map contents (buffersToWrite (thread s'))) ++
      concat (map contents (buffers_ (front s'))) ++ contents current.
Proof.
  intros Hh Ho Hl. destruct (async_run_ok heap Hh l o [] _ (started_ok heap Hh o Ho) Hl) as (s' & E & [Hc _ _ _ _ _ _ Ht]).
  destruct Hc as (b & Hb & _), Ht as (w & arr & T1 & T2 & T3). rewrite Hb in T3.
  by exists s', b, w, arr.
Qed.

Definition ex_heap (n : nat) : bytes := replicate (Z.to_nat kLargeBuffer) x00.

Lemma ex_heap_size n : zlen (ex_heap n) = kLargeBuffer.
Proof. unfold ex_heap. rewrite length_replicate. by rewrite Z2Nat.id by (unfold kLargeBuffer; lia). Qed.

Lemma AsyncLogging_in_order_witness :
  exists s' current written arrays,
    @AsyncLogging.run ex_heap LogFile (@LogFile_Sink test_stdio)
      [Log (lit "a"); Thread; Log (lit "b"); Thread; Thread; Log (lit "c")] (started ex_heap ex_file) = Ok s' /\
    current_buffer_ (front s') = Some current /\
    file_bytes (output (thread s')) = file_bytes ex_file ++ concat arrays /\
    Forall2 begins written arrays /\
    concat (filter (fun m => zlen m < kLargeBuffer) [lit "a"; lit "b"; lit "c"]) = concat written ++ concat (map contents (buffersToWrite (thread s'))) ++
      concat (map contents (buffers_ (front s'))) ++ contents current.
Proof.
  apply (AsyncLogging_in_order (sink := @LogFile_Sink test_stdio)
    (sink_laws := @LogFile_SinkLaws test_stdio test_stdio_laws) ex_heap ex_file
    [Log (lit "a"); Thread; Log (lit "b"); Thread; Thread; Log (lit "c")]).
  - exact ex_heap_size.
  - by eexists.
  - repeat constructor; simpl; lia.
Defined.

(** C40: stopping drops what is buffered.  When the thread is about to test
    [running_] and a message is logged before [Stop] clears the flag, the thread
    leaves its loop without another swap: it ends with the file as it was, and
    the message stays in a buffer nobody writes. *)
Theorem Stop_drops_messages {O : Type} {sink : Sink O} {sink_laws : SinkLaws O} (heap : nat -> bytes)
    (o : O) (l : list event) (s : system O) (m : bytes) :
  (forall n, zlen (heap n) = kLargeBuffer) -> sink_ok o ->
  Forall (fun m => zlen m < kLargeBuffer) (logged l) -> zlen m < kLargeBuffer ->
  AsyncLogging.run heap l (started heap o) = Ok s -> at_ s = Testing ->
  exists s', AsyncLogging.run heap [Log m; StopIt; Thread] s = Ok s' /\ at_ s' = Done /\
    sink_bytes (output (thread s')) = sink_bytes (output (thread s)) /\ sys_step heap Thread s' = Ok s'.
Proof.
  intros Hh Ho Hl Hm Hrun Hat.
  assert (kLargeBuffer < 2 ^ 31) as Hint by done.
  assert (Forall (fun m => zlen m < 2 ^ 31) (logged l)) as Hl' by (eapply Forall_impl; [exact Hl|]; simpl; lia).
  clear Hl. rename Hl' into Hl. assert (zlen m < 2 ^ 31) as Hm' by lia.
  destruct (async_run_ok heap Hh l o [] _ (started_ok heap Hh o Ho) Hl) as (s0 & E & Hs).
  assert (s0 = s) as -> by congruence.
  destruct (log_ok heap Hh o _ s m Hs Hm') as (s1 & E1 & Hs1).
  cbn [AsyncLogging.run]. rewrite E1, bind_Ok. cbn [sys_step]. rewrite bind_Ok.
  assert (at_ s1 = at_ s /\ thread s1 = thread s) as [Ea Et].
  { cbn [sys_step] in E1. apply bind_Ok_inv in E1 as (a & _ & Es1). by injection Es1 as <-. }
  unfold thread_step at 1. cbn [at_ front thread running_ Stop]. rewrite Ea, Hat, Et.
  unfold finish. destruct (sink_flush_ok _ (as_sink o _ s Hs)) as (o' & -> & Ho' & Eo).
  rewrite !bind_Ok. eexists. split; [reflexivity|]. done.
Qed.

Lemma Stop_drops_messages_witness :
  exists s', @AsyncLogging.run ex_heap LogFile (@LogFile_Sink test_stdio)
      [Log (lit "bye"); StopIt; Thread] (started ex_heap ex_file) = Ok s' /\ at_ s' = Done /\
    file_bytes (output (thread s')) = file_bytes ex_file /\
    @sys_step ex_heap LogFile (@LogFile_Sink test_stdio) Thread s' = Ok s'.
Proof.
  apply (Stop_drops_messages (sink := @LogFile_Sink test_stdio)
    (sink_laws := @LogFile_SinkLaws test_stdio test_stdio_laws) ex_heap ex_file [] (started ex_heap ex_file) (lit "bye")).
  - exact ex_heap_size.
  - by eexists.
  - constructor.
  - unfold kLargeBuffer. simpl. lia.
  - reflexivity.
  - reflexivity.
Defined.
