(* ===== verification/MemoryPool.v ===== *)
(** * MemoryPool (ryan_network/memory_pool/memory_pool.h, memory_pool.cc)

    An address is an integer, [0] the null pointer.  [small] and [large] hold the
    node structures the program keeps in memory, by address; [live] the blocks
    [posix_memalign] gave and [free] has not taken back, with their sizes.
    [free] of a block takes the structures in it away: reading one afterwards is
    undefined.  [posix_memalign] and the bytes it leaves in a block are the class
    [Heap]. *)

From S2P Require Import Prelude.

(** [memalign n live size] is the n-th call; [raw_... n p] what the block of that call
    holds in a field of the node at [p], where the code reads the field before it writes it. *)
Class Heap := {
  memalign : nat -> gmap Z Z -> Z -> option Z;
  raw_quote : nat -> Z -> Z;
  raw_failed : nat -> Z -> Z;
  raw_next : nat -> Z -> Z
}.

(** src: ryan_network/memory_pool/memory_pool.h:11-11 PAGE_SIZE *)
Definition PAGE_SIZE : Z := 4096.
(** src: ryan_network/memory_pool/memory_pool.h:12-12 MP_ALIGNMENT *)
Definition MP_ALIGNMENT : Z := 16.

(** src: ryan_network/memory_pool/memory_pool.h:14-16 mp_align *)
Definition mp_align (n alignment : Z) : Z :=
  Z.land (u64 (n + alignment - 1)) (u64 (Z.lnot (alignment - 1))).
(** src: ryan_network/memory_pool/memory_pool.h:18-20 mp_align_ptr *)
Definition mp_align_ptr (p alignment : Z) : Z :=
  Z.land (u64 (p + alignment - 1)) (u64 (Z.lnot (alignment - 1))).

(** src: ryan_network/memory_pool/memory_pool.h:24-30 SmallNode *)
Record SmallNode := mkSmallNode {
  end_ : Z;
  last_ : Z;
  quote_ : Z;
  failed_ : Z;
  next_ : Z
}.

(** src: ryan_network/memory_pool/memory_pool.h:32-36 LargeNode *)
Record LargeNode := mkLargeNode { address_ : Z; size_ : Z; large_next_ : Z }.

(** [sizeof]: two pointers, two [unsigned int]s and a pointer; a pointer, an
    [unsigned int] with padding and a pointer; three pointers. *)
Definition sizeof_SmallNode : Z := 32.
Definition sizeof_LargeNode : Z := 24.
Definition sizeof_Pool : Z := 24.

(** The object, the [Pool] it points to, and the memory.
    src: ryan_network/memory_pool/memory_pool.h:38-43 Pool *)
Record MemoryPool := mkMemoryPool {
  pool_ : Z;
  large_list_ : Z;
  head_ : Z;
  current_ : Z;
  small : gmap Z SmallNode;
  large : gmap Z LargeNode;
  live : gmap Z Z;
  calls : nat
}.

Definition set_small (m : MemoryPool) (s : gmap Z SmallNode) : MemoryPool :=
  mkMemoryPool (pool_ m) (large_list_ m) (head_ m) (current_ m) s (large m) (live m) (calls m).
Definition set_large (m : MemoryPool) (l : gmap Z LargeNode) : MemoryPool :=
  mkMemoryPool (pool_ m) (large_list_ m) (head_ m) (current_ m) (small m) l (live m) (calls m).
Definition set_current (m : MemoryPool) (c : Z) : MemoryPool :=
  mkMemoryPool (pool_ m) (large_list_ m) (head_ m) c (small m) (large m) (live m) (calls m).
Definition set_large_list (m : MemoryPool) (c : Z) : MemoryPool :=
  mkMemoryPool (pool_ m) c (head_ m) (current_ m) (small m) (large m) (live m) (calls m).

(** [node->...] *)
Definition small_at (m : MemoryPool) (p : Z) : result SmallNode :=
  match small m !! p with Some n => Ok n | None => Fault FUndef end.
Definition large_at (m : MemoryPool) (p : Z) : result LargeNode :=
  match large m !! p with Some n => Ok n | None => Fault FUndef end.

Definition set_last (n : SmallNode) (v : Z) : SmallNode := mkSmallNode (end_ n) v (quote_ n) (failed_ n) (next_ n).
Definition set_quote (n : SmallNode) (v : Z) : SmallNode := mkSmallNode (end_ n) (last_ n) v (failed_ n) (next_ n).
Definition set_failed (n : SmallNode) (v : Z) : SmallNode := mkSmallNode (end_ n) (last_ n) (quote_ n) v (next_ n).
Definition set_next (n : SmallNode) (v : Z) : SmallNode := mkSmallNode (end_ n) (last_ n) (quote_ n) (failed_ n) v.

(** [free(p)]: nothing on null; undefined unless [p] is a live block. *)
Definition free (m : MemoryPool) (p : Z) : result MemoryPool :=
  if p =? 0 then Ok m else
  match live m !! p with
  | None => Fault FUndef
  | Some size =>
      let outside {A} (e : Z * A) : Prop := ~ (p <= fst e < p + size) in
      Ok (mkMemoryPool (pool_ m) (large_list_ m) (head_ m) (current_ m)
            (filter outside (small m)) (filter outside (large m)) (delete p (live m)) (calls m))
  end.

Section MemoryPool.
Context `{!Heap}.

(** [posix_memalign(&p, MP_ALIGNMENT, size)] *)
Definition posix_memalign (m : MemoryPool) (size : Z) : option Z * MemoryPool :=
  let r := memalign (calls m) (live m) size in
  (r, mkMemoryPool (pool_ m) (large_list_ m) (head_ m) (current_ m) (small m) (large m)
        (match r with Some p => <[p := size]> (live m) | None => live m end) (S (calls m))).

(** before [CreatePool] *)
Definition MemoryPool_new : MemoryPool := mkMemoryPool 0 0 0 0 ∅ ∅ ∅ 0.

(** [head_->quote_] and [head_->next_] are not written.
    src: ryan_network/memory_pool/memory_pool.cc:8-33 MemoryPool::CreatePool *)
Definition CreatePool (m : MemoryPool) : MemoryPool :=
  let n := calls m in
  let '(ret, m) := posix_memalign m PAGE_SIZE in
  match ret with
  | None => m
  | Some pool =>
      let head := pool + sizeof_Pool in
      let node := mkSmallNode (pool + PAGE_SIZE) (pool + sizeof_Pool + sizeof_SmallNode)
                    (raw_quote n head) 0 (raw_next n head) in
      mkMemoryPool pool 0 head head (<[head := node]> (small m)) (large m) (live m) (calls m)
  end.

(** The loop that looks for the last block.
    src: ryan_network/memory_pool/memory_pool.cc:117-127 MemoryPool::MallocSmallNode *)
Fixpoint append_small (fuel : nat) (m : MemoryPool) (cur current node : Z) : result (Z * MemoryPool) :=
  match fuel with
  | O => Fault FFuel
  | S fuel =>
      c ← small_at m cur;
      if negb (next_ c =? 0) then
        let current := if failed_ c >=? 5 then next_ c else current in
        let m := set_small m (<[cur := set_failed c (u32 (failed_ c + 1))]> (small m)) in
        append_small fuel m (next_ c) current node
      else Ok (current, set_small m (<[cur := set_next c node]> (small m)))
  end.

(** The number of nodes bounds the loops over them. *)
Definition node_fuel (m : MemoryPool) : nat := S (size (small m)).

(** [quote_] and [failed_] of the new node are not initialised.
    src: ryan_network/memory_pool/memory_pool.cc:96-130 MemoryPool::MallocSmallNode *)
Definition MallocSmallNode (m : MemoryPool) (size : Z) : result (Z * MemoryPool) :=
  let n := calls m in
  let '(ret, m) := posix_memalign m PAGE_SIZE in
  match ret with
  | None => Ok (0, m)
  | Some block =>
      let addr := mp_align_ptr (block + sizeof_SmallNode) MP_ALIGNMENT in
      let small_node := mkSmallNode (block + PAGE_SIZE) (addr + size)
                          (u32 (raw_quote n block + 1)) (raw_failed n block) 0 in
      let m := set_small m (<[block := small_node]> (small m)) in
      '(current, m) ← append_small (node_fuel m) m (current_ m) (current_ m) block;
      Ok (addr, set_current m current)
  end.

(** The difference of the pointers is compared as an unsigned number.
    src: ryan_network/memory_pool/memory_pool.cc:143-158 MemoryPool::malloc *)
Fixpoint find_small (fuel : nat) (m : MemoryPool) (cur size : Z) : result (option Z * MemoryPool) :=
  match fuel with
  | O => Fault FFuel
  | S fuel =>
      if cur =? 0 then Ok (None, m) else
      c ← small_at m cur;
      let addr := mp_align_ptr (last_ c) MP_ALIGNMENT in
      if u64 (end_ c - addr) >=? size then
        let c := set_last (set_quote c (u32 (quote_ c + 1))) (addr + size) in
        Ok (Some addr, set_small m (<[cur := c]> (small m)))
      else find_small fuel m (next_ c) size
  end.

(** [malloc] of a size that is neither zero nor large.
    src: ryan_network/memory_pool/memory_pool.cc:142-160 MemoryPool::malloc *)
Definition malloc_small (m : MemoryPool) (size : Z) : result (Z * MemoryPool) :=
  '(r, m) ← find_small (S (node_fuel m)) m (current_ m) size;
  match (r : option Z) with
  | Some addr => Ok (addr, m)
  | None => MallocSmallNode m size
  end.

(** The loop that looks for a node to use again; [count] stops it.
    src: ryan_network/memory_pool/memory_pool.cc:64-77 MemoryPool::MallocLargeNode *)
Fixpoint reuse_large (fuel : nat) (m : MemoryPool) (large_node count size addr : Z)
    : result (bool * MemoryPool) :=
  match fuel with
  | O => Fault FFuel
  | S fuel =>
      if large_node =? 0 then Ok (false, m) else
      l ← large_at m large_node;
      if address_ l =? 0 then
        Ok (true, set_large m (<[large_node := mkLargeNode addr (u32 size) (large_next_ l)]> (large m)))
      else if count >? 3 then Ok (false, m)
      else reuse_large fuel m (large_next_ l) (count + 1) size addr
  end.

(** At most five nodes are looked at.  [malloc(sizeof(LargeNode))] takes the way
    of the small blocks.
    src: ryan_network/memory_pool/memory_pool.cc:57-93 MemoryPool::MallocLargeNode *)
Definition MallocLargeNode (m : MemoryPool) (size : Z) : result (Z * MemoryPool) :=
  let '(ret, m) := posix_memalign m size in
  match ret with
  | None => Ok (0, m)
  | Some addr =>
      '(reused, m) ← reuse_large 6 m (large_list_ m) 0 size addr;
      if (reused : bool) then Ok (addr, m) else
      '(large_node, m) ← malloc_small m sizeof_LargeNode;
      if large_node =? 0 then m ← free m addr; Ok (0, m)
      else
        let l := mkLargeNode addr (u32 size) (large_list_ m) in
        Ok (addr, set_large_list (set_large m (<[large_node := l]> (large m))) large_node)
  end.

(** src: ryan_network/memory_pool/memory_pool.cc:132-161 MemoryPool::malloc *)
Definition malloc (m : MemoryPool) (size : Z) : result (Z * MemoryPool) :=
  if size <=? 0 then Ok (0, m)
  else if size >? PAGE_SIZE - sizeof_SmallNode then MallocLargeNode m size
  else malloc_small m size.

(** The [size] bytes at the address are zero afterwards.
    src: ryan_network/memory_pool/memory_pool.cc:163-169 MemoryPool::Calloc *)
Definition Calloc (m : MemoryPool) (size : Z) : result (Z * bytes * MemoryPool) :=
  '(addr, m) ← malloc m size;
  Ok (addr, if negb (addr =? 0) then replicate (Z.to_nat size) x00 else [], m).

(** src: ryan_network/memory_pool/memory_pool.cc:172-181 MemoryPool::FreeMemory *)
Fixpoint free_large (fuel : nat) (m : MemoryPool) (node p : Z) : result (bool * MemoryPool) :=
  match fuel with
  | O => Fault FFuel
  | S fuel =>
      if node =? 0 then Ok (false, m) else
      l ← large_at m node;
      if address_ l =? p then
        m ← free m (address_ l);
        l ← large_at m node;
        Ok (true, set_large m (<[node := mkLargeNode 0 0 (large_next_ l)]> (large m)))
      else free_large fuel m (large_next_ l) p
  end.

(** src: ryan_network/memory_pool/memory_pool.cc:183-203 MemoryPool::FreeMemory *)
Fixpoint free_small (fuel : nat) (m : MemoryPool) (node p : Z) : result MemoryPool :=
  match fuel with
  | O => Fault FFuel
  | S fuel =>
      if node =? 0 then Ok m else
      c ← small_at m node;
      if (node <=? p) && (p <=? end_ c) then
        let c := set_quote c (u32 (quote_ c - 1)) in
        if quote_ c =? 0 then
          let last := if node =? head_ m then pool_ m + sizeof_Pool + sizeof_SmallNode
                      else node + sizeof_SmallNode in
          let c := set_failed (set_last c last) 0 in
          Ok (set_current (set_small m (<[node := c]> (small m))) (head_ m))
        else Ok (set_small m (<[node := c]> (small m)))
      else free_small fuel m (next_ c) p
  end.

(** src: ryan_network/memory_pool/memory_pool.cc:171-204 MemoryPool::FreeMemory *)
Definition FreeMemory (m : MemoryPool) (p : Z) : result MemoryPool :=
  '(done, m) ← free_large (S (size (large m))) m (large_list_ m) p;
  if (done : bool) then Ok m else free_small (S (node_fuel m)) m (head_ m) p.

(** src: ryan_network/memory_pool/memory_pool.cc:210-215 MemoryPool::ResetPool *)
Fixpoint free_all_large (fuel : nat) (m : MemoryPool) (node : Z) : result MemoryPool :=
  match fuel with
  | O => Fault FFuel
  | S fuel =>
      if node =? 0 then Ok m else
      l ← large_at m node;
      m ← (if negb (address_ l =? 0) then free m (address_ l) else Ok m);
      l ← large_at m node;
      free_all_large fuel m (large_next_ l)
  end.

(** src: ryan_network/memory_pool/memory_pool.cc:219-224 MemoryPool::ResetPool *)
Fixpoint reset_small (fuel : nat) (m : MemoryPool) (node : Z) : result MemoryPool :=
  match fuel with
  | O => Fault FFuel
  | S fuel =>
      if node =? 0 then Ok m else
      c ← small_at m node;
      let c' := mkSmallNode (end_ c) (node + sizeof_SmallNode) 0 0 (next_ c) in
      reset_small fuel (set_small m (<[node := c']> (small m))) (next_ c)
  end.

(** src: ryan_network/memory_pool/memory_pool.cc:206-225 MemoryPool::ResetPool *)
Definition ResetPool (m : MemoryPool) : result MemoryPool :=
  m ← free_all_large (S (size (large m))) m (large_list_ m);
  let m := set_current (set_large_list m 0) (head_ m) in
  reset_small (S (node_fuel m)) m (head_ m).

(** [address_] is cleared in the first loop.
    src: ryan_network/memory_pool/memory_pool.cc:36-43 MemoryPool::DestroyPool *)
Fixpoint destroy_large (fuel : nat) (m : MemoryPool) (node : Z) : result MemoryPool :=
  match fuel with
  | O => Fault FFuel
  | S fuel =>
      if node =? 0 then Ok m else
      l ← large_at m node;
      m ← (if negb (address_ l =? 0) then
             m ← free m (address_ l);
             l ← large_at m node;
             Ok (set_large m (<[node := mkLargeNode 0 (size_ l) (large_next_ l)]> (large m)))
           else Ok m);
      l ← large_at m node;
      destroy_large fuel m (large_next_ l)
  end.

(** [next] is set but [cur->next_] read after [free(cur)].
    src: ryan_network/memory_pool/memory_pool.cc:47-51 MemoryPool::DestroyPool *)
Fixpoint destroy_small (fuel : nat) (m : MemoryPool) (cur : Z) : result MemoryPool :=
  match fuel with
  | O => Fault FFuel
  | S fuel =>
      if cur =? 0 then Ok m else
      c ← small_at m cur;
      let next := next_ c in
      m ← free m cur;
      c ← small_at m cur;
      destroy_small fuel m (next_ c)
  end.

(** src: ryan_network/memory_pool/memory_pool.cc:35-54 MemoryPool::DestroyPool *)
Definition DestroyPool (m : MemoryPool) : result MemoryPool :=
  m ← destroy_large (S (size (large m))) m (large_list_ m);
  h ← small_at m (head_ m);
  m ← destroy_small (node_fuel m) m (next_ h);
  free m (pool_ m).
End MemoryPool.

(** ** The end of a pool *)

Lemma small_at_Some m p n : small m !! p = Some n -> small_at m p = Ok n.
Proof. unfold small_at. by intros ->. Qed.

Lemma free_live m p n :
  p <> 0 -> live m !! p = Some n -> 0 < n ->
  exists m', free m p = Ok m' /\ small m' !! p = None.
Proof.
  intros Hp Hl Hn. unfold free. rewrite (proj2 (Z.eqb_neq _ _)), Hl by done.
  eexists. split; [reflexivity|]. simpl. apply map_lookup_filter_None. right. simpl. intros x _. lia.
Qed.

(** A pool of more than one block cannot be destroyed.  [DestroyPool] frees the
    second block and then reads the next pointer in it: with no large block listed
    and a second block that [posix_memalign] gave, the call is undefined. *)
Theorem DestroyPool_use_after_free (m : MemoryPool) (h b : SmallNode) (n : Z) :
  large_list_ m = 0 -> small m !! head_ m = Some h -> next_ h <> 0 ->
  small m !! next_ h = Some b -> live m !! next_ h = Some n -> 0 < n ->
  DestroyPool m = Fault FUndef.
Proof.
  intros Hll Hh Hne Hb Hlive Hn. unfold DestroyPool. cbn [destroy_large]. rewrite Hll.
  change (0 =? 0) with true. cbn match. rewrite bind_Ok. rewrite (small_at_Some _ _ _ Hh), bind_Ok.
  unfold node_fuel. cbn [destroy_small]. rewrite (proj2 (Z.eqb_neq _ _)) by done.
  rewrite (small_at_Some _ _ _ Hb), bind_Ok.
  destruct (free_live m (next_ h) n Hne Hlive Hn) as (m' & E & Hs). rewrite E, bind_Ok.
  unfold small_at. by rewrite Hs.
Qed.

(** Blocks at successive multiples of a megabyte, cleared. *)
Definition test_heap : Heap := {|
  memalign n live size := if size <=? 2 ^ 20 then Some (2 ^ 20 * (Z.of_nat n + 1)) else None;
  raw_quote _ _ := 0;
  raw_failed _ _ := 0;
  raw_next _ _ := 0
|}.

(** a pool after two allocations that do not fit in one block *)
Definition ex_pool : MemoryPool :=
  match malloc_small (H := test_heap) (CreatePool (H := test_heap) MemoryPool_new) 4000 with
  | Ok (_, m) => match malloc_small (H := test_heap) m 4000 with Ok (_, m) => m | Fault _ => m end
  | Fault _ => MemoryPool_new
  end.

Lemma DestroyPool_use_after_free_witness : DestroyPool ex_pool = Fault FUndef.
Proof.
  apply (DestroyPool_use_after_free ex_pool
    (mkSmallNode (2 ^ 20 + 4096) (2 ^ 20 + 64 + 4000) 1 0 (2 ^ 21))
    (mkSmallNode (2 ^ 21 + 4096) (2 ^ 21 + 32 + 4000) 1 0 0) 4096);
    solve [vm_compute; reflexivity | vm_compute; discriminate].
Defined.

(** Allocations, a release, and a large block. *)
Example pool_example :
  match malloc (H := test_heap) (CreatePool (H := test_heap) MemoryPool_new) 10 with
  | Ok (a, m) =>
      a = 2 ^ 20 + 64 /\
      match malloc (H := test_heap) m 5000 with
      | Ok (b, m) => b = 2 ^ 21 /\ large_list_ m = 2 ^ 20 + 80 /\
          match FreeMemory m b with
          | Ok m => live m !! b = None /\
              match FreeMemory m a with
              | Ok m => malloc (H := test_heap) m 16 = malloc_small (H := test_heap) m 16
              | Fault _ => False
              end
          | Fault _ => False
          end
      | Fault _ => False
      end
  | Fault _ => False
  end.
Proof. vm_compute. done. Qed.
