(* ===== verification/MemoryPoolSpec.v ===== *)
(** * What the memory pool promises

    [regions] are the small blocks the pool has handed out and not taken back: those of the
    user and those that hold a [LargeNode].  The invariant relates them to the
    chain of pages, whose counters and marks the code keeps. *)

From S2P Require Import Prelude MemoryPool.

(** ** Alignment *)

Lemma mp_align_ptr_spec p : 0 <= p < 2 ^ 63 -> mp_align_ptr p MP_ALIGNMENT = 16 * ((p + 15) / 16).
Proof.
  intros Hp. unfold mp_align_ptr, MP_ALIGNMENT. replace (p + 16 - 1) with (p + 15) by lia.
  unfold uwrap. rewrite (Z.mod_small (p + 15)) by lia.
  rewrite <- (Z.land_ones (Z.lnot _) 64) by lia. rewrite Z.land_assoc, Z.land_ones by lia.
  change (Z.lnot (16 - 1)) with (Z.lnot (Z.ones 4)).
  rewrite <- Z.ldiff_land, Z.ldiff_ones_r, Z.shiftr_div_pow2, Z.shiftl_mul_pow2 by lia.
  change (2 ^ 4) with 16. rewrite Z.mod_small; dlia.
Qed.

Lemma align_bounds p :
  0 <= p < 2 ^ 63 ->
  p <= mp_align_ptr p MP_ALIGNMENT < p + 16 /\ mp_align_ptr p MP_ALIGNMENT mod 16 = 0.
Proof. intros Hp. rewrite mp_align_ptr_spec by done. split; [dlia|]. rewrite Z.mul_comm. apply Z.mod_mul. lia. Qed.

Lemma align_le p e : 0 <= p <= e -> e < 2 ^ 63 -> e mod 16 = 0 -> mp_align_ptr p MP_ALIGNMENT <= e.
Proof. intros Hp He Hm. rewrite mp_align_ptr_spec by lia. dlia. Qed.

(** ** Linked lists *)

(** The nodes met from [p] on, to the null pointer. *)
Fixpoint chain (next : Z -> option Z) (p : Z) (l : list Z) : Prop :=
  match l with
  | [] => p = 0
  | a :: l => p = a /\ a <> 0 /\ exists q, next a = Some q /\ chain next q l
  end.

Lemma chain_ext next next' p l :
  (forall a, a ∈ l -> next a = next' a) -> chain next p l -> chain next' p l.
Proof.
  revert p. induction l as [|a l IH]; intros p Hn Hc; [done|].
  destruct Hc as (-> & Ha & q & Hq & Hc). split; [done|]. split; [done|].
  exists q. rewrite <- Hn by set_solver. split; [done|]. apply IH; [set_solver|done].
Qed.


Lemma chain_suffix next p l a :
  chain next p l -> a ∈ l -> exists l1 l2, l = l1 ++ l2 /\ chain next a l2 /\ exists l3, l2 = a :: l3.
Proof.
  revert p. induction l as [|b l IH]; intros p Hc Ha; [set_solver|].
  destruct (decide (a = b)) as [->|Hne].
  - exists [], (b :: l). split; [done|]. split; [|by exists l]. by destruct Hc as (-> & Hc).
  - destruct Hc as (-> & _ & q & _ & Hc). destruct (IH q Hc) as (l1 & l2 & -> & H); [set_solver|].
    by exists (b :: l1), l2.
Qed.

Lemma chain_nil_l next l : chain next 0 l -> l = [].
Proof. destruct l as [|a l]; [done|]. by intros (<- & H & _). Qed.

(** [b] is appended: the last node now points to it. *)
Lemma chain_snoc next next' p l b :
  chain next p l -> NoDup l -> b ∉ l -> b <> 0 -> l <> [] ->
  (forall a, a ∈ l -> next' a = if decide (last l = Some a) then Some b else next a) ->
  next' b = Some 0 -> chain next' p (l ++ [b]).
Proof.
  revert p. induction l as [|a l IH]; intros p Hc Hnd Hb Hb0 Hne Hn Hnb; [done|].
  destruct Hc as (-> & Ha & q & Hq & Hc). simpl. split; [done|]. split; [done|].
  apply NoDup_cons in Hnd as [Hal Hnd]. destruct l as [|c l].
  - exists b. rewrite Hn by set_solver. simpl. rewrite decide_True by done. split; [done|].
    split; [done|]. split; [done|]. by exists 0.
  - exists q. rewrite Hn by set_solver. rewrite decide_False.
    + split; [done|]. apply IH; [done|done|set_solver|done|done| |done].
      intros d Hd. by rewrite Hn by set_solver.
    + change (last (a :: c :: l)) with (last (c :: l)). intros Hl. apply Hal.
      by apply last_Some_elem_of.
Qed.

(** ** The memory *)

Abbreviation disj p s q t := (p + s <= q \/ q + t <= p).

(** What posix_memalign(3) documents: an aligned block apart from the live
    ones. *)
Class HeapLaws (H : Heap) : Prop := {
  memalign_spec n live size p :
    0 < size -> memalign n live size = Some p ->
    0 < p /\ p mod 16 = 0 /\ p + size < 2 ^ 63 /\ forall q t, live !! q = Some t -> disj p size q t
}.

(** Every page the heap gives reads zero.  The manual does not promise it -- a block that was
    freed before may hold anything --, but [CreatePool] and [MallocSmallNode] count on it: what
    happens otherwise is below ([dirty_quote], [dirty_next]). *)
Class HeapCleared (H : Heap) : Prop := {
  raw_quote_0 n live p q :
    memalign n live PAGE_SIZE = Some p -> p <= q < p + PAGE_SIZE -> raw_quote n q = 0;
  raw_next_0 n live p q :
    memalign n live PAGE_SIZE = Some p -> p <= q < p + PAGE_SIZE -> raw_next n q = 0
}.

Record heap_ok (live : gmap Z Z) : Prop := {
  ho_block p s : live !! p = Some s -> 0 < p /\ 0 < s /\ p mod 16 = 0 /\ p + s < 2 ^ 63;
  ho_disj p q s t : live !! p = Some s -> live !! q = Some t -> p <> q -> disj p s q t
}.

(** ** The pages and the regions in them *)

(** Where the page of a node starts: the first page starts with the [Pool]. *)
Definition base (m : MemoryPool) (a : Z) : Z := if a =? head_ m then pool_ m else a.

(** The regions in the page of [a]. *)
Definition within (m : MemoryPool) (a : Z) (rs : gmap Z Z) : gmap Z Z :=
  filter (fun e => base m a <= fst e < base m a + PAGE_SIZE) rs.

Record node_ok (m : MemoryPool) (rs : gmap Z Z) (a : Z) (n : SmallNode) : Prop := {
  no_live : live m !! base m a = Some PAGE_SIZE;
  no_end : end_ n = base m a + PAGE_SIZE;
  no_last : a + sizeof_SmallNode <= last_ n <= end_ n;
  no_quote : quote_ n = Z.of_nat (size (within m a rs));
  no_mark : 16 * quote_ n <= mp_align_ptr (last_ n) MP_ALIGNMENT - a
}.

Record region_ok (m : MemoryPool) (l : list Z) (r s : Z) : Prop := {
  ro_pos : 0 < s;
  ro_align : r mod 16 = 0;
  ro_node : exists a n, a ∈ l /\ small m !! a = Some n /\ a + sizeof_SmallNode <= r /\ r + s <= last_ n
}.

Record pages_ok (m : MemoryPool) (rs : gmap Z Z) (l : list Z) : Prop := {
  po_heap : heap_ok (live m);
  po_head : head_ m = pool_ m + sizeof_Pool;
  po_pool : pool_ m ∉ l;
  po_chain : chain (fun a => next_ <$> small m !! a) (head_ m) l;
  po_nodup : NoDup l;
  po_current : current_ m ∈ l;
  po_node a n : a ∈ l -> small m !! a = Some n -> node_ok m rs a n;
  po_region r s : rs !! r = Some s -> region_ok m l r s;
  po_disj r s q t : rs !! r = Some s -> rs !! q = Some t -> r <> q -> disj r s q t
}.

Lemma chain_mem next p l a : chain next p l -> a ∈ l -> exists q, next a = Some q.
Proof. intros Hc Ha. destruct (chain_suffix _ _ _ _ Hc Ha) as (_ & l2 & _ & Hc2 & l3 & ->). destruct Hc2 as (_ & _ & q & Hq & _). by exists q. Qed.

Section Pages.
Context (m : MemoryPool) (rs : gmap Z Z) (l : list Z) (Hok : pages_ok m rs l).

Lemma page_node a : a ∈ l -> exists n, small m !! a = Some n /\ node_ok m rs a n.
Proof.
  intros Ha. destruct (chain_mem _ _ _ _ (po_chain _ _ _ Hok) Ha) as [q Hq].
  destruct (small m !! a) as [n|] eqn:E; [|done]. exists n. split; [done|]. by apply Hok.
Qed.

Lemma page_fuel : (length l <= size (small m))%nat.
Proof.
  rewrite <- size_dom. rewrite <- (size_list_to_set (C := gset Z) l) by apply Hok.
  apply subseteq_size. intros a Ha%elem_of_list_to_set.
  destruct (page_node a Ha) as (n & Hn & _). by apply elem_of_dom_2 in Hn.
Qed.

Lemma base_inj a b : a ∈ l -> b ∈ l -> base m a = base m b -> a = b.
Proof.
  intros Ha Hb. pose proof (po_pool _ _ _ Hok). unfold base.
  repeat case_match; try lia; intros He; exfalso; subst; set_solver.
Qed.

Lemma base_le a : base m a <= a <= base m a + sizeof_Pool.
Proof. pose proof (po_head _ _ _ Hok). unfold base, sizeof_Pool, PAGE_SIZE in *. case_match; lia. Qed.

(** Pages of distinct nodes are disjoint. *)
Lemma page_disj a b :
  a ∈ l -> b ∈ l -> a <> b -> disj (base m a) PAGE_SIZE (base m b) PAGE_SIZE.
Proof.
  intros Ha Hb Hne. destruct (page_node a Ha) as (n & _ & Hn), (page_node b Hb) as (n' & _ & Hn').
  eapply (ho_disj _ (po_heap _ _ _ Hok)); [apply Hn|apply Hn'|]. intros He. by apply Hne, base_inj.
Qed.

(** Where a node's page lies. *)
Lemma page_bounds a n :
  a ∈ l -> small m !! a = Some n ->
  0 < base m a /\ base m a mod 16 = 0 /\ base m a + PAGE_SIZE < 2 ^ 63 /\
  base m a <= a /\ a + sizeof_SmallNode <= last_ n /\ last_ n <= base m a + PAGE_SIZE.
Proof.
  intros Ha Hn. destruct (po_node _ _ _ Hok a n Ha Hn) as [H1 H2 H3 _ _].
  destruct (ho_block _ (po_heap _ _ _ Hok) _ _ H1) as (? & _ & ? & ?). pose proof (base_le a). lia.
Qed.

(** The node whose page holds a region. *)
Lemma region_page r s :
  rs !! r = Some s -> exists a n, a ∈ l /\ small m !! a = Some n /\ 0 < s /\ r mod 16 = 0 /\
    a + sizeof_SmallNode <= r /\ r + s <= last_ n /\ base m a <= r < base m a + PAGE_SIZE.
Proof.
  intros Hr. destruct (po_region _ _ _ Hok r s Hr) as [H1 H2 (a & n & Ha & Hn & H3 & H4)].
  exists a, n. destruct (page_bounds a n Ha Hn) as (? & ? & ? & ? & ? & ?). unfold sizeof_SmallNode in *. repeat split; first [done|lia].
Qed.
End Pages.

(** ** Handing out and taking back a region *)

Lemma within_insert_in m a rs r s :
  rs !! r = None -> base m a <= r < base m a + PAGE_SIZE ->
  size (within m a (<[r := s]> rs)) = S (size (within m a rs)).
Proof.
  intros Hr Hin. unfold within. rewrite map_filter_insert_True by done.
  rewrite map_size_insert_None; [done|]. apply map_lookup_filter_None. by left.
Qed.

Lemma within_insert_out m a rs r s :
  rs !! r = None -> ~ (base m a <= r < base m a + PAGE_SIZE) ->
  within m a (<[r := s]> rs) = within m a rs.
Proof. intros Hr Hin. unfold within. rewrite map_filter_insert_False, delete_id by done. done. Qed.

Lemma within_delete_in m a rs r s :
  rs !! r = Some s -> base m a <= r < base m a + PAGE_SIZE ->
  size (within m a rs) = S (size (within m a (delete r rs))).
Proof.
  intros Hr Hin. rewrite <- (insert_delete_id rs r s Hr) at 1.
  apply within_insert_in; [apply lookup_delete_eq|done].
Qed.

Lemma within_delete_out m a rs r :
  ~ (base m a <= r < base m a + PAGE_SIZE) -> within m a (delete r rs) = within m a rs.
Proof.
  intros Hin. unfold within. rewrite map_filter_delete. apply delete_id.
  apply map_lookup_filter_None. right. by intros s _.
Qed.

(** The node after [malloc] took [size] bytes at [addr]. *)
Definition took_node (n : SmallNode) (addr size : Z) : SmallNode :=
  set_last (set_quote n (u32 (quote_ n + 1))) (addr + size).

Section Alloc.
Context (m : MemoryPool) (rs : gmap Z Z) (l : list Z) (Hok : pages_ok m rs l).
Context (a size : Z) (n : SmallNode) (Ha : a ∈ l) (Hn : small m !! a = Some n) (Hsize : 0 < size).
Let addr := mp_align_ptr (last_ n) MP_ALIGNMENT.
Context (Hfit : addr + size <= end_ n).

Lemma alloc_bounds :
  last_ n <= addr < last_ n + 16 /\ addr mod 16 = 0 /\ base m a <= addr < base m a + PAGE_SIZE /\
  a + sizeof_SmallNode <= addr /\ addr + size <= base m a + PAGE_SIZE.
Proof.
  destruct (page_bounds _ _ _ Hok a n Ha Hn) as (H1 & H2 & H3 & H4 & H5 & H6).
  destruct (po_node _ _ _ Hok a n Ha Hn) as [_ He _ _ _].
  assert (0 <= last_ n < 2 ^ 63) as Hl by (unfold sizeof_SmallNode in *; lia).
  destruct (align_bounds _ Hl) as [Hb Hm]. fold addr in Hb, Hm.
  split; [lia|]. split; [done|]. unfold sizeof_SmallNode in *. lia.
Qed.

Lemma alloc_fresh : rs !! addr = None.
Proof.
  destruct (rs !! addr) as [s|] eqn:E; [|done]. exfalso.
  destruct (region_page _ _ _ Hok _ _ E) as (b & nb & Hb & Hnb & Hs & _ & H1 & H2 & H3).
  destruct alloc_bounds as (A1 & A2 & A3 & A4 & A5). destruct (decide (a = b)) as [<-|Hne].
  - assert (nb = n) as -> by congruence. lia.
  - destruct (page_disj _ _ _ Hok a b Ha Hb Hne); lia.
Qed.

Lemma alloc_apart r s : rs !! r = Some s -> disj addr size r s.
Proof.
  intros Hr. destruct (region_page _ _ _ Hok _ _ Hr) as (b & nb & Hb & Hnb & Hs & _ & H1 & H2 & H3).
  destruct alloc_bounds as (A1 & A2 & A3 & A4 & A5). destruct (decide (a = b)) as [<-|Hne].
  - assert (nb = n) as -> by congruence. right. lia.
  - destruct (page_bounds _ _ _ Hok b nb Hb Hnb) as (_ & _ & _ & _ & _ & H6).
    destruct (page_disj _ _ _ Hok a b Ha Hb Hne); lia.
Qed.

Lemma alloc_quote : u32 (quote_ n + 1) = quote_ n + 1.
Proof.
  destruct (page_bounds _ _ _ Hok a n Ha Hn) as (H1 & H2 & H3 & H4 & H5 & H6).
  destruct (po_node _ _ _ Hok a n Ha Hn) as [_ He Hl Hq Hm].
  destruct alloc_bounds as (A1 & A2 & A3 & A4 & A5). fold addr in Hm.
  pose proof (base_le _ _ _ Hok a). unfold PAGE_SIZE, sizeof_Pool in *. apply uwrap_small. lia.
Qed.

Let m' := set_small m (<[a := took_node n addr size]> (small m)).

Lemma alloc_node_ok b nb : b ∈ l -> small m' !! b = Some nb -> node_ok m' (<[addr := size]> rs) b nb.
Proof.
  intros Hb Hnb. destruct alloc_bounds as (A1 & A2 & A3 & A4 & A5). pose proof alloc_fresh as Hf.
  destruct (page_bounds _ _ _ Hok a n Ha Hn) as (H1 & H2 & H3 & H4 & H5 & H6).
  simpl in Hnb. destruct (decide (a = b)) as [<-|Hne].
  - rewrite lookup_insert_eq in Hnb. injection Hnb as <-.
    destruct (po_node _ _ _ Hok a n Ha Hn) as [N1 N2 N3 N4 N5].
    split; cbn [took_node set_last set_quote end_ last_ quote_]; try done.
    + change (base m' a) with (base m a). lia.
    + rewrite alloc_quote, N4. change (within m') with (within m). rewrite within_insert_in by done. lia.
    + rewrite alloc_quote. fold addr in N5. unfold sizeof_SmallNode in *.
      destruct (align_bounds (addr + size)) as [B1 B2]; [lia|]. dlia.
  - rewrite lookup_insert_ne in Hnb by done.
    destruct (po_node _ _ _ Hok b nb Hb Hnb) as [N1 N2 N3 N4 N5]. split; try done.
    change (within m') with (within m). rewrite within_insert_out; [done|done|].
    change (base m' b) with (base m b). destruct (page_disj _ _ _ Hok a b Ha Hb Hne); lia.
Qed.

Lemma alloc_ok : pages_ok m' (<[addr := size]> rs) l.
Proof.
  destruct alloc_bounds as (A1 & A2 & A3 & A4 & A5). destruct Hok as [P1 P2 P3 P4 P5 P6 P7 P8 P9].
  split; try done.
  - eapply chain_ext; [|exact P4]. intros b Hb. simpl. destruct (decide (a = b)) as [<-|Hne].
    + rewrite lookup_insert_eq, Hn. done.
    + by rewrite lookup_insert_ne.
  - intros b nb. apply alloc_node_ok.
  - intros r s Hr. destruct (decide (addr = r)) as [<-|Hne].
    + rewrite lookup_insert_eq in Hr. injection Hr as <-. split; [done|done|].
      exists a, (took_node n addr size). simpl. rewrite lookup_insert_eq. repeat split; first [done|lia].
    + rewrite lookup_insert_ne in Hr by done. destruct (P8 r s Hr) as [R1 R2 (b & nb & Hb & Hnb & R3 & R4)].
      split; [done|done|]. destruct (decide (a = b)) as [<-|Hab].
      * assert (nb = n) as -> by congruence. exists a, (took_node n addr size). simpl.
        rewrite lookup_insert_eq. repeat split; first [done|lia].
      * exists b, nb. simpl. by rewrite lookup_insert_ne.
  - intros r s q t. rewrite !lookup_insert_Some. intros [[<- <-]|[Hr Hr']] [[<- <-]|[Hq Hq']] Hne; try done.
    + by apply alloc_apart.
    + pose proof (alloc_apart _ _ Hr'). lia.
    + by apply (P9 r s q t).
Qed.
End Alloc.

(** ** Looking for a page *)

Lemma find_small_ok m rs l fuel cur l2 size :
  pages_ok m rs l -> 0 < size < 2 ^ 63 ->
  chain (fun a => next_ <$> small m !! a) cur l2 -> l2 ⊆ l -> (length l2 < fuel)%nat ->
  find_small fuel m cur size = Ok (None, m) \/
  exists a n, a ∈ l /\ small m !! a = Some n /\
    let addr := mp_align_ptr (last_ n) MP_ALIGNMENT in
    addr + size <= end_ n /\
    find_small fuel m cur size = Ok (Some addr, set_small m (<[a := took_node n addr size]> (small m))).
Proof.
  intros Hok Hsize. revert fuel cur. induction l2 as [|a l2 IH]; intros fuel cur Hc Hl Hf;
    (destruct fuel as [|fuel]; [simpl in Hf; lia|]); cbn [find_small].
  - simpl in Hc. subst cur. by left.
  - destruct Hc as (-> & Ha0 & q & Hq & Hc). rewrite (proj2 (Z.eqb_neq _ _)) by done.
    destruct (page_node _ _ _ Hok a) as (n & Hn & [_ N2 N3 _ _]); [set_solver|].
    rewrite (small_at_Some _ _ _ Hn), bind_Ok.
    destruct (page_bounds _ _ _ Hok a n) as (B1 & B2 & B3 & B4 & B5 & B6); [set_solver|done|].
    unfold sizeof_SmallNode, PAGE_SIZE in *.
    pose proof (align_le (last_ n) (end_ n) ltac:(lia) ltac:(lia) ltac:(rewrite N2; dlia)) as Hal.
    destruct (align_bounds (last_ n)) as [Hab _]; [lia|].
    rewrite (uwrap_small 64) by lia. destruct (end_ n - _ >=? size) eqn:Hge.
    + right. exists a, n. split; [set_solver|]. split; [done|]. split; [lia|done].
    + rewrite Hn in Hq. simpl in Hq. injection Hq as ->.
      apply IH; [done|set_solver|simpl in Hf; lia].
Qed.

(** The walk to the last node changes the counters [failed_] and its last [next_]
    only. *)
Lemma append_small_ok node fuel m cur current l2 :
  chain (fun a => next_ <$> small m !! a) cur l2 -> NoDup l2 -> l2 <> [] -> (length l2 <= fuel)%nat ->
  exists current' s, append_small fuel m cur current node = Ok (current', set_small m s) /\
    (current' = current \/ current' ∈ l2) /\
    (forall a, a ∉ l2 -> s !! a = small m !! a) /\
    (forall a n, a ∈ l2 -> small m !! a = Some n ->
      exists k, s !! a = Some (set_next (set_failed n k) (if decide (last l2 = Some a) then node else next_ n))).
Proof.
  revert m fuel cur current. induction l2 as [|a l2 IH]; intros m fuel cur current Hc Hnd Hne Hf; [done|].
  destruct fuel as [|fuel]; [simpl in Hf; lia|]. cbn [append_small].
  destruct Hc as (-> & Ha0 & q & Hq & Hc). destruct (small m !! a) as [n|] eqn:Hn; [|done].
  simpl in Hq. injection Hq as <-. rewrite (small_at_Some _ _ _ Hn), bind_Ok.
  apply NoDup_cons in Hnd as [Hal Hnd]. destruct l2 as [|b l2].
  - simpl in Hc. rewrite Hc. simpl. exists current, (<[a := set_next n node]> (small m)).
    split; [done|]. split; [by left|]. split.
    + intros b Hb. rewrite lookup_insert_ne by set_solver. done.
    + intros b nb Hb Hnb. apply list_elem_of_singleton in Hb as ->. exists (failed_ n).
      rewrite lookup_insert_eq. assert (nb = n) as -> by congruence. rewrite decide_True by done. by destruct n.
  - assert (next_ n = b) as Hb by (by destruct Hc). rewrite (proj2 (Z.eqb_neq _ _)).
    2: { rewrite Hb. by destruct Hc as (_ & ? & _). } cbn [negb].
    set (m1 := set_small m _).
    destruct (IH m1 fuel (next_ n) (if failed_ n >=? 5 then next_ n else current)) as (c' & s & E & H1 & H2 & H3).
    + eapply chain_ext; [|exact Hc]. intros d Hd. simpl. by rewrite lookup_insert_ne by set_solver.
    + done.
    + done.
    + simpl in *. lia.
    + exists c', s. split; [exact E|]. split; [|split].
      * destruct H1 as [->|H1]; [|by set_solver]. case_match; [right; rewrite Hb; set_solver|by left].
      * intros d Hd. rewrite H2 by set_solver. simpl. by rewrite lookup_insert_ne by set_solver.
      * intros d nd Hd Hnd'. apply elem_of_cons in Hd as [->|Hd].
        -- exists (u32 (failed_ n + 1)). rewrite H2 by done. simpl. rewrite lookup_insert_eq.
           assert (nd = n) as -> by congruence. rewrite decide_False; [by destruct n|].
           change (last (a :: b :: l2)) with (last (b :: l2)). intros Hl. by apply Hal, last_Some_elem_of.
        -- destruct (H3 d nd Hd) as [k Hk]; [simpl; by rewrite lookup_insert_ne by set_solver|].
           by exists k.
Qed.

(** ** A new page *)

(** The nodes of [l], with [node] linked after the last. *)
Definition linked (l : list Z) (node : Z) (s s' : gmap Z SmallNode) : Prop :=
  forall a n, a ∈ l -> s !! a = Some n ->
    exists k, s' !! a = Some (set_next (set_failed n k) (if decide (last l = Some a) then node else next_ n)).

Lemma append_small_linked m rs l node fuel s0 :
  pages_ok m rs l -> node ∉ l -> (length l <= fuel)%nat ->
  (forall a, a ∈ l -> s0 !! a = small m !! a) ->
  exists current' s, append_small fuel (set_small m s0) (current_ m) (current_ m) node = Ok (current', set_small m s) /\
    current' ∈ l /\ s !! node = s0 !! node /\ linked l node (small m) s.
Proof.
  intros Hok Hnode Hf Hs0. pose proof (po_chain _ _ _ Hok) as Hc. pose proof (po_nodup _ _ _ Hok) as Hnd.
  destruct (chain_suffix _ _ _ _ Hc (po_current _ _ _ Hok)) as (l1 & l2 & -> & Hc2 & l3 & El2).
  apply NoDup_app in Hnd as (Hnd1 & Hd & Hnd2).
  assert (l2 <> []) as Hne by (by rewrite El2).
  destruct (append_small_ok node fuel (set_small m s0) (current_ m) (current_ m) l2) as (c' & s & E & H1 & H2 & H3);
    [|done|done|rewrite length_app in Hf; lia|].
  { eapply chain_ext; [|exact Hc2]. intros a Ha. simpl. by rewrite Hs0 by set_solver. }
  exists c', s. split; [exact E|]. split; [|split].
  - pose proof (po_current _ _ _ Hok). destruct H1 as [->|H1]; [done|set_solver].
  - rewrite H2 by set_solver. done.
  - intros a n Ha Hn. destruct (decide (a ∈ l2)) as [Ha2|Ha2].
    + destruct (H3 a n Ha2) as [k Hk]; [simpl; by rewrite Hs0|]. exists k. rewrite Hk.
      rewrite last_app. destruct (last l2) eqn:El; [done|]. by apply last_None in El.
    + exists (failed_ n). rewrite H2 by done. simpl. rewrite Hs0 by done. rewrite Hn. rewrite decide_False; [by destruct n|].
      rewrite last_app. destruct (last l2) eqn:El; [|by apply last_None in El].
      intros [= ->]. apply last_Some_elem_of in El. done.
Qed.

Lemma heap_ok_insert live p s :
  heap_ok live -> 0 < p -> 0 < s -> p mod 16 = 0 -> p + s < 2 ^ 63 ->
  (forall q t, live !! q = Some t -> disj p s q t) ->
  live !! p = None /\ heap_ok (<[p := s]> live).
Proof.
  intros [P1 P2] H1 H2 H3 H4 H5. split.
  - destruct (live !! p) as [t|] eqn:E; [|done]. destruct (P1 _ _ E) as (? & ? & _), (H5 _ _ E); lia.
  - split.
    + intros q t. rewrite lookup_insert_Some. intros [[<- <-]|[_ Hq]]; [done|by apply P1].
    + intros q r t u. rewrite !lookup_insert_Some. intros [[<- <-]|[Hq Hq']] [[<- <-]|[Hr Hr']] Hne; try done.
      * by apply H5.
      * pose proof (H5 _ _ Hq'). lia.
      * by apply (P2 q r).
Qed.

Lemma heap_ok_delete live p : heap_ok live -> heap_ok (delete p live).
Proof.
  intros [P1 P2]. split.
  - intros q t [_ Hq]%lookup_delete_Some. by apply P1.
  - intros q r t u [_ Hq]%lookup_delete_Some [_ Hr]%lookup_delete_Some. by apply P2.
Qed.

Section NewPage.
Context (m : MemoryPool) (rs : gmap Z Z) (l : list Z) (Hok : pages_ok m rs l).
Context (block failed : Z).
Context (Hpos : 0 < block) (Hal : block mod 16 = 0) (Hend : block + PAGE_SIZE < 2 ^ 63).
Context (Hapart : forall q t, live m !! q = Some t -> disj block PAGE_SIZE q t).

Lemma new_page_apart a : a ∈ l -> disj block PAGE_SIZE (base m a) PAGE_SIZE.
Proof. intros Ha. destruct (page_node _ _ _ Hok a Ha) as (n & _ & Hn). apply Hapart, Hn. Qed.

Lemma new_page_notin : block ∉ l /\ block <> pool_ m.
Proof.
  assert (head_ m ∈ l) as Hh.
  { pose proof (po_chain _ _ _ Hok) as Hc. pose proof (po_current _ _ _ Hok). destruct l; [set_solver|].
    destruct Hc as (-> & _). set_solver. }
  assert (disj block PAGE_SIZE (pool_ m) PAGE_SIZE) as Hp.
  { pose proof (new_page_apart _ Hh) as Hd. unfold base in Hd. by rewrite Z.eqb_refl in Hd. }
  unfold PAGE_SIZE in *. split; [|lia]. intros Hb. pose proof (new_page_apart _ Hb) as Hd.
  pose proof (po_head _ _ _ Hok). unfold base, sizeof_Pool, PAGE_SIZE in *. case_match; lia.
Qed.

Lemma new_page_empty : base m block = block -> within m block rs = ∅.
Proof.
  intros Hb. apply map_eq. intros r. rewrite lookup_empty. apply map_lookup_filter_None. right.
  intros sz Hr. destruct (region_page _ _ _ Hok r sz Hr) as (a & nd & Ha & _ & _ & _ & _ & _ & R).
  pose proof (new_page_apart _ Ha). rewrite Hb. simpl. lia.
Qed.

Lemma new_page_base : base m block = block.
Proof.
  unfold base. destruct (block =? head_ m) eqn:E; [|done]. exfalso. apply (proj1 new_page_notin).
  assert (block = head_ m) as -> by lia.
  pose proof (po_chain _ _ _ Hok) as Hc. pose proof (po_current _ _ _ Hok). destruct l; [set_solver|].
  destruct Hc as (-> & _). set_solver.
Qed.

(** The page before anything is taken from it. *)
Definition new_node : SmallNode :=
  mkSmallNode (block + PAGE_SIZE) (block + sizeof_SmallNode) 0 failed 0.

Lemma new_page_ok current s n :
  current ∈ l -> linked l block (small m) s ->
  pages_ok (mkMemoryPool (pool_ m) (large_list_ m) (head_ m) current (<[block := new_node]> s) (large m)
              (<[block := PAGE_SIZE]> (live m)) n) rs (l ++ [block]).
Proof.
  intros Hcur Hlink. destruct new_page_notin as [Hnl Hnp].
  destruct (heap_ok_insert (live m) block PAGE_SIZE (po_heap _ _ _ Hok)) as [Hfresh Hheap]; try done.
  assert (Hnode : forall a nd, a ∈ l -> small m !! a = Some nd -> exists k,
    <[block := new_node]> s !! a = Some (set_next (set_failed nd k) (if decide (last l = Some a) then block else next_ nd))).
  { intros a nd Ha Hnd. destruct (Hlink a nd Ha Hnd) as [k Hk]. exists k. by rewrite lookup_insert_ne by set_solver. }
  split; cbn [live head_ pool_ small current_].
  - done.
  - apply Hok.
  - pose proof (po_pool _ _ _ Hok). set_solver.
  - eapply chain_snoc; [apply Hok|apply Hok|done|lia| | |].
    + pose proof (po_current _ _ _ Hok). by destruct l; [set_solver|].
    + intros a Ha. simpl. destruct (page_node _ _ _ Hok a Ha) as (nd & Hnd & _).
      destruct (Hnode a nd Ha Hnd) as [k Hk]. rewrite Hk, Hnd. simpl. by case_decide.
    + simpl. by rewrite lookup_insert_eq.
  - apply NoDup_app. split; [apply Hok|]. split; [set_solver|apply NoDup_singleton].
  - set_solver.
  - intros a nd Ha Hnd. apply elem_of_app in Ha as [Ha|Ha%list_elem_of_singleton].
    + destruct (page_node _ _ _ Hok a Ha) as (nd' & Hnd' & [N1 N2 N3 N4 N5]).
      destruct (Hnode a nd' Ha Hnd') as [k Hk]. rewrite Hk in Hnd. injection Hnd as <-.
      split; try done. cbn [live]. rewrite lookup_insert_ne; [done|].
      intros He. change (block = base m a) in He. rewrite He in Hfresh. congruence.
    + subst a. rewrite lookup_insert_eq in Hnd. injection Hnd as <-.
      pose proof new_page_base as Hb.
      split; change (base _ block) with (base m block); rewrite ?Hb; try done.
      * cbn [live]. by rewrite lookup_insert_eq.
      * simpl. unfold sizeof_SmallNode, PAGE_SIZE in *. lia.
      * change (within _ block rs) with (within m block rs). rewrite (new_page_empty Hb). done.
      * simpl. unfold sizeof_SmallNode, PAGE_SIZE in *.
        destruct (align_bounds (block + 32)); [lia|]. lia.
  - intros r sz Hr. destruct (po_region _ _ _ Hok r sz Hr) as [R1 R2 (a & nd & Ha & Hnd & R3 & R4)].
    split; [done|done|]. destruct (Hnode a nd Ha Hnd) as [k Hk]. eexists a, _. split; [set_solver|].
    split; [exact Hk|]. done.
  - apply Hok.
Qed.
End NewPage.

(** ** malloc of a small size *)

Lemma pages_ok_frame m m' rs l :
  pages_ok m rs l -> pool_ m' = pool_ m -> head_ m' = head_ m -> current_ m' = current_ m ->
  (forall a, a ∈ l -> small m' !! a = small m !! a) -> heap_ok (live m') ->
  (forall a, a ∈ l -> live m' !! base m a = live m !! base m a) -> pages_ok m' rs l.
Proof.
  intros [P1 P2 P3 P4 P5 P6 P7 P8 P9] E1 E2 E3 Hs Hh Hl.
  assert (forall a, base m' a = base m a) as Hb by (intros a; unfold base; by rewrite E1, E2).
  split; rewrite ?E1, ?E2, ?E3; try done.
  - eapply chain_ext; [|exact P4]. intros a Ha. simpl. by rewrite Hs.
  - intros a n Ha Hn. rewrite Hs in Hn by done. destruct (P7 a n Ha Hn) as [N1 N2 N3 N4 N5].
    split; rewrite ?Hb; try done.
    + by rewrite Hl.
    + unfold within. rewrite Hb. done.
  - intros r s Hr. destruct (P8 r s Hr) as [R1 R2 (a & n & Ha & Hn & R3 & R4)]. split; [done|done|].
    exists a, n. by rewrite Hs.
Qed.

(** What a call that takes [size] bytes out of the pages may have done: nothing (it
    returned null), or [a] is a new region, perhaps in a new page. *)
Record small_result (m : MemoryPool) (rs : gmap Z Z) (l : list Z) (size a : Z) (m' : MemoryPool) : Prop := {
  sr_large : large m' = large m;
  sr_list : large_list_ m' = large_list_ m;
  sr_pool : pool_ m' = pool_ m;
  sr_head : head_ m' = head_ m;
  sr_pages : (a = 0 /\ pages_ok m' rs l /\ live m' = live m) \/
    (0 < a /\ rs !! a = None /\ exists l', pages_ok m' (<[a := size]> rs) l' /\
       (forall p s, live m !! p = Some s -> live m' !! p = Some s) /\
       (forall b, b ∈ l' -> b ∈ l \/ live m !! base m' b = None))
}.

Lemma MallocSmallNode_ok `{!HeapLaws H, !HeapCleared H} m rs l size :
  pages_ok m rs l -> 0 < size <= PAGE_SIZE - sizeof_SmallNode ->
  exists a m', MallocSmallNode m size = Ok (a, m') /\ small_result m rs l size a m'.
Proof.
  intros Hok Hsize. unfold MallocSmallNode, posix_memalign.
  destruct (memalign (calls m) (live m) PAGE_SIZE) as [block|] eqn:Hb.
  2: { eexists 0, _. split; [reflexivity|]. split; try done. left. split; [done|]. split; [|done].
       apply (pages_ok_frame m); try done. apply Hok. }
  destruct (memalign_spec _ _ PAGE_SIZE block ltac:(done) Hb) as (B1 & B2 & B3 & B4).
  destruct (new_page_notin m rs l Hok block B1 B2 B3 B4) as [Hnl Hnp].
  destruct (heap_ok_insert (live m) block PAGE_SIZE (po_heap _ _ _ Hok)) as [Hfresh Hheap]; try done.
  set (m1 := mkMemoryPool (pool_ m) (large_list_ m) (head_ m) (current_ m) (small m) (large m) _ _).
  set (node := mkSmallNode _ _ _ _ _). cbn zeta.
  assert (pages_ok m1 rs l) as Hok1.
  { apply (pages_ok_frame m); try done. intros a Ha. cbn [m1 live]. rewrite lookup_insert_ne; [done|].
    intros He. destruct (page_node _ _ _ Hok a Ha) as (n & _ & Hn). apply no_live in Hn. congruence. }
  destruct (append_small_linked m1 rs l block (node_fuel (set_small m1 (<[block := node]> (small m1))))
    (<[block := node]> (small m1))) as (current & s & E & Hcur & Hs & Hlink); [done|done| | |].
  { pose proof (page_fuel m1 rs l Hok1) as Hf. unfold node_fuel. cbn [small set_small m1] in *.
    rewrite map_size_insert. case_match; simpl; lia. }
  { intros a Ha. rewrite lookup_insert_ne by set_solver. done. }
  change (set_small m1 (<[block := node]> (small m1))) with (set_small m1 (<[block := node]> (small m))) in *.
  cbn [current_ set_small m1] in E |- *. rewrite E, bind_Ok. eexists _, _. split; [reflexivity|].
  set (addr := mp_align_ptr (block + sizeof_SmallNode) MP_ALIGNMENT) in *.
  pose proof (new_page_ok m rs l Hok block (raw_failed (calls m) block) B1 B2 B3 B4 current s (S (calls m)) Hcur Hlink) as Hnew.
  assert (0 < addr /\ addr + size <= block + PAGE_SIZE) as [Ha0 Hfit].
  { pose proof (align_le (block + sizeof_SmallNode) (block + sizeof_SmallNode)) as A.
    destruct (align_bounds (block + sizeof_SmallNode)) as [A' _]; unfold sizeof_SmallNode, PAGE_SIZE in *; [lia|].
    fold addr in A, A'. specialize (A ltac:(lia) ltac:(lia) ltac:(dlia)). lia. }
  set (mE := mkMemoryPool _ _ _ _ _ _ _ _) in Hnew.
  assert (small mE !! block = Some (new_node block (raw_failed (calls m) block))) as HnE by (cbn [mE small]; by rewrite lookup_insert_eq).
  assert (set_current (set_small m1 s) current =
    set_small mE (<[block := took_node (new_node block (raw_failed (calls m) block)) addr size]> (small mE))) as ->.
  { unfold set_current, set_small. cbn [mE m1 small pool_ large_list_ head_ large live calls current_]. f_equal.
    rewrite insert_insert_eq. symmetry. apply insert_id. rewrite Hs, lookup_insert_eq. f_equal.
    unfold node, took_node, new_node, set_last, set_quote. simpl.
    by rewrite (raw_quote_0 _ _ _ _ Hb) by (unfold PAGE_SIZE; lia). }
  assert (block ∈ l ++ [block]) as Hin by set_solver.
  split; try done. right. split; [done|]. split.
  - exact (alloc_fresh mE rs _ Hnew block size _ Hin HnE ltac:(lia) Hfit).
  - exists (l ++ [block]). split; [|split].
    + exact (alloc_ok mE rs _ Hnew block size _ Hin HnE ltac:(lia) Hfit).
    + intros p sz Hp. cbn [set_small mE live]. rewrite lookup_insert_ne; [done|]. congruence.
    + intros b Hbl. destruct (decide (b = block)) as [->|Hne]; [|left; set_solver]. right.
      change (base _ block) with (base m block). by rewrite (new_page_base m rs l Hok block B1 B2 B3 B4).
Qed.

Lemma malloc_small_ok `{!HeapLaws H, !HeapCleared H} m rs l size :
  pages_ok m rs l -> 0 < size <= PAGE_SIZE - sizeof_SmallNode ->
  exists a m', malloc_small m size = Ok (a, m') /\ small_result m rs l size a m'.
Proof.
  intros Hok Hsize. unfold malloc_small.
  destruct (chain_suffix _ _ _ _ (po_chain _ _ _ Hok) (po_current _ _ _ Hok)) as (l1 & l2 & El & Hc2 & _).
  destruct (find_small_ok m rs l (S (node_fuel m)) (current_ m) l2 size) as [E|(a & n & Ha & Hn & Hfit & E)];
    [done|unfold PAGE_SIZE, sizeof_SmallNode in *; lia|done|set_solver| | |].
  - pose proof (page_fuel m rs l Hok) as Hf. rewrite El, length_app in Hf. unfold node_fuel. lia.
  - rewrite E, bind_Ok. by apply MallocSmallNode_ok.
  - rewrite E, bind_Ok. eexists _, _. split; [reflexivity|]. split; try done. right.
    destruct (alloc_bounds m rs l Hok a size n Ha Hn ltac:(lia) Hfit) as (A1 & A2 & A3 & A4 & A5).
    destruct (page_bounds _ _ _ Hok a n Ha Hn) as (B1 & _ & _ & B4 & _).
    split; [unfold sizeof_SmallNode in *; lia|]. split; [exact (alloc_fresh m rs l Hok a size n Ha Hn ltac:(lia) Hfit)|].
    exists l. split; [exact (alloc_ok m rs l Hok a size n Ha Hn ltac:(lia) Hfit)|]. split; [done|]. by left.
Qed.

(** ** Large blocks *)

Lemma large_at_Some m p n : large m !! p = Some n -> large_at m p = Ok n.
Proof. unfold large_at. by intros ->. Qed.

Record large_ok (m : MemoryPool) (rs : gmap Z Z) (l L : list Z) : Prop := {
  lo_chain : chain (fun x => large_next_ <$> large m !! x) (large_list_ m) L;
  lo_nodup : NoDup L;
  lo_region x : x ∈ L -> rs !! x = Some sizeof_LargeNode;
  lo_address x n : x ∈ L -> large m !! x = Some n ->
    address_ n = 0 \/ exists s, live m !! address_ n = Some s /\ forall a, a ∈ l -> base m a <> address_ n;
  lo_inj x y n n' : x ∈ L -> y ∈ L -> x <> y -> large m !! x = Some n -> large m !! y = Some n' ->
    address_ n = address_ n' -> address_ n = 0
}.

(** The blocks the user holds: regions that are not nodes, and large blocks. *)
Definition gives (m : MemoryPool) (rs : gmap Z Z) (L : list Z) (p s : Z) : Prop :=
  (rs !! p = Some s /\ p ∉ L) \/
  (exists x n, x ∈ L /\ large m !! x = Some n /\ address_ n = p /\ live m !! p = Some s).

Record pool_inv (m : MemoryPool) (given : gmap Z Z) (rs : gmap Z Z) (l L : list Z) : Prop := {
  pi_pages : pages_ok m rs l;
  pi_large : large_ok m rs l L;
  pi_given p s : given !! p = Some s <-> gives m rs L p s
}.

Lemma large_node m rs l L x : large_ok m rs l L -> x ∈ L -> exists n, large m !! x = Some n.
Proof.
  intros Hl Hx. destruct (chain_mem _ _ _ _ (lo_chain _ _ _ _ Hl) Hx) as [q Hq].
  destruct (large m !! x) as [n|]; [by exists n|done].
Qed.

(** A region is not a block of its own. *)
Lemma region_not_block m rs l r s p t :
  pages_ok m rs l -> rs !! r = Some s -> live m !! p = Some t -> (forall a, a ∈ l -> base m a <> p) ->
  disj r s p t.
Proof.
  intros Hok Hr Hp Hb. destruct (region_page _ _ _ Hok r s Hr) as (a & n & Ha & Hn & H1 & _ & H2 & H3 & H4).
  destruct (page_bounds _ _ _ Hok a n Ha Hn) as (B1 & _ & _ & _ & _ & B6).
  destruct (page_node _ _ _ Hok a Ha) as (n' & _ & [N1 _ _ _ _]).
  destruct (ho_disj _ (po_heap _ _ _ Hok) _ _ _ _ N1 Hp (Hb a Ha)); lia.
Qed.

Lemma region_not_live m rs l r s t :
  pages_ok m rs l -> rs !! r = Some s -> live m !! r = Some t -> (forall a, a ∈ l -> base m a <> r) -> False.
Proof.
  intros Hok Hr Hl Hb. destruct (region_page _ _ _ Hok r s Hr) as (a & n & _ & _ & H1 & _).
  destruct (ho_block _ (po_heap _ _ _ Hok) r t Hl) as (_ & H2 & _).
  destruct (region_not_block m rs l r s r t Hok Hr Hl Hb); lia.
Qed.

(** The blocks the user holds are apart from each other. *)
Lemma gives_apart m rs l L p s q t :
  pages_ok m rs l -> large_ok m rs l L -> gives m rs L p s -> gives m rs L q t -> p <> q -> disj p s q t.
Proof.
  intros Hok HL.
  assert (Haddr : forall x n p s, x ∈ L -> large m !! x = Some n -> address_ n = p -> live m !! p = Some s ->
    forall a, a ∈ l -> base m a <> p).
  { intros x n p' s' Hx Hn <- Hl. destruct (lo_address _ _ _ _ HL x n Hx Hn) as [H0|(u & _ & Hb)]; [|done].
    rewrite H0 in Hl. destruct (ho_block _ (po_heap _ _ _ Hok) _ _ Hl). lia. }
  intros [[Hp _]|(x & n & Hx & Hn & Ep & Hp)] [[Hq _]|(y & n' & Hy & Hn' & Eq & Hq)] Hne.
  - by apply (po_disj _ _ _ Hok p s q t).
  - apply (region_not_block m rs l p s q t); try done. by eapply Haddr.
  - assert (disj q t p s); [|lia]. apply (region_not_block m rs l q t p s); try done. by eapply Haddr.
  - by apply (ho_disj _ (po_heap _ _ _ Hok) p q s t).
Qed.

Lemma large_ok_addresses m m' rs rs' l l' L :
  large_ok m rs l L -> large_list_ m' = large_list_ m ->
  (forall x, x ∈ L -> large m' !! x = large m !! x /\ rs' !! x = rs !! x) ->
  (forall x n s, x ∈ L -> large m !! x = Some n -> address_ n <> 0 ->
     live m !! address_ n = Some s -> (forall a, a ∈ l -> base m a <> address_ n) ->
     live m' !! address_ n = Some s /\ forall a, a ∈ l' -> base m' a <> address_ n) ->
  large_ok m' rs' l' L.
Proof.
  intros [L1 L2 L3 L4 L5] E Hx Hp. split; [| done | | |].
  - rewrite E. eapply chain_ext; [|exact L1]. intros x Hin. simpl. by destruct (Hx x Hin) as [-> _].
  - intros x Hin. destruct (Hx x Hin) as [_ ->]. by apply L3.
  - intros x n Hin. destruct (Hx x Hin) as [-> _]. intros Hn. destruct (decide (address_ n = 0)) as [|Hn0]; [by left|].
    destruct (L4 x n Hin Hn) as [H0|(s & Hs & Hb)]; [by left|right]. exists s. by apply (Hp x).
  - intros x y n n' Hxl Hyl Hne. destruct (Hx x Hxl) as [-> _], (Hx y Hyl) as [-> _]. by apply (L5 x y).
Qed.

Lemma large_ok_frame m m' rs rs' l l' L :
  large_ok m rs l L -> large_list_ m' = large_list_ m ->
  (forall x, x ∈ L -> large m' !! x = large m !! x /\ rs' !! x = rs !! x) ->
  (forall p s, live m !! p = Some s -> (forall a, a ∈ l -> base m a <> p) ->
     live m' !! p = Some s /\ forall a, a ∈ l' -> base m' a <> p) ->
  large_ok m' rs' l' L.
Proof. intros HL E Hx Hp. apply (large_ok_addresses m m' rs rs' l l' L HL E Hx). intros; by apply Hp. Qed.

(** The large blocks stay as they are. *)
Lemma small_result_large m rs l L size a m' :
  pages_ok m rs l -> large_ok m rs l L -> small_result m rs l size a m' ->
  (a = 0 /\ pages_ok m' rs l /\ large_ok m' rs l L /\ live m' = live m) \/
  (0 < a /\ rs !! a = None /\ exists l', pages_ok m' (<[a := size]> rs) l' /\ large_ok m' (<[a := size]> rs) l' L /\
     (forall p s, live m !! p = Some s -> live m' !! p = Some s) /\
     (forall p s, live m !! p = Some s -> (forall b, b ∈ l -> base m b <> p) -> forall b, b ∈ l' -> base m' b <> p)).
Proof.
  intros Hok HL [E1 E2 E3 E4 [(-> & Hp & Elive)|(Ha & Hr & l' & Hp & Hlive & Hl')]].
  - left. split; [done|]. split; [done|]. split; [|done]. apply (large_ok_frame m m' rs rs l l); try done.
    + intros x _. by rewrite E1.
    + intros p s Hs Hb. rewrite Elive. split; [done|]. intros b Hbl. unfold base. rewrite E3, E4. by apply Hb.
  - right. split; [done|]. split; [done|]. exists l'. split; [done|].
    assert (forall p s, live m !! p = Some s -> (forall b, b ∈ l -> base m b <> p) ->
      forall b, b ∈ l' -> base m' b <> p) as Hbase.
    { intros p s Hs Hb b Hbl. destruct (Hl' b Hbl) as [Hin|Hnone]; [|congruence].
      unfold base. rewrite E3, E4. by apply Hb. }
    split; [|done]. apply (large_ok_frame m m' rs _ l l'); try done.
    + intros x Hx. rewrite E1. split; [done|]. rewrite lookup_insert_ne; [done|]. intros ->.
      rewrite (lo_region _ _ _ _ HL x Hx) in Hr. done.
    + intros p s Hs Hb. split; [by apply Hlive|]. by eapply Hbase.
Qed.

Lemma gives_address m rs l L x n p s :
  heap_ok (live m) -> large_ok m rs l L -> x ∈ L -> large m !! x = Some n -> address_ n = p -> live m !! p = Some s ->
  forall a, a ∈ l -> base m a <> p.
Proof.
  intros Hh HL Hx Hn <- Hl. destruct (lo_address _ _ _ _ HL x n Hx Hn) as [H0|(u & _ & Hb)]; [|done].
  rewrite H0 in Hl. destruct (ho_block _ Hh _ _ Hl). lia.
Qed.

(** The addresses in the large nodes are live blocks, so a larger memory says the same
    of them. *)
Lemma live_same m m' rs l L x n s :
  heap_ok (live m) -> heap_ok (live m') -> large_ok m rs l L ->
  (forall p s, live m !! p = Some s -> live m' !! p = Some s) ->
  x ∈ L -> large m !! x = Some n -> live m' !! address_ n = Some s <-> live m !! address_ n = Some s.
Proof.
  intros Hh Hh' HL Hlive Hx Hn. destruct (lo_address _ _ _ _ HL x n Hx Hn) as [H0|(u & Hu & _)].
  - rewrite H0. split; intros Hs; exfalso.
    + destruct (ho_block _ Hh' _ _ Hs). lia.
    + destruct (ho_block _ Hh _ _ Hs). lia.
  - pose proof (Hlive _ _ Hu) as Hu'. split; congruence.
Qed.

(** A small block for the user. *)
Lemma small_result_inv m g rs l L size a m' :
  pool_inv m g rs l L -> small_result m rs l size a m' ->
  (a = 0 /\ pool_inv m' g rs l L) \/
  (0 < a /\ g !! a = None /\ rs !! a = None /\ exists l', pool_inv m' (<[a := size]> g) (<[a := size]> rs) l' L /\
     (forall p s, live m !! p = Some s -> live m' !! p = Some s) /\
     (forall p s, live m !! p = Some s -> (forall b, b ∈ l -> base m b <> p) -> forall b, b ∈ l' -> base m' b <> p)).
Proof.
  intros [Hok HL Hg] Hr. pose proof (sr_large _ _ _ _ _ _ Hr) as El.
  destruct (small_result_large m rs l L size a m' Hok HL Hr)
    as [(-> & Hp & HL' & Elive)|(Ha & Hnone & l' & Hp & HL' & Hlive & Hbase)].
  - left. split; [done|]. split; [done|done|]. intros p s. rewrite Hg. unfold gives. by rewrite El, Elive.
  - right. split; [done|].
    assert (Hsame : forall x n p s, x ∈ L -> large m !! x = Some n -> address_ n = p ->
      live m' !! p = Some s <-> live m !! p = Some s).
    { intros x n p s Hx Hn <-. by eapply (live_same m m' rs l L); [apply Hok|apply Hp|..]. }
    assert (Hnew : forall x n s, x ∈ L -> large m !! x = Some n -> address_ n = a -> live m !! a = Some s -> False).
    { intros x n s Hx Hn Ex Hs. apply (region_not_live m' (<[a := size]> rs) l' a size s Hp).
      - apply lookup_insert_eq.
      - by apply Hlive.
      - apply (Hbase a s Hs). by apply (gives_address m rs l L x n a s (po_heap _ _ _ Hok)). }
    split.
    { destruct (g !! a) as [s|] eqn:E; [|done]. exfalso. apply Hg in E as [[E _]|(x & n & Hx & Hn & Ex & Hs)]; [congruence|].
      by eapply Hnew. }
    split; [done|]. exists l'. split; [|done]. split; [done|done|].
    intros p s. unfold gives. rewrite El, !lookup_insert_Some, Hg. unfold gives.
    destruct (decide (a = p)) as [<-|Hne].
    + split.
      * intros [[_ <-]|[? _]]; [|done]. left. split; [by left|]. intros Hx.
        rewrite (lo_region _ _ _ _ HL a Hx) in Hnone. done.
      * intros [[[[_ <-]|[? _]] _]|(x & n & Hx & Hn & Ex & Hs)]; [by left|done|].
        exfalso. apply (Hnew x n s); try done. by apply (Hsame x n a s).
    + split.
      * intros [[? _]|[_ [[Hr' Hx]|(x & n & Hx & Hn & Ex & Hs)]]]; [done|left; split; [by right|done]|].
        right. exists x, n. split; [done|]. split; [done|]. split; [done|]. by apply Hlive.
      * intros [[[[? _]|[_ Hr']] Hx]|(x & n & Hx & Hn & Ex & Hs)]; [done|right; split; [done|by left]|].
        right. split; [done|]. right. exists x, n. split; [done|]. split; [done|]. split; [done|]. by apply (Hsame x n p s).
Qed.

(** [free] of a block that is no page takes it out of the memory, and nothing the
    pool keeps. *)
Lemma free_block m rs l L p s :
  pages_ok m rs l -> large_ok m rs l L -> live m !! p = Some s -> (forall a, a ∈ l -> base m a <> p) ->
  exists m', free m p = Ok m' /\ pool_ m' = pool_ m /\ head_ m' = head_ m /\ current_ m' = current_ m /\
    large_list_ m' = large_list_ m /\ live m' = delete p (live m) /\
    (forall a, a ∈ l -> small m' !! a = small m !! a) /\
    (forall x, x ∈ L -> large m' !! x = large m !! x) /\ pages_ok m' rs l.
Proof.
  intros Hok HL Hp Hb. destruct (ho_block _ (po_heap _ _ _ Hok) p s Hp) as (Hp0 & Hs0 & _ & _).
  unfold free. rewrite (proj2 (Z.eqb_neq _ _)), Hp by lia. set (m' := mkMemoryPool _ _ _ _ _ _ _ _).
  assert (Hsmall : forall a, a ∈ l -> small m' !! a = small m !! a).
  { intros a Ha. destruct (page_node _ _ _ Hok a Ha) as (n & Hn & [N1 _ _ _ _]). rewrite Hn.
    apply map_lookup_filter_Some. split; [done|]. simpl.
    destruct (page_bounds _ _ _ Hok a n Ha Hn) as (_ & _ & _ & B4 & B5 & B6).
    destruct (ho_disj _ (po_heap _ _ _ Hok) _ _ _ _ N1 Hp (Hb a Ha)); unfold sizeof_SmallNode in *; lia. }
  exists m'. repeat (split; [done|]). split; [|].
  - intros x Hx. destruct (large_node _ _ _ _ _ HL Hx) as [n Hn]. rewrite Hn.
    apply map_lookup_filter_Some. split; [done|]. simpl.
    pose proof (lo_region _ _ _ _ HL x Hx) as Hr.
    destruct (region_not_block m rs l x _ p s Hok Hr Hp Hb); unfold sizeof_LargeNode in *; lia.
  - apply (pages_ok_frame m); try done.
    + apply heap_ok_delete, Hok.
    + intros a Ha. cbn [m' live]. rewrite lookup_delete_ne; [done|]. intros He. by apply (Hb a Ha).
Qed.

(** A new block, that the user is to have. *)
Lemma memalign_block `{!HeapLaws H} m rs l L size addr :
  pages_ok m rs l -> large_ok m rs l L -> 0 < size -> memalign (calls m) (live m) size = Some addr ->
  let m1 := mkMemoryPool (pool_ m) (large_list_ m) (head_ m) (current_ m) (small m) (large m)
              (<[addr := size]> (live m)) (S (calls m)) in
  0 < addr /\ live m !! addr = None /\ pages_ok m1 rs l /\ large_ok m1 rs l L /\ forall a, a ∈ l -> base m1 a <> addr.
Proof.
  intros Hok HL Hsize Ha. destruct (memalign_spec _ _ _ _ Hsize Ha) as (A1 & A2 & A3 & A4).
  destruct (heap_ok_insert (live m) addr size (po_heap _ _ _ Hok)) as [Hfresh Hheap]; try done.
  assert (Hbase : forall a, a ∈ l -> base m a <> addr).
  { intros a Hin. destruct (page_node _ _ _ Hok a Hin) as (n & _ & [N1 _ _ _ _]). congruence. }
  cbn zeta. set (m1 := mkMemoryPool _ _ _ _ _ _ _ _). split; [done|]. split; [done|]. split; [|split; [|done]].
  - apply (pages_ok_frame m); try done. intros a Hin. cbn [m1 live]. rewrite lookup_insert_ne; [done|].
    intros He. by apply (Hbase a Hin).
  - apply (large_ok_frame m m1 rs rs l l); try done. intros p s Hp Hb. split; [|done]. cbn [m1 live].
    rewrite lookup_insert_ne; [done|congruence].
Qed.

(** Where [MallocLargeNode] puts the block: in a node that is free, among the first
    five, or nowhere yet. *)
Lemma reuse_large_ok m fuel p count size addr L2 :
  chain (fun x => large_next_ <$> large m !! x) p L2 ->
  0 <= count <= 4 -> Z.of_nat fuel = 6 - count ->
  reuse_large fuel m p count size addr = Ok (false, m) \/
  exists x n, x ∈ L2 /\ large m !! x = Some n /\ address_ n = 0 /\
    reuse_large fuel m p count size addr =
      Ok (true, set_large m (<[x := mkLargeNode addr (u32 size) (large_next_ n)]> (large m))).
Proof.
  revert fuel p count. induction L2 as [|x L2 IH]; intros fuel p count Hc Hcount Hf;
    (destruct fuel as [|fuel]; [lia|]); cbn [reuse_large].
  - simpl in Hc. subst p. by left.
  - destruct Hc as (-> & Hx0 & q & Hq & Hc). destruct (large m !! x) as [n|] eqn:Hn; [|done].
    simpl in Hq. injection Hq as <-. rewrite (proj2 (Z.eqb_neq _ _)) by done.
    rewrite (large_at_Some m x n Hn), bind_Ok. destruct (address_ n =? 0) eqn:E0.
    + right. exists x, n. split; [set_solver|]. split; [done|]. split; [lia|done].
    + destruct (count >? 3) eqn:E3; [by left|].
      destruct (IH fuel (large_next_ n) (count + 1) Hc) as [E|(y & n' & Hy & H')]; [lia|lia|by left|].
      right. exists y, n'. split; [set_solver|done].
Qed.

Lemma set_address_ok m rs l L x n addr size k :
  pages_ok m rs l -> large_ok m rs l L -> x ∈ L -> large m !! x = Some n -> address_ n = 0 ->
  live m !! addr = Some size -> (forall a, a ∈ l -> base m a <> addr) ->
  (forall y n', y ∈ L -> large m !! y = Some n' -> address_ n' <> addr) ->
  let m' := set_large m (<[x := mkLargeNode addr k (large_next_ n)]> (large m)) in
  pages_ok m' rs l /\ large_ok m' rs l L /\
  (forall p s, gives m' rs L p s <-> (p = addr /\ s = size) \/ gives m rs L p s).
Proof.
  intros Hok HL Hx Hn H0 Hlive Hb Hne. cbn zeta. set (m' := set_large _ _).
  assert (Hlk : forall y n', large m' !! y = Some n' ->
    (y = x /\ n' = mkLargeNode addr k (large_next_ n)) \/ (y <> x /\ large m !! y = Some n')).
  { intros y n'. cbn [m' set_large large]. rewrite lookup_insert_Some. intros [[<- <-]|[? ?]]; [by left|by right]. }
  assert (Hother : forall y, y <> x -> large m' !! y = large m !! y).
  { intros y Hy. cbn [m' set_large large]. by rewrite lookup_insert_ne. }
  assert (Hself : large m' !! x = Some (mkLargeNode addr k (large_next_ n))).
  { cbn [m' set_large large]. apply lookup_insert_eq. }
  split; [|split].
  - apply (pages_ok_frame m); try done. apply Hok.
  - destruct HL as [L1 L2 L3 L4 L5]. split; try done.
    + eapply chain_ext; [|exact L1]. intros y Hy. simpl. destruct (decide (y = x)) as [->|Hyx].
      * change (large_next_ <$> large m !! x = large_next_ <$> large m' !! x). by rewrite Hself, Hn.
      * change (large_next_ <$> large m !! y = large_next_ <$> large m' !! y). by rewrite Hother.
    + intros y n' Hy [[-> ->]|[_ Hn']]%Hlk; [right; by exists size|by apply (L4 y)].
    + intros y z ny nz Hy Hz Hyz [[-> ->]|[_ Hny]]%Hlk [[-> ->]|[_ Hnz]]%Hlk; try done.
      * simpl. intros He. by destruct (Hne z nz Hz Hnz).
      * simpl. intros He. by destruct (Hne y ny Hy Hny).
      * by apply (L5 y z).
  - intros p s. unfold gives. split.
    + intros [?|(y & n' & Hy & [[-> ->]|[_ Hn']]%Hlk & Ep & Hp)]; [by right; left| |].
      * left. simpl in Ep. subst p. split; [done|]. cbn [m' set_large live] in Hp. congruence.
      * right. right. by exists y, n'.
    + intros [[-> ->]|[?|(y & n' & Hy & Hn' & Ep & Hp)]]; [right|by left|right].
      * by eexists x, _.
      * destruct (decide (y = x)) as [->|Hyx]; [|exists y, n'; by rewrite Hother].
        exfalso. assert (n' = n) as -> by congruence. rewrite H0 in Ep. subst p.
        destruct (ho_block _ (po_heap _ _ _ Hok) _ _ Hp). lia.
Qed.

(** A free node at the head of the list, in the region [x]. *)
Lemma push_node_ok m rs l L x k :
  pages_ok m rs l -> large_ok m rs l L -> rs !! x = Some sizeof_LargeNode -> x ∉ L ->
  let m' := set_large_list (set_large m (<[x := mkLargeNode 0 k (large_list_ m)]> (large m))) x in
  pages_ok m' rs l /\ large_ok m' rs l (x :: L) /\
  (forall p s, gives m' rs (x :: L) p s <-> gives m rs L p s /\ p <> x).
Proof.
  intros Hok HL Hr Hx. cbn zeta. set (m' := set_large_list _ _).
  assert (Hself : large m' !! x = Some (mkLargeNode 0 k (large_list_ m))) by apply lookup_insert_eq.
  assert (Hother : forall y, y ∈ L -> large m' !! y = large m !! y).
  { intros y Hy. cbn [m' set_large_list set_large large]. rewrite lookup_insert_ne by set_solver. done. }
  destruct (region_page _ _ _ Hok x _ Hr) as (a & n & Ha & Hn & _ & _ & R3 & _).
  destruct (page_bounds _ _ _ Hok a n Ha Hn) as (B1 & _ & _ & B4 & _).
  split; [|split].
  - apply (pages_ok_frame m); try done. apply Hok.
  - pose proof HL as [L1 L2 L3 L4 L5]. split.
    + simpl. split; [done|]. split; [unfold sizeof_SmallNode in *; lia|]. exists (large_list_ m).
      change (large_next_ <$> large m' !! x = Some (large_list_ m) /\
        chain (fun x => large_next_ <$> large m' !! x) (large_list_ m) L).
      rewrite Hself. split; [done|]. eapply chain_ext; [|exact L1]. intros y Hy. simpl. by rewrite Hother.
    + by apply NoDup_cons.
    + intros y [->|Hy]%elem_of_cons; [done|by apply L3].
    + intros y ny [->|Hy]%elem_of_cons Hny.
      * rewrite Hself in Hny. injection Hny as <-. by left.
      * rewrite Hother in Hny by done. by apply (L4 y).
    + intros y z ny nz [->|Hy]%elem_of_cons [->|Hz]%elem_of_cons Hne Hny Hnz; try done.
      * rewrite Hself in Hny. injection Hny as <-. done.
      * rewrite Hself in Hnz. injection Hnz as <-. done.
      * rewrite Hother in Hny, Hnz by done. by apply (L5 y z).
  - intros p s. unfold gives. split.
    + intros [[Hp Hpl]|(y & n' & [->|Hy]%elem_of_cons & Hn' & Ep & Hp)].
      * split; [left; set_solver|set_solver].
      * rewrite Hself in Hn'. injection Hn' as <-. simpl in Ep. subst p.
        destruct (ho_block _ (po_heap _ _ _ Hok) _ _ Hp). lia.
      * rewrite Hother in Hn' by done. split; [right; by exists y, n'|]. intros ->.
        eapply (region_not_live m rs l x); [done..|]. by apply (gives_address m rs l L y n' x s (po_heap _ _ _ Hok)).
    + intros [[[Hp Hpl]|(y & n' & Hy & Hn' & Ep & Hp)] Hne].
      * left. split; [done|set_solver].
      * right. exists y, n'. rewrite Hother by done. split; [set_solver|done].
Qed.

(** ** malloc of a large size *)

Definition pool_ok (m : MemoryPool) (given : gmap Z Z) : Prop := exists rs l L, pool_inv m given rs l L.

Lemma given_block m g rs l L addr size m1 :
  pool_inv m g rs l L -> 0 < addr -> live m !! addr = None -> live m1 !! addr = Some size ->
  pages_ok m1 rs l -> (forall a, a ∈ l -> base m1 a <> addr) ->
  g !! addr = None /\ forall y n', y ∈ L -> large m !! y = Some n' -> address_ n' <> addr.
Proof.
  intros [Hok HL Hg] Hpos Hnone Hlive Hok1 Hb. split.
  - destruct (g !! addr) as [s|] eqn:E; [|done]. exfalso. apply Hg in E as [[E _]|(y & n & _ & _ & _ & E)]; [|congruence].
    by eapply (region_not_live m1 rs l addr).
  - intros y n' Hy Hn' E. destruct (lo_address _ _ _ _ HL y n' Hy Hn') as [H0|(s & Hs & _)]; [lia|congruence].
Qed.

(** The memory of the block in hand goes back. *)
Lemma undo_block m g rs l L addr size m1 m2 :
  pool_inv m g rs l L -> live m !! addr = None -> live m1 = <[addr := size]> (live m) ->
  large m1 = large m -> large_list_ m2 = large_list_ m -> pool_ m2 = pool_ m -> head_ m2 = head_ m ->
  large m2 = large m1 -> live m2 = live m1 -> pages_ok m2 rs l -> large_ok m2 rs l L ->
  (forall a, a ∈ l -> base m2 a <> addr) ->
  exists m3, free m2 addr = Ok m3 /\ pool_ok m3 g.
Proof.
  intros [Hok HL Hg] Hnone E1 E2 E3 Ep Eh E4 E5 Hok2 HL2 Hb.
  destruct (free_block m2 rs l L addr size Hok2 HL2) as (m3 & E & F1 & F2 & F3 & F4 & F5 & F6 & F7 & F8); [|done|].
  { rewrite E5, E1. apply lookup_insert_eq. }
  assert (live m3 = live m) as F9.
  { rewrite F5, E5, E1. apply delete_insert_id. done. }
  assert (forall x, x ∈ L -> large m3 !! x = large m !! x) as F10.
  { intros x Hx. rewrite F7, E4, E2 by done. done. }
  exists m3. split; [done|]. exists rs, l, L. split; [done| |].
  - apply (large_ok_frame m m3 rs rs l l); try done.
    + by rewrite F4.
    + intros x Hx. by rewrite F10.
    + intros p s Hs Hbp. rewrite F9. split; [done|]. intros a Ha. unfold base. rewrite F1, F2, Ep, Eh. by apply Hbp.
  - intros p s. rewrite Hg. unfold gives. rewrite F9. split; intros [?|(x & n & Hx & Hn & H')]; try (by left); right; exists x, n.
    + by rewrite F10.
    + by rewrite F10 in Hn.
Qed.

(** A node for the block in hand. *)
Lemma new_node_ok m1 g rs l L addr size k x m2 l' :
  large m1 = large m2 -> pool_inv m2 (<[x := sizeof_LargeNode]> g) (<[x := sizeof_LargeNode]> rs) l' L ->
  0 < addr -> g !! addr = None -> g !! x = None -> rs !! x = None -> large_ok m1 rs l L ->
  live m2 !! addr = Some size -> (forall a, a ∈ l' -> base m2 a <> addr) ->
  (forall y n', y ∈ L -> large m1 !! y = Some n' -> address_ n' <> addr) ->
  pool_ok (set_large_list (set_large m2 (<[x := mkLargeNode addr k (large_list_ m2)]> (large m2))) x)
    (<[addr := size]> g).
Proof.
  intros El [Hok HL Hg] Hpos Hga Hgx Hrx HL1 Hlive Hb Hfree.
  set (rs' := <[x := _]> rs) in *. assert (rs' !! x = Some sizeof_LargeNode) as Hr by apply lookup_insert_eq.
  assert (x ∉ L) as Hx by (intros Hx; rewrite (lo_region _ _ _ _ HL1 x Hx) in Hrx; done).
  destruct (push_node_ok m2 rs' l' L x k Hok HL Hr Hx) as (P1 & P2 & P3). set (m3 := set_large_list _ _) in *.
  assert (large m3 !! x = Some (mkLargeNode 0 k (large_list_ m2))) as Hself by apply lookup_insert_eq.
  destruct (set_address_ok m3 rs' l' (x :: L) x _ addr size k P1 P2 ltac:(set_solver) Hself ltac:(done) Hlive Hb)
    as (Q1 & Q2 & Q3).
  { intros y n' [->|Hy]%elem_of_cons Hn'.
    - rewrite Hself in Hn'. injection Hn' as <-. simpl. lia.
    - apply (Hfree y n' Hy). rewrite El. cbn [m3 large set_large_list set_large] in Hn'.
      rewrite lookup_insert_ne in Hn' by set_solver. done. }
  exists rs', l', (x :: L).
  assert (set_large m3 (<[x := mkLargeNode addr k (large_next_ (mkLargeNode 0 k (large_list_ m2)))]> (large m3)) =
    set_large_list (set_large m2 (<[x := mkLargeNode addr k (large_list_ m2)]> (large m2))) x) as E.
  { unfold set_large, set_large_list. simpl. by rewrite insert_insert_eq. }
  rewrite E in *. split; [done|done|]. intros p s. rewrite Q3, P3, <- Hg, !lookup_insert_Some. split.
  - intros [[<- <-]|[Hne Hp]]; [by left|right]. split; [|congruence]. right. split; [congruence|done].
  - intros [[-> ->]|[[[-> _]|[_ Hp]] Hne]]; [by left|done|]. right. split; [congruence|done].
Qed.

Lemma MallocLargeNode_ok `{!HeapLaws H, !HeapCleared H} m g size :
  pool_ok m g -> PAGE_SIZE - sizeof_SmallNode < size ->
  exists a m', MallocLargeNode m size = Ok (a, m') /\
    ((a = 0 /\ pool_ok m' g) \/ (0 < a /\ g !! a = None /\ pool_ok m' (<[a := size]> g))).
Proof.
  intros (rs & l & L & Hinv) Hsize. pose proof Hinv as [Hok HL Hg]. unfold MallocLargeNode, posix_memalign.
  destruct (memalign (calls m) (live m) size) as [addr|] eqn:Ha.
  2: { eexists 0, _. split; [reflexivity|]. left. split; [done|]. exists rs, l, L. split; [|by apply (large_ok_frame m _ rs rs l l)|done].
       apply (pages_ok_frame m); try done. apply Hok. }
  destruct (memalign_block m rs l L size addr Hok HL) as (A1 & A2 & Hok1 & HL1 & Hb1);
    [unfold PAGE_SIZE, sizeof_SmallNode in *; lia|done|].
  set (m1 := mkMemoryPool _ _ _ _ _ _ _ _) in *.
  assert (live m1 !! addr = Some size) as Hlive1 by apply lookup_insert_eq.
  destruct (given_block m g rs l L addr size m1 Hinv A1 A2 Hlive1 Hok1 Hb1) as [Hga Hfree].
  assert (Hg1 : forall p s, gives m1 rs L p s <-> g !! p = Some s).
  { intros p s. rewrite Hg. unfold gives. cbn [m1 large]. split; intros [?|(y & n & Hy & Hn & Ep & Hp)]; try (by left);
      right; exists y, n; (split; [done|]); (split; [done|]); (split; [done|]).
    - cbn [m1 live] in Hp. rewrite lookup_insert_ne in Hp; [done|]. intros ->. by apply (Hfree y n).
    - cbn [m1 live]. rewrite lookup_insert_ne; [done|congruence]. }
  cbn zeta.
  destruct (reuse_large_ok m1 6 (large_list_ m1) 0 size addr L (lo_chain _ _ _ _ HL1)) as [E|(x & n & Hx & Hn & H0 & E)];
    [lia|done| |].
  - rewrite E, bind_Ok.
    destruct (malloc_small_ok m1 rs l sizeof_LargeNode Hok1 ltac:(done)) as (x & m2 & E2 & Hr). rewrite E2, bind_Ok.
    pose proof Hr as [R1 R2 R3 R4 Rp].
    assert (pool_inv m1 g rs l L) as Hinv1 by (split; [done|done|]; intros p s; by rewrite Hg1).
    destruct (small_result_inv m1 g rs l L _ x m2 Hinv1 Hr)
      as [(-> & [Hok2 HL2 _])|(Hx & Hgx & Hrx & l' & Hinv2 & Hlive & Hbase)].
    + change (0 =? 0) with true. cbn match. destruct Rp as [(_ & _ & Elive)|[? _]]; [|lia].
      destruct (undo_block m g rs l L addr size m1 m2) as (m3 & E3 & Hok3); try done.
      { intros a Ha'. unfold base. rewrite R3, R4. by apply Hb1. }
      rewrite E3, bind_Ok. eexists 0, _. split; [reflexivity|]. by left.
    + rewrite (proj2 (Z.eqb_neq _ _)) by lia. eexists _, _. split; [reflexivity|]. right. split; [done|]. split; [done|].
      eapply (new_node_ok m1 g rs l L); try done.
      * by apply Hlive.
      * by eapply Hbase.
  - rewrite E, bind_Ok. eexists _, _. split; [reflexivity|]. right. split; [done|]. split; [done|].
    destruct (set_address_ok m1 rs l L x n addr size (u32 size) Hok1 HL1 Hx Hn H0 Hlive1 Hb1 Hfree) as (P1 & P2 & P3).
    exists rs, l, L. split; [done|done|]. intros p s. rewrite P3, lookup_insert_Some, Hg1.
    destruct (decide (p = addr)) as [->|Hne]; [naive_solver|]. naive_solver.
Qed.

(** ** FreeMemory *)

Lemma free_large_find fuel m q p L2 :
  chain (fun x => large_next_ <$> large m !! x) q L2 -> (length L2 < fuel)%nat ->
  (free_large fuel m q p = Ok (false, m) /\ forall x n, x ∈ L2 -> large m !! x = Some n -> address_ n <> p) \/
  (exists x n, x ∈ L2 /\ large m !! x = Some n /\ address_ n = p /\
     free_large fuel m q p = (m' ← free m p; n' ← large_at m' x;
       Ok (true, set_large m' (<[x := mkLargeNode 0 0 (large_next_ n')]> (large m'))))).
Proof.
  revert fuel q. induction L2 as [|x L2 IH]; intros fuel q Hc Hf;
    (destruct fuel as [|fuel]; [simpl in Hf; lia|]); cbn [free_large].
  - simpl in Hc. subst q. left. split; [done|]. set_solver.
  - destruct Hc as (-> & Hx0 & q' & Hq & Hc). destruct (large m !! x) as [n|] eqn:Hn; [|done].
    simpl in Hq. injection Hq as <-. rewrite (proj2 (Z.eqb_neq _ _)) by done.
    rewrite (large_at_Some m x n Hn), bind_Ok. destruct (address_ n =? p) eqn:Ep.
    + right. exists x, n. split; [set_solver|]. split; [done|]. split; [lia|].
      by assert (address_ n = p) as -> by lia.
    + destruct (IH fuel (large_next_ n) Hc) as [[E Hno]|(y & n' & Hy & H')]; [simpl in Hf; lia| |].
      * left. split; [done|]. intros y n' [->|Hy]%elem_of_cons Hn'; [|by eapply Hno].
        assert (n' = n) as -> by congruence. lia.
      * right. exists y, n'. split; [set_solver|done].
Qed.

Lemma free_large_ok m g rs l L x n p s :
  pool_inv m g rs l L -> x ∈ L -> large m !! x = Some n -> address_ n = p -> live m !! p = Some s ->
  exists m', (m' ← free m p; n' ← large_at m' x;
       Ok (true, set_large m' (<[x := mkLargeNode 0 0 (large_next_ n')]> (large m')))) = Ok (true, m') /\
    pool_inv m' (delete p g) rs l L.
Proof.
  intros [Hok HL Hg] Hx Hn Ep Hs.
  pose proof (gives_address m rs l L x n p s (po_heap _ _ _ Hok) HL Hx Hn Ep Hs) as Hb.
  destruct (free_block m rs l L p s Hok HL Hs Hb) as (m1 & E & F1 & F2 & F3 & F4 & F5 & F6 & F7 & F8).
  rewrite E, bind_Ok. rewrite (large_at_Some m1 x n) by (by rewrite F7). rewrite bind_Ok. eexists. split; [reflexivity|].
  set (m' := set_large m1 _).
  assert (large m' !! x = Some (mkLargeNode 0 0 (large_next_ n))) as Hself by apply lookup_insert_eq.
  assert (forall y, y ∈ L -> y <> x -> large m' !! y = large m !! y) as Hother.
  { intros y Hy Hne. cbn [m' set_large large]. rewrite lookup_insert_ne by done. by apply F7. }
  assert (p <> 0) as Hp0 by (destruct (ho_block _ (po_heap _ _ _ Hok) _ _ Hs); lia).
  assert (forall y n', y ∈ L -> large m !! y = Some n' -> address_ n' = p -> y = x) as Hone.
  { intros y n' Hy Hn' E'. destruct (decide (y = x)) as [->|Hne]; [done|]. exfalso. apply Hp0.
    rewrite <- E'. apply (lo_inj _ _ _ _ HL y x n' n); congruence. }
  split.
  - apply (pages_ok_frame m1); try done. apply F8.
  - destruct HL as [L1 L2 L3 L4 L5]. split; [|done|done| |].
    + change (large_list_ m') with (large_list_ m1). rewrite F4. eapply chain_ext; [|exact L1].
      intros y Hy. simpl. destruct (decide (y = x)) as [->|Hne]; [|by rewrite Hother].
      change (large_next_ <$> large m !! x = large_next_ <$> large m' !! x). by rewrite Hself, Hn.
    + intros y ny Hy Hny. destruct (decide (y = x)) as [->|Hne].
      * rewrite Hself in Hny. injection Hny as <-. by left.
      * rewrite Hother in Hny by done. destruct (L4 y ny Hy Hny) as [|(u & Hu & Hbu)]; [by left|right].
        exists u. change (live m') with (live m1). rewrite F5, lookup_delete_ne.
        -- split; [done|]. intros a Ha. unfold base. cbn [m' set_large head_ pool_]. rewrite F1, F2. by apply Hbu.
        -- intros He. by apply Hne, (Hone y ny).
    + intros y z ny nz Hy Hz Hne Hny Hnz. destruct (decide (y = x)) as [->|Hyx].
      { rewrite Hself in Hny. injection Hny as <-. done. } destruct (decide (z = x)) as [->|Hzx].
      { rewrite Hself in Hnz. injection Hnz as <-. done. }
      rewrite Hother in Hny, Hnz by done. by apply (L5 y z).
  - intros q t. rewrite lookup_delete_Some, Hg. unfold gives. change (live m') with (live m1). rewrite F5. split.
    + intros [Hne [Hq|(y & n' & Hy & Hn' & Eq & Hq)]]; [by left|right].
      exists y, n'. rewrite Hother, lookup_delete_ne by (try done; intros ->; congruence). done.
    + intros [[Hq Hql]|(y & n' & Hy & Hn' & Eq & Hq)].
      * split; [|by left]. intros ->. by eapply (region_not_live m rs l q).
      * destruct (decide (y = x)) as [->|Hyx].
        -- rewrite Hself in Hn'. injection Hn' as <-. simpl in Eq. subst q.
           apply lookup_delete_Some in Hq as [_ Hq]. destruct (ho_block _ (po_heap _ _ _ Hok) _ _ Hq). lia.
        -- rewrite Hother in Hn' by done. apply lookup_delete_Some in Hq as [Hne Hq].
           split; [done|right]. by exists y, n'.
Qed.

(** What [FreeMemory] makes of the page that holds the region. *)
Definition freed_page (m : MemoryPool) (a : Z) (n : SmallNode) : MemoryPool :=
  let c := set_quote n (u32 (quote_ n - 1)) in
  if quote_ c =? 0 then
    let last := if a =? head_ m then pool_ m + sizeof_Pool + sizeof_SmallNode else a + sizeof_SmallNode in
    set_current (set_small m (<[a := set_failed (set_last c last) 0]> (small m))) (head_ m)
  else set_small m (<[a := c]> (small m)).

Section FreeSmall.
Context (m : MemoryPool) (rs : gmap Z Z) (l : list Z) (Hok : pages_ok m rs l).
Context (p s a : Z) (n : SmallNode) (Hp : rs !! p = Some s) (Ha : a ∈ l) (Hn : small m !! a = Some n).
Context (Hin : a + sizeof_SmallNode <= p) (Hpage : base m a <= p < base m a + PAGE_SIZE).

(** It is the first page whose bounds hold the address. *)
Lemma free_small_find fuel q l2 :
  chain (fun b => next_ <$> small m !! b) q l2 -> l2 ⊆ l -> a ∈ l2 -> (length l2 < fuel)%nat ->
  free_small fuel m q p = Ok (freed_page m a n).
Proof.
  revert fuel q. induction l2 as [|b l2 IH]; intros fuel q Hc Hl Hal Hf; [set_solver|].
  destruct fuel as [|fuel]; [simpl in Hf; lia|]. cbn [free_small].
  destruct Hc as (-> & Hb0 & q' & Hq & Hc). rewrite (proj2 (Z.eqb_neq _ _)) by done.
  destruct (page_node _ _ _ Hok b) as (nb & Hnb & [N1 N2 _ _ _]); [set_solver|].
  rewrite (small_at_Some _ _ _ Hnb), bind_Ok. rewrite Hnb in Hq. injection Hq as <-.
  destruct (decide (b = a)) as [->|Hne].
  - assert (nb = n) as -> by congruence. rewrite (proj2 (Z.leb_le a p)) by (unfold sizeof_SmallNode in *; lia).
    rewrite (proj2 (Z.leb_le p _)) by lia. unfold freed_page. cbn [andb]. by case_match.
  - replace ((b <=? p) && (p <=? end_ nb)) with false; [apply IH; [done|set_solver|set_solver|simpl in Hf; lia]|].
    symmetry. apply andb_false_iff. rewrite !Z.leb_gt, N2.
    pose proof (page_disj _ _ _ Hok a b Ha ltac:(set_solver) ltac:(done)).
    pose proof (base_le _ _ _ Hok b). pose proof (base_le _ _ _ Hok a). unfold sizeof_SmallNode, PAGE_SIZE, sizeof_Pool in *. lia.
Qed.

Lemma freed_quote : quote_ n = Z.of_nat (S (size (within m a (delete p rs)))) /\ u32 (quote_ n - 1) = quote_ n - 1.
Proof.
  destruct (po_node _ _ _ Hok a n Ha Hn) as [N1 N2 N3 N4 N5].
  rewrite (within_delete_in m a rs p s Hp Hpage) in N4. split; [done|].
  destruct (page_bounds _ _ _ Hok a n Ha Hn) as (B1 & B2 & B3 & B4 & B5 & B6).
  pose proof (align_le (last_ n) (base m a + PAGE_SIZE)) as A. unfold PAGE_SIZE, sizeof_SmallNode in *.
  specialize (A ltac:(lia) ltac:(lia) ltac:(dlia)). apply uwrap_small. lia.
Qed.

Lemma freed_small b : b <> a -> small (freed_page m a n) !! b = small m !! b.
Proof.
  intros Hne. unfold freed_page.
  destruct (_ =? 0); cbn [set_current set_small small]; by rewrite lookup_insert_ne.
Qed.

Lemma freed_frame :
  head_ (freed_page m a n) = head_ m /\ pool_ (freed_page m a n) = pool_ m /\ live (freed_page m a n) = live m /\
  large (freed_page m a n) = large m /\ large_list_ (freed_page m a n) = large_list_ m /\
  current_ (freed_page m a n) ∈ l.
Proof.
  pose proof (po_current _ _ _ Hok). pose proof (po_chain _ _ _ Hok) as Hc.
  unfold freed_page. destruct (_ =? 0); simpl; repeat split; try done.
  destruct l; [set_solver|]. destruct Hc as (-> & _). set_solver.
Qed.

(** Its node: one reference less, and the mark at the start when that was the last. *)
Lemma freed_node :
  exists n', small (freed_page m a n) !! a = Some n' /\ end_ n' = end_ n /\ next_ n' = next_ n /\
    quote_ n' = quote_ n - 1 /\
    ((quote_ n = 1 /\ last_ n' = a + sizeof_SmallNode) \/ (1 < quote_ n /\ last_ n' = last_ n)).
Proof.
  destruct freed_quote as [Hq Hw]. unfold freed_page. rewrite Hw. simpl.
  destruct (quote_ n - 1 =? 0) eqn:E; cbn [set_current set_small small]; rewrite lookup_insert_eq;
    eexists; (split; [reflexivity|]); simpl; repeat (split; [done|]).
  - left. split; [lia|]. destruct (a =? head_ m) eqn:Eh; [|done].
    assert (a = head_ m) as -> by lia. by rewrite (po_head _ _ _ Hok).
  - right. split; [lia|done].
Qed.

(** No other region lies in a page whose last reference goes. *)
Lemma freed_last q t : rs !! q = Some t -> q <> p -> quote_ n = 1 -> ~ (base m a <= q < base m a + PAGE_SIZE).
Proof.
  intros Hq Hne H1 Hin'. destruct freed_quote as [Hs _].
  assert (within m a (delete p rs) = ∅) as He by (apply map_size_empty_inv; lia).
  assert (within m a (delete p rs) !! q = None) as Hnone by (by rewrite He, lookup_empty).
  apply map_lookup_filter_None in Hnone as [Hnone|Hnone].
  - by rewrite lookup_delete_ne, Hq in Hnone.
  - apply (Hnone t); [by rewrite lookup_delete_ne|done].
Qed.

Lemma freed_page_ok : pages_ok (freed_page m a n) (delete p rs) l.
Proof.
  destruct freed_frame as (F1 & F2 & F3 & _ & _ & F4). destruct freed_node as (n' & Hn' & G1 & G2 & G3 & G4).
  pose proof Hok as [P1 P2 P3 P4 P5 P6 P7 P8 P9].
  assert (forall b, base (freed_page m a n) b = base m b) as Hb by (intros b; unfold base; by rewrite F1, F2).
  split; rewrite ?F1, ?F2, ?F3; try done.
  - eapply chain_ext; [|exact P4]. intros b Hbl. simpl. destruct (decide (b = a)) as [->|Hne].
    + rewrite Hn, Hn'. simpl. by rewrite G2.
    + by rewrite freed_small.
  - intros b nb Hbl Hnb. destruct (decide (b = a)) as [->|Hne].
    + assert (nb = n') as -> by congruence. destruct (P7 a n Ha Hn) as [N1 N2 N3 N4 N5].
      destruct freed_quote as [Hq _]. destruct (page_bounds _ _ _ Hok a n Ha Hn) as (B1 & _ & B3 & B4 & _).
      split; unfold within; rewrite ?Hb, ?F3, ?G1, ?G3; fold (within m a (delete p rs)); try done.
      * lia.
      * lia.
      * destruct G4 as [[Hq1 El]|[Hq1 El]]; rewrite El; [|lia].
        unfold sizeof_SmallNode, PAGE_SIZE in *. destruct (align_bounds (a + 32)); lia.
    + rewrite freed_small in Hnb by done. destruct (P7 b nb Hbl Hnb) as [N1 N2 N3 N4 N5].
      split; unfold within; rewrite ?Hb, ?F3; fold (within m b (delete p rs)); try done.
      rewrite within_delete_out; [done|]. pose proof (page_disj _ _ _ Hok a b Ha Hbl ltac:(done)). lia.
  - intros q t [Hne Hq]%lookup_delete_Some. destruct (P8 q t Hq) as [R1 R2 (b & nb & Hbl & Hnb & R3 & R4)].
    split; [done|done|]. destruct (decide (b = a)) as [->|Hba].
    + assert (nb = n) as -> by congruence. exists a, n'. split; [done|]. split; [done|]. split; [done|].
      destruct G4 as [[Hq1 _]|[_ ->]]; [|done]. exfalso.
      destruct (page_bounds _ _ _ Hok a n Ha Hn) as (_ & _ & _ & B4 & _ & B6).
      apply (freed_last q t); try done. unfold sizeof_SmallNode in *. lia.
    + exists b, nb. by rewrite freed_small.
  - intros q t r u [_ Hq]%lookup_delete_Some [_ Hr]%lookup_delete_Some. by apply (P9 q t r u).
Qed.
End FreeSmall.

Lemma large_fuel m rs l L : large_ok m rs l L -> (length L <= size (large m))%nat.
Proof.
  intros HL. rewrite <- size_dom. rewrite <- (size_list_to_set (C := gset Z) L) by apply HL.
  apply subseteq_size. intros x Hx%elem_of_list_to_set.
  destruct (large_node _ _ _ _ _ HL Hx) as [n Hn]. by apply elem_of_dom_2 in Hn.
Qed.

Lemma free_small_inv m g rs l L p s a n :
  pool_inv m g rs l L -> rs !! p = Some s -> p ∉ L -> a ∈ l -> small m !! a = Some n ->
  a + sizeof_SmallNode <= p -> base m a <= p < base m a + PAGE_SIZE ->
  pool_inv (freed_page m a n) (delete p g) (delete p rs) l L.
Proof.
  intros [Hok HL Hg] Hp HpL Ha Hn Hin Hpage.
  destruct (freed_frame m rs l Hok p s a n Hp Ha Hn Hin Hpage) as (F1 & F2 & F3 & F4 & F5 & _).
  split.
  - by apply (freed_page_ok m rs l Hok p s a n).
  - apply (large_ok_frame m _ rs _ l l); try done.
    + intros x Hx. rewrite F4, lookup_delete_ne by set_solver. done.
    + intros q t Hq Hb. rewrite F3. split; [done|]. intros b Hbl. unfold base. rewrite F1, F2. by apply Hb.
  - intros q t. rewrite lookup_delete_Some, Hg. unfold gives. rewrite F3, F4, lookup_delete_Some. split.
    + intros [Hne [[Hq Hx]|Hq]]; [by left|by right].
    + intros [[[Hne Hq] Hx]|(x & nx & Hx & Hnx & Ex & Hq)]; [split; [done|by left]|]. split.
      * intros ->. eapply (region_not_live m rs l q); [done..|]. by apply (gives_address m rs l L x nx q t (po_heap _ _ _ Hok)).
      * right. by exists x, nx.
Qed.

Lemma FreeMemory_ok m g p s :
  pool_ok m g -> g !! p = Some s -> exists m', FreeMemory m p = Ok m' /\ pool_ok m' (delete p g).
Proof.
  intros (rs & l & L & Hinv) Hp. pose proof Hinv as [Hok HL Hg]. unfold FreeMemory.
  assert (Hfuel : (length L < S (size (large m)))%nat) by (pose proof (large_fuel m rs l L HL); lia).
  destruct (free_large_find _ m (large_list_ m) p L (lo_chain _ _ _ _ HL) Hfuel) as [[E Hno]|(x & n & Hx & Hn & Ex & E)].
  - rewrite E, bind_Ok. apply Hg in Hp as [[Hp HpL]|(x & n & Hx & Hn & Ex & _)]; [|by destruct (Hno x n)].
    destruct (region_page _ _ _ Hok p s Hp) as (a & n & Ha & Hn & _ & _ & R1 & R2 & R3).
    exists (freed_page m a n). split.
    + apply (free_small_find m rs l Hok p s a n Hp Ha Hn R1 R3 _ (head_ m) l); [apply Hok|done|done|].
      pose proof (page_fuel m rs l Hok). unfold node_fuel. lia.
    + exists (delete p rs), l, L. by apply (free_small_inv m g rs l L p s a n).
  - assert (exists u, live m !! p = Some u) as [u Hu].
    { destruct (lo_address _ _ _ _ HL x n Hx Hn) as [H0|(u & Hu & _)]; [|exists u; congruence]. exfalso.
      assert (p = 0) as -> by congruence. apply Hg in Hp as [[Hp _]|(y & n' & _ & _ & _ & Hp)].
      - destruct (region_page _ _ _ Hok 0 s Hp) as (a & na & Ha & Hna & _ & _ & R1 & _).
        destruct (page_bounds _ _ _ Hok a na Ha Hna) as (B1 & _ & _ & B4 & _). unfold sizeof_SmallNode in *. lia.
      - destruct (ho_block _ (po_heap _ _ _ Hok) _ _ Hp). lia. }
    destruct (free_large_ok m g rs l L x n p u Hinv Hx Hn Ex Hu) as (m' & E' & Hinv').
    rewrite E, E', bind_Ok. exists m'. split; [done|]. by exists rs, l, L.
Qed.

(** ** ResetPool *)

Definition reset_node (a : Z) (n : SmallNode) : SmallNode :=
  mkSmallNode (end_ n) (a + sizeof_SmallNode) 0 0 (next_ n).

Lemma reset_small_ok fuel m p l :
  chain (fun a => next_ <$> small m !! a) p l -> NoDup l -> (length l < fuel)%nat ->
  exists s, reset_small fuel m p = Ok (set_small m s) /\
    (forall a, a ∈ l -> s !! a = reset_node a <$> small m !! a) /\
    (forall a, a ∉ l -> s !! a = small m !! a).
Proof.
  revert fuel m p. induction l as [|a l IH]; intros fuel m p Hc Hnd Hf;
    (destruct fuel as [|fuel]; [simpl in Hf; lia|]); cbn [reset_small].
  - simpl in Hc. subst p. exists (small m). split; [by destruct m|]. split; [set_solver|done].
  - destruct Hc as (-> & Ha0 & q & Hq & Hc). destruct (small m !! a) as [n|] eqn:Hn; [|done].
    simpl in Hq. injection Hq as <-. rewrite (proj2 (Z.eqb_neq _ _)) by done.
    rewrite (small_at_Some _ _ _ Hn), bind_Ok. apply NoDup_cons in Hnd as [Hal Hnd].
    set (m1 := set_small m _).
    destruct (IH fuel m1 (next_ n)) as (s & E & H1 & H2).
    + eapply chain_ext; [|exact Hc]. intros b Hb. simpl. by rewrite lookup_insert_ne by set_solver.
    + done.
    + simpl in Hf. lia.
    + exists s. split; [exact E|]. split.
      * intros b [->|Hb]%elem_of_cons.
        -- rewrite H2, Hn by done. simpl. by rewrite lookup_insert_eq.
        -- rewrite H1 by done. simpl. by rewrite lookup_insert_ne by set_solver.
      * intros b Hb. rewrite H2 by set_solver. simpl. by rewrite lookup_insert_ne by set_solver.
Qed.

Lemma reset_pages_ok m rs l s :
  pages_ok m rs l -> (forall a, a ∈ l -> s !! a = reset_node a <$> small m !! a) ->
  pages_ok (set_current (set_small m s) (head_ m)) ∅ l.
Proof.
  intros Hok Hs. pose proof Hok as [P1 P2 P3 P4 P5 P6 P7 P8 P9]. split; try done; cbn [set_current set_small small head_ current_].
  - eapply chain_ext; [|exact P4]. intros a Ha. simpl. rewrite Hs by done. by destruct (small m !! a).
  - destruct l; [set_solver|]. destruct P4 as (-> & _). set_solver.
  - intros a n Ha. rewrite Hs by done. intros (n' & Hn' & ->)%fmap_Some.
    destruct (P7 a n' Ha Hn') as [N1 N2 N3 N4 N5].
    destruct (page_bounds _ _ _ Hok a n' Ha Hn') as (B1 & _ & B3 & B4 & B5 & B6).
    split; try done; simpl; unfold sizeof_SmallNode, PAGE_SIZE in *.
    + lia.
    + destruct (align_bounds (a + 32)); lia.
Qed.

Lemma free_set_list m p a m1 :
  free (set_large_list m p) a = Ok m1 -> exists m0, free m a = Ok m0 /\ m1 = set_large_list m0 p.
Proof.
  unfold free. destruct (a =? 0); [intros [= <-]; by exists m|].
  change (live (set_large_list m p)) with (live m). destruct (live m !! a); [|done].
  intros [= <-]. eexists. split; [reflexivity|done].
Qed.

Lemma free_all_large_ok fuel m rs l L p :
  pages_ok m rs l -> large_ok (set_large_list m p) rs l L -> (length L < fuel)%nat ->
  exists m', free_all_large fuel m p = Ok m' /\ pages_ok m' rs l /\ pool_ m' = pool_ m /\ head_ m' = head_ m.
Proof.
  revert fuel m p. induction L as [|x L IH]; intros fuel m p Hok HL Hf;
    (destruct fuel as [|fuel]; [simpl in Hf; lia|]); cbn [free_all_large].
  - pose proof (lo_chain _ _ _ _ HL) as Hc. simpl in Hc. subst p. by exists m.
  - destruct (large_node _ _ _ _ x HL) as [n Hn]; [set_solver|]. change (large m !! x = Some n) in Hn.
    pose proof HL as [L1 L2 L3 L4 L5]. destruct L1 as (Ep & Hx0 & q & Hq & L1). simpl in Ep. subst p.
    change (large_next_ <$> large m !! x = Some q) in Hq. rewrite Hn in Hq. injection Hq as <-.
    rewrite (proj2 (Z.eqb_neq _ _)) by done. rewrite (large_at_Some m x n Hn), bind_Ok.
    apply NoDup_cons in L2 as [Hxl L2].
    assert (HL' : large_ok (set_large_list m (large_next_ n)) rs l L).
    { split; try done.
      - intros y Hy. apply L3. set_solver.
      - intros y ny Hy. apply L4. set_solver.
      - intros y z ny nz Hy Hz. apply L5; set_solver. }
    destruct (address_ n =? 0) eqn:E0; cbn [negb].
    + rewrite bind_Ok, (large_at_Some m x n Hn), bind_Ok. apply IH; [done|done|simpl in Hf; lia].
    + destruct (L4 x n ltac:(set_solver) Hn) as [H0|(s & Hs & Hb)]; [lia|].
      destruct (free_block (set_large_list m x) rs l (x :: L) (address_ n) s) as (m1 & E & F1 & F2 & F3 & F4 & F5 & F6 & F7 & F8);
        [apply (pages_ok_frame m); try done; apply Hok|done|done|done|].
      destruct (free_set_list _ _ _ _ E) as (m0 & E1 & ->). rewrite E1, bind_Ok.
      rewrite (large_at_Some m0 x n) by (rewrite <- Hn; apply F7; set_solver). rewrite bind_Ok.
      destruct (IH fuel m0 (large_next_ n)) as (m' & E2 & G1 & G2 & G3).
      * apply (pages_ok_frame (set_large_list m0 x)); try done. apply F8.
      * apply (large_ok_addresses (set_large_list m (large_next_ n)) _ rs rs l l); try done.
        -- intros y Hy. split; [|done]. apply F7. set_solver.
        -- intros y ny u Hy Hny Hny0 Hu Hbu. cbn [set_large_list live] in *. rewrite F5, lookup_delete_ne.
           ++ split; [done|]. intros a Ha. unfold base in *. cbn [set_large_list head_ pool_] in *. rewrite F1, F2. by apply Hbu.
           ++ intros He. apply Hny0. symmetry in He. apply (L5 y x ny n); [set_solver|set_solver|congruence|done..].
      * simpl in Hf. lia.
      * exists m'. split; [done|]. split; [done|]. rewrite G2, G3. by split.
Qed.

Lemma ResetPool_ok m g : pool_ok m g -> exists m', ResetPool m = Ok m' /\ pool_ok m' ∅.
Proof.
  intros (rs & l & L & [Hok HL Hg]). unfold ResetPool.
  destruct (free_all_large_ok (S (size (large m))) m rs l L (large_list_ m)) as (m1 & E & Hok1 & Ep & Eh).
  - done.
  - by apply (large_ok_frame m _ rs rs l l).
  - pose proof (large_fuel m rs l L HL). lia.
  - rewrite E, bind_Ok. set (m2 := set_current _ _).
    destruct (reset_small_ok (S (node_fuel m2)) m2 (head_ m2) l) as (s & E2 & Hs & _).
    + apply Hok1.
    + apply Hok1.
    + pose proof (page_fuel m1 rs l Hok1). unfold node_fuel. cbn [m2 set_current set_large_list small]. lia.
    + rewrite E2. eexists. split; [reflexivity|].
      exists ∅, l, []. split.
      * apply (pages_ok_frame (set_current (set_small m1 s) (head_ m1))); try done; [|apply Hok1].
        by apply (reset_pages_ok m1 rs l s).
      * split; try done; [apply NoDup_nil_2|set_solver..].
      * intros p s'. rewrite lookup_empty. split; [done|]. intros [[Hp _]|(x & _ & Hx & _)]; [by rewrite lookup_empty in Hp|set_solver].
Qed.

(** ** The pool in use *)

Lemma CreatePool_ok `{!HeapLaws H, !HeapCleared H} pool :
  memalign 0 ∅ PAGE_SIZE = Some pool -> pool_ok (CreatePool MemoryPool_new) ∅.
Proof.
  intros Hp. destruct (memalign_spec 0 ∅ PAGE_SIZE pool ltac:(done) Hp) as (P1 & P2 & P3 & _).
  unfold CreatePool, posix_memalign. cbn [MemoryPool_new calls live]. rewrite Hp. cbn zeta match.
  assert (pool <= pool + sizeof_Pool < pool + PAGE_SIZE) as Hin by (unfold sizeof_Pool, PAGE_SIZE; lia).
  rewrite (raw_quote_0 _ _ _ _ Hp Hin), (raw_next_0 _ _ _ _ Hp Hin). clear Hin. set (m := mkMemoryPool _ _ _ _ _ _ _ _).
  assert (base m (pool + sizeof_Pool) = pool) as Hb by (unfold base; cbn [m head_ pool_]; by rewrite Z.eqb_refl).
  assert (small m !! (pool + sizeof_Pool) =
    Some (mkSmallNode (pool + PAGE_SIZE) (pool + sizeof_Pool + sizeof_SmallNode) 0 0 0)) as Hn by apply lookup_insert_eq.
  exists ∅, [pool + sizeof_Pool], []. split.
  - split; try done.
    + apply (heap_ok_insert ∅); [|done..]. split; intros *; rewrite lookup_empty; done.
    + cbn [m pool_]. unfold sizeof_Pool. intros Hin%list_elem_of_singleton. lia.
    + simpl. split; [done|]. split; [unfold sizeof_Pool; lia|]. exists 0.
      change (next_ <$> small m !! (pool + sizeof_Pool) = Some 0 /\ 0 = 0). by rewrite Hn.
    + apply NoDup_singleton.
    + set_solver.
    + intros a n Ha Hn'. apply list_elem_of_singleton in Ha as ->. rewrite Hn in Hn'. injection Hn' as <-.
      split; rewrite ?Hb; simpl; try done.
      * apply lookup_insert_eq.
      * unfold sizeof_Pool, sizeof_SmallNode, PAGE_SIZE. lia.
      * unfold sizeof_Pool, sizeof_SmallNode, PAGE_SIZE in *. destruct (align_bounds (pool + 24 + 32)); lia.
  - split; try done; [apply NoDup_nil_2|set_solver..].
  - intros p s. rewrite lookup_empty. split; [done|]. intros [[Hp' _]|(x & _ & Hx & _)]; [by rewrite lookup_empty in Hp'|set_solver].
Qed.

Lemma malloc_ok `{!HeapLaws H, !HeapCleared H} m g size :
  pool_ok m g -> exists a m', malloc m size = Ok (a, m') /\
    ((a = 0 /\ pool_ok m' g) \/ (0 < a /\ 0 < size /\ g !! a = None /\ pool_ok m' (<[a := size]> g))).
Proof.
  intros Hok. unfold malloc. destruct (size <=? 0) eqn:H0; [exists 0, m; split; [done|by left]|].
  destruct (size >? PAGE_SIZE - sizeof_SmallNode) eqn:H1.
  - destruct (MallocLargeNode_ok m g size Hok) as (a & m' & E & [?|(? & ? & ?)]); [lia| |].
    + exists a, m'. split; [done|by left].
    + exists a, m'. split; [done|]. right. split; [done|]. split; [lia|done].
  - destruct Hok as (rs & l & L & Hinv).
    destruct (malloc_small_ok m rs l size (pi_pages _ _ _ _ _ Hinv)) as (a & m' & E & Hr); [lia|].
    exists a, m'. split; [done|]. destruct (small_result_inv m g rs l L size a m' Hinv Hr) as [(-> & Hi)|(Ha & Hga & _ & l' & Hi & _)].
    + left. split; [done|]. by exists rs, l, L.
    + right. split; [done|]. split; [lia|]. split; [done|]. by exists (<[a := size]> rs), l', L.
Qed.

Section Use.
Context `{!Heap}.

(** The pool with the blocks its user holds: what a program may do with it.  A null
    answer of [malloc] changes nothing for the user. *)
Inductive pool_step : MemoryPool * gmap Z Z -> MemoryPool * gmap Z Z -> Prop :=
  | step_malloc m g size a m' :
      malloc m size = Ok (a, m') ->
      pool_step (m, g) (m', if a =? 0 then g else <[a := size]> g)
  | step_free m g p s m' :
      g !! p = Some s -> FreeMemory m p = Ok m' -> pool_step (m, g) (m', delete p g)
  | step_reset m g m' : ResetPool m = Ok m' -> pool_step (m, g) (m', ∅).
End Use.

Lemma pool_step_keeps `{!HeapLaws H, !HeapCleared H} (c c' : MemoryPool * gmap Z Z) :
  pool_ok (fst c) (snd c) -> pool_step c c' -> pool_ok (fst c') (snd c').
Proof.
  intros Hok Hst. revert Hok. destruct Hst as [m g size a m' E|m g p s m' Hp E|m g m' E]; simpl; intros Hok.
  - destruct (malloc_ok m g size Hok) as (b & m1 & E1 & Hr). rewrite E in E1. injection E1 as <- <-.
    destruct Hr as [[-> Hr]|(Ha & _ & _ & Hr)]; [done|]. by rewrite (proj2 (Z.eqb_neq a 0)) by lia.
  - destruct (FreeMemory_ok m g p s Hok Hp) as (m1 & E1 & Hr). congruence.
  - destruct (ResetPool_ok m g Hok) as (m1 & E1 & Hr). congruence.
Qed.

(** A block the user holds lies in a live block of the heap. *)
Lemma given_in_heap m g p s :
  pool_ok m g -> g !! p = Some s ->
  0 < p /\ exists b n, live m !! b = Some n /\ b <= p /\ p + s <= b + n.
Proof.
  intros (rs & l & L & [Hok HL Hg]) Hp. apply Hg in Hp as [[Hp _]|(x & n & _ & _ & _ & Hp)].
  - destruct (region_page _ _ _ Hok p s Hp) as (a & n & Ha & Hn & _ & _ & R1 & R2 & R3).
    destruct (page_bounds _ _ _ Hok a n Ha Hn) as (B1 & _ & _ & B4 & _ & B6).
    destruct (page_node _ _ _ Hok a Ha) as (n' & _ & Hlive). apply no_live in Hlive.
    split; [lia|]. exists (base m a), PAGE_SIZE. split; [done|lia].
  - split; [by destruct (ho_block _ (po_heap _ _ _ Hok) p s Hp)|]. exists p, s. split; [done|lia].
Qed.

(** What the user of a pool may count on: every block it holds lies inside memory the heap has
    given the pool, no two overlap, and every call returns. *)
Lemma pool_safe `{!HeapLaws H, !HeapCleared H} pool m given :
  memalign 0 ∅ PAGE_SIZE = Some pool -> rtc pool_step (CreatePool MemoryPool_new, ∅) (m, given) ->
  (forall p s, given !! p = Some s ->
     0 < p /\ exists b n, live m !! b = Some n /\ b <= p /\ p + s <= b + n) /\
  (forall p s q t, given !! p = Some s -> given !! q = Some t -> p <> q -> p + s <= q \/ q + t <= p) /\
  (forall size, exists a m', malloc m size = Ok (a, m') /\
     (a <> 0 -> given !! a = None /\
        forall p s, given !! p = Some s -> a + size <= p \/ p + s <= a)) /\
  (forall p s, given !! p = Some s -> exists m', FreeMemory m p = Ok m') /\
  (exists m', ResetPool m = Ok m').
Proof.
  intros Hpool Hr. pose proof (CreatePool_ok pool Hpool) as H0.
  assert (pool_ok m given) as Hok.
  { by apply (rtc_invariant pool_step (fun c => pool_ok (fst c) (snd c)) (CreatePool MemoryPool_new, ∅) (m, given) pool_step_keeps). }
  assert (Hapart : forall m g, pool_ok m g -> forall p s q t, g !! p = Some s -> g !! q = Some t -> p <> q -> disj p s q t).
  { intros m1 g1 (rs & l & L & [Ho HL Hg]) p s q t Hp%Hg Hq%Hg. by apply (gives_apart m1 rs l L). }
  split; [intros p s; by apply given_in_heap|]. split; [by apply (Hapart m)|]. split; [|split].
  - intros size. destruct (malloc_ok m given size Hok) as (a & m' & E & Hres). exists a, m'. split; [done|].
    intros Ha. destruct Hres as [[? _]|(Hpos & Hs & Hga & Hok')]; [done|]. split; [done|]. intros p s Hp.
    apply (Hapart m' _ Hok' a size p s); [apply lookup_insert_eq| |congruence].
    rewrite lookup_insert_ne; [done|congruence].
  - intros p s Hp. destruct (FreeMemory_ok m given p s Hok Hp) as (m' & E & _). by exists m'.
  - destruct (ResetPool_ok m given Hok) as (m' & E & _). by exists m'.
Qed.

(** ** Pages that do not read zero *)

Section Dirty.
Context `{!Heap} (pool x : Z) (Hpos : 0 < pool) (Hmod : pool mod 16 = 0) (Htop : pool + PAGE_SIZE < 2 ^ 63).

(** A pool of one page, by the mark and the counter of its node. *)
Definition one_page (last quote : Z) : MemoryPool :=
  let head := pool + sizeof_Pool in
  mkMemoryPool pool 0 head head (<[head := mkSmallNode (pool + PAGE_SIZE) last quote 0 x]> ∅) ∅
    (<[pool := PAGE_SIZE]> ∅) 1.

Lemma one_page_head last quote : small_at (one_page last quote) (pool + sizeof_Pool) =
  Ok (mkSmallNode (pool + PAGE_SIZE) last quote 0 x).
Proof using Type. apply small_at_Some, lookup_insert_eq. Qed.

Lemma one_page_set last quote n last' quote' :
  n = mkSmallNode (pool + PAGE_SIZE) last' quote' 0 x ->
  set_small (one_page last quote) (<[pool + sizeof_Pool := n]> (small (one_page last quote))) = one_page last' quote'.
Proof using Type. intros ->. unfold set_small, one_page. simpl. by rewrite insert_insert_eq. Qed.

Lemma one_page_malloc last quote addr size :
  pool <= last <= pool + PAGE_SIZE -> addr = mp_align_ptr last MP_ALIGNMENT ->
  0 < size <= PAGE_SIZE - sizeof_SmallNode -> addr + size <= pool + PAGE_SIZE ->
  malloc (one_page last quote) size = Ok (addr, one_page (addr + size) (u32 (quote + 1))).
Proof using Hpos Hmod Htop.
  intros Hlast -> Hsize Hfit. unfold malloc, malloc_small. destruct (align_bounds last) as [Ha _]; [lia|].
  unfold sizeof_Pool, PAGE_SIZE, sizeof_SmallNode in *.
  rewrite (proj2 (Z.leb_gt size 0)), Z.gtb_ltb, (proj2 (Z.ltb_ge (4096 - 32) size)) by lia.
  change (current_ (one_page last quote)) with (pool + 24). cbn [find_small].
  rewrite (proj2 (Z.eqb_neq (pool + 24) 0)) by lia. rewrite one_page_head, bind_Ok. cbn [last_ end_ quote_].
  rewrite uwrap_small by (unfold PAGE_SIZE; lia). rewrite Z.geb_leb, (proj2 (Z.leb_le _ _)) by (unfold PAGE_SIZE; lia).
  rewrite bind_Ok. by rewrite (one_page_set last quote _ (mp_align_ptr last MP_ALIGNMENT + size) (u32 (quote + 1))).
Qed.

(** The counter of the page at zero: the page is taken to be empty. *)
Lemma one_page_free last quote p :
  pool + sizeof_Pool <= p <= pool + PAGE_SIZE ->
  FreeMemory (one_page last quote) p =
  Ok (if u32 (quote - 1) =? 0 then one_page (pool + sizeof_Pool + sizeof_SmallNode) 0
      else one_page last (u32 (quote - 1))).
Proof using Hpos.
  intros Hp. unfold FreeMemory. change (free_large (S _) _ (large_list_ _) p) with (@Ok (bool * MemoryPool) (false, one_page last quote)). rewrite bind_Ok. cbn match.
  fold (one_page last quote). change (head_ (one_page last quote)) with (pool + sizeof_Pool). cbn [free_small].
  unfold sizeof_Pool, PAGE_SIZE, sizeof_SmallNode in *.
  rewrite (proj2 (Z.eqb_neq (pool + 24) 0)) by lia. rewrite one_page_head, bind_Ok. cbn [end_ quote_].
  rewrite (proj2 (Z.leb_le (pool + 24) p)), (proj2 (Z.leb_le p _)) by (unfold PAGE_SIZE; lia). cbn [andb set_quote quote_].
  destruct (Z.eqb_spec (u32 (quote - 1)) 0) as [E|E]; [|f_equal; by apply one_page_set].
  change (head_ (one_page last quote)) with (pool + 24). rewrite Z.eqb_refl, E. f_equal.
  by erewrite one_page_set.
Qed.

(** A page whose counter reads the largest [unsigned int] hands out a block twice. *)
Lemma dirty_quote :
  exists m, rtc pool_step (one_page (pool + 56) (2 ^ 32 - 1), ∅)
    (m, <[pool + 64 := 32]> (<[pool + 80 := 16]> ∅)).
Proof using Hpos Hmod Htop.
  assert (A : mp_align_ptr (pool + 56) MP_ALIGNMENT = pool + 64) by (rewrite mp_align_ptr_spec by (unfold PAGE_SIZE in *; lia); dlia).
  assert (B : mp_align_ptr (pool + 64 + 16) MP_ALIGNMENT = pool + 80) by (rewrite mp_align_ptr_spec by (unfold PAGE_SIZE in *; lia); dlia).
  assert (forall m g size a m', malloc m size = Ok (a, m') -> 0 < a -> rtc pool_step (m, g) (m', <[a := size]> g)) as Hm.
  { intros m g size a m' E Ha. apply rtc_once. pose proof (step_malloc m g size a m' E) as Hst.
    by rewrite (proj2 (Z.eqb_neq a 0)) in Hst by lia. }
  eexists. etransitivity; [apply (Hm _ _ 16 (pool + 64))|etransitivity; [apply (Hm _ _ 16 (pool + 80))|
    etransitivity; [apply rtc_once, step_free with (p := pool + 64) (s := 16)|]]].
  - apply one_page_malloc; [| symmetry; exact A | |]; unfold PAGE_SIZE, sizeof_SmallNode; lia.
  - lia.
  - apply one_page_malloc; [| symmetry; exact B | |]; unfold PAGE_SIZE, sizeof_SmallNode; lia.
  - lia.
  - rewrite lookup_insert_ne by lia. apply lookup_insert_eq.
  - rewrite one_page_free by (unfold sizeof_Pool, PAGE_SIZE; lia). reflexivity.
  - rewrite delete_insert_ne, delete_insert_eq, delete_empty by lia. change (u32 (u32 (u32 _ + 1) + 1 - 1) =? 0) with true. cbv iota.
    apply Hm; [|lia]. apply one_page_malloc; [| |unfold PAGE_SIZE, sizeof_SmallNode; lia..];
      unfold sizeof_Pool, sizeof_SmallNode, PAGE_SIZE in *; [lia|].
    replace (pool + 24 + 32) with (pool + 56) by lia. by rewrite A.
Qed.

(** A page whose next pointer reads something else than null is followed to no node. *)
Lemma dirty_next :
  x <> 0 -> x <> pool + sizeof_Pool -> forall quote, malloc (one_page (pool + 56) quote) 4064 = Fault FUndef.
Proof using Hpos Hmod Htop.
  intros Hx Hxh quote. unfold PAGE_SIZE in *.
  assert (A : mp_align_ptr (pool + 56) MP_ALIGNMENT = pool + 64) by (rewrite mp_align_ptr_spec by lia; dlia).
  change (malloc (one_page (pool + 56) quote) 4064) with (malloc_small (one_page (pool + 56) quote) 4064).
  unfold malloc_small. change (current_ (one_page _ quote)) with (pool + sizeof_Pool). unfold node_fuel. cbn [find_small].
  rewrite (proj2 (Z.eqb_neq (pool + _) 0)) by (unfold sizeof_Pool; lia). rewrite one_page_head, bind_Ok. cbn [last_ end_ next_].
  rewrite A, uwrap_small by (unfold PAGE_SIZE; lia). rewrite Z.geb_leb, (proj2 (Z.leb_gt _ _)) by (unfold PAGE_SIZE; lia).
  rewrite (proj2 (Z.eqb_neq x 0)) by done. unfold small_at. cbn [one_page small]. by rewrite lookup_insert_ne, lookup_empty.
Qed.
End Dirty.

(** C13: whom the memory of the pool belongs to, whatever the order of [malloc], [FreeMemory]
    and [ResetPool], large and small sizes mixed, pages reused and new ones added; of
    posix_memalign(3) only what its manual says is assumed.  If every page happens to read
    zero, each block is its user's alone: every block the user holds lies inside memory the
    heap has given the pool, and no two of them overlap; [malloc] of any size returns, and
    when it does not return null the block is apart from all the user holds; a block the user
    holds can be given back and the pool reset, without undefined behaviour.  The manual does
    not promise zeroes, and the code does not write the counter and the next pointer of the
    first page: a counter that reads [UINT_MAX] makes the pool hand out overlapping blocks,
    and a next pointer that reads anything but null, or the node itself, makes a [malloc] of
    more than the page has room for undefined. *)
Theorem pool_blocks_apart (H : Heap) (laws : HeapLaws H) (pool : Z) :
  memalign 0 ∅ PAGE_SIZE = Some pool ->
  let start := (CreatePool MemoryPool_new, ∅) in
  let head := pool + sizeof_Pool in
  (HeapCleared H -> forall m given, rtc pool_step start (m, given) ->
    (forall p s, given !! p = Some s ->
       0 < p /\ exists b n, live m !! b = Some n /\ b <= p /\ p + s <= b + n) /\
    (forall p s q t, given !! p = Some s -> given !! q = Some t -> p <> q -> p + s <= q \/ q + t <= p) /\
    (forall size, exists a m', malloc m size = Ok (a, m') /\
       (a <> 0 -> given !! a = None /\
          forall p s, given !! p = Some s -> a + size <= p \/ p + s <= a)) /\
    (forall p s, given !! p = Some s -> exists m', FreeMemory m p = Ok m') /\
    (exists m', ResetPool m = Ok m')) /\
  (raw_quote 0 head = 2 ^ 32 - 1 -> exists m given p s q t,
    rtc pool_step start (m, given) /\ given !! p = Some s /\ given !! q = Some t /\
    p < q /\ q < p + s /\ 0 < t) /\
  (raw_next 0 head <> 0 -> raw_next 0 head <> head -> malloc (CreatePool MemoryPool_new) 4064 = Fault FUndef).
Proof.
  intros Hpool start head. destruct (memalign_spec 0 ∅ PAGE_SIZE pool ltac:(done) Hpool) as (P1 & P2 & P3 & _).
  assert (CreatePool MemoryPool_new = one_page pool (raw_next 0 head) (pool + 56) (raw_quote 0 head)) as E.
  { unfold CreatePool, posix_memalign. cbn [MemoryPool_new calls live]. rewrite Hpool. unfold one_page. f_equal.
    do 2 f_equal. unfold sizeof_Pool, sizeof_SmallNode. lia. }
  split; [|split].
  - intros Hc m given Hr. exact (pool_safe pool m given Hpool Hr).
  - intros Hq. destruct (dirty_quote pool (raw_next 0 head) P1 P2 P3) as [m Hm]. rewrite <- Hq, <- E in Hm.
    eexists m, _, (pool + 64), 32, (pool + 80), 16. split; [exact Hm|]. rewrite lookup_insert_eq.
    rewrite lookup_insert_ne, lookup_insert_eq by lia. split_and!; done || lia.
  - intros Hx Hxh. rewrite E. by apply dirty_next.
Qed.

(** A heap that gives the memory above its live blocks, cleared. *)
Definition heap_top (live : gmap Z Z) : Z := map_fold (fun p s top => Z.max top (p + s)) 1 live.
Definition raw_heap (quote next : Z) : Heap := {|
  memalign n live size :=
    let p := 16 * ((heap_top live + 15) / 16) in
    if p + size <? 2 ^ 63 then Some p else None;
  raw_quote _ _ := quote;
  raw_failed _ _ := 7;
  raw_next _ _ := next
|}.

Definition bump_heap : Heap := raw_heap 0 0.

Lemma heap_top_spec live : 1 <= heap_top live /\ forall p s, live !! p = Some s -> p + s <= heap_top live.
Proof.
  unfold heap_top. apply (map_fold_weak_ind (fun top live => 1 <= top /\ forall p s, live !! p = Some s -> p + s <= top)).
  - split; [done|]. intros p s. by rewrite lookup_empty.
  - intros q t m top Hq [H1 H2]. split; [lia|]. intros p s. rewrite lookup_insert_Some.
    intros [[<- <-]|[_ Hp]]; [lia|]. specialize (H2 p s Hp). lia.
Qed.

#[export] Instance raw_laws quote next : HeapLaws (raw_heap quote next).
Proof.
  split. intros n live size p Hs. cbn [memalign raw_heap]. destruct (_ <? _) eqn:E; [|done]. intros [= <-].
  destruct (heap_top_spec live) as [H1 H2]. split; [dlia|]. split; [rewrite Z.mul_comm; by apply Z.mod_mul|].
  split; [lia|]. intros q t Hq. specialize (H2 q t Hq). right. dlia.
Qed.

#[export] Instance bump_cleared : HeapCleared bump_heap.
Proof. by split. Qed.

(** Requests and releases, one after the other. *)
Definition ex_do (c : MemoryPool * gmap Z Z) (op : Z + Z) : MemoryPool * gmap Z Z :=
  match op with
  | inl size =>
      match malloc (H := bump_heap) (fst c) size with
      | Ok (a, m) => (m, if a =? 0 then snd c else <[a := size]> (snd c))
      | Fault _ => c
      end
  | inr p =>
      match snd c !! p, FreeMemory (fst c) p with
      | Some _, Ok m => (m, delete p (snd c))
      | _, _ => c
      end
  end.

Lemma ex_do_steps ops c : rtc (pool_step (H := bump_heap)) c (foldl ex_do c ops).
Proof.
  revert c. induction ops as [|op ops IH]; intros [m g]; [done|]. simpl. etransitivity; [|apply IH].
  unfold ex_do. destruct op as [size|p]; simpl.
  - destruct (malloc m size) as [[a m']|f] eqn:E; [|done]. apply rtc_once. by apply step_malloc.
  - destruct (g !! p) as [s|] eqn:Ep; [|done]. destruct (FreeMemory m p) as [m'|f] eqn:E; [|done].
    apply rtc_once. by eapply step_free.
Qed.

(** A small block, a large one with its node, a page too small for the fourth, and the first
    one back. *)
Definition ex_start : MemoryPool * gmap Z Z := (CreatePool (H := bump_heap) MemoryPool_new, ∅).
Definition ex_ops : list (Z + Z) := [inl 100; inl 5000; inl 2000; inl 4000; inr 80].
Definition ex_used : MemoryPool * gmap Z Z := foldl ex_do ex_start ex_ops.

Example ex_used_blocks : map_to_list (snd ex_used) = [(4112, 5000); (224, 2000); (9152, 4000)].
Proof. vm_compute. reflexivity. Qed.

(** The same calls on cleared memory, on a counter that reads [UINT_MAX] and on a wild pointer. *)
Lemma pool_blocks_apart_witness :
  (let m := fst ex_used in let given := snd ex_used in
   (forall p s, given !! p = Some s ->
      0 < p /\ exists b n, live m !! b = Some n /\ b <= p /\ p + s <= b + n) /\
   (forall p s q t, given !! p = Some s -> given !! q = Some t -> p <> q -> p + s <= q \/ q + t <= p) /\
   (forall size, exists a m', malloc (H := bump_heap) m size = Ok (a, m') /\
      (a <> 0 -> given !! a = None /\
         forall p s, given !! p = Some s -> a + size <= p \/ p + s <= a)) /\
   (forall p s, given !! p = Some s -> exists m', FreeMemory m p = Ok m') /\
   (exists m', ResetPool m = Ok m')) /\
  (let H := raw_heap (2 ^ 32 - 1) 0 in exists m given p s q t,
     rtc pool_step (CreatePool MemoryPool_new, ∅) (m, given) /\ given !! p = Some s /\ given !! q = Some t /\
     p < q /\ q < p + s /\ 0 < t) /\
  (let H := raw_heap 0 4660 in malloc (CreatePool MemoryPool_new) 4064 = Fault FUndef).
Proof.
  split; [|split].
  - apply (pool_blocks_apart bump_heap (raw_laws 0 0) 16).
    + vm_compute. reflexivity.
    + exact bump_cleared.
    + rewrite <- surjective_pairing. apply ex_do_steps.
  - intros H. apply (pool_blocks_apart H (raw_laws _ _) 16); vm_compute; reflexivity.
  - intros H. apply (pool_blocks_apart H (raw_laws _ _) 16); vm_compute; first [reflexivity|discriminate].
Defined.
