(* ===== verification/Threads.v ===== *)
(** * Threads
      (ryan_network/base: current_thread.h, current_thread.cc, thread.h, thread.cc) *)

From S2P Require Import Prelude Format Timestamp.

(** ** current_thread *)

(** [t_cached_tid] of the calling thread, whose id the kernel says is [gettid].
    src: ryan_network/base/current_thread.cc:6-10 current_thread::CacheTid *)
Definition CacheTid (gettid t_cached_tid : Z) : Z :=
  if t_cached_tid =? 0 then s32 gettid else t_cached_tid.
(** src: ryan_network/base/current_thread.h:16-21 current_thread::Tid *)
Definition Tid (gettid t_cached_tid : Z) : Z :=
  if t_cached_tid =? 0 then CacheTid gettid t_cached_tid else t_cached_tid.
(** src: ryan_network/base/current_thread.cc:12-12 current_thread::IsMainThread *)
Definition IsMainThread (getpid gettid t_cached_tid : Z) : bool := Tid gettid t_cached_tid =? getpid.

(** The [timespec] given to [nanosleep].
    src: ryan_network/base/thread.cc:65-71 current_thread::SleepUsec *)
Definition SleepUsec (usec : Z) : Z * Z :=
  (Z.quot usec kMicroSecondsPerSecond, Z.rem usec kMicroSecondsPerSecond * 1000).

(** ** Thread *)

(** What the [std::thread] of a [Thread] is: none, joinable, or given up by
    [join] or [detach]. *)
Inductive handle := NoThread | Joinable | Joined | Detached.

(** src: ryan_network/base/thread.h:32-38 Thread *)
Record Thread := mkThread {
  started_ : bool;
  joined_ : bool;
  thread_ : handle;
  tid_ : Z;
  name_ : bytes
}.

(** [num] is the counter after its increment.
    src: ryan_network/base/thread.cc:56-63 Thread::SetDefaultName *)
Definition SetDefaultName (num_created : Z) (name : bytes) : Z * bytes :=
  let num := s32 (num_created + 1) in
  (num, match name with [] => snprintf 32 (lit "Thread" ++ dec num) | _ => name end).

(** src: ryan_network/base/thread.cc:13-21 Thread::Thread *)
Definition Thread_new (num_created : Z) (name : bytes) : Z * Thread :=
  let '(num, name) := SetDefaultName num_created name in
  (num, mkThread false false NoThread 0 name).

(** The caller waits on the semaphore until the new thread, whose id is [tid],
    has stored it.
    src: ryan_network/base/thread.cc:31-48 Thread::Start *)
Definition Start (t : Thread) (tid : Z) : Thread :=
  mkThread true (joined_ t) Joinable tid (name_ t).

(** Joining what cannot be joined throws; through a null pointer it is undefined.
    src: ryan_network/base/thread.cc:50-54 Thread::Join *)
Definition Join (t : Thread) : result Thread :=
  match thread_ t with
  | Joinable => Ok (mkThread (started_ t) true Joined (tid_ t) (name_ t))
  | NoThread => Fault FUndef
  | _ => Fault FAbort
  end.

(** src: ryan_network/base/thread.cc:23-29 Thread::~Thread *)
Definition Thread_destroy (t : Thread) : result Thread :=
  if started_ t && negb (joined_ t) then
    match thread_ t with
    | Joinable => Ok (mkThread (started_ t) (joined_ t) Detached (tid_ t) (name_ t))
    | NoThread => Fault FUndef
    | _ => Fault FAbort
    end
  else Ok t.
