(* ===== verification/CountDownLatch.v ===== *)
(** * CountDownLatch (ryan_network/base/count_down_latch.h, count_down_latch.cc)

    A block that holds the mutex is one atomic step.  A thread inside [wait] is
    recorded as asleep; it may also wake with no reason. *)

From S2P Require Import Prelude.

(** [asleep] are the threads inside [cv_.wait], [returned] those whose [Wait] came
    back, last first.
    src: ryan_network/base/count_down_latch.h:20-22 CountDownLatch *)
Record CountDownLatch := mkCountDownLatch {
  count_ : Z;
  asleep : list Z;
  returned : list Z
}.

(** src: ryan_network/base/count_down_latch.cc:3-3 CountDownLatch::CountDownLatch *)
Definition new (count : Z) : CountDownLatch := mkCountDownLatch count [] [].

(** One test of the loop's condition by thread [t], new or just woken.
    src: ryan_network/base/count_down_latch.cc:5-10 CountDownLatch::Wait *)
Definition Wait (t : Z) (l : CountDownLatch) : CountDownLatch :=
  if count_ l >? 0 then mkCountDownLatch (count_ l) (t :: asleep l) (returned l)
  else mkCountDownLatch (count_ l) (asleep l) (t :: returned l).

(** Every thread that [notify_all] wakes tests the condition again; no one can
    change the count to a positive one before it does.
    src: ryan_network/base/count_down_latch.cc:12-18 CountDownLatch::CountDown *)
Definition CountDown (l : CountDownLatch) : result CountDownLatch :=
  _ ← defined_if (- 2 ^ 31 <? count_ l);
  let c := count_ l - 1 in
  if c =? 0 then Ok (foldr Wait (mkCountDownLatch c [] (returned l)) (asleep l))
  else Ok (mkCountDownLatch c (asleep l) (returned l)).

(** src: ryan_network/base/count_down_latch.cc:20-23 CountDownLatch::GetCount *)
Definition GetCount (l : CountDownLatch) : Z := count_ l.

(** a thread asleep that wakes with no reason *)
Definition spurious (t : Z) (l : CountDownLatch) : CountDownLatch :=
  if decide (t ∈ asleep l)
  then Wait t (mkCountDownLatch (count_ l) (filter (fun u => u <> t) (asleep l)) (returned l)) else l.

Inductive event := EWait (t : Z) | ECountDown | EWake (t : Z).

Definition step (e : event) (l : CountDownLatch) : result CountDownLatch :=
  match e with
  | EWait t => Ok (Wait t l)
  | ECountDown => CountDown l
  | EWake t => Ok (spurious t l)
  end.

Fixpoint run (es : list event) (l : CountDownLatch) : result CountDownLatch :=
  match es with
  | [] => Ok l
  | e :: es => l ← step e l; run es l
  end.

(** the threads that called [Wait], and how often [CountDown] was called *)
Definition waiters (es : list event) : list Z :=
  omap (fun e => match e with EWait t => Some t | _ => None end) es.
Definition downs (es : list event) : Z :=
  zlen (omap (fun e => match e with ECountDown => Some tt | _ => None end) es).

(** ** When a latch opens *)

(** After [d] calls of [CountDown] and the calls of [Wait] by [ws]. *)
Record latch_ok (n d : Z) (ws : list Z) (l : CountDownLatch) : Prop := {
  lo_count : count_ l = n - d;
  lo_closed : d < n -> returned l = [] /\ asleep l ≡ₚ ws;
  lo_open : n <= d -> asleep l = [] /\ returned l ≡ₚ ws
}.

Lemma Wait_all_open c ts rs : c <= 0 ->
  foldr Wait (mkCountDownLatch c [] rs) ts = mkCountDownLatch c [] (ts ++ rs).
Proof.
  intros Hc. induction ts as [|t ts IH]; [done|]. simpl. rewrite IH. unfold Wait. simpl.
  rewrite Z.gtb_ltb, (proj2 (Z.ltb_ge _ _)) by lia. done.
Qed.

Lemma Wait_ok n d ws l t : latch_ok n d ws l -> latch_ok n d (t :: ws) (Wait t l).
Proof.
  intros [H1 H2 H3]. unfold Wait. rewrite H1.
  destruct (Z.gtb_spec (n - d) 0) as [H|H]; split; simpl; try done; try lia.
  - intros _. destruct H2 as [-> ->]; [lia|]. done.
  - intros _. destruct H3 as [-> ->]; [lia|]. done.
Qed.

Lemma CountDown_ok n d ws l :
  latch_ok n d ws l -> 0 <= d -> 0 <= n -> d < 2 ^ 31 ->
  exists l', CountDown l = Ok l' /\ latch_ok n (d + 1) ws l'.
Proof.
  intros [H1 H2 H3] Hd Hn Hlt. unfold CountDown. rewrite defined_Ok, bind_Ok by lia. rewrite H1.
  destruct (Z.eqb_spec (n - d - 1) 0) as [H|H]; (eexists; split; [reflexivity|]).
  - destruct H2 as [G1 G2]; [lia|]. rewrite Wait_all_open, G1, app_nil_r by lia.
    split; simpl; [lia|lia|]. by intros _.
  - split; simpl; [lia| |]; intros; [apply H2|apply H3]; lia.
Qed.

Lemma spurious_ok n d ws l t : latch_ok n d ws l -> NoDup ws -> latch_ok n d ws (spurious t l).
Proof.
  intros Hl Hnd. unfold spurious. case_decide as Hin; [|done].
  pose proof Hl as [H1 H2 H3]. destruct (decide (d < n)) as [Hlt|Hge].
  - destruct H2 as [G1 G2]; [done|]. unfold Wait. simpl. rewrite (proj2 (Z.gtb_lt _ _)) by lia.
    split; simpl; [done| |lia]. intros _. split; [done|]. rewrite <- G2.
    assert (NoDup (asleep l)) as Hnd' by (by rewrite G2).
    clear -Hin Hnd'. revert Hin. induction (asleep l) as [|u us IH]; intros Hin; [set_solver|].
    apply NoDup_cons in Hnd' as [Hu Hnd']. destruct (decide (u = t)) as [->|Hne].
    + rewrite filter_cons_False by (intros H; by apply H). f_equiv.
      clear -Hu. induction us as [|v us IH]; [done|]. rewrite filter_cons_True by set_solver.
      rewrite IH; set_solver.
    + rewrite filter_cons_True by done. rewrite Permutation_swap, IH; (done || set_solver).
  - destruct H3 as [G1 G2]; [lia|]. rewrite G1 in Hin. set_solver.
Qed.

Lemma latch_run_ok n es d ws l :
  latch_ok n d ws l -> 0 <= n -> 0 <= d -> d + downs es < 2 ^ 31 -> NoDup (rev (waiters es) ++ ws) ->
  exists l', run es l = Ok l' /\ latch_ok n (d + downs es) (rev (waiters es) ++ ws) l'.
Proof.
  revert d ws l. induction es as [|e es IH]; intros d ws l Hl Hn Hd Hlt Hnd.
  - exists l. split; [done|]. by rewrite Z.add_0_r.
  - assert (0 <= downs es) as Hp by (unfold downs; lia).
    destruct e as [t| |t]; cbn [run step].
    + rewrite bind_Ok. change (waiters (EWait t :: es)) with (t :: waiters es) in *. simpl rev in *.
      rewrite <- app_assoc in *. apply IH; try done. by apply Wait_ok.
    + assert (downs (ECountDown :: es) = 1 + downs es) as Hc by (unfold downs; cbn [omap list_omap]; rewrite length_cons; lia).
      destruct (CountDown_ok n d ws l Hl Hd Hn ltac:(lia)) as (l1 & -> & H1). rewrite bind_Ok.
      replace (d + downs (ECountDown :: es)) with (d + 1 + downs es) in * by lia.
      apply IH; try done; lia.
    + rewrite bind_Ok. apply IH; try done. apply spurious_ok; [done|].
      change (waiters (EWake t :: es)) with (waiters es) in Hnd. by apply NoDup_app in Hnd as (_ & _ & ?).
Qed.

(** C35: a latch opens when it is counted down, and not before.  Whatever the order
    of the calls of [Wait] and [CountDown] and of spurious wake-ups, with
    [count] not negative: as long as [CountDown] was called fewer than [count]
    times, no [Wait] has returned; from then on every call has returned and none
    is left asleep. *)
Theorem latch_opens (count : Z) (es : list event) :
  0 <= count -> downs es < 2 ^ 31 -> NoDup (waiters es) ->
  exists l, run es (new count) = Ok l /\ GetCount l = count - downs es /\
    (downs es < count -> returned l = [] /\ asleep l ≡ₚ waiters es) /\
    (count <= downs es -> asleep l = [] /\ returned l ≡ₚ waiters es).
Proof.
  intros Hn Hlt Hnd.
  destruct (latch_run_ok count es 0 [] (new count)) as (l & E & [H1 H2 H3]); try done; try lia.
  - split; simpl; [lia|done|done].
  - rewrite app_nil_r. by rewrite <- (Permutation_rev (waiters es)).
  - rewrite app_nil_r, <- (Permutation_rev (waiters es)) in *. by exists l.
Qed.

Lemma latch_opens_witness :
  exists l, run [EWait 7; ECountDown; EWake 7; EWait 8; ECountDown] (new 2) = Ok l /\
    GetCount l = 0 /\ (2 < 2 -> returned l = [] /\ asleep l ≡ₚ [7; 8]) /\
    (2 <= 2 -> asleep l = [] /\ returned l ≡ₚ [7; 8]).
Proof.
  apply (latch_opens 2 [EWait 7; ECountDown; EWake 7; EWait 8; ECountDown]).
  - lia.
  - vm_compute. reflexivity.
  - vm_compute. repeat constructor; set_solver.
Defined.
