(* ===== verification/ThreadPool.v ===== *)
(** * ThreadPool (ryan_network/base/thread_pool.h, thread_pool.cc)

    A block that holds the mutex is one atomic step.  A thread inside [wait] is
    recorded as asleep; it may also wake with no reason.
    [notify_one] wakes one of the threads asleep, any one. *)

From S2P Require Import Prelude Format.

Section Pool.
Context {Task : Type}.

(** src: ryan_network/base/thread_pool.h:42-47 ThreadPool *)
Record ThreadPool := mkThreadPool {
  pool_name : bytes;
  thread_init_callback_ : option Task;
  threads_ : list bytes;
  queue_ : list Task;
  max_queue_size_ : Z;
  running_ : bool
}.

(** src: ryan_network/base/thread_pool.cc:6-12 ThreadPool::ThreadPool *)
Definition new (nameArg : bytes) : ThreadPool := mkThreadPool nameArg None [] [] 0 false.

(** The [int] becomes a [size_t].
    src: ryan_network/base/thread_pool.h:22-22 ThreadPool::SetMaxQueueSize *)
Definition SetMaxQueueSize (p : ThreadPool) (max_size : Z) : ThreadPool :=
  mkThreadPool (pool_name p) (thread_init_callback_ p) (threads_ p) (queue_ p) (u64 max_size) (running_ p).
(** src: ryan_network/base/thread_pool.h:23-23 ThreadPool::SetThreadInitCallback *)
Definition SetThreadInitCallback (p : ThreadPool) (cb : option Task) : ThreadPool :=
  mkThreadPool (pool_name p) cb (threads_ p) (queue_ p) (max_queue_size_ p) (running_ p).

Definition set_queue (p : ThreadPool) (q : list Task) : ThreadPool :=
  mkThreadPool (pool_name p) (thread_init_callback_ p) (threads_ p) q (max_queue_size_ p) (running_ p).

(** The names of the threads made, and the callback the caller runs itself.
    src: ryan_network/base/thread_pool.cc:20-34 ThreadPool::Start *)
Definition Start (p : ThreadPool) (numThreads : Z) : result (ThreadPool * option Task) :=
  _ ← assert_ (bool_decide (threads_ p = []));
  let names := (fun i => pool_name p ++ snprintf 32 (dec (Z.of_nat i + 1))) <$> seq 0 (Z.to_nat numThreads) in
  Ok (mkThreadPool (pool_name p) (thread_init_callback_ p) names (queue_ p) (max_queue_size_ p) true,
      if numThreads =? 0 then thread_init_callback_ p else None).

(** src: ryan_network/base/thread_pool.cc:48-51 ThreadPool::QueueSize *)
Definition QueueSize (p : ThreadPool) : Z := zlen (queue_ p).

(** src: ryan_network/base/thread_pool.cc:86-88 ThreadPool::IsFull *)
Definition IsFull (p : ThreadPool) : bool :=
  (max_queue_size_ p >? 0) && (zlen (queue_ p) >=? max_queue_size_ p).

(** What a test of the loop of [RunTask] leads to: the caller runs the task, or
    sleeps on [not_full_], or gives up, or has queued the task and notifies
    [not_empty_]. *)
Inductive put := PutRun | PutSleep | PutDrop | PutQueued (p : ThreadPool).

(** src: ryan_network/base/thread_pool.cc:53-67 ThreadPool::RunTask *)
Definition RunTask (p : ThreadPool) (task : Task) : result put :=
  match threads_ p with
  | [] => Ok PutRun
  | _ =>
      if IsFull p && running_ p then Ok PutSleep
      else if negb (running_ p) then Ok PutDrop
      else
        _ ← assert_ (negb (IsFull p));
        Ok (PutQueued (set_queue p (queue_ p ++ [task])))
  end.

(** What a test of the loop of [Take] leads to: sleep on [not_empty_], or a
    return, with whether [not_full_] is notified. *)
Inductive taken := TakeSleep | TakeReturn (t : option Task) (notify : bool) (p : ThreadPool).

(** src: ryan_network/base/thread_pool.cc:69-84 ThreadPool::Take *)
Definition Take (p : ThreadPool) : taken :=
  match queue_ p with
  | [] => if running_ p then TakeSleep else TakeReturn None false p
  | task :: q => TakeReturn (Some task) (max_queue_size_ p >? 0) (set_queue p q)
  end.

(** The locked part of [Stop]; both conditions are notified.
    src: ryan_network/base/thread_pool.cc:36-42 ThreadPool::Stop *)
Definition Stop (p : ThreadPool) : ThreadPool :=
  mkThreadPool (pool_name p) (thread_init_callback_ p) (threads_ p) (queue_ p) (max_queue_size_ p) false.

(** [Some p]: the destructor stops the pool.
    src: ryan_network/base/thread_pool.cc:14-18 ThreadPool::~ThreadPool *)
Definition ThreadPool_destroy (p : ThreadPool) : option ThreadPool :=
  if running_ p then Some (Stop p) else None.

(** ** Interleaving

    A worker is before the test of its loop, before a test of [Take]'s loop,
    asleep in it, running a task, or has left. *)
Inductive worker := Testing | Taking | Asleep | Running (t : option Task) | Left.

(** [awake] and [sleeping] are the calls of [RunTask] before a test and inside
    [wait]; [put_] the tasks queued so far, [took] those taken, [dropped]
    those given up. *)
Record system := mkSystem {
  pool : ThreadPool;
  workers : list worker;
  awake : list Task;
  sleeping : list Task;
  put_ : list Task;
  took : list Task;
  dropped : list Task
}.

(** [not_empty_.notify_one()] *)
Inductive notify_worker : list worker -> list worker -> Prop :=
  | notify_some l k : notify_worker (l ++ Asleep :: k) (l ++ Taking :: k)
  | notify_none l : Asleep ∉ l -> notify_worker l l.

(** [not_full_.notify_one()] *)
Inductive notify_caller : list Task * list Task -> list Task * list Task -> Prop :=
  | caller_some aw l t k : notify_caller (aw, l ++ t :: k) (t :: aw, l ++ k)
  | caller_none aw : notify_caller (aw, []) (aw, []).

Definition wake (w : worker) : worker := match w with Asleep => Taking | _ => w end.

(** The steps of the program.
    src: ryan_network/base/thread_pool.cc:90-110 ThreadPool::RunInThread *)
Inductive step : system -> system -> Prop :=
  | step_call s t :
      step s (mkSystem (pool s) (workers s) (t :: awake s) (sleeping s) (put_ s) (took s) (dropped s))
  | step_put_sleep p ws l t k sl pu to dr :
      RunTask p t = Ok PutSleep ->
      step (mkSystem p ws (l ++ t :: k) sl pu to dr) (mkSystem p ws (l ++ k) (t :: sl) pu to dr)
  | step_put_drop p ws l t k sl pu to dr :
      RunTask p t = Ok PutDrop ->
      step (mkSystem p ws (l ++ t :: k) sl pu to dr) (mkSystem p ws (l ++ k) sl pu to (dr ++ [t]))
  | step_put p p' ws ws' l t k sl pu to dr :
      RunTask p t = Ok (PutQueued p') -> notify_worker ws ws' ->
      step (mkSystem p ws (l ++ t :: k) sl pu to dr) (mkSystem p' ws' (l ++ k) sl (pu ++ [t]) to dr)
  | step_test p l k aw sl pu to dr :
      step (mkSystem p (l ++ Testing :: k) aw sl pu to dr)
           (mkSystem p (l ++ (if running_ p then Taking else Left) :: k) aw sl pu to dr)
  | step_take_sleep p l k aw sl pu to dr :
      Take p = TakeSleep ->
      step (mkSystem p (l ++ Taking :: k) aw sl pu to dr) (mkSystem p (l ++ Asleep :: k) aw sl pu to dr)
  | step_take p p' b r l k aw aw' sl sl' pu to dr :
      Take p = TakeReturn r b p' ->
      (if b then notify_caller (aw, sl) (aw', sl') else aw' = aw /\ sl' = sl) ->
      step (mkSystem p (l ++ Taking :: k) aw sl pu to dr)
           (mkSystem p' (l ++ Running r :: k) aw' sl' pu (to ++ match r with Some t => [t] | None => [] end) dr)
  | step_ran p r l k aw sl pu to dr :
      step (mkSystem p (l ++ Running r :: k) aw sl pu to dr) (mkSystem p (l ++ Testing :: k) aw sl pu to dr)
  | step_stop s :
      step s (mkSystem (Stop (pool s)) (wake <$> workers s) (sleeping s ++ awake s) [] (put_ s) (took s) (dropped s))
  | step_wake_worker p l k aw sl pu to dr :
      step (mkSystem p (l ++ Asleep :: k) aw sl pu to dr) (mkSystem p (l ++ Taking :: k) aw sl pu to dr)
  | step_wake_caller p ws aw l t k pu to dr :
      step (mkSystem p ws aw (l ++ t :: k) pu to dr) (mkSystem p ws (t :: aw) (l ++ k) pu to dr).

(** after [Start] *)
Definition initial (p : ThreadPool) : system :=
  mkSystem p ((fun _ => Testing) <$> threads_ p) [] [] [] [] [].
End Pool.
Arguments ThreadPool : clear implicits.
Arguments system : clear implicits.
