(* ===== verification/ThreadPoolSpec.v ===== *)
(** * Properties of thread pools *)

From S2P Require Import Prelude ThreadPool.

Section Pool.
Context {Task : Type}.
Implicit Types (s : system Task) (p : ThreadPool Task).

(** A worker that can still take a task. *)
Definition active (w : worker (Task := Task)) : Prop := w <> Asleep /\ w <> Left.

(** [started] says whether the pool has workers. *)
Record pool_ok (m : Z) (nthreads : nat) s : Prop := {
  po_max : max_queue_size_ (pool s) = m;
  po_threads : length (threads_ (pool s)) = nthreads;
  po_workers : length (workers s) = nthreads;
  po_fifo : put_ s = took s ++ queue_ (pool s);
  po_bound : 0 < m -> zlen (queue_ (pool s)) <= m;
  po_live : if running_ (pool s) then Left ∉ workers s else (Asleep ∉ workers s) /\ sleeping s = [];
  po_work : queue_ (pool s) <> [] -> (0 < nthreads)%nat -> running_ (pool s) = true ->
    exists w, w ∈ workers s /\ active w;
  po_room : sleeping s <> [] -> 0 < m /\ m - zlen (queue_ (pool s)) <= zlen (awake s)
}.

Lemma elem_replace (l k : list (worker (Task := Task))) w v x :
  x ∈ l ++ w :: k -> x <> w -> x ∈ l ++ v :: k.
Proof. rewrite !elem_of_app, !elem_of_cons. naive_solver. Qed.

Lemma not_elem_replace (l k : list (worker (Task := Task))) w v x :
  x ∉ l ++ w :: k -> x <> v -> x ∉ l ++ v :: k.
Proof. rewrite !elem_of_app, !elem_of_cons. naive_solver. Qed.

(** Changing one worker, to one that is still active, keeps the facts about workers. *)
Lemma elem_middle (l k : list (worker (Task := Task))) w : w ∈ l ++ w :: k.
Proof. rewrite elem_of_app, elem_of_cons. auto. Qed.

Lemma notify_worker_length (ws ws' : list (worker (Task := Task))) :
  notify_worker ws ws' -> length ws' = length ws.
Proof. destruct 1; [|done]. by rewrite !length_app. Qed.

(** Notifying makes one of the workers active, if there is any and none has left. *)
Lemma notify_worker_active (ws ws' : list (worker (Task := Task))) :
  notify_worker ws ws' -> Left ∉ ws -> (0 < length ws)%nat ->
  (Left ∉ ws') /\ exists w, w ∈ ws' /\ active w.
Proof.
  destruct 1 as [l k|l Hl]; intros HL Hlen.
  - split; [by apply (not_elem_replace _ _ Asleep)|]. exists Taking. split; [apply elem_middle|done].
  - split; [done|]. destruct l as [|w l]; [simpl in Hlen; lia|]. exists w. split; [by left|].
    split; [intros ->; set_solver|intros ->; set_solver].
Qed.

(** [RunTask] and [Take], with their outcomes. *)
Lemma RunTask_spec p t r :
  RunTask p t = Ok r ->
  match r with
  | PutRun => threads_ p = []
  | PutSleep => IsFull p = true /\ running_ p = true
  | PutDrop => running_ p = false
  | PutQueued p' => threads_ p <> [] /\ IsFull p = false /\ running_ p = true /\
      p' = set_queue p (queue_ p ++ [t])
  end.
Proof.
  unfold RunTask. destruct (threads_ p) eqn:E; [by intros [= <-]|].
  destruct (IsFull p) eqn:Ef, (running_ p) eqn:Er; simpl; intros [= <-]; done.
Qed.

Lemma RunTask_no_fault p t : exists r, RunTask p t = Ok r.
Proof.
  unfold RunTask. destruct (threads_ p); [by eexists|].
  destruct (IsFull p) eqn:Ef, (running_ p) eqn:Er; simpl; by eexists.
Qed.

Lemma IsFull_true p : IsFull p = true -> 0 < max_queue_size_ p <= zlen (queue_ p).
Proof. unfold IsFull. lia. Qed.
Lemma IsFull_false p : IsFull p = false -> 0 < max_queue_size_ p -> zlen (queue_ p) < max_queue_size_ p.
Proof. unfold IsFull. lia. Qed.

(** A place given back wakes one of the callers asleep. *)
Lemma caller_room (m room : Z) (aw sl aw' sl' : list Task) :
  (if m >? 0 then notify_caller (aw, sl) (aw', sl') else aw' = aw /\ sl' = sl) ->
  (sl <> [] -> 0 < m /\ room - 1 <= zlen aw) ->
  (sl' <> [] -> 0 < m /\ room <= zlen aw') /\ (sl = [] -> sl' = []).
Proof.
  intros Hc Hsl. destruct (Z.gtb_spec m 0) as [Hm|Hm].
  - inversion Hc; subst.
    + split; [|by destruct l]. intros _. destruct Hsl as [G1 G2]; [by destruct l|].
      rewrite length_cons. split; [done|lia].
    + by split.
  - destruct Hc as [-> ->]. split; [|done]. intros Hne. destruct (Hsl Hne). lia.
Qed.

(** A step that only changes one worker, to an active one or from an inactive
    one, ... *)
Lemma worker_step m n p l k w v aw sl pu to dr :
  pool_ok m n (mkSystem p (l ++ w :: k) aw sl pu to dr) ->
  (v = Left -> running_ p = false) -> (v = Asleep -> running_ p = true /\ queue_ p = []) ->
  pool_ok m n (mkSystem p (l ++ v :: k) aw sl pu to dr).
Proof.
  intros [H1 H2 H3 H4 H5 H6 H7 H8] HL HA. split; cbn in *; try done.
  - rewrite <- H3, !length_app. done.
  - destruct (running_ p).
    + apply (not_elem_replace _ _ w); [done|]. intros <-. by specialize (HL eq_refl).
    + destruct H6 as [H6 H6']. split; [|done]. apply (not_elem_replace _ _ w); [done|].
      intros <-. by destruct (HA eq_refl).
  - intros Hq Hn Hr. exists v. split; [apply elem_middle|]. split; intros ->.
    + by destruct (HA eq_refl).
    + rewrite (HL eq_refl) in Hr. done.
Qed.

Lemma pool_put_ok m n p p' ws ws' l t k sl pu to dr :
  pool_ok m n (mkSystem p ws (l ++ t :: k) sl pu to dr) -> RunTask p t = Ok (PutQueued p') -> notify_worker ws ws' ->
  pool_ok m n (mkSystem p' ws' (l ++ k) sl (pu ++ [t]) to dr).
Proof.
  intros [H1 H2 H3 H4 H5 H6 H7 H8] H H0. destruct (RunTask_spec _ _ _ H) as (Hne & Hf & Hr & ->). cbn in *. rewrite Hr in *.
  destruct (notify_worker_active _ _ H0) as [G1 G2]; [done|destruct (threads_ p); simpl in *; [done|lia]|].
  rewrite <- (notify_worker_length _ _ H0) in H3.
  split; cbn; try done; rewrite ?Hr; try done.
  - by rewrite H4, app_assoc.
  - intros Hm. pose proof (IsFull_false p Hf ltac:(lia)). rewrite length_app. simpl. lia.
  - intros Hne'. destruct (H8 Hne') as [G3 G4]. split; [done|].
    rewrite !length_app in *. simpl in *. lia.
Qed.

(** A worker that takes: the front of the queue, or nothing when the pool has been stopped. *)
Lemma pool_take_ok m n p p' b r l k aw aw' sl sl' pu to dr :
  pool_ok m n (mkSystem p (l ++ Taking :: k) aw sl pu to dr) -> Take p = TakeReturn r b p' ->
  (if b then notify_caller (aw, sl) (aw', sl') else aw' = aw /\ sl' = sl) ->
  pool_ok m n (mkSystem p' (l ++ Running r :: k) aw' sl' pu (to ++ match r with Some t => [t] | None => [] end) dr).
Proof.
  intros Hs H H0. pose proof Hs as [H1 H2 H3 H4 H5 H6 H7 H8]. unfold Take in H. cbn in *. destruct (queue_ p) as [|t q] eqn:Eq.
  - destruct (running_ p) eqn:Er; [done|]. injection H as <- <- <-. destruct H0 as [-> ->].
    rewrite app_nil_r. by apply (worker_step m n _ _ _ Taking).
  - injection H as <- <- <-.
    destruct (caller_room (max_queue_size_ p) (m - zlen q) _ _ _ _ H0) as [Hroom Hnil].
    { intros Hne. destruct (H8 Hne) as [G1 G2]. rewrite H1. split; [done|]. rewrite length_cons in G2. lia. }
    rewrite H1 in Hroom. split; cbn; try done; try lia.
    + rewrite <- H3, !length_app. done.
    + by rewrite H4, <- app_assoc.
    + intros Hm. specialize (H5 Hm). rewrite length_cons in H5. lia.
    + destruct (running_ p).
      * by apply (not_elem_replace _ _ Taking).
      * destruct H6 as [G1 G2]. split; [by apply (not_elem_replace _ _ Taking)|by apply Hnil].
    + intros _ _ _. exists (Running (Some t)). split; [apply elem_middle|done].
Qed.

Lemma pool_step_ok m n s s' : pool_ok m n s -> step s s' -> pool_ok m n s'.
Proof.
  intros Hs Hstep. pose proof Hs as [H1 H2 H3 H4 H5 H6 H7 H8]. destruct Hstep; cbn in *.
  - (* call *) split; cbn; try done. intros Hne. destruct (H8 Hne). split; [done|].
    change (length (t :: awake s)) with (S (length (awake s))). lia.
  - (* put sleep *) destruct (RunTask_spec _ _ _ H) as [Hf Hr]. apply IsFull_true in Hf. rewrite H1 in Hf.
    split; cbn; try done. + by rewrite Hr in *. + intros _. lia.
  - (* put drop *) apply RunTask_spec in H. rewrite H in *. destruct H6 as [H6 ->].
    split; cbn; try done; by rewrite H.
  - (* put *) by eapply pool_put_ok.
  - (* test *) apply (worker_step m n _ _ _ Testing); [done|..]; by destruct (running_ p).
  - (* take sleep *) unfold Take in H. destruct (queue_ p) eqn:Eq; [|done].
    apply (worker_step m n _ _ _ Taking); [done|done|]. intros _. by destruct (running_ p).
  - (* take *) by eapply pool_take_ok.
  - (* ran *) by apply (worker_step m n _ _ _ (Running r)).
  - (* stop *) split; cbn; try done.
    + by rewrite length_fmap.
    + split; [|done]. rewrite list_elem_of_fmap. intros (w & Hw & _). by destruct w.
  - (* wake worker *) by apply (worker_step m n _ _ _ Asleep).
  - (* wake caller *) split; cbn; try done.
    + destruct (running_ p); [done|]. destruct H6 as [_ H6]. by destruct l.
    + intros Hne. destruct H8 as [G1 G2]; [by destruct l|]. split; [done|]. simpl length. lia.
Qed.

Lemma initial_ok p :
  queue_ p = [] -> running_ p = true -> pool_ok (max_queue_size_ p) (length (threads_ p)) (initial p).
Proof.
  intros Hq Hr. split; cbn; try done; rewrite ?Hq, ?Hr; try done.
  - by rewrite length_fmap.
  - simpl. lia.
  - rewrite list_elem_of_fmap. intros (w & Hw & _). done.
Qed.

Lemma pool_reachable_ok p s :
  queue_ p = [] -> running_ p = true -> rtc step (initial p) s ->
  pool_ok (max_queue_size_ p) (length (threads_ p)) s.
Proof.
  intros Hq Hr. apply rtc_invariant; [|by apply initial_ok]. apply pool_step_ok.
Qed.
End Pool.

(** C14: what a running pool guarantees, in every interleaving of callers and workers
    and with spurious wake-ups.  The tasks are taken in the order they were
    queued, each once; the queue never holds more than [max_queue_size_], and the
    assertion of [RunTask] never fails; no notification is lost: while the pool runs
    and a task is queued some worker is awake, and while a caller sleeps in
    [RunTask] the queue is full or another caller is awake to use the place. *)
Theorem pool_fifo_no_lost_wakeup {Task : Type} (p : ThreadPool Task) (s : system Task) :
  queue_ p = [] -> running_ p = true -> threads_ p <> [] -> rtc step (initial p) s ->
  put_ s = took s ++ queue_ (pool s) /\
  (0 < max_queue_size_ p -> zlen (queue_ (pool s)) <= max_queue_size_ p) /\
  (forall t, exists r, RunTask (pool s) t = Ok r /\ r <> PutRun) /\
  (running_ (pool s) = true -> queue_ (pool s) <> [] -> exists w, w ∈ workers s /\ active w) /\
  (sleeping s <> [] -> IsFull (pool s) = true \/ awake s <> []).
Proof.
  intros Hq Hr Ht Hs. destruct (pool_reachable_ok p s Hq Hr Hs) as [H1 H2 H3 H4 H5 H6 H7 H8].
  split; [done|]. split; [done|]. split; [|split].
  - intros t. destruct (RunTask_no_fault (pool s) t) as [r E]. exists r. split; [done|]. intros ->.
    apply RunTask_spec in E. rewrite E in H2. by destruct (threads_ p).
  - intros Hrun Hne. apply H7; [done| |done]. destruct (threads_ p); [done|simpl; lia].
  - intros Hne. destruct (H8 Hne) as [G1 G2]. unfold IsFull. rewrite H1.
    destruct (awake s); [left; simpl in G2; lia|by right].
Qed.

Definition ex_pool : ThreadPool nat := mkThreadPool (lit "p") None [lit "p1"] [] 1 true.

Lemma pool_fifo_no_lost_wakeup_witness :
  let s := mkSystem (set_queue ex_pool [5%nat]) [Testing] [] [] [5%nat] [] [] in
  [5%nat] = [] ++ [5%nat] /\ (0 < 1 -> zlen [5%nat] <= 1) /\
  (forall t, exists r, RunTask (pool s) t = Ok r /\ r <> PutRun) /\
  (running_ (pool s) = true -> [5%nat] <> [] -> exists w, w ∈ workers s /\ active w) /\
  (sleeping s <> [] -> IsFull (pool s) = true \/ awake s <> []).
Proof.
  apply (pool_fifo_no_lost_wakeup ex_pool
    (mkSystem (set_queue ex_pool [5%nat]) [Testing] [] [] [5%nat] [] [])).
  - reflexivity.
  - reflexivity.
  - discriminate.
  - eapply rtc_l; [apply (step_call (initial ex_pool) 5%nat)|].
    apply rtc_once. apply (step_put ex_pool _ _ _ [] 5%nat [] []); [reflexivity|].
    apply notify_none. cbn. rewrite list_elem_of_singleton. discriminate.
Defined.
