(* ===== verification/LoopThreads.v ===== *)
(** * EventLoopThread and EventLoopThreadPool
      (ryan_network/net/event_loop_thread.h, .cc, event_loop_thread_pool.h, .cc)

    A loop is a number, its address.  [EventLoopThread] is a state and the steps
    of the thread it starts; [StartLoop] is what its caller does between two
    waits. *)

From S2P Require Import Prelude Format Threads.

(** ** EventLoopThread *)

(** Where [ThreadFunc] is: not started, in the user's callback with the loop
    made, running the loop, behind it, or over. *)
Inductive thread_pc := NotStarted | InCallback | Looping | Behind | Over.

(** [loop_object] is the local variable of [ThreadFunc], while it exists.
    src: ryan_network/net/event_loop_thread.h:27-32 EventLoopThread *)
Record EventLoopThread := mkEventLoopThread {
  loop_ : option Z;
  exiting_ : bool;
  thread_ : Thread;
  has_callback : bool;
  loop_object : option Z;
  quit_requested : bool;
  at_ : thread_pc
}.

(** src: ryan_network/net/event_loop_thread.cc:5-15 EventLoopThread::EventLoopThread *)
Definition EventLoopThread_new (num_created : Z) (cb : bool) (name : bytes) : Z * EventLoopThread :=
  let '(num, t) := Thread_new num_created name in
  (num, mkEventLoopThread None false t cb None false NotStarted).

(** [thread_.Start()], after which the new thread is running.
    src: ryan_network/net/event_loop_thread.cc:32-34 EventLoopThread::StartLoop *)
Definition StartLoop_start (t : EventLoopThread) (tid loop : Z) : EventLoopThread :=
  mkEventLoopThread (loop_ t) (exiting_ t) (Start (thread_ t) tid) (has_callback t) (Some loop)
    (quit_requested t) InCallback.

(** [None]: the caller waits.
    src: ryan_network/net/event_loop_thread.cc:36-46 EventLoopThread::StartLoop *)
Definition StartLoop_test (t : EventLoopThread) : option Z := loop_ t.

(** What the thread does next; [returned] says whether [loop.Loop()] has returned,
    which it does only after a request to quit.
    src: ryan_network/net/event_loop_thread.cc:48-68 EventLoopThread::ThreadFunc *)
Definition ThreadFunc_step (t : EventLoopThread) : EventLoopThread :=
  match at_ t with
  | InCallback =>
      mkEventLoopThread (loop_object t) (exiting_ t) (thread_ t) (has_callback t) (loop_object t)
        (quit_requested t) Looping
  | Looping =>
      if quit_requested t
      then mkEventLoopThread (loop_ t) (exiting_ t) (thread_ t) (has_callback t) (loop_object t)
             (quit_requested t) Behind
      else t
  | Behind =>
      mkEventLoopThread None (exiting_ t) (thread_ t) (has_callback t) None (quit_requested t) Over
  | NotStarted | Over => t
  end.

(** [loop_->Quit()], and the wait for the thread: the steps it has left.
    src: ryan_network/net/event_loop_thread.cc:17-30 EventLoopThread::~EventLoopThread *)
Definition EventLoopThread_destroy (t : EventLoopThread) : result EventLoopThread :=
  match loop_ t with
  | None => Ok (mkEventLoopThread None true (thread_ t) (has_callback t) (loop_object t) (quit_requested t) (at_ t))
  | Some l =>
      _ ← defined_if (bool_decide (loop_object t = Some l));
      let t := mkEventLoopThread (loop_ t) true (thread_ t) (has_callback t) (loop_object t) true (at_ t) in
      let t := ThreadFunc_step (ThreadFunc_step (ThreadFunc_step t)) in
      th ← Join (thread_ t);
      Ok (mkEventLoopThread (loop_ t) (exiting_ t) th (has_callback t) (loop_object t) (quit_requested t) (at_ t))
  end.

(** ** EventLoopThreadPool *)

(** src: ryan_network/net/event_loop_thread_pool.h:35-43 EventLoopThreadPool *)
Record EventLoopThreadPool := mkEventLoopThreadPool {
  base_loop_ : Z;
  name_ : bytes;
  started_ : bool;
  num_threads_ : Z;
  next_ : Z;
  threads_ : list EventLoopThread;
  loops_ : list Z
}.

(** src: ryan_network/net/event_loop_thread_pool.cc:7-13 EventLoopThreadPool::EventLoopThreadPool *)
Definition EventLoopThreadPool_new (baseLoop : Z) (nameArg : bytes) : EventLoopThreadPool :=
  mkEventLoopThreadPool baseLoop nameArg false 0 0 [] [].

(** src: ryan_network/net/event_loop_thread_pool.h:21-21 EventLoopThreadPool::SetThreadNum *)
Definition SetThreadNum (p : EventLoopThreadPool) (num_threads : Z) : EventLoopThreadPool :=
  mkEventLoopThreadPool (base_loop_ p) (name_ p) (started_ p) num_threads (next_ p) (threads_ p) (loops_ p).

(** The thread and the loop of turn [i]; [addr] gives the addresses of the loops
    and the ids of the threads, and [StartLoop] waits until the thread has
    published its loop.
    src: ryan_network/net/event_loop_thread_pool.cc:24-32 EventLoopThreadPool::Start *)
Definition start_one (addr : nat -> Z * Z) (cb : bool) (name : bytes) (num i : nat) : EventLoopThread :=
  let buf := snprintf (length name + 32) (name ++ dec (Z.of_nat i)) in
  let '(_, t) := EventLoopThread_new (Z.of_nat num) cb buf in
  ThreadFunc_step (StartLoop_start t (fst (addr i)) (snd (addr i))).

(** The second result: the callback runs in the caller's thread, on the base loop.
    src: ryan_network/net/event_loop_thread_pool.cc:19-40 EventLoopThreadPool::Start *)
Definition Start (addr : nat -> Z * Z) (num_created : nat) (cb : bool) (p : EventLoopThreadPool)
    : EventLoopThreadPool * option Z :=
  let turns := seq 0 (Z.to_nat (num_threads_ p)) in
  let ts := (fun i => start_one addr cb (name_ p) (num_created + i) i) <$> turns in
  (mkEventLoopThreadPool (base_loop_ p) (name_ p) true (num_threads_ p) (next_ p)
     (threads_ p ++ ts) (loops_ p ++ omap StartLoop_test ts),
   if (num_threads_ p =? 0) && cb then Some (base_loop_ p) else None).

(** src: ryan_network/net/event_loop_thread_pool.cc:43-60 EventLoopThreadPool::GetNextLoop *)
Definition GetNextLoop (p : EventLoopThreadPool) : result (Z * EventLoopThreadPool) :=
  match loops_ p with
  | [] => Ok (base_loop_ p, p)
  | _ =>
      match loops_ p !! Z.to_nat (next_ p) with
      | None => Fault FUndef
      | Some loop =>
          let next := u64 (next_ p + 1) in
          let next := if next >=? zlen (loops_ p) then 0 else next in
          Ok (loop, mkEventLoopThreadPool (base_loop_ p) (name_ p) (started_ p) (num_threads_ p) next
                      (threads_ p) (loops_ p))
      end
  end.

(** src: ryan_network/net/event_loop_thread_pool.cc:62-68 EventLoopThreadPool::GetAllLoops *)
Definition GetAllLoops (p : EventLoopThreadPool) : list Z :=
  match loops_ p with
  | [] => [base_loop_ p]
  | _ => loops_ p
  end.

(** ** Round robin *)

Fixpoint next_loops (n : nat) (p : EventLoopThreadPool) : result (list Z * EventLoopThreadPool) :=
  match n with
  | O => Ok ([], p)
  | S n =>
      '(l, p) ← GetNextLoop p;
      '(ls, p) ← next_loops n p;
      Ok (l :: ls, p)
  end.

Definition pool_wf (p : EventLoopThreadPool) : Prop :=
  0 <= next_ p /\ (loops_ p <> [] -> next_ p < zlen (loops_ p)) /\ zlen (loops_ p) < 2 ^ 64.

(** [l]'s element at [i], counted round *)
Definition cyclic (l : list Z) (i : Z) : Z := default 0 (l !! Z.to_nat (i mod zlen l)).

Lemma GetNextLoop_ok p :
  pool_wf p -> loops_ p <> [] ->
  exists p', GetNextLoop p = Ok (cyclic (loops_ p) (next_ p), p') /\ pool_wf p' /\
    loops_ p' = loops_ p /\ next_ p' = (next_ p + 1) mod zlen (loops_ p).
Proof.
  intros (H1 & H2 & H3) Hne. specialize (H2 Hne). unfold GetNextLoop, cyclic.
  rewrite (Z.mod_small (next_ p)) by lia.
  destruct (loops_ p) as [|a l] eqn:El; [done|]. rewrite <- El in *.
  destruct (lookup_lt_is_Some_2 (loops_ p) (Z.to_nat (next_ p))) as [x Hx]; [lia|].
  rewrite Hx. eexists. split; [reflexivity|]. rewrite uwrap_small by lia. unfold pool_wf. simpl.
  destruct (Z.geb_spec (next_ p + 1) (zlen (loops_ p))) as [Hge|Hlt].
  - replace (next_ p + 1) with (zlen (loops_ p)) by lia. rewrite Z.mod_same by lia. repeat split; lia.
  - rewrite Z.mod_small by lia. repeat split; lia.
Qed.

(** Connections are handed to the loops in turn.  A pool whose threads were
    started gives its loops round and round: the k-th of [n] calls of
    [GetNextLoop] gets the k-th loop after [next_], counted round, and the calls never
    read outside the vector; a pool of no threads always gives the base loop. *)
Theorem GetNextLoop_round_robin (p : EventLoopThreadPool) (n : nat) :
  pool_wf p ->
  exists p', next_loops n p =
    Ok (if decide (loops_ p = []) then replicate n (base_loop_ p)
        else (fun k => cyclic (loops_ p) (next_ p + Z.of_nat k)) <$> seq 0 n, p') /\
    pool_wf p' /\ loops_ p' = loops_ p.
Proof.
  revert p. induction n as [|n IH]; intros p Hp.
  - exists p. case_decide; done.
  - cbn [next_loops]. case_decide as Hl.
    + unfold GetNextLoop. rewrite Hl, bind_Ok. destruct (IH p Hp) as (p' & E & Hp' & Hl').
      rewrite decide_True in E by done. rewrite E, bind_Ok. exists p'. by rewrite Hl'.
    + destruct (GetNextLoop_ok p Hp Hl) as (p1 & E1 & Hp1 & Hl1 & Hn1). rewrite E1, bind_Ok.
      destruct (IH p1 Hp1) as (p' & E & Hp' & Hl'). rewrite Hl1 in *. rewrite decide_False in E by done.
      rewrite E, bind_Ok. exists p'. split; [|by rewrite Hl']. do 2 f_equal.
      rewrite <- cons_seq, fmap_cons, Z.add_0_r. f_equal. rewrite <- fmap_S_seq, <- list_fmap_compose.
      apply list_fmap_ext. intros i x _. unfold cyclic, compose. do 3 f_equal.
      rewrite Hn1, Z.add_mod_idemp_l by (destruct (loops_ p); simpl in *; [done|lia]). f_equal. lia.
Qed.

(** a started pool of three threads *)
Definition ex_pool : EventLoopThreadPool :=
  fst (Start (fun i => (100 + Z.of_nat i, 1000 + Z.of_nat i)) 0 false
    (SetThreadNum (EventLoopThreadPool_new 7 (lit "io")) 3)).

Lemma GetNextLoop_round_robin_witness :
  exists p', next_loops 5 ex_pool = Ok ([1000; 1001; 1002; 1000; 1001], p') /\
    pool_wf p' /\ loops_ p' = loops_ ex_pool.
Proof.
  apply (GetNextLoop_round_robin ex_pool 5). vm_compute. repeat split; discriminate.
Defined.

Example ex_pool_names :
  (fun t => Threads.name_ (thread_ t)) <$> threads_ ex_pool = [lit "io0"; lit "io1"; lit "io2"].
Proof. vm_compute. done. Qed.
