(* ===== verification/TcpConnection.v ===== *)
(** * TcpConnection (ryan_network/tcp_connection/tcp_connection.h, tcp_connection.cc)

    A connection acts on a [world]: the connection itself, the loop it
    belongs to (with the poller and the channels), its socket in the kernel
    and the strings other threads keep alive.  A [std::bind] of a member
    function is a value of [functor]; [run_functor] runs it.  The user's
    callbacks are parameters that act on the world and may fail; HandleError
    and the destructor, which only log, change nothing. *)

From S2P Require Import Prelude Buffer Channel EventLoop InetAddress.

(** ** The socket in the kernel *)

Definition EPIPE : Z := 32.
Definition ECONNRESET : Z := 104.
Definition EWOULDBLOCK : Z := 11.

(** [sk_sent] is what write(2) has accepted, [sk_closed] whether the write
    side was shut down. *)
Class Socket (K : Type) := {
  sk_write : K -> bytes -> write_result * K;
  sk_readv : K -> list Z -> readv_result * K;
  sk_shutdown : K -> K;
  sk_keepalive : K -> bool -> K;
  sk_nodelay : K -> bool -> K;
  sk_sent : K -> bytes;
  sk_closed : K -> bool
}.

(** write(2) accepts a prefix or fails; it fails with EPIPE once the write
    side is shut down; the other calls accept nothing. *)
Class SocketLaws (K : Type) `{Socket K} := {
  write_accepts : forall k d n k', sk_write k d = (Wrote n, k') ->
    0 <= n <= zlen d /\ sk_sent k' = sk_sent k ++ take (Z.to_nat n) d /\ sk_closed k' = sk_closed k;
  write_fails : forall k d e k', sk_write k d = (WriteError e, k') ->
    sk_sent k' = sk_sent k /\ sk_closed k' = sk_closed k;
  write_closed : forall k d, sk_closed k = true -> fst (sk_write k d) = WriteError EPIPE;
  readv_keeps : forall k iov, sk_sent (snd (sk_readv k iov)) = sk_sent k /\
    sk_closed (snd (sk_readv k iov)) = sk_closed k;
  readv_bounded : forall k, readv_ok (fun iov => fst (sk_readv k iov));
  shutdown_keeps : forall k, sk_sent (sk_shutdown k) = sk_sent k /\ sk_closed (sk_shutdown k) = true
}.

(** ** Data *)

(** src: ryan_network/tcp_connection/tcp_connection.h:77-82 TcpConnection::StateE *)
Inductive StateE := kDisconnected | kConnecting | kConnected | kDisconnecting.

#[export] Instance StateE_eq_dec : EqDecision StateE.
Proof. solve_decision. Defined.

(** The four callbacks a connection installs on its channel. *)
Inductive conn_callback := OnRead | OnWrite | OnClose | OnError.

(** The calls a connection queues.  [FSendPointer] holds a pointer into a
    string, given by the string's address, and a length. *)
Inductive functor :=
  | FSendString (message : bytes)
  | FSendPointer (data : Z) (len : Z)
  | FShutdownInLoop
  | FForceCloseInLoop
  | FStartReadInLoop
  | FStopReadInLoop
  | FConnectEstablished
  | FConnectDestroyed
  | FWriteComplete
  | FHighWatermark (size : Z).

(** [socket_] is the kernel's side in the world, [channel_] the address of
    the channel; the callbacks are parameters except for the two that are
    tested before use.
    src: ryan_network/tcp_connection/tcp_connection.h:102-127 TcpConnection *)
Record TcpConnection := mkTcpConnection {
  name_ : bytes;
  state_ : StateE;
  reading_ : bool;
  channel_ : Z;
  local_addr_ : InetAddress;
  peer_addr_ : InetAddress;
  write_complete_callback_ : bool;
  high_watermark_callback_ : bool;
  high_watermark_ : Z;
  input_buffer_ : Buffer;
  output_buffer_ : Buffer
}.

(** src: ryan_network/tcp_connection/tcp_connection.h:83-83 TcpConnection::SetState *)
Definition SetState (c : TcpConnection) (s : StateE) : TcpConnection :=
  mkTcpConnection (name_ c) s (reading_ c) (channel_ c) (local_addr_ c) (peer_addr_ c)
    (write_complete_callback_ c) (high_watermark_callback_ c) (high_watermark_ c)
    (input_buffer_ c) (output_buffer_ c).
Definition set_reading (c : TcpConnection) (b : bool) : TcpConnection :=
  mkTcpConnection (name_ c) (state_ c) b (channel_ c) (local_addr_ c) (peer_addr_ c)
    (write_complete_callback_ c) (high_watermark_callback_ c) (high_watermark_ c)
    (input_buffer_ c) (output_buffer_ c).
Definition set_input (c : TcpConnection) (b : Buffer) : TcpConnection :=
  mkTcpConnection (name_ c) (state_ c) (reading_ c) (channel_ c) (local_addr_ c) (peer_addr_ c)
    (write_complete_callback_ c) (high_watermark_callback_ c) (high_watermark_ c)
    b (output_buffer_ c).
Definition set_output (c : TcpConnection) (b : Buffer) : TcpConnection :=
  mkTcpConnection (name_ c) (state_ c) (reading_ c) (channel_ c) (local_addr_ c) (peer_addr_ c)
    (write_complete_callback_ c) (high_watermark_callback_ c) (high_watermark_ c)
    (input_buffer_ c) b.

(** src: ryan_network/tcp_connection/tcp_connection.h:62-64 TcpConnection::SetWriteCompleteCallback *)
Definition SetWriteCompleteCallback (c : TcpConnection) : TcpConnection :=
  mkTcpConnection (name_ c) (state_ c) (reading_ c) (channel_ c) (local_addr_ c) (peer_addr_ c)
    true (high_watermark_callback_ c) (high_watermark_ c) (input_buffer_ c) (output_buffer_ c).
(** src: ryan_network/tcp_connection/tcp_connection.h:66-70 TcpConnection::SetHighWatermarkCallback *)
Definition SetHighWatermarkCallback (c : TcpConnection) (mark : Z) : TcpConnection :=
  mkTcpConnection (name_ c) (state_ c) (reading_ c) (channel_ c) (local_addr_ c) (peer_addr_ c)
    (write_complete_callback_ c) true mark (input_buffer_ c) (output_buffer_ c).

(** src: ryan_network/tcp_connection/tcp_connection.h:31-31 TcpConnection::Connected *)
Definition Connected (c : TcpConnection) : bool := bool_decide (state_ c = kConnected).
(** src: ryan_network/tcp_connection/tcp_connection.h:32-32 TcpConnection::DisConnected *)
Definition DisConnected (c : TcpConnection) : bool := bool_decide (state_ c = kDisconnected).
(** src: ryan_network/tcp_connection/tcp_connection.h:49-51 TcpConnection::IsReading *)
Definition IsReading (c : TcpConnection) : bool := reading_ c.

(** src: ryan_network/tcp_connection/tcp_connection.cc:206-219 TcpConnection::StateToString *)
Definition StateToString (c : TcpConnection) : bytes :=
  match state_ c with
  | kDisconnected => lit "kDisconnected"
  | kConnecting => lit "kConnecting"
  | kConnected => lit "kConnected"
  | kDisconnecting => lit "kDisconnecting"
  end.

(** The connection, its loop, its socket, the live strings of other threads
    by address, the timers [RunAfter] was asked for, and the user's state. *)
Record world (P E K U : Type) := mkWorld {
  w_conn : TcpConnection;
  w_loop : EventLoop conn_callback P E functor;
  w_sock : K;
  w_strings : gmap Z bytes;
  w_delayed : list Z;
  w_user : U
}.
Arguments mkWorld {P E K U}.
Arguments w_conn {P E K U}.
Arguments w_loop {P E K U}.
Arguments w_sock {P E K U}.
Arguments w_strings {P E K U}.
Arguments w_delayed {P E K U}.
Arguments w_user {P E K U}.

Section Connection.
Context {P E K U : Type} `{!Poller conn_callback P} `{!Eventfd E} `{!Socket K}.
Abbreviation W := (world P E K U).

(** The callbacks installed by the user and the server. *)
Context (connection_callback_ write_complete_call close_callback_ : W -> result W).
Context (message_callback_ high_watermark_call : Z -> W -> result W).

Definition with_conn (c : TcpConnection) (w : W) : W :=
  mkWorld c (w_loop w) (w_sock w) (w_strings w) (w_delayed w) (w_user w).
Definition with_loop (l : EventLoop conn_callback P E functor) (w : W) : W :=
  mkWorld (w_conn w) l (w_sock w) (w_strings w) (w_delayed w) (w_user w).
Definition with_sock (k : K) (w : W) : W :=
  mkWorld (w_conn w) (w_loop w) k (w_strings w) (w_delayed w) (w_user w).

(** The channel of the connection, and a call of one of its methods by
    thread [tid]. *)
Definition the_channel (w : W) : result (Channel conn_callback) :=
  deref (store_ (net_ (w_loop w))) (channel_ (w_conn w)).

Definition on_channel
    (f : Z -> Z -> net conn_callback P -> result (net conn_callback P)) (tid : Z) (w : W) : result W :=
  n ← f tid (channel_ (w_conn w)) (net_ (w_loop w));
  Ok (with_loop (set_net n (w_loop w)) w).

Definition queue (tid : Z) (f : functor) (w : W) : W :=
  with_loop (QueueInLoop tid f (w_loop w)) w.

(** ** Construction *)

(** [c] is the address of the channel that is created for [sockfd].
    src: ryan_network/tcp_connection/tcp_connection.cc:40-63 TcpConnection::TcpConnection *)
Definition TcpConnection_new (name_arg : bytes) (c sockfd : Z) (local_addr peer_addr : InetAddress)
    (loop : EventLoop conn_callback P E functor) (sock : K) (u : U) : result W :=
  input ← Buffer_new kInitialSize;
  output ← Buffer_new kInitialSize;
  let conn := mkTcpConnection name_arg kConnecting true c local_addr peer_addr false false
                (64 * 1024 * 1024) input output in
  let ch := SetErrorCallback (SetCloseCallback (Channel.SetWriteCallback
              (SetReadCallback (Channel_new sockfd) OnRead) OnWrite) OnClose) OnError in
  let n := mkNet (poller_ (net_ loop)) (<[c := ch]> (store_ (net_ loop))) in
  Ok (mkWorld conn (set_net n loop) (sk_keepalive sock true) ∅ [] u).

(** src: ryan_network/tcp_connection/tcp_connection.cc:221-223 TcpConnection::SetTcpNoDelay *)
Definition SetTcpNoDelay (on : bool) (w : W) : W := with_sock (sk_nodelay (w_sock w) on) w.

(** The user may install no callbacks: the default one for connections only logs.
    src: ryan_network/tcp_connection/tcp_connection.cc:18-24 DefaultConnectionCallback *)
Definition DefaultConnectionCallback (w : W) : result W := Ok w.

(** src: ryan_network/tcp_connection/tcp_connection.cc:26-29 DefaultMessageCallback *)
Definition DefaultMessageCallback (receiveTime : Z) (w : W) : result W :=
  Ok (with_conn (set_input (w_conn w) (RetrieveAll (input_buffer_ (w_conn w)))) w).

(** ** Sending *)

(** src: ryan_network/tcp_connection/tcp_connection.cc:112-162 TcpConnection::SendInLoop *)
Definition SendInLoop (tid : Z) (data : bytes) (w : W) : result W :=
  let len := zlen data in
  if decide (state_ (w_conn w) = kDisconnected) then Ok w else
  ch ← the_channel w;
  '(nwrote, remaining, faultError, w) ←
    (if negb (IsWriting ch) && (ReadableBytes (output_buffer_ (w_conn w)) =? 0) then
       let '(r, k) := sk_write (w_sock w) data in
       let w := with_sock k w in
       match r with
       | Wrote nwrote =>
           let remaining := u64 (len - nwrote) in
           let w := if (remaining =? 0) && write_complete_callback_ (w_conn w)
                    then queue tid FWriteComplete w else w in
           Ok (nwrote, remaining, false, w)
       | WriteError err =>
           Ok (0, len,
               negb (err =? EWOULDBLOCK) && ((err =? EPIPE) || (err =? ECONNRESET)), w)
       end
     else Ok (0, len, false, w));
  if negb (faultError : bool) && (0 <? remaining) then
    let oldLen := ReadableBytes (output_buffer_ (w_conn w)) in
    let w := if (high_watermark_ (w_conn w) <=? u64 (oldLen + remaining))
                && (oldLen <? high_watermark_ (w_conn w)) && high_watermark_callback_ (w_conn w)
             then queue tid (FHighWatermark (u64 (oldLen + remaining))) w else w in
    d ← read_bytes data nwrote remaining;
    output ← Append (output_buffer_ (w_conn w)) d;
    let w := with_conn (set_output (w_conn w) output) w in
    ch ← the_channel w;
    if negb (IsWriting ch) then on_channel EnableWriting tid w else Ok w
  else Ok w.

(** A message bound by value.
    src: ryan_network/tcp_connection/tcp_connection.cc:104-106 TcpConnection::SendInLoop *)
Definition SendInLoop_string (tid : Z) (message : bytes) (w : W) : result W :=
  SendInLoop tid message w.

(** A pointer and a length: the string must still exist when the call runs. *)
Definition SendInLoop_pointer (tid : Z) (data len : Z) (w : W) : result W :=
  match w_strings w !! data with
  | Some s => d ← read_bytes s 0 len; SendInLoop tid d w
  | None => Fault FUndef
  end.

(** ** Closing *)

(** src: ryan_network/tcp_connection/tcp_connection.cc:172-177 TcpConnection::ShutdownInLoop *)
Definition ShutdownInLoop (w : W) : result W :=
  ch ← the_channel w;
  Ok (if negb (IsWriting ch) then with_sock (sk_shutdown (w_sock w)) w else w).

(** src: ryan_network/tcp_connection/tcp_connection.cc:330-340 TcpConnection::HandleClose *)
Definition HandleClose (tid : Z) (w : W) : result W :=
  _ ← loop_AssertInLoopThread tid (w_loop w);
  _ ← assert_ (bool_decide (state_ (w_conn w) = kConnected)
               || bool_decide (state_ (w_conn w) = kDisconnecting));
  let w := with_conn (SetState (w_conn w) kDisconnected) w in
  w ← on_channel DisableAll tid w;
  w ← connection_callback_ w;
  close_callback_ w.

(** src: ryan_network/tcp_connection/tcp_connection.cc:198-204 TcpConnection::ForceCloseInLoop *)
Definition ForceCloseInLoop (tid : Z) (w : W) : result W :=
  _ ← loop_AssertInLoopThread tid (w_loop w);
  if bool_decide (state_ (w_conn w) = kConnected)
     || bool_decide (state_ (w_conn w) = kDisconnecting)
  then HandleClose tid w else Ok w.

(** ** Reading on and off *)

(** src: ryan_network/tcp_connection/tcp_connection.cc:230-236 TcpConnection::StartReadInLoop *)
Definition StartReadInLoop (tid : Z) (w : W) : result W :=
  _ ← loop_AssertInLoopThread tid (w_loop w);
  ch ← the_channel w;
  if negb (reading_ (w_conn w)) || negb (Channel.IsReading ch) then
    w ← on_channel EnableReading tid w;
    Ok (with_conn (set_reading (w_conn w) true) w)
  else Ok w.

(** src: ryan_network/tcp_connection/tcp_connection.cc:242-248 TcpConnection::StopReadInLoop *)
Definition StopReadInLoop (tid : Z) (w : W) : result W :=
  _ ← loop_AssertInLoopThread tid (w_loop w);
  ch ← the_channel w;
  if reading_ (w_conn w) || Channel.IsReading ch then
    w ← on_channel DisableReading tid w;
    Ok (with_conn (set_reading (w_conn w) false) w)
  else Ok w.

(** ** Life cycle *)

(** [self] is the address of the connection, for the tie.
    src: ryan_network/tcp_connection/tcp_connection.cc:252-267 TcpConnection::ConnectEstablished *)
Definition ConnectEstablished (tid self : Z) (w : W) : result W :=
  let w := with_conn (SetState (w_conn w) kConnected) w in
  ch ← the_channel w;
  let n := net_ (w_loop w) in
  let w := with_loop (set_net (mkNet (poller_ n)
             (<[channel_ (w_conn w) := Tie ch self]> (store_ n))) (w_loop w)) w in
  w ← on_channel EnableReading tid w;
  connection_callback_ w.

(** src: ryan_network/tcp_connection/tcp_connection.cc:270-277 TcpConnection::ConnectDestroyed *)
Definition ConnectDestroyed (tid : Z) (w : W) : result W :=
  w ← (if decide (state_ (w_conn w) = kConnected) then
         let w := with_conn (SetState (w_conn w) kDisconnected) w in
         w ← on_channel DisableAll tid w;
         connection_callback_ w
       else Ok w);
  on_channel Remove tid w.

(** ** The functors, and the calls other threads may make *)

Definition run_functor (tid self : Z) (f : functor) (w : W) : result W :=
  match f with
  | FSendString message => SendInLoop_string tid message w
  | FSendPointer data len => SendInLoop_pointer tid data len w
  | FShutdownInLoop => ShutdownInLoop w
  | FForceCloseInLoop => ForceCloseInLoop tid w
  | FStartReadInLoop => StartReadInLoop tid w
  | FStopReadInLoop => StopReadInLoop tid w
  | FConnectEstablished => ConnectEstablished tid self w
  | FConnectDestroyed => ConnectDestroyed tid w
  | FWriteComplete => write_complete_call w
  | FHighWatermark size => high_watermark_call size w
  end.

Definition run_in_loop (tid self : Z) (f : functor) (w : W) : result W :=
  RunInLoop w_loop with_loop (run_functor tid self) tid f w.

(** [buf] is the string at address [addr].
    src: ryan_network/tcp_connection/tcp_connection.cc:77-88 TcpConnection::Send *)
Definition Send_string (tid self addr : Z) (w : W) : result W :=
  match w_strings w !! addr with
  | None => Fault FUndef
  | Some buf =>
      if decide (state_ (w_conn w) = kConnected) then
        if IsInLoopThread tid (w_loop w) then SendInLoop tid buf w
        else run_in_loop tid self (FSendPointer addr (zlen buf)) w
      else Ok w
  end.

Definition with_strings (s : gmap Z bytes) (w : W) : W :=
  mkWorld (w_conn w) (w_loop w) (w_sock w) s (w_delayed w) (w_user w).

(** The local [message] lives at a fresh address [addr] until the call
    returns.
    src: ryan_network/tcp_connection/tcp_connection.cc:72-75 TcpConnection::Send *)
Definition Send_data (tid self addr : Z) (data : bytes) (w : W) : result W :=
  w ← Send_string tid self addr (with_strings (<[addr := data]> (w_strings w)) w);
  Ok (with_strings (delete addr (w_strings w)) w).

(** Returns the buffer as well.
    src: ryan_network/tcp_connection/tcp_connection.cc:90-102 TcpConnection::Send *)
Definition Send_buffer (tid self : Z) (buf : Buffer) (w : W) : result (W * Buffer) :=
  if decide (state_ (w_conn w) = kConnected) then
    if IsInLoopThread tid (w_loop w) then
      d ← read_bytes (buffer_ buf) (Peek buf) (ReadableBytes buf);
      w ← SendInLoop tid d w;
      Ok (w, RetrieveAll buf)
    else
      '(message, buf) ← RetrieveAllAsString buf;
      w ← run_in_loop tid self (FSendString message) w;
      Ok (w, buf)
  else Ok (w, buf).

(** src: ryan_network/tcp_connection/tcp_connection.cc:165-170 TcpConnection::Shutdown *)
Definition Shutdown (tid self : Z) (w : W) : result W :=
  if decide (state_ (w_conn w) = kConnected) then
    run_in_loop tid self FShutdownInLoop (with_conn (SetState (w_conn w) kDisconnecting) w)
  else Ok w.

(** src: ryan_network/tcp_connection/tcp_connection.cc:179-185 TcpConnection::ForceClose *)
Definition ForceClose (tid : Z) (w : W) : W :=
  if bool_decide (state_ (w_conn w) = kConnected)
     || bool_decide (state_ (w_conn w) = kDisconnecting)
  then queue tid FForceCloseInLoop (with_conn (SetState (w_conn w) kDisconnecting) w)
  else w.

(** The timer [RunAfter] starts calls [ForceClose] through a weak pointer.
    src: ryan_network/tcp_connection/tcp_connection.cc:187-196 TcpConnection::ForceCloseWithDelay *)
Definition ForceCloseWithDelay (seconds : Z) (w : W) : W :=
  if bool_decide (state_ (w_conn w) = kConnected)
     || bool_decide (state_ (w_conn w) = kDisconnecting)
  then
    let w := with_conn (SetState (w_conn w) kDisconnecting) w in
    mkWorld (w_conn w) (w_loop w) (w_sock w) (w_strings w) (w_delayed w ++ [seconds]) (w_user w)
  else w.

(** src: ryan_network/tcp_connection/tcp_connection.cc:226-228 TcpConnection::StartRead *)
Definition StartRead (tid self : Z) (w : W) : result W := run_in_loop tid self FStartReadInLoop w.
(** src: ryan_network/tcp_connection/tcp_connection.cc:238-240 TcpConnection::StopRead *)
Definition StopRead (tid self : Z) (w : W) : result W := run_in_loop tid self FStopReadInLoop w.

(** ** Events *)

(** [getsockopt] and a log line.
    src: ryan_network/tcp_connection/tcp_connection.cc:342-354 TcpConnection::HandleError *)
Definition HandleError (w : W) : result W := Ok w.

(** src: ryan_network/tcp_connection/tcp_connection.cc:279-296 TcpConnection::HandleRead *)
Definition HandleRead (tid receiveTime : Z) (w : W) : result W :=
  let input := input_buffer_ (w_conn w) in
  let k := snd (sk_readv (w_sock w) (ReadFd_vec input)) in
  '(n, savedErrno, input) ← ReadFd input (fun iov => fst (sk_readv (w_sock w) iov));
  let w := with_sock k (with_conn (set_input (w_conn w) input) w) in
  if 0 <? n then message_callback_ receiveTime w
  else if n =? 0 then HandleClose tid w
  else HandleError w.

(** src: ryan_network/tcp_connection/tcp_connection.cc:298-328 TcpConnection::HandleWrite *)
Definition HandleWrite (tid : Z) (w : W) : result W :=
  ch ← the_channel w;
  if IsWriting ch then
    let output := output_buffer_ (w_conn w) in
    let k := snd (sk_write (w_sock w) (content output)) in
    '(n, saveErrno) ← WriteFd output (fun d => fst (sk_write (w_sock w) d));
    let w := with_sock k w in
    if 0 <? n then
      let output := Retrieve output n in
      let w := with_conn (set_output (w_conn w) output) w in
      if ReadableBytes output =? 0 then
        w ← on_channel DisableWriting tid w;
        let w := if write_complete_callback_ (w_conn w) then queue tid FWriteComplete w else w in
        if decide (state_ (w_conn w) = kDisconnecting) then ShutdownInLoop w else Ok w
      else Ok w
    else Ok w
  else Ok w.

(** The callbacks of the channel.
    src: ryan_network/tcp_connection/tcp_connection.cc:55-59 TcpConnection::TcpConnection *)
Definition run_callback (tid : Z) (cb : conn_callback) (receiveTime : Z) (w : W) : result W :=
  match cb with
  | OnRead => HandleRead tid receiveTime w
  | OnWrite => HandleWrite tid w
  | OnClose => HandleClose tid w
  | OnError => HandleError w
  end.

End Connection.
