(* ===== verification/TcpSpec.v ===== *)
(** * Properties of TcpConnection

    The stream of a connection is what the kernel accepted followed by what
    the output buffer holds.  The poller is any poller that meets the
    contract of module [PollerSpec]. *)

From S2P Require Import Prelude Buffer Channel PollerSpec EventLoop TcpConnection.
From S2P Require Import EpollPoller InetAddress.

Section Tcp.
Context {P E K U : Type} `{!Poller conn_callback P} `{!PollerContract conn_callback P}.
Context `{!Eventfd E} `{!Socket K} `{!SocketLaws K}.
Abbreviation W := (world P E K U).
Abbreviation out w := (output_buffer_ (w_conn w)).

(** ** The channel of a connection *)

(** The channel is registered, and watched exactly when it has events. *)
Record chan_ok (w : W) (ch : Channel conn_callback) : Prop := {
  co_inv : net_inv (net_ (w_loop w));
  co_store : store_ (net_ (w_loop w)) !! channel_ (w_conn w) = Some ch;
  co_fd : 0 <= fd_ ch;
  co_registered : channels_ (base (poller_ (net_ (w_loop w)))) !! fd_ ch = Some (channel_ (w_conn w));
  co_thread : owner_loop_ (base (poller_ (net_ (w_loop w)))) = thread_id_ (w_loop w);
  co_events : 0 <= events_ ch < 8;
  co_watched : forall e c, watches (net_ (w_loop w)) (fd_ ch) e c <->
    c = channel_ (w_conn w) /\ e = events_ ch /\ e <> 0
}.

Lemma the_channel_ok w ch : chan_ok w ch -> the_channel w = Ok ch.
Proof. intros H. unfold the_channel, deref. by rewrite (co_store w ch H). Qed.

(** Only the net, the thread and the channel's address matter. *)
Lemma chan_ok_ext w w' ch :
  chan_ok w ch -> net_ (w_loop w') = net_ (w_loop w) ->
  thread_id_ (w_loop w') = thread_id_ (w_loop w) ->
  channel_ (w_conn w') = channel_ (w_conn w) -> chan_ok w' ch.
Proof. intros [] Hn Ht Hc. split; rewrite ?Hn, ?Ht, ?Hc; done. Qed.

Lemma chan_ok_unique w ch ch' : chan_ok w ch -> chan_ok w ch' -> ch = ch'.
Proof. intros [_ H _ _ _ _ _] [_ H' _ _ _ _ _]. congruence. Qed.

Lemma on_channel_ok w ch f e :
  chan_ok w ch -> f (events_ ch) = e -> 0 <= e < 8 -> e <> 0 \/ events_ ch <> 0 ->
  exists l ch', on_channel (change_events f) (thread_id_ (w_loop w)) w = Ok (with_loop l w) /\
    chan_ok (with_loop l w) ch' /\ events_ ch' = e /\
    fd_ ch' = fd_ ch /\ thread_id_ l = thread_id_ (w_loop w).
Proof.
  intros [H1 H2 H3 H4 H5 H6 H7] Hf He Hne.
  destruct (update_contract _ _ _ _ net_contract (net_ (w_loop w)) (channel_ (w_conn w)) ch f e)
    as (n' & G1 & G2 & G3 & G4 & G5); [done..|lia| |].
  { right. split; [done|]. destruct Hne; [by left|]. right. by apply H7. }
  destruct (same_channels_lookup _ _ (channel_ (w_conn w)) (set_events ch e) G4) as (i & Hi).
  { apply lookup_insert_eq. }
  exists (set_net n' (w_loop w)), (set_index (set_events ch e) i).
  split; [|split; [|done]].
  - unfold on_channel. rewrite <- H5, G1. done.
  - split; simpl; rewrite ?G3; simpl; try done.
    + apply lookup_insert_eq.
    + intros e' c'. rewrite G5. rewrite decide_True by done. rewrite H4. naive_solver.
Qed.

(** ** Events as bits *)

Lemma lor_write e : 0 <= e < 8 -> 0 <= Z.lor e kWriteEvent < 8 /\ Z.lor e kWriteEvent <> 0 /\
  has (Z.lor e kWriteEvent) kWriteEvent = true.
Proof.
  intros H. assert (e = 0 \/ e = 1 \/ e = 2 \/ e = 3 \/ e = 4 \/ e = 5 \/ e = 6 \/ e = 7) as Hc by lia.
  destruct Hc as [->|[->|[->|[->|[->|[->|[->| ->]]]]]]]; vm_compute; intuition discriminate.
Qed.

Lemma land_write e : 0 <= e < 8 -> has e kWriteEvent = true ->
  0 <= Z.land e (Z.lnot kWriteEvent) < 8 /\ e <> 0 /\
  has (Z.land e (Z.lnot kWriteEvent)) kWriteEvent = false.
Proof.
  intros H. assert (e = 0 \/ e = 1 \/ e = 2 \/ e = 3 \/ e = 4 \/ e = 5 \/ e = 6 \/ e = 7) as Hc by lia.
  destruct Hc as [->|[->|[->|[->|[->|[->|[->| ->]]]]]]]; vm_compute; intuition discriminate.
Qed.

(** ** The invariant of a connection *)

(** The channel waits for writability exactly while there is output; the
    write side is only shut down when there is none, and a connection that is
    disconnecting is either still writing or shut down. *)
Record conn_ok (w : W) (ch : Channel conn_callback) : Prop := {
  ck_chan : chan_ok w ch;
  ck_out : buf_wf (out w);
  ck_reader : kCheapPrepend <= reader_index_ (out w);
  ck_writing : IsWriting ch = true <-> content (out w) <> [];
  ck_closed : sk_closed (w_sock w) = true -> content (out w) = [];
  ck_done : state_ (w_conn w) = kDisconnecting -> content (out w) = [] ->
    sk_closed (w_sock w) = true
}.

(** The bytes of the stream. *)
Definition stream (w : W) : bytes := sk_sent (w_sock w) ++ content (out w).

Lemma ReadableBytes_content b : buf_wf b -> ReadableBytes b = zlen (content b).
Proof. intros. rewrite zlen_content by done. by autorewrite with buffer. Qed.

Lemma zlen_nil (l : bytes) : zlen l = 0 <-> l = [].
Proof. destruct l; simpl; split; try done; lia. Qed.

(** ** Sending *)

(** The last statement of [SendInLoop]: what was not written is saved. *)
Definition save_rest (tid : Z) (data : bytes) (nwrote remaining : Z) (w : W) : result W :=
  let oldLen := ReadableBytes (out w) in
  let w := if (high_watermark_ (w_conn w) <=? u64 (oldLen + remaining))
              && (oldLen <? high_watermark_ (w_conn w)) && high_watermark_callback_ (w_conn w)
           then queue tid (FHighWatermark (u64 (oldLen + remaining))) w else w in
  d ← read_bytes data nwrote remaining;
  output ← Append (out w) d;
  let w := with_conn (set_output (w_conn w) output) w in
  ch ← the_channel w;
  if negb (IsWriting ch) then on_channel EnableWriting tid w else Ok w.

Lemma QueueInLoop_keeps tid f (l : EventLoop conn_callback P E functor) :
  net_ (QueueInLoop tid f l) = net_ l /\ thread_id_ (QueueInLoop tid f l) = thread_id_ l.
Proof. unfold QueueInLoop, wakeup_if_needed. by destruct (_ || _). Qed.

(** What a call of [SendInLoop] leaves alone. *)
Record sent_like (w w' : W) (kept : bytes) (len : Z) : Prop := {
  sl_stream : stream w' = stream w ++ kept;
  sl_state : state_ (w_conn w') = state_ (w_conn w);
  sl_thread : thread_id_ (w_loop w') = thread_id_ (w_loop w);
  sl_writer : writer_index_ (out w') <= writer_index_ (out w) + len;
  sl_reading : reading_ (w_conn w') = reading_ (w_conn w)
}.

Lemma IsWriting_flag (ch : Channel conn_callback) : IsWriting ch = has (events_ ch) kWriteEvent.
Proof. reflexivity. Qed.

Lemma save_rest_ok w ch data nwrote :
  let remaining := zlen data - nwrote in
  let d := drop (Z.to_nat nwrote) data in
  chan_ok w ch -> buf_wf (out w) -> kCheapPrepend <= reader_index_ (out w) ->
  0 <= nwrote -> 0 < remaining -> remaining < 2 ^ 31 ->
  writer_index_ (out w) + remaining <= max_size -> sk_closed (w_sock w) = false ->
  exists w' ch', save_rest (thread_id_ (w_loop w)) data nwrote remaining w = Ok w' /\
    conn_ok w' ch' /\ sent_like w w' d remaining.
Proof.
  intros remaining d Hch Hwf Hsz Hn Hr Hr2 Hmax Hcl. unfold save_rest.
  set (b := (_ <=? _) && _ && _).
  set (w1 := if b then _ else w).
  assert (Hw1 : chan_ok w1 ch /\ w_conn w1 = w_conn w /\ w_sock w1 = w_sock w /\
    thread_id_ (w_loop w1) = thread_id_ (w_loop w)).
  { unfold w1. destruct b; [|done]. pose proof (QueueInLoop_keeps (thread_id_ (w_loop w))
      (FHighWatermark (u64 (ReadableBytes (out w) + remaining))) (w_loop w)) as [G1 G2].
    split; [|done]. by apply (chan_ok_ext w). }
  clearbody w1 b. destruct Hw1 as (Hch1 & Hc1 & Hs1 & Ht1).
  rewrite Hc1, <- Ht1. rewrite read_bytes_Ok by lia. rewrite bind_Ok.
  assert (take (Z.to_nat remaining) (drop (Z.to_nat nwrote) data) = d) as ->.
  { apply firstn_all2. unfold d. rewrite length_drop. lia. }
  assert (zlen d = remaining) as Hd by (unfold d; rewrite length_drop; lia).
  destruct (Append_spec (out w) d) as (output & -> & [A1 A2 A3 A4 A5 A6]); [done|lia|lia|].
  rewrite bind_Ok. set (w2 := with_conn (set_output (w_conn w) output) w1).
  assert (chan_ok w2 ch) as Hch2.
  { apply (chan_ok_ext w1); try done. unfold w2. simpl. by rewrite Hc1. }
  rewrite (the_channel_ok w2 ch Hch2), bind_Ok.
  assert (Hne : content output <> []).
  { rewrite A2. intros [_ En]%app_eq_nil. rewrite En in Hd. simpl in Hd. lia. }
  assert (Hsent : forall l, thread_id_ l = thread_id_ (w_loop w1) ->
    sent_like w (with_loop l w2) d remaining).
  { intros l Hl. split; simpl; rewrite ?Hl, ?Ht1; try done; try lia.
    unfold stream. simpl. by rewrite Hs1, A2, app_assoc. }
  assert (Hok : forall l ch', chan_ok (with_loop l w2) ch' -> IsWriting ch' = true ->
    conn_ok (with_loop l w2) ch').
  { intros l ch' Hl Hw. split; simpl; try done; try lia.
    - by rewrite Hs1, Hcl. }
  destruct (IsWriting ch) eqn:Ew; cbn [negb].
  - exists w2, ch. split; [done|].
    change (conn_ok (with_loop (w_loop w1) w2) ch /\ sent_like w (with_loop (w_loop w1) w2) d remaining).
    split; [|by apply Hsent]. apply Hok; [|done]. by apply (chan_ok_ext w2).
  - destruct (on_channel_ok w2 ch (fun e => Z.lor e kWriteEvent) (Z.lor (events_ ch) kWriteEvent) Hch2)
      as (l & ch' & G1 & G2 & G3 & G4 & G5); [done|apply lor_write, Hch2|left; apply lor_write, Hch2|].
    exists (with_loop l w2), ch'. split; [exact G1|]. split; [|by apply Hsent].
    apply Hok; [done|]. rewrite IsWriting_flag, G3. apply lor_write, Hch2.
Qed.

Lemma not_writing w ch : conn_ok w ch ->
  negb (IsWriting ch) && (ReadableBytes (out w) =? 0) = negb (IsWriting ch) /\
  (IsWriting ch = false -> content (out w) = []).
Proof.
  intros [_ Hwf _ Hw _ _].
  assert (IsWriting ch = false -> content (out w) = []) as Hc.
  { intros Ef. destruct (content (out w)) eqn:Ec; [done|]. rewrite (proj2 Hw) in Ef; done. }
  split; [|done]. destruct (IsWriting ch); [done|]. simpl.
  rewrite ReadableBytes_content, Hc by done. done.
Qed.

(** When the kernel refuses a message for good: nothing is pending and the
    peer is gone, or the connection is closed. *)
Definition refused (w : W) (data : bytes) : Prop :=
  state_ (w_conn w) = kDisconnected \/
  (content (out w) = [] /\ exists e, fst (sk_write (w_sock w) data) = WriteError e /\
     (e = EPIPE \/ e = ECONNRESET)).

(** [refused] as a test. *)
Definition is_refused (w : W) (data : bytes) : bool :=
  bool_decide (state_ (w_conn w) = kDisconnected) ||
  (bool_decide (content (out w) = []) &&
   match fst (sk_write (w_sock w) data) with
   | WriteError e => (e =? EPIPE) || (e =? ECONNRESET)
   | Wrote _ => false
   end).

Lemma is_refused_spec w data : is_refused w data = true <-> refused w data.
Proof.
  unfold is_refused, refused. rewrite orb_true_iff, andb_true_iff, !bool_decide_eq_true. f_equiv. f_equiv. split.
  - destruct (fst (sk_write (w_sock w) data)) as [e|n]; [|done]. intros H. exists e. split; [done|lia].
  - intros (e & -> & H). lia.
Qed.

(** What the call may have come to. *)
Definition sent_or_refused (w : W) (data : bytes) (r : result W) : Prop :=
  exists w' ch' kept, r = Ok w' /\ conn_ok w' ch' /\ sent_like w w' kept (zlen data) /\
    (refused w data /\ kept = [] \/ ~ refused w data /\ kept = data).

(** Output is pending, or the kernel took nothing for now: all is saved. *)
Lemma save_all_ok w k ch data :
  conn_ok w ch -> zlen data < 2 ^ 31 -> writer_index_ (out w) + zlen data <= max_size ->
  state_ (w_conn w) <> kDisconnected -> sk_closed k = false -> sk_sent k = sk_sent (w_sock w) ->
  conn_ok (with_sock k w) ch -> ~ refused w data ->
  sent_or_refused w data
    (if 0 <? zlen data then save_rest (thread_id_ (w_loop w)) data 0 (zlen data) (with_sock k w)
     else Ok (with_sock k w)).
Proof.
  intros Hok Hlen Hmax Hst Hncl Hs Hok' Hnr. destruct (Z.ltb_spec 0 (zlen data)).
  - destruct (save_rest_ok (with_sock k w) ch data 0) as (w' & ch' & G1 & G2 & G3); simpl; try done; try lia; try apply Hok'.
    rewrite Z.sub_0_r in G1, G3. exists w', ch', data. split; [exact G1|]. split; [done|].
    split; [|by right]. destruct G3 as [S1 S2 S3 S4 S5]. split; try done.
    rewrite S1. unfold stream. simpl. by rewrite Hs.
  - exists (with_sock k w), ch, []. split; [done|]. split; [done|]. split.
    + split; simpl; try done; try lia. unfold stream. simpl. by rewrite Hs, app_nil_r.
    + right. split; [done|]. symmetry. apply zlen_nil. lia.
Qed.

(** The kernel took a part, perhaps all. *)
Lemma wrote_ok w ch data nw k :
  conn_ok w ch -> zlen data < 2 ^ 31 -> writer_index_ (out w) + zlen data <= max_size ->
  state_ (w_conn w) <> kDisconnected -> IsWriting ch = false -> sk_write (w_sock w) data = (Wrote nw, k) ->
  let tid := thread_id_ (w_loop w) in
  let w1 := if (u64 (zlen data - nw) =? 0) && write_complete_callback_ (w_conn w)
            then queue tid FWriteComplete (with_sock k w) else with_sock k w in
  sent_or_refused w data
    (if 0 <? u64 (zlen data - nw) then save_rest tid data nw (u64 (zlen data - nw)) w1 else Ok w1).
Proof.
  intros Hok Hlen Hmax Hst Ew Ek. pose proof Hok as [Hch Hwf Hsz Hw Hcl Hdn].
  destruct (not_writing w ch Hok) as [_ Hempty]. specialize (Hempty Ew).
  destruct (write_accepts _ _ _ _ Ek) as (Hn & Hs & Hc).
  assert (sk_closed (w_sock w) = false) as Hncl.
  { destruct (sk_closed (w_sock w)) eqn:Ecl; [|done].
    pose proof (write_closed (w_sock w) data Ecl) as He. by rewrite Ek in He. }
  assert (~ refused w data) as Hnr.
  { intros [?|(_ & e' & He' & _)]; [done|]. by rewrite Ek in He'. }
  rewrite uwrap_small by lia. cbn zeta. set (b := (_ =? 0) && _). set (w1 := if b then queue _ _ _ else _).
  assert (Hw1 : chan_ok w1 ch /\ w_conn w1 = w_conn w /\ w_sock w1 = k /\
    thread_id_ (w_loop w1) = thread_id_ (w_loop w)).
  { unfold w1. destruct b; [|split; [by apply (chan_ok_ext w)|done]].
    pose proof (QueueInLoop_keeps (thread_id_ (w_loop w)) FWriteComplete (w_loop w)) as [G1 G2].
    split; [|done]. by apply (chan_ok_ext w). }
  clearbody w1 b. destruct Hw1 as (Hch1 & Hc1 & Hs1 & Ht1).
  destruct (Z.ltb_spec 0 (zlen data - nw)).
  - destruct (save_rest_ok w1 ch data nw) as (w' & ch' & G1 & G2 & G3);
      rewrite ?Hc1, ?Hs1; try done; try lia; [by rewrite Hc|].
    rewrite <- Ht1. exists w', ch', data. split; [exact G1|]. split; [done|]. split; [|by right].
    destruct G3 as [S1 S2 S3 S4 S5]. rewrite Hc1 in *. split; try done; try lia.
    rewrite S1. unfold stream. rewrite Hs1, Hc1, Hs, Hempty, !app_nil_r, <- app_assoc.
    by rewrite take_drop.
  - exists w1, ch, data. split; [done|]. split; [|split; [|by right]].
    + split; rewrite ?Hc1, ?Hs1, ?Hc; done.
    + split; rewrite ?Hc1; try done; try lia. unfold stream.
      rewrite Hs1, Hc1, Hs, Hempty, !app_nil_r. by rewrite firstn_all2 by lia.
Qed.

Lemma SendInLoop_ok w ch data :
  conn_ok w ch -> zlen data < 2 ^ 31 -> writer_index_ (out w) + zlen data <= max_size ->
  exists w' ch' kept, SendInLoop (thread_id_ (w_loop w)) data w = Ok w' /\
    conn_ok w' ch' /\ sent_like w w' kept (zlen data) /\
    (refused w data /\ kept = [] \/ ~ refused w data /\ kept = data).
Proof.
  intros Hok Hlen Hmax. pose proof Hok as [Hch Hwf Hsz Hw Hcl Hdn].
  destruct (not_writing w ch Hok) as [Hb Hempty]. change (sent_or_refused w data (SendInLoop (thread_id_ (w_loop w)) data w)).
  unfold SendInLoop. case_decide as Hst.
  { exists w, ch, []. split; [done|]. split; [done|]. split; [|left; split; [by left|done]].
    split; rewrite ?app_nil_r; try done. lia. }
  rewrite (the_channel_ok w ch Hch), bind_Ok, Hb.
  destruct (IsWriting ch) eqn:Ew; cbn [negb].
  - rewrite bind_Ok. cbn beta iota. cbn [negb andb].
    assert (content (out w) <> []) as Hne by by apply Hw.
    assert (sk_closed (w_sock w) = false) as Hncl.
    { destruct (sk_closed (w_sock w)); [|done]. by rewrite Hcl in Hne. }
    assert (with_sock (w_sock w) w = w) as Eself by (by destruct w).
    pose proof (save_all_ok w (w_sock w) ch data Hok Hlen Hmax Hst Hncl) as H. rewrite Eself in H.
    apply H; [done|done|]. intros [?|[? _]]; done.
  - destruct (sk_write (w_sock w) data) as [[e|nw] k] eqn:Ek.
    2: { rewrite bind_Ok. by apply (wrote_ok w ch data nw k). }
    destruct (write_fails _ _ _ _ Ek) as [Hs Hc]. rewrite bind_Ok. cbn beta iota.
    assert (Hok' : conn_ok (with_sock k w) ch).
    { split; simpl; rewrite ?Hc; try done; [by apply (chan_ok_ext w)|by rewrite Ew]. }
    destruct (negb (e =? EWOULDBLOCK) && ((e =? EPIPE) || (e =? ECONNRESET))) eqn:Ef; cbn [negb andb].
    + exists (with_sock k w), ch, []. split; [done|]. split; [done|]. split.
      * split; simpl; try done; try lia. unfold stream. simpl. by rewrite Hs, !app_nil_r.
      * left. split; [|done]. right. split; [by apply Hempty|]. exists e. rewrite Ek. split; [done|].
        apply andb_true_iff in Ef as [_ Ef]. lia.
    + apply (save_all_ok w k ch data); try done.
      * rewrite Hc. destruct (sk_closed (w_sock w)) eqn:Ecl; [|done].
        pose proof (write_closed (w_sock w) data Ecl) as He. rewrite Ek in He. injection He as ->. by destruct Ef.
      * intros [?|(_ & e' & He' & Hor)]; [done|]. rewrite Ek in He'. injection He' as <-.
        unfold EPIPE, ECONNRESET, EWOULDBLOCK in *. lia.
Qed.

(** ** Writing what is pending *)

(** What the handlers that send nothing new leave alone. *)
Record kept_like (w w' : W) : Prop := {
  kl_stream : stream w' = stream w;
  kl_state : state_ (w_conn w') = state_ (w_conn w);
  kl_thread : thread_id_ (w_loop w') = thread_id_ (w_loop w);
  kl_writer : writer_index_ (out w') <= writer_index_ (out w);
  kl_reading : reading_ (w_conn w') = reading_ (w_conn w)
}.

Lemma ShutdownInLoop_ok w ch :
  chan_ok w ch -> ShutdownInLoop w =
    Ok (if IsWriting ch then w else with_sock (sk_shutdown (w_sock w)) w).
Proof.
  intros H. unfold ShutdownInLoop. rewrite (the_channel_ok w ch H), bind_Ok.
  by destruct (IsWriting ch).
Qed.

Lemma conn_ok_shutdown w ch s :
  conn_ok w ch -> IsWriting ch = false -> s <> kDisconnected ->
  conn_ok (with_sock (sk_shutdown (w_sock w)) (with_conn (SetState (w_conn w) s) w)) ch /\
  stream (with_sock (sk_shutdown (w_sock w)) w) = stream w.
Proof.
  intros Hok Ew Hs. pose proof Hok as [Hch Hwf Hsz Hw Hcl Hdn].
  destruct (not_writing w ch Hok) as [_ Hempty]. destruct (shutdown_keeps (w_sock w)) as [G1 G2].
  split.
  - split; simpl; auto. by apply (chan_ok_ext w).
  - unfold stream. simpl. by rewrite G1.
Qed.

(** The output was drained: the channel stops waiting, the write-complete
    callback is queued and a pending shutdown is carried out. *)
Definition drained (tid : Z) (w : W) : result W :=
  w ← on_channel DisableWriting tid w;
  let w := if write_complete_callback_ (w_conn w) then queue tid FWriteComplete w else w in
  if decide (state_ (w_conn w) = kDisconnecting) then ShutdownInLoop w else Ok w.

Lemma drained_ok w ch :
  chan_ok w ch -> IsWriting ch = true -> buf_wf (out w) ->
  kCheapPrepend <= reader_index_ (out w) -> content (out w) = [] ->
  exists w' ch', drained (thread_id_ (w_loop w)) w = Ok w' /\ conn_ok w' ch' /\ kept_like w w'.
Proof.
  intros Hch Ew Hwf Hsz Hc. unfold drained.
  destruct (land_write (events_ ch) (co_events w ch Hch) Ew) as (Hr & Hne & Hnw).
  destruct (on_channel_ok w ch (fun e => Z.land e (Z.lnot kWriteEvent))
    (Z.land (events_ ch) (Z.lnot kWriteEvent)) Hch) as (l & ch' & G1 & G2 & G3 & G4 & G5);
    [done|done|by right|].
  unfold DisableWriting. rewrite G1, bind_Ok.
  assert (IsWriting ch' = false) as Ew' by (rewrite IsWriting_flag, G3; exact Hnw).
  set (w1 := if _ : bool then queue _ _ _ else _).
  assert (Hw1 : chan_ok w1 ch' /\ w_conn w1 = w_conn w /\ w_sock w1 = w_sock w /\
    thread_id_ (w_loop w1) = thread_id_ (w_loop w)).
  { unfold w1. destruct (write_complete_callback_ _); [|done].
    pose proof (QueueInLoop_keeps (thread_id_ (w_loop w)) FWriteComplete l) as [F1 F2].
    split; [by apply (chan_ok_ext (with_loop l w))|]. by simpl; rewrite F2. }
  clearbody w1. destruct Hw1 as (Hch1 & Hc1 & Hs1 & Ht1). rewrite Hc1.
  case_decide as Hst.
  - rewrite (ShutdownInLoop_ok w1 ch' Hch1), Ew'. eexists _, ch'. split; [reflexivity|].
    destruct (shutdown_keeps (w_sock w1)) as [F1 F2]. split.
    + split; simpl; rewrite ?Hc1; auto; [by apply (chan_ok_ext w1)|]. by rewrite Ew', Hc.
    + split; simpl; rewrite ?Hc1; auto; [|lia]. unfold stream. simpl. by rewrite F1, Hs1, Hc1.
  - exists w1, ch'. split; [done|]. split.
    + split; rewrite ?Hc1, ?Hs1; auto. by rewrite Ew', Hc.
    + split; rewrite ?Hc1; auto; [|lia]. unfold stream. by rewrite Hs1, Hc1.
Qed.

Lemma Retrieve_ok b n :
  buf_wf b -> kCheapPrepend <= reader_index_ b -> 0 <= n ->
  buf_wf (Retrieve b n) /\ content (Retrieve b n) = drop (Z.to_nat n) (content b) /\
  kCheapPrepend <= reader_index_ (Retrieve b n) /\
  writer_index_ (Retrieve b n) <= writer_index_ b.
Proof.
  intros Hwf Hr Hn. pose proof (buf_wf_bounds _ Hwf). destruct Hwf as [W1 W2 W3] eqn:Ewf.
  assert (kCheapPrepend <= zlen (buffer_ b)) by lia.
  split; [by apply Retrieve_wf|]. split; [by apply Retrieve_content|].
  unfold Retrieve. destruct (Z.ltb_spec n (ReadableBytes b)); simpl; [|lia].
  autorewrite with buffer in *. rewrite uwrap_small; lia.
Qed.

Lemma HandleWrite_ok w ch :
  conn_ok w ch ->
  exists w' ch', HandleWrite (thread_id_ (w_loop w)) w = Ok w' /\ conn_ok w' ch' /\ kept_like w w'.
Proof.
  intros Hok. pose proof Hok as [Hch Hwf Hsz Hw Hcl Hdn]. unfold HandleWrite.
  rewrite (the_channel_ok w ch Hch), bind_Ok.
  destruct (IsWriting ch) eqn:Ew; [|exists w, ch; split; [done|]; split; [done|by split]].
  assert (content (out w) <> []) as Hne by by apply Hw.
  assert (sk_closed (w_sock w) = false) as Hncl.
  { destruct (sk_closed (w_sock w)); [|done]. by rewrite Hcl in Hne. }
  unfold WriteFd. rewrite (read_readable (out w) Hwf), bind_Ok.
  destruct (sk_write (w_sock w) (content (out w))) as [[e|n] k] eqn:Ek; cbn [fst snd].
  - destruct (write_fails _ _ _ _ Ek) as [Hs Hc]. rewrite bind_Ok.
    exists (with_sock k w), ch. split; [done|]. split.
    + split; simpl; rewrite ?Hc; try first [done|by apply (chan_ok_ext w)|by rewrite Ew].
    + split; simpl; try done. unfold stream. simpl. by rewrite Hs.
  - destruct (write_accepts _ _ _ _ Ek) as (Hn & Hs & Hc). rewrite bind_Ok. cbn beta iota.
    destruct (Z.ltb_spec 0 n) as [Hpos|Hz].
    2:{ exists (with_sock k w), ch. split; [done|]. split.
        + split; simpl; rewrite ?Hc; try first [done|by apply (chan_ok_ext w)|by rewrite Ew].
        + split; simpl; try done. unfold stream. simpl. rewrite Hs.
          replace n with 0 by lia. by rewrite app_nil_r. }
    destruct (Retrieve_ok (out w) n) as (Hrw & Hrc & Hrr & Hrwr); [done|done|lia|].
    set (w1 := with_conn (set_output (w_conn w) (Retrieve (out w) n)) (with_sock k w)).
    assert (Hch1 : chan_ok w1 ch) by by apply (chan_ok_ext w).
    assert (Hst : stream w1 = stream w).
    { unfold stream, w1. simpl. rewrite Hrc, Hs, <- app_assoc. by rewrite take_drop. }
    rewrite (ReadableBytes_content _ Hrw).
    destruct (Z.eqb_spec (zlen (content (Retrieve (out w) n))) 0) as [Hz|Hnz].
    + apply zlen_nil in Hz.
      destruct (drained_ok w1 ch) as (w' & ch' & G1 & G2 & [S1 S2 S3 S4 S5]); try done.
      exists w', ch'. split; [exact G1|]. split; [done|].
      split; [congruence|by rewrite S2|by rewrite S3|simpl in *; lia|by rewrite S5].
    + exists w1, ch. split; [done|]. split; [|by split].
      assert (content (Retrieve (out w) n) <> []) as Hne' by by rewrite <- zlen_nil.
      split; simpl; rewrite ?Hc, ?Hncl; try done.
Qed.

(** ** Establishing *)

(** A connection that was just built: its channel is new, nothing was
    sent. *)
Record new_conn (w : W) (ch : Channel conn_callback) : Prop := {
  nc_inv : net_inv (net_ (w_loop w));
  nc_store : store_ (net_ (w_loop w)) !! channel_ (w_conn w) = Some ch;
  nc_channel : 0 <= fd_ ch /\ index_ ch = -1 /\ events_ ch = 0;
  nc_fd : channels_ (base (poller_ (net_ (w_loop w)))) !! fd_ ch = None;
  nc_fresh : forall fd, channels_ (base (poller_ (net_ (w_loop w)))) !! fd <> Some (channel_ (w_conn w));
  nc_size : Z.of_nat (size (channels_ (base (poller_ (net_ (w_loop w)))))) < 2 ^ 31 - 1;
  nc_thread : owner_loop_ (base (poller_ (net_ (w_loop w)))) = thread_id_ (w_loop w);
  nc_out : buf_wf (out w) /\ kCheapPrepend <= reader_index_ (out w) /\ content (out w) = [];
  nc_open : sk_closed (w_sock w) = false
}.

Lemma ConnectEstablished_ok w ch self (cb : W -> result W) :
  new_conn w ch ->
  exists w' ch', ConnectEstablished cb (thread_id_ (w_loop w)) self w = cb w' /\
    conn_ok w' ch' /\ state_ (w_conn w') = kConnected /\ events_ ch' = kReadEvent /\
    stream w' = stream w /\ thread_id_ (w_loop w') = thread_id_ (w_loop w) /\
    writer_index_ (out w') = writer_index_ (out w).
Proof.
  intros [H1 H2 (H3 & H4 & H5) H6 H7 H8 H9 (Ho1 & Ho2 & Ho3) H10]. unfold ConnectEstablished.
  unfold the_channel, deref. cbn [with_conn w_loop w_conn channel_ SetState]. rewrite H2, bind_Ok.
  set (n := net_ (w_loop w)) in *. set (c := channel_ (w_conn w)) in *.
  destruct (fresh_contract _ _ _ _ net_contract n c (Tie ch self) H1 H7) as [I1 I2].
  set (n1 := mkNet (poller_ n) (<[c := Tie ch self]> (store_ n))) in *.
  destruct (update_contract _ _ _ _ net_contract n1 c (Tie ch self) (fun e => Z.lor e kReadEvent)
    kReadEvent) as (n' & G1 & G2 & G3 & G4 & G5); try done.
  { apply lookup_insert_eq. }
  { simpl. by rewrite H5. }
  { left. simpl. by rewrite H4. }
  destruct (same_channels_lookup _ _ c (set_events (Tie ch self) kReadEvent) G4) as (i & Hi).
  { apply lookup_insert_eq. }
  unfold on_channel, EnableReading. cbn [with_loop with_conn w_loop w_conn channel_ net_ set_net set_polled].
  fold c. change (owner_loop_ (base (poller_ n1))) with (owner_loop_ (base (poller_ n))) in G1.
  rewrite H9 in G1.
  match goal with |- context [change_events _ _ ?d ?m] => change m with n1; change d with c end.
  rewrite G1. cbn [mbind result_bind].
  eexists _, (set_index (set_events (Tie ch self) kReadEvent) i). split; [reflexivity|].
  split; [|done]. split; simpl; try done.
  - split; simpl; rewrite ?G3; simpl; try done.
    + by rewrite lookup_insert_eq.
    + intros e' c'. rewrite G5. rewrite decide_True by done. naive_solver.
Qed.

(** ** Sequences of calls *)

Inductive conn_op := OpSend (data : bytes) | OpWritable | OpShutdown.

Definition run_conn_op (cc wc cl : W -> result W) (hw : Z -> W -> result W) (op : conn_op) (w : W)
    : result W :=
  let tid := thread_id_ (w_loop w) in
  match op with
  | OpSend data => SendInLoop tid data w
  | OpWritable => HandleWrite tid w
  | OpShutdown => Shutdown cc wc cl hw tid 0 w
  end.

Fixpoint run_conn_ops (cc wc cl : W -> result W) hw (ops : list conn_op) (w : W) : result W :=
  match ops with
  | [] => Ok w
  | op :: ops => w ← run_conn_op cc wc cl hw op w; run_conn_ops cc wc cl hw ops w
  end.

Definition messages (ops : list conn_op) : list bytes :=
  omap (fun op => match op with OpSend data => Some data | _ => None end) ops.

Lemma Shutdown_ok cc wc cl hw self w ch :
  conn_ok w ch -> state_ (w_conn w) = kConnected ->
  exists w', Shutdown cc wc cl hw (thread_id_ (w_loop w)) self w = Ok w' /\ conn_ok w' ch /\
    stream w' = stream w /\ state_ (w_conn w') = kDisconnecting /\
    thread_id_ (w_loop w') = thread_id_ (w_loop w) /\ writer_index_ (out w') = writer_index_ (out w).
Proof.
  intros Hok Hst. unfold Shutdown. rewrite decide_True by done.
  unfold run_in_loop, RunInLoop. cbn [with_conn w_loop].
  assert (IsInLoopThread (thread_id_ (w_loop w)) (w_loop w) = true) as ->
    by (unfold IsInLoopThread; apply Z.eqb_refl).
  cbn [run_functor]. pose proof Hok as [Hch Hwf Hsz Hw Hcl Hdn].
  rewrite (ShutdownInLoop_ok _ ch) by by apply (chan_ok_ext w).
  destruct (IsWriting ch) eqn:Ew; eexists; (split; [reflexivity|]).
  - split; [|done]. split; simpl; try done; [by apply (chan_ok_ext w)|by rewrite Ew|].
    intros _ Hc. by apply Hw in Hc.
  - destruct (conn_ok_shutdown w ch kDisconnecting Hok Ew ltac:(done)) as [G1 G2].
    split; [exact G1|]. split; [exact G2|done].
Qed.

Lemma run_conn_op_ok cc wc cl hw op w ch :
  conn_ok w ch -> Forall (fun d => zlen d < 2 ^ 31) (messages [op]) ->
  writer_index_ (out w) + zlen (concat (messages [op])) <= max_size ->
  let kept := match op with OpSend data => if is_refused w data then [] else [data] | _ => [] end in
  exists w' ch', run_conn_op cc wc cl hw op w = Ok w' /\ conn_ok w' ch' /\
    stream w' = stream w ++ concat kept /\ kept `sublist_of` messages [op] /\
    thread_id_ (w_loop w') = thread_id_ (w_loop w) /\
    writer_index_ (out w') <= writer_index_ (out w) + zlen (concat (messages [op])).
Proof.
  intros Hok Hlen Hmax. destruct op as [data| |]; cbn [run_conn_op messages omap list_omap concat] in *.
  - rewrite app_nil_r in *. apply Forall_cons in Hlen as [Hl _].
    destruct (SendInLoop_ok w ch data Hok Hl Hmax) as (w' & ch' & kept & G1 & G2 & [S1 S2 S3 S4 S5] & G3).
    exists w', ch'. split; [done|]. split; [done|].
    assert (kept = if is_refused w data then [] else data) as ->.
    { destruct (is_refused w data) eqn:Er; destruct G3 as [[G3 ->]|[G3 ->]]; try done.
      - by apply is_refused_spec in Er.
      - apply is_refused_spec in G3. congruence. }
    rewrite S1. split; [destruct (is_refused w data); simpl; by rewrite ?app_nil_r|].
    split; [destruct (is_refused w data); [apply sublist_nil_l|done]|done].
  - destruct (HandleWrite_ok w ch Hok) as (w' & ch' & G1 & G2 & [S1 S2 S3 S4 S5]).
    exists w', ch'. split; [done|]. split; [done|]. cbn [concat]. rewrite S1, app_nil_r.
    split; [done|]. split; [done|]. split; [done|]. simpl. lia.
  - destruct (decide (state_ (w_conn w) = kConnected)) as [Hst|Hst].
    + destruct (Shutdown_ok cc wc cl hw 0 w ch Hok Hst) as (w' & G1 & G2 & G3 & _ & G5 & G6).
      exists w', ch. cbn [concat]. rewrite app_nil_r, G5, G6. repeat (split; [done|]). simpl. lia.
    + exists w, ch. cbn [concat]. unfold Shutdown. rewrite decide_False, app_nil_r by done.
      repeat (split; [done|]). simpl. lia.
Qed.

(** The messages of [ops] that are not refused in the state in which they are sent. *)
Fixpoint accepted (cc wc cl : W -> result W) hw (ops : list conn_op) (w : W) : list bytes :=
  match ops with
  | [] => []
  | op :: ops =>
      match op with OpSend data => if is_refused w data then [] else [data] | _ => [] end ++
      match run_conn_op cc wc cl hw op w with Ok w => accepted cc wc cl hw ops w | Fault _ => [] end
  end.

Lemma messages_cons op ops : messages (op :: ops) = messages [op] ++ messages ops.
Proof. destruct op; reflexivity. Qed.

Lemma run_conn_ops_ok cc wc cl hw ops w ch :
  conn_ok w ch -> Forall (fun d => zlen d < 2 ^ 31) (messages ops) ->
  writer_index_ (out w) + zlen (concat (messages ops)) <= max_size ->
  exists w' ch', run_conn_ops cc wc cl hw ops w = Ok w' /\ conn_ok w' ch' /\
    stream w' = stream w ++ concat (accepted cc wc cl hw ops w) /\
    accepted cc wc cl hw ops w `sublist_of` messages ops.
Proof.
  revert w ch. induction ops as [|op ops IH]; intros w ch Hok Hlen Hmax.
  - exists w, ch. by rewrite app_nil_r.
  - rewrite messages_cons in *. apply Forall_app in Hlen as [Hl1 Hl2].
    rewrite concat_app, length_app in Hmax.
    destruct (run_conn_op_ok cc wc cl hw op w ch Hok Hl1) as (w1 & ch1 & G1 & G2 & G3 & G4 & G5 & G6);
      [lia|].
    destruct (IH w1 ch1 G2 Hl2) as (w2 & ch2 & F1 & F2 & F3 & F4); [lia|].
    exists w2, ch2. cbn [run_conn_ops accepted]. rewrite G1, bind_Ok. split; [done|].
    split; [done|]. split; [by rewrite F3, G3, concat_app, app_assoc|].
    by apply sublist_app.
Qed.

End Tcp.

(** ** A concrete connection *)

(** A socket that accepts at most the next of [ts_limits] bytes per call, or
    everything once they are used up; a negative limit [-e] is the error
    [e]. *)
Record test_socket := mkTestSocket {
  ts_sent : bytes;
  ts_closed : bool;
  ts_limits : list Z;
  ts_input : bytes
}.

Definition ts_write (k : test_socket) (d : bytes) : write_result * test_socket :=
  if ts_closed k then (WriteError EPIPE, k) else
  match ts_limits k with
  | [] => (Wrote (zlen d), mkTestSocket (ts_sent k ++ d) false [] (ts_input k))
  | z :: zs =>
      if z <? 0 then (WriteError (- z), mkTestSocket (ts_sent k) false zs (ts_input k)) else
      (Wrote (Z.min z (zlen d)),
       mkTestSocket (ts_sent k ++ take (Z.to_nat (Z.min z (zlen d))) d) false zs (ts_input k))
  end.

#[export] Instance test_socket_ops : Socket test_socket := {
  sk_write := ts_write;
  sk_readv k iov :=
    (ReadvData (take (Z.to_nat (foldr Z.add 0 iov)) (ts_input k)),
     mkTestSocket (ts_sent k) (ts_closed k) (ts_limits k)
       (drop (Z.to_nat (foldr Z.add 0 iov)) (ts_input k)));
  sk_shutdown k := mkTestSocket (ts_sent k) true (ts_limits k) (ts_input k);
  sk_keepalive k _ := k;
  sk_nodelay k _ := k;
  sk_sent := ts_sent;
  sk_closed := ts_closed
}.

#[export] Instance test_socket_laws : SocketLaws test_socket.
Proof.
  split.
  - intros [s c l i] d n k'. simpl. unfold ts_write. simpl.
    destruct c; [done|]. destruct l as [|z zs]; [|destruct (Z.ltb_spec z 0); [done|]];
      intros [= <- <-]; simpl; rewrite ?Nat2Z.id, ?firstn_all; (split; [lia|done]).
  - intros [s c l i] d e k'. simpl. unfold ts_write. simpl.
    destruct c; [by intros [= <- <-]|]. destruct l as [|z zs]; [done|].
    destruct (Z.ltb_spec z 0); [|done]. by intros [= <- <-].
  - intros [s c l i] d Hc. simpl in Hc. subst. done.
  - done.
  - intros k iov data Hiov [= <-]. rewrite length_take.
    induction Hiov; simpl in *; lia.
  - done.
Qed.

(** A loop of thread 1 without connections, and a connection on it. *)
Definition ex_epoll : EpollPoller (gmap Z (Z * Z)) := mkEpollPoller (PollerBase_new 1) ∅ [].
Definition ex_loop : EventLoop conn_callback (EpollPoller (gmap Z (Z * Z))) Z functor :=
  mkEventLoop true false false 1 0 (mkNet ex_epoll ∅) 0 7 [] [].
Definition ex_world : Type := world (EpollPoller (gmap Z (Z * Z))) Z test_socket unit.

Definition ex_connect (limits : list Z) : result ex_world :=
  w ← TcpConnection_new (lit "conn") 5 9 InetAddress_default InetAddress_default ex_loop
        (mkTestSocket [] false limits (lit "ping")) tt;
  ConnectEstablished Ok 1 77 w.

Lemma ex_connect_ok limits :
  exists (w : ex_world) ch, ex_connect limits = Ok w /\ conn_ok w ch /\
    state_ (w_conn w) = kConnected /\ events_ ch = kReadEvent /\ stream w = [] /\
    thread_id_ (w_loop w) = 1 /\ writer_index_ (output_buffer_ (w_conn w)) = 8.
Proof.
  unfold ex_connect, TcpConnection_new.
  destruct (Buffer_new kInitialSize) as [b|] eqn:Eb; [|by vm_compute in Eb].
  assert (buf_wf b /\ content b = [] /\ writer_index_ b = 8 /\ reader_index_ b = 8) as (Hwf & Hc & Hw & Hr).
  { vm_compute in Eb. injection Eb as <-. split; [|done]. by split. }
  clear Eb. rewrite !bind_Ok.
  match goal with |- context [ConnectEstablished Ok 1 77 ?w0] => set (w := w0) end.
  set (ch := SetErrorCallback (SetCloseCallback (Channel.SetWriteCallback
    (SetReadCallback (Channel_new 9) OnRead) OnWrite) OnClose) OnError).
  destruct (ConnectEstablished_ok w ch 77 Ok) as (w' & ch' & G1 & G2 & G3 & G4 & G5 & G6 & G7).
  { split; try done. simpl. rewrite Hr, Hc. done. }
  exists w', ch'. split; [exact G1|]. rewrite G5, G6, G7. unfold stream, w. simpl.
  by rewrite Hc, Hw.
Qed.

(** C2: the byte stream of a connection is kept intact.  From a connection whose invariant holds,
    for every sequence of sends, writable events and shutdown requests in the loop, whatever the
    kernel accepts at each write, with messages shorter than 2^31 bytes that fit in the buffer: the
    calls succeed; what the kernel has accepted followed by the output buffer is what it was followed
    by the messages, each whole and in order, but for those [accepted] leaves out, which are exactly
    those sent when nothing is pending and write(2) says that the peer is gone (EPIPE or
    ECONNRESET), or when the connection is disconnected; the channel waits for writability exactly
    while output is pending; the write side is shut down only when nothing is pending, and it is
    shut down once a requested shutdown finds the output drained. *)
Theorem stream_intact {P E K U : Type} `{!Poller conn_callback P} `{!PollerContract conn_callback P}
    `{!Eventfd E} `{!Socket K} `{!SocketLaws K} (w : world P E K U) ch cc wc cl hw ops :
  conn_ok w ch -> Forall (fun d => zlen d < 2 ^ 31) (messages ops) ->
  writer_index_ (output_buffer_ (w_conn w)) + zlen (concat (messages ops)) <= max_size ->
  exists w' ch', run_conn_ops cc wc cl hw ops w = Ok w' /\
    stream w' = stream w ++ concat (accepted cc wc cl hw ops w) /\
    accepted cc wc cl hw ops w `sublist_of` messages ops /\
    (forall (v : world P E K U) data, is_refused v data = true <->
       state_ (w_conn v) = kDisconnected \/
       (content (output_buffer_ (w_conn v)) = [] /\
        exists e, fst (sk_write (w_sock v) data) = WriteError e /\ (e = EPIPE \/ e = ECONNRESET))) /\
    the_channel w' = Ok ch' /\
    (IsWriting ch' = true <-> content (output_buffer_ (w_conn w')) <> []) /\
    (sk_closed (w_sock w') = true -> content (output_buffer_ (w_conn w')) = []) /\
    (state_ (w_conn w') = kDisconnecting -> content (output_buffer_ (w_conn w')) = [] ->
     sk_closed (w_sock w') = true).
Proof.
  intros Hok Hl Hm.
  destruct (run_conn_ops_ok cc wc cl hw ops w ch Hok Hl Hm) as (w' & ch' & G1 & G2 & G3 & G4).
  exists w', ch'. do 3 (split; [done|]). split; [apply is_refused_spec|]. destruct G2 as [C1 C2 C3 C4 C5 C6].
  split; [by apply the_channel_ok|]. done.
Qed.

(** The kernel takes 3 bytes, then is busy, then takes the rest; the shutdown
    waits for it. *)
Lemma stream_intact_witness :
  exists (w : ex_world) (ch : Channel conn_callback), ex_connect [3; -11] = Ok w /\
  let ops := [OpSend (lit "hello "); OpSend (lit "world"); OpShutdown; OpWritable; OpWritable] in
  exists w' ch', run_conn_ops Ok Ok Ok (fun _ => Ok) ops w = Ok w' /\
    stream w' = stream w ++ concat (accepted Ok Ok Ok (fun _ => Ok) ops w) /\
    accepted Ok Ok Ok (fun _ => Ok) ops w `sublist_of` messages ops /\
    (forall (v : ex_world) data, is_refused v data = true <->
       state_ (w_conn v) = kDisconnected \/
       (content (output_buffer_ (w_conn v)) = [] /\
        exists e, fst (sk_write (w_sock v) data) = WriteError e /\ (e = EPIPE \/ e = ECONNRESET))) /\
    the_channel w' = Ok ch' /\
    (IsWriting ch' = true <-> content (output_buffer_ (w_conn w')) <> []) /\
    (sk_closed (w_sock w') = true -> content (output_buffer_ (w_conn w')) = []) /\
    (state_ (w_conn w') = kDisconnecting -> content (output_buffer_ (w_conn w')) = [] ->
     sk_closed (w_sock w') = true).
Proof.
  destruct (ex_connect_ok [3; -11]) as (w & ch & H1 & H2 & H3 & H4 & H5 & H6 & H7).
  exists w, ch. split; [exact H1|]. intros ops.
  apply (stream_intact w ch Ok Ok Ok (fun _ => Ok) ops H2).
  - repeat constructor.
  - rewrite H7. vm_compute. discriminate.
Defined.

(** Of two messages to a peer that resets the connection after the first, the second is dropped. *)
Example accepted_run :
  (w ← ex_connect [6; -104];
   Ok (accepted Ok Ok Ok (fun _ => Ok) [OpSend (lit "hello "); OpSend (lit "world"); OpSend (lit "!")] w)) =
  Ok [lit "hello "; lit "!"].
Proof. vm_compute. reflexivity. Qed.

Example stream_run :
  (w ← ex_connect [3; -11];
   w ← run_conn_ops Ok Ok Ok (fun _ => Ok)
         [OpSend (lit "hello "); OpSend (lit "world"); OpShutdown; OpWritable; OpWritable] w;
   Ok (w_sock w, content (output_buffer_ (w_conn w)))) =
  Ok (mkTestSocket (lit "hello world") true [] (lit "ping"), []).
Proof. vm_compute. reflexivity. Qed.

(** ** Closing *)

Section Closing.
Context {P E K U : Type} `{!Poller conn_callback P} `{!PollerContract conn_callback P}.
Context `{!Eventfd E} `{!Socket K} `{!SocketLaws K}.
Abbreviation W := (world P E K U).

Lemma own_thread (w : W) : loop_AssertInLoopThread (thread_id_ (w_loop w)) (w_loop w) = Ok tt.
Proof. unfold loop_AssertInLoopThread, IsInLoopThread. by rewrite Z.eqb_refl. Qed.

Definition open_state (s : StateE) : bool :=
  bool_decide (s = kConnected) || bool_decide (s = kDisconnecting).

Lemma HandleClose_ok (w : W) ch cc cl :
  chan_ok w ch -> events_ ch <> 0 -> open_state (state_ (w_conn w)) = true ->
  exists w1 ch1, HandleClose cc cl (thread_id_ (w_loop w)) w = (w2 ← cc w1; cl w2) /\
    state_ (w_conn w1) = kDisconnected /\ chan_ok w1 ch1 /\ events_ ch1 = 0 /\ fd_ ch1 = fd_ ch /\
    thread_id_ (w_loop w1) = thread_id_ (w_loop w) /\ stream w1 = stream w.
Proof.
  intros Hch Hne Hst. unfold HandleClose. rewrite own_thread, bind_Ok.
  unfold open_state in Hst. rewrite Hst. cbn [assert_]. rewrite bind_Ok.
  set (w0 := with_conn (SetState (w_conn w) kDisconnected) w).
  destruct (on_channel_ok w0 ch (fun e => Z.land e kNoneEvent) 0) as (l & ch1 & G1 & G2 & G3 & G4 & G5);
    [by apply (chan_ok_ext w)|apply Z.land_0_r|lia|by right|].
  exists (with_loop l w0), ch1. unfold DisableAll.
  change (thread_id_ (w_loop w)) with (thread_id_ (w_loop w0)). rewrite G1. done.
Qed.

Lemma ConnectDestroyed_closed (w : W) ch cc :
  chan_ok w ch -> events_ ch = 0 -> state_ (w_conn w) = kDisconnected ->
  exists w', ConnectDestroyed cc (thread_id_ (w_loop w)) w = Ok w' /\ w_conn w' = w_conn w /\
    channels_ (base (poller_ (net_ (w_loop w')))) !! fd_ ch = None /\
    forall e c, ~ watches (net_ (w_loop w')) (fd_ ch) e c.
Proof.
  intros [H1 H2 H3 H4 H5 H6 H7] He Hst. unfold ConnectDestroyed. rewrite decide_False by congruence.
  rewrite bind_Ok. unfold on_channel.
  destruct (remove_contract _ _ _ _ net_contract (net_ (w_loop w)) (channel_ (w_conn w)) ch)
    as (n' & G1 & G2 & G3 & G4 & G5); try done.
  { intros e c. rewrite H7, He. intros (_ & -> & ?). done. }
  rewrite <- H5, G1, bind_Ok. eexists. split; [reflexivity|]. split; [done|]. simpl.
  rewrite G3. simpl. split; [apply lookup_delete_eq|].
  intros e c. rewrite G5, H7, He. intros (_ & -> & ?). done.
Qed.

End Closing.

(** C10: a connection is closed once and then leaves the poller.  Closing an
    open connection whose channel is enabled marks it disconnected, disables the
    channel and then runs the connection callback and the close callback, in
    this order; once it is disconnected, closing it again is an assertion
    failure, while the other ways to close or use it do nothing; and
    [ConnectDestroyed], which the close callback arranges, removes the channel so
    that its descriptor is neither registered nor watched. *)
Theorem closed_once {P E K U : Type} `{!Poller conn_callback P} `{!PollerContract conn_callback P}
    `{!Eventfd E} `{!Socket K} `{!SocketLaws K} (w : world P E K U) ch cc cl wc hw :
  chan_ok w ch -> events_ ch <> 0 ->
  state_ (w_conn w) = kConnected \/ state_ (w_conn w) = kDisconnecting ->
  let tid := thread_id_ (w_loop w) in
  (exists w1, HandleClose cc cl tid w = (w2 ← cc w1; cl w2) /\
     state_ (w_conn w1) = kDisconnected /\ stream w1 = stream w /\
     exists w2, ConnectDestroyed cc tid w1 = Ok w2 /\
       channels_ (base (poller_ (net_ (w_loop w2)))) !! fd_ ch = None /\
       forall e c, ~ watches (net_ (w_loop w2)) (fd_ ch) e c) /\
  (forall v : world P E K U, state_ (w_conn v) = kDisconnected -> thread_id_ (w_loop v) = tid ->
     HandleClose cc cl tid v = Fault FAssert /\ ForceCloseInLoop cc cl tid v = Ok v /\
     ForceClose tid v = v /\ Shutdown cc wc cl hw tid 0 v = Ok v /\
     forall data, SendInLoop tid data v = Ok v).
Proof.
  intros Hch Hne Hst tid. split.
  - destruct (HandleClose_ok w ch cc cl Hch Hne) as (w1 & ch1 & G1 & G2 & G3 & G4 & Gf & G5 & G6).
    { by destruct Hst as [->| ->]. }
    exists w1. split; [exact G1|]. split; [done|]. split; [done|].
    destruct (ConnectDestroyed_closed w1 ch1 cc G3 G4 G2) as (w2 & F1 & F2 & F3 & F4).
    exists w2. rewrite G5 in F1. rewrite Gf in F3, F4. done.
  - intros v Hv <-. unfold HandleClose, ForceCloseInLoop, ForceClose, Shutdown.
    rewrite own_thread, !bind_Ok, Hv. do 4 (split; [done|]).
    intros data. unfold SendInLoop. by rewrite decide_True.
Qed.

Lemma closed_once_witness :
  exists (w : ex_world) (ch : Channel conn_callback), ex_connect [] = Ok w /\
     let tid := thread_id_ (w_loop w) in
  (exists w1, HandleClose Ok Ok tid w = (w2 ← Ok w1; Ok w2) /\
     state_ (w_conn w1) = kDisconnected /\ stream w1 = stream w /\
     exists w2, ConnectDestroyed Ok tid w1 = Ok w2 /\
     channels_ (base (CB := conn_callback) (poller_ (net_ (w_loop w2)))) !! fd_ ch = None /\
     forall e c, ~ watches (net_ (w_loop w2)) (fd_ ch) e c) /\
     (forall v : ex_world, state_ (w_conn v) = kDisconnected -> thread_id_ (w_loop v) = tid ->
     HandleClose Ok Ok tid v = Fault FAssert /\ ForceCloseInLoop Ok Ok tid v = Ok v /\
     ForceClose tid v = v /\ Shutdown Ok Ok Ok (fun _ => Ok) tid 0 v = Ok v /\
     forall data, SendInLoop tid data v = Ok v).
Proof.
  destruct (ex_connect_ok []) as (w & ch & H1 & H2 & H3 & H4 & H5 & H6 & H7).
  exists w, ch. split; [exact H1|].
  apply (closed_once w ch Ok Ok Ok (fun _ => Ok)).
  - apply H2.
  - rewrite H4. discriminate.
  - by left.
Defined.

(** Destroying a connection that is being shut down fails.  [ConnectDestroyed],
    which the destructor of the server calls for every connection, disables the
    channel only in the state connected.  If a shutdown was requested and the peer has
    not closed yet, the channel is still enabled and the removal from the poller
    trips the assertion that it has no events. *)
Theorem ConnectDestroyed_disconnecting {E K Kern U : Type} `{!Eventfd E} `{!Socket K}
    `{!SocketLaws K} `{!Epoll Kern} `{!EpollLaws Kern}
    (w : world (EpollPoller Kern) E K U) ch cc :
  chan_ok w ch -> events_ ch <> 0 -> state_ (w_conn w) = kDisconnecting ->
  ConnectDestroyed cc (thread_id_ (w_loop w)) w = Fault FAssert.
Proof.
  intros [H1 H2 H3 H4 H5 H6 H7] Hne Hst. unfold ConnectDestroyed.
  rewrite decide_False by congruence. rewrite bind_Ok. unfold on_channel, Remove.
  cbn [RemoveChannel epoll_poller base] in *. unfold epoll_RemoveChannel.
  rewrite <- H5, AssertInLoopThread_own, bind_Ok. unfold deref. rewrite H2, bind_Ok.
  rewrite H4, !bool_decide_true by (done || by eexists). unfold IsNoneEvent.
  rewrite (proj2 (Z.eqb_neq (events_ ch) kNoneEvent)) by done. reflexivity.
Qed.

Lemma ConnectDestroyed_disconnecting_witness :
  exists (w : ex_world) (ch : Channel conn_callback), ex_connect [] = Ok w /\
     let w' := with_conn (SetState (w_conn w) kDisconnecting) w in
  ConnectDestroyed Ok (thread_id_ (w_loop w')) w' = Fault FAssert.
Proof.
  destruct (ex_connect_ok []) as (w & ch & H1 & H2 & H3 & H4 & H5 & H6 & H7).
  exists w, ch. split; [exact H1|]. intros w'.
  apply (ConnectDestroyed_disconnecting w' ch Ok).
  - apply (chan_ok_ext w); [apply H2|done..].
  - rewrite H4. discriminate.
  - done.
Defined.

(** ** Sending from another thread *)

(** C32: what another thread may send.  A buffer is copied: its content is queued
    as a string, the buffer is emptied, and the loop's thread later sends
    exactly those bytes.  A string is not: only its address is queued, so when it
    no longer exists by the time the loop runs the call -- always the case for
    [Send(data, len)], whose local copy dies when it returns -- the loop reads a
    dangling pointer. *)
Theorem Send_other_thread {P E K U : Type} `{!Poller conn_callback P} `{!Eventfd E} `{!Socket K}
    (w : world P E K U) (tid : Z) (buf : Buffer) (addr : Z) (data : bytes) cc wc cl hw :
  state_ (w_conn w) = kConnected -> tid <> thread_id_ (w_loop w) -> buf_wf buf ->
  (exists w', Send_buffer cc wc cl hw tid 0 buf w = Ok (w', RetrieveAll buf) /\
     pending_functors_ (w_loop w') = pending_functors_ (w_loop w) ++ [FSendString (content buf)] /\
     forall v, run_functor cc wc cl hw (thread_id_ (w_loop w)) 0 (FSendString (content buf)) v =
       SendInLoop (thread_id_ (w_loop w)) (content buf) v) /\
     (exists w', Send_data cc wc cl hw tid 0 addr data w = Ok w' /\
     pending_functors_ (w_loop w') = pending_functors_ (w_loop w) ++ [FSendPointer addr (zlen data)] /\
     w_strings w' !! addr = None /\
     forall v, w_strings v !! addr = None ->
       run_functor cc wc cl hw (thread_id_ (w_loop w)) 0 (FSendPointer addr (zlen data)) v =
       Fault FUndef).
Proof.
  intros Hst Htid Hwf.
  assert (Hq : forall f (v : world P E K U), w_loop v = w_loop w ->
    run_in_loop cc wc cl hw tid 0 f v = Ok (with_loop (QueueInLoop tid f (w_loop w)) v) /\
     pending_functors_ (QueueInLoop tid f (w_loop w)) = pending_functors_ (w_loop w) ++ [f]).
  { intros f v Hv. unfold run_in_loop, RunInLoop, modify, IsInLoopThread. rewrite Hv.
    rewrite (proj2 (Z.eqb_neq _ _)) by congruence. split; [done|].
    unfold QueueInLoop, wakeup_if_needed. by destruct (_ || _). }
  assert (IsInLoopThread tid (w_loop w) = false) as Hown
    by (apply Z.eqb_neq; congruence).
  split.
  - unfold Send_buffer. rewrite decide_True, Hown by done.
    rewrite (RetrieveAllAsString_spec buf Hwf), bind_Ok.
    destruct (Hq (FSendString (content buf)) w eq_refl) as [-> Hp]. rewrite bind_Ok.
    eexists. split; [reflexivity|]. by split.
  - unfold Send_data, Send_string. cbn [w_strings with_strings]. rewrite lookup_insert_eq.
    cbn [w_conn w_loop with_strings]. rewrite decide_True, Hown by done.
    destruct (Hq (FSendPointer addr (zlen data))
      (with_strings (<[addr := data]> (w_strings w)) w) eq_refl) as [-> Hp]. rewrite bind_Ok.
    eexists. split; [reflexivity|]. split; [exact Hp|]. split.
    + simpl. apply lookup_delete_eq.
    + intros v Hv. cbn [run_functor]. unfold SendInLoop_pointer. by rewrite Hv.
Qed.

Lemma Send_other_thread_witness :
  exists w : ex_world, ex_connect [] = Ok w /\
     let buf := mkBuffer (replicate 8 x00 ++ lit "hi") 8 10 in
  let run (f : functor) (v : ex_world) := run_functor Ok Ok Ok (fun _ => Ok) 1 0 f v in
  (exists w', Send_buffer Ok Ok Ok (fun _ => Ok) 2 0 buf w = Ok (w', RetrieveAll buf) /\
     pending_functors_ (w_loop w') = pending_functors_ (w_loop w) ++ [FSendString (content buf)] /\
     forall v, run (FSendString (content buf)) v = SendInLoop 1 (content buf) v) /\
     (exists w', Send_data Ok Ok Ok (fun _ => Ok) 2 0 100 (lit "abc") w = Ok w' /\
     pending_functors_ (w_loop w') = pending_functors_ (w_loop w) ++ [FSendPointer 100 3] /\
     w_strings w' !! 100 = None /\
     forall v, w_strings v !! 100 = None -> run (FSendPointer 100 3) v = Fault FUndef).
Proof.
  destruct (ex_connect_ok []) as (w & ch & H1 & H2 & H3 & H4 & H5 & H6 & H7).
  exists w. split; [exact H1|]. intros buf run. unfold run. rewrite <- H6.
  apply (Send_other_thread w 2 buf 100 (lit "abc") Ok Ok Ok (fun _ => Ok)).
  - exact H3.
  - rewrite H6. discriminate.
  - split; vm_compute; intuition discriminate.
Defined.
