(* ===== verification/ConnStates.v ===== *)
(** * What a connection may become (over [TcpConnection])

    What its own loop runs moves a connection through its states in one direction; its name,
    its channel and its addresses stay what the constructor made them and its buffers stay well
    formed, whatever calls, events and functors come, in any order, and whatever the user's
    callbacks call in turn.  A closing call of another thread tests the state in one step and
    assigns it in a later one: the one way back, from disconnected to disconnecting.  Then: a
    close asked for by [ForceCloseWithDelay]; and what follows when another thread's [ForceClose]
    is overtaken between its test and its assignment. *)

From S2P Require Import Prelude Buffer BufferSpec Channel PollerSpec EventLoop InetAddress TcpConnection.
From S2P Require Import EpollPoller LoopTimers TcpSpec.

(** The order in which the states are passed. *)
Definition rank (s : StateE) : Z :=
  match s with kConnecting => 0 | kConnected => 1 | kDisconnecting => 2 | kDisconnected => 3 end.

(** Both buffers can be read, written and emptied within their memory. *)
Definition conn_typed (c : TcpConnection) : Prop := buf_ok (input_buffer_ c) /\ buf_ok (output_buffer_ c).

(** How a connection may change. *)
Record forward (c c' : TcpConnection) : Prop := {
  fw_state : rank (state_ c) <= rank (state_ c');
  fw_name : name_ c' = name_ c;
  fw_channel : channel_ c' = channel_ c;
  fw_local : local_addr_ c' = local_addr_ c;
  fw_peer : peer_addr_ c' = peer_addr_ c;
  fw_typed : conn_typed c -> conn_typed c'
}.

#[export] Instance forward_preorder : PreOrder forward.
Proof.
  split; [intros c; split; done || lia|]. intros a b c [A1 A2 A3 A4 A5 A6] [B1 B2 B3 B4 B5 B6].
  split; [lia|congruence..|auto].
Qed.

(** ** One assignment *)

Lemma forward_state c s : rank (state_ c) <= rank s -> forward c (SetState c s).
Proof. by split. Qed.

Lemma forward_disconnected c : forward c (SetState c kDisconnected).
Proof. apply forward_state. by destruct (state_ c). Qed.

Lemma forward_reading c b : forward c (set_reading c b).
Proof. by split. Qed.

Lemma forward_output c b : (buf_ok (output_buffer_ c) -> buf_ok b) -> forward c (set_output c b).
Proof. intros H. split; try done. intros [? ?]. split; [done|by apply H]. Qed.

Lemma forward_input c b : (buf_ok (input_buffer_ c) -> buf_ok b) -> forward c (set_input c b).
Proof. intros H. split; try done. intros [? ?]. split; [by apply H|done]. Qed.

Lemma is_open_rank c : bool_decide (state_ c = kConnected) || bool_decide (state_ c = kDisconnecting) = true ->
  rank (state_ c) <= rank kDisconnecting.
Proof. by destruct (state_ c). Qed.

Create HintDb states.
#[export] Hint Resolve forward_state forward_disconnected forward_reading forward_output forward_input : states.
#[export] Hint Resolve Append_keeps_ok Retrieve_keeps_ok ReadFd_keeps_ok is_open_rank : states.
#[export] Hint Extern 0 (forward _ _) => reflexivity : states.

Section States.
Context {P E K U : Type} `{!Poller conn_callback P} `{!Eventfd E} `{!Socket K}.
Abbreviation W := (world P E K U).

(** A call that, if it returns, has moved the connection forward. *)
Definition moves (w : W) (r : result W) : Prop := forall w', r = Ok w' -> forward (w_conn w) (w_conn w').

(** ** Blocks *)

Lemma moves_Ok w v : forward (w_conn w) (w_conn v) -> moves w (Ok v).
Proof. by intros H w' [= <-]. Qed.

Lemma moves_Fault w f : moves w (Fault f).
Proof. done. Qed.

Lemma moves_from w v r : forward (w_conn w) (w_conn v) -> moves v r -> moves w r.
Proof. intros H Hr w' E'. etransitivity; [exact H|by apply Hr]. Qed.

Lemma moves_bind w r f : moves w r -> (forall v, moves v (f v)) -> moves w (r ≫= f).
Proof.
  intros Hr Hf w' (v & E1 & E2)%bind_Ok_inv. etransitivity; [by apply Hr|by apply (Hf v)].
Qed.

(** The first statement computes a value and leaves the connection alone. *)
Lemma moves_value {A} w (r : result A) f : (forall a, r = Ok a -> moves w (f a)) -> moves w (r ≫= f).
Proof. intros Hf w' (a & E1 & E2)%bind_Ok_inv. by apply (Hf a). Qed.

Lemma moves_on_channel f tid w : moves w (on_channel f tid w).
Proof. unfold on_channel. apply moves_value. intros n _. by apply moves_Ok. Qed.

Lemma queue_conn tid f (w : W) : w_conn (queue tid f w) = w_conn w.
Proof. done. Qed.

(** ** The operations *)

Context (connection_callback_ write_complete_call close_callback_ : W -> result W).
Context (message_callback_ high_watermark_call : Z -> W -> result W).
Abbreviation functor_run := (run_functor connection_callback_ write_complete_call close_callback_ high_watermark_call).
Abbreviation callback_run := (run_callback connection_callback_ close_callback_ message_callback_).

(** The user's code and the server's may do anything that moves the connection forward. *)
Context (Hconnection : forall w, moves w (connection_callback_ w)) (Hwrite : forall w, moves w (write_complete_call w)).
Context (Hclose : forall w, moves w (close_callback_ w)) (Hmessage : forall t w, moves w (message_callback_ t w)).
Context (Hhigh : forall n w, moves w (high_watermark_call n w)).

(** A handler, statement by statement: tests, values, calls on the channel and assignments. *)
Local Ltac statements :=
  repeat first
    [ progress cbn beta zeta
    | apply moves_Fault
    | apply moves_on_channel
    | solve [apply moves_Ok; cbn; eauto with states]
    | apply moves_bind; [|intros ?]
    | match goal with
      | |- moves _ (match ?x with _ => _ end) => destruct x eqn:?
      | |- moves _ (Ok (if ?x then _ else _)) => destruct x
      | |- moves ?w (on_channel _ _ ?v) => apply (moves_from w v); [cbn; eauto with states|]
      | |- moves _ (_ ≫= _) => apply moves_value; intros ? ?
      end
    | solve [auto] ].

Lemma moves_SendInLoop tid data w : moves w (SendInLoop tid data w).
Proof.
  unfold SendInLoop. case_decide; [by apply moves_Ok|]. apply moves_value. intros ch _.
  intros w' ([[[nwrote remaining] err] v] & E1 & E2)%bind_Ok_inv.
  assert (w_conn v = w_conn w) as Hv.
  { clear E2. destruct (negb (IsWriting ch) && _); [|by simplify_eq].
    destruct (sk_write (w_sock w) data) as [[e|n] k]; simplify_eq; [done|]. by case_match. }
  clear E1. rewrite <- Hv. revert w' E2.
  match goal with |- forall w', ?r = Ok w' -> _ => change (moves v r) end.
  destruct (negb err && _); [|by apply moves_Ok]. set (v1 := if _ : bool then queue _ _ _ else _).
  assert (w_conn v1 = w_conn v) as Hv1 by (unfold v1; by case_match). clearbody v1.
  apply (moves_from v v1); [by rewrite Hv1|]. statements.
Qed.

Lemma moves_ShutdownInLoop w : moves w (ShutdownInLoop w).
Proof. unfold ShutdownInLoop. statements. Qed.

Lemma moves_HandleClose tid w : moves w (HandleClose connection_callback_ close_callback_ tid w).
Proof. unfold HandleClose. statements. Qed.

Lemma moves_ForceCloseInLoop tid w : moves w (ForceCloseInLoop connection_callback_ close_callback_ tid w).
Proof. unfold ForceCloseInLoop. pose proof moves_HandleClose. statements. Qed.

Lemma moves_StartReadInLoop tid w : moves w (StartReadInLoop tid w).
Proof. unfold StartReadInLoop. statements. Qed.

Lemma moves_StopReadInLoop tid w : moves w (StopReadInLoop tid w).
Proof. unfold StopReadInLoop. statements. Qed.

(** The server queues this call once, on the connection it has just made. *)
Lemma moves_ConnectEstablished tid self w :
  state_ (w_conn w) = kConnecting -> moves w (ConnectEstablished connection_callback_ tid self w).
Proof.
  intros Hs. unfold ConnectEstablished. apply (moves_from w (with_conn (SetState (w_conn w) kConnected) w)).
  { apply forward_state. by rewrite Hs. }
  statements.
Qed.

Lemma moves_ConnectDestroyed tid w : moves w (ConnectDestroyed connection_callback_ tid w).
Proof. unfold ConnectDestroyed. statements. Qed.

Lemma moves_run_functor tid self f w :
  (f = FConnectEstablished -> state_ (w_conn w) = kConnecting) -> moves w (functor_run tid self f w).
Proof.
  intros Hf. destruct f; cbn [run_functor].
  - apply moves_SendInLoop.
  - unfold SendInLoop_pointer. pose proof moves_SendInLoop. statements.
  - apply moves_ShutdownInLoop.
  - apply moves_ForceCloseInLoop.
  - apply moves_StartReadInLoop.
  - apply moves_StopReadInLoop.
  - apply moves_ConnectEstablished, Hf, eq_refl.
  - apply moves_ConnectDestroyed.
  - apply Hwrite.
  - apply Hhigh.
Qed.

Lemma moves_run_in_loop tid self f w : f <> FConnectEstablished ->
  moves w (run_in_loop connection_callback_ write_complete_call close_callback_ high_watermark_call tid self f w).
Proof.
  intros Hf. unfold run_in_loop, RunInLoop. case_match; [by apply moves_run_functor|by apply moves_Ok].
Qed.

Lemma moves_HandleRead tid t w :
  moves w (HandleRead connection_callback_ close_callback_ message_callback_ tid t w).
Proof.
  unfold HandleRead, HandleError. apply moves_value. intros [[n e] b] Hb. pose proof moves_HandleClose.
  set (v := with_sock _ _). apply (moves_from w v); [|statements].
  apply forward_input. intros Hi. by eapply ReadFd_keeps_ok.
Qed.

Lemma moves_HandleWrite tid w : moves w (HandleWrite tid w).
Proof.
  unfold HandleWrite. apply moves_value. intros ch _. destruct (IsWriting ch); [|by apply moves_Ok].
  apply moves_value. intros [n e] _. destruct (Z.ltb_spec 0 n); [|by apply moves_Ok].
  set (v := with_conn _ _). apply (moves_from w v).
  { apply forward_output. intros Ho. apply Retrieve_keeps_ok; [done|lia]. }
  case_match; [|by apply moves_Ok]. apply moves_bind; [apply moves_on_channel|]. intros v1.
  set (v2 := if _ : bool then queue _ _ _ else _). apply (moves_from v1 v2); [unfold v2; by case_match|].
  case_decide; [apply moves_ShutdownInLoop|by apply moves_Ok].
Qed.

Lemma moves_run_callback tid cb t w : moves w (callback_run tid cb t w).
Proof.
  destruct cb; [apply moves_HandleRead|apply moves_HandleWrite|apply moves_HandleClose|by apply moves_Ok].
Qed.

(** The callbacks of a user who installs none. *)
Lemma moves_default t w : moves w (DefaultConnectionCallback w) /\ moves w (DefaultMessageCallback t w).
Proof.
  split; [by apply moves_Ok|]. apply moves_Ok, forward_input. intros [Hwf Hc]. split; [by apply RetrieveAll_wf|done].
Qed.

(** ** The calls of the user and of other threads *)

(** What a thread may call on a connection it holds; [addr] is where a string lives. *)
Inductive call :=
  | CSend (addr : Z)
  | CSendData (addr : Z) (data : bytes)
  | CSendBuffer (buf : Buffer)
  | CShutdown
  | CForceClose
  | CForceCloseWithDelay (seconds : Z)
  | CStartRead
  | CStopRead
  | CSetTcpNoDelay (on : bool)
  | CSetWriteCompleteCallback
  | CSetHighWatermarkCallback (mark : Z).

Definition run_call (tid self : Z) (c : call) (w : W) : result W :=
  match c with
  | CSend addr => Send_string connection_callback_ write_complete_call close_callback_ high_watermark_call tid self addr w
  | CSendData addr data =>
      Send_data connection_callback_ write_complete_call close_callback_ high_watermark_call tid self addr data w
  | CSendBuffer buf =>
      '(w, _) ← Send_buffer connection_callback_ write_complete_call close_callback_ high_watermark_call tid self buf w;
      Ok w
  | CShutdown => Shutdown connection_callback_ write_complete_call close_callback_ high_watermark_call tid self w
  | CForceClose => Ok (ForceClose tid w)
  | CForceCloseWithDelay seconds => Ok (ForceCloseWithDelay seconds w)
  | CStartRead => StartRead connection_callback_ write_complete_call close_callback_ high_watermark_call tid self w
  | CStopRead => StopRead connection_callback_ write_complete_call close_callback_ high_watermark_call tid self w
  | CSetTcpNoDelay on => Ok (SetTcpNoDelay on w)
  | CSetWriteCompleteCallback => Ok (with_conn (SetWriteCompleteCallback (w_conn w)) w)
  | CSetHighWatermarkCallback mark => Ok (with_conn (SetHighWatermarkCallback (w_conn w) mark) w)
  end.

Lemma moves_Send_string tid self addr w :
  moves w (Send_string connection_callback_ write_complete_call close_callback_ high_watermark_call tid self addr w).
Proof.
  unfold Send_string. case_match; [|done]. case_decide; [|by apply moves_Ok].
  case_match; [apply moves_SendInLoop|by apply moves_run_in_loop].
Qed.

Lemma moves_Send_buffer tid self buf w :
  moves w ('(w, _) ← Send_buffer connection_callback_ write_complete_call close_callback_ high_watermark_call tid self buf w;
           Ok w).
Proof.
  unfold Send_buffer. case_decide; [|by apply moves_Ok]. case_match; rewrite bind_assoc.
  - apply moves_value. intros d _. rewrite bind_assoc. apply moves_bind; [apply moves_SendInLoop|].
    intros v. by apply moves_Ok.
  - apply moves_value. intros [m b] _. rewrite bind_assoc. apply moves_bind; [by apply moves_run_in_loop|].
    intros v. by apply moves_Ok.
Qed.

Lemma moves_run_call tid self c w : moves w (run_call tid self c w).
Proof.
  destruct c; cbn [run_call].
  - apply moves_Send_string.
  - unfold Send_data. eapply moves_bind; [eapply moves_from; [|apply moves_Send_string]; done|].
    intros v. by apply moves_Ok.
  - apply moves_Send_buffer.
  - unfold Shutdown. case_decide as Hs; [|by apply moves_Ok].
    eapply moves_from; [|by apply moves_run_in_loop]. apply forward_state. by rewrite Hs.
  - unfold ForceClose. case_match; apply moves_Ok; [|done]. by apply forward_state, is_open_rank.
  - unfold ForceCloseWithDelay. case_match; apply moves_Ok; [|done]. by apply forward_state, is_open_rank.
  - by apply moves_run_in_loop.
  - by apply moves_run_in_loop.
  - by apply moves_Ok.
  - by apply moves_Ok.
  - by apply moves_Ok.
Qed.

End States.

(** ** Closing from another thread

    [state_] is not atomic: a closing call of another thread tests it and then assigns it. *)

(** src: ryan_network/tcp_connection/tcp_connection.cc:180-180 TcpConnection::ForceClose *)
Definition ForceClose_test {P E K U} (w : world P E K U) : bool :=
  bool_decide (state_ (w_conn w) = kConnected) || bool_decide (state_ (w_conn w) = kDisconnecting).

(** src: ryan_network/tcp_connection/tcp_connection.cc:181-183 TcpConnection::ForceClose *)
Definition ForceClose_rest {P E K U} `{!Eventfd E} (tid : Z) (w : world P E K U) : world P E K U :=
  queue tid FForceCloseInLoop (with_conn (SetState (w_conn w) kDisconnecting) w).

Lemma ForceClose_split {P E K U} `{!Eventfd E} tid (w : world P E K U) :
  ForceClose tid w = if ForceClose_test w then ForceClose_rest tid w else w.
Proof. done. Qed.

(** The calls that assign the state. *)
Definition closing (c : call) : bool :=
  match c with CShutdown | CForceClose | CForceCloseWithDelay _ => true | _ => false end.

(** ** Steps *)

Section Steps.
Context {P E K U : Type} `{!Poller conn_callback P} `{!Eventfd E} `{!Socket K}.
Abbreviation W := (world P E K U).
Context (connection_callback_ write_complete_call close_callback_ : W -> result W).
Context (message_callback_ high_watermark_call : Z -> W -> result W).
Abbreviation functor_run := (run_functor connection_callback_ write_complete_call close_callback_ high_watermark_call).
Abbreviation callback_run := (run_callback connection_callback_ close_callback_ message_callback_).
Abbreviation call_run := (run_call connection_callback_ write_complete_call close_callback_ high_watermark_call).
Context (Hconnection : forall w, moves w (connection_callback_ w)) (Hwrite : forall w, moves w (write_complete_call w)).
Context (Hclose : forall w, moves w (close_callback_ w)) (Hmessage : forall t w, moves w (message_callback_ t w)).
Context (Hhigh : forall n w, moves w (high_watermark_call n w)).

(** One thing that can happen to a connection, and to the number of other threads that stand
    between the test and the assignment of a closing call: a functor its loop runs --
    [ConnectEstablished] only on a new connection --, an event its channel reports, a call in its
    loop's thread, a call of another thread that is not a closing call; another thread's test,
    which may be that of [ForceClose] or the stronger one of [Shutdown]; the assignment of one that has
    tested; or something that leaves the connection itself alone, such as the rest of a closing call
    of another thread, which queues a functor or asks for a timer. *)
Inductive conn_step (self : Z) : W * nat -> W * nat -> Prop :=
  | step_functor tid f w w' n : (f = FConnectEstablished -> state_ (w_conn w) = kConnecting) ->
      functor_run tid self f w = Ok w' -> conn_step self (w, n) (w', n)
  | step_event tid cb t w w' n : callback_run tid cb t w = Ok w' -> conn_step self (w, n) (w', n)
  | step_call tid c w w' n : IsInLoopThread tid (w_loop w) = true \/ closing c = false ->
      call_run tid self c w = Ok w' -> conn_step self (w, n) (w', n)
  | step_test w n : ForceClose_test w = true -> conn_step self (w, n) (w, S n)
  | step_assign w n : conn_step self (w, S n) (with_conn (SetState (w_conn w) kDisconnecting) w, n)
  | step_other w w' n : w_conn w' = w_conn w -> conn_step self (w, n) (w', n).

(** A whole call of another thread, closing or not, is a sequence of such steps. *)
Lemma call_steps self tid c w w' n :
  call_run tid self c w = Ok w' -> rtc (conn_step self) (w, n) (w', n).
Proof.
  intros E'. destruct (IsInLoopThread tid (w_loop w)) eqn:Et; [by eapply rtc_once, step_call; [left|]|].
  destruct (closing c) eqn:Ec; [|by eapply rtc_once, step_call; [right|]].
  assert (forall v, ForceClose_test w = true -> w_conn v = SetState (w_conn w) kDisconnecting ->
    rtc (conn_step self) (w, n) (v, n)) as Hsplit.
  { intros v Ht Hv. eapply rtc_l; [by apply step_test|]. eapply rtc_l; [apply step_assign|].
    by apply rtc_once, step_other. }
  assert (forall v, v = w -> rtc (conn_step self) (w, n) (v, n)) as Hsame by (intros v ->; constructor).
  destruct c; try discriminate Ec; cbn [run_call] in E'.
  - unfold Shutdown in E'. case_decide as Hs; [|injection E' as <-; by apply Hsame].
    unfold run_in_loop, RunInLoop in E'. cbn [w_loop with_conn] in E'. rewrite Et in E'. injection E' as <-.
    apply Hsplit; [by unfold ForceClose_test; rewrite Hs|done].
  - injection E' as <-. rewrite ForceClose_split. destruct (ForceClose_test w) eqn:Ht; [by apply Hsplit|by apply Hsame].
  - injection E' as <-. unfold ForceCloseWithDelay. fold (ForceClose_test w).
    destruct (ForceClose_test w) eqn:Ht; [by apply Hsplit|by apply Hsame].
Qed.

(** How a connection may change, with [n] threads standing between test and assignment. *)
Record life (x y : W * nat) : Prop := {
  li_back : rank (state_ (w_conn (fst x))) <= rank (state_ (w_conn (fst y))) \/
    state_ (w_conn (fst x)) = kDisconnected /\ state_ (w_conn (fst y)) = kDisconnecting;
  li_closed : state_ (w_conn (fst x)) = kDisconnected -> snd x = 0%nat ->
    state_ (w_conn (fst y)) = kDisconnected /\ snd y = 0%nat;
  li_made : name_ (w_conn (fst y)) = name_ (w_conn (fst x)) /\ channel_ (w_conn (fst y)) = channel_ (w_conn (fst x)) /\
    local_addr_ (w_conn (fst y)) = local_addr_ (w_conn (fst x)) /\
    peer_addr_ (w_conn (fst y)) = peer_addr_ (w_conn (fst x));
  li_typed : conn_typed (w_conn (fst x)) -> conn_typed (w_conn (fst y))
}.

#[export] Instance life_preorder : PreOrder life.
Proof.
  split; [intros x; by split; [left| |..]|]. intros x y z [A1 A2 A3 A4] [B1 B2 B3 B4]. split; auto.
  - destruct (state_ (w_conn (fst x))), (state_ (w_conn (fst y))), (state_ (w_conn (fst z))); cbn in *;
      intuition (lia || congruence).
  - intros Hs Hn. destruct (A2 Hs Hn) as [Hs' Hn']. by apply B2.
  - intuition congruence.
Qed.

Lemma life_forward w w' n : forward (w_conn w) (w_conn w') -> life (w, n) (w', n).
Proof.
  intros [H1 H2 H3 H4 H5 H6]. split; cbn [fst snd]; auto.
  intros Hs ->. split; [|done]. rewrite Hs in H1. by destruct (state_ (w_conn w')).
Qed.

Lemma life_test w n : ForceClose_test w = true -> life (w, n) (w, S n).
Proof.
  intros Ht. split; cbn [fst snd]; auto; [by left|]. intros Hs. unfold ForceClose_test in Ht. by rewrite Hs in Ht.
Qed.

Lemma life_assign w n : life (w, S n) (with_conn (SetState (w_conn w) kDisconnecting) w, n).
Proof. split; cbn; auto; [|done]. destruct (state_ (w_conn w)); cbn; auto; left; lia. Qed.

Lemma conn_step_life self x y : conn_step self x y -> life x y.
Proof.
  intros [tid f w w' n Hf E'|tid cb t w w' n E'|tid c w w' n _ E'|w n Ht|w n|w w' n E'].
  - apply life_forward. by apply (moves_run_functor _ _ _ _ Hconnection Hwrite Hclose Hhigh tid self f w Hf).
  - apply life_forward. by apply (moves_run_callback _ _ _ Hconnection Hclose Hmessage tid cb t w).
  - apply life_forward. by apply (moves_run_call _ _ _ _ Hconnection Hwrite Hclose Hhigh tid self c w).
  - by apply life_test.
  - apply life_assign.
  - apply life_forward. by rewrite E'.
Qed.

Lemma conn_steps_life self x y : rtc (conn_step self) x y -> life x y.
Proof.
  intros Hr. apply (rtc_invariant (conn_step self) (life x) x); [|done|done].
  intros y1 y2 H1 H2. etransitivity; [exact H1|by apply (conn_step_life self)].
Qed.
End Steps.

Lemma forward_closed c c' : forward c c' -> state_ c = kDisconnected -> state_ c' = kDisconnected.
Proof. intros [Hs _ _ _ _ _] Hc. rewrite Hc in Hs. by destruct (state_ c'). Qed.

Lemma new_conn_typed name c fd la pa (P E K U : Type) `{!Socket K} (loop : EventLoop conn_callback P E functor) sock (u : U) w :
  TcpConnection_new name c fd la pa loop sock u = Ok w ->
  conn_typed (w_conn w) /\ state_ (w_conn w) = kConnecting /\ name_ (w_conn w) = name /\
  channel_ (w_conn w) = c /\ local_addr_ (w_conn w) = la /\ peer_addr_ (w_conn w) = pa.
Proof.
  unfold TcpConnection_new. destruct (Buffer_new kInitialSize) as [b|] eqn:Eb; [|done].
  rewrite !bind_Ok. intros [= <-]. split; [|done]. cbn.
  destruct (Buffer_new_wf kInitialSize b Eb) as [Hwf _]; [done|].
  assert (buf_ok b) by (split; [done|]; vm_compute in Eb; injection Eb as <-; done). done.
Qed.

(** C11: the life of a connection, whatever happens to it.  Take a connection as the constructor
    makes it and any sequence of functors run by its loop, events of its channel, calls in its
    loop's thread, calls of other threads and unrelated steps, with callbacks of the user and the
    server that may make such calls themselves; what the loop's thread runs in one go is one step,
    while a closing call of another thread (Shutdown, ForceClose, ForceCloseWithDelay) tests the state in
    one step and assigns it in another.  The connection's name, its channel and its two addresses
    are those it was made with; both buffers are well formed; its state only moves forward, from
    connecting over connected and disconnecting to disconnected -- with one exception: a thread
    that has tested before and assigns after the close takes a disconnected connection back to
    disconnecting.  A connection that is disconnected while no thread stands between its test
    and its assignment stays disconnected. *)
Theorem connection_life {P E K U : Type} `{!Poller conn_callback P} `{!Eventfd E} `{!Socket K}
    (cc wc cl : world P E K U -> result (world P E K U)) (msg hw : Z -> world P E K U -> result (world P E K U))
    name c fd la pa loop sock u self w0 w n w' n' :
  (forall v, moves v (cc v)) -> (forall v, moves v (wc v)) -> (forall v, moves v (cl v)) ->
  (forall t v, moves v (msg t v)) -> (forall m v, moves v (hw m v)) ->
  TcpConnection_new name c fd la pa loop sock u = Ok w0 ->
  rtc (conn_step cc wc cl msg hw self) (w0, 0%nat) (w, n) -> rtc (conn_step cc wc cl msg hw self) (w, n) (w', n') ->
  (name_ (w_conn w') = name /\ channel_ (w_conn w') = c /\
   local_addr_ (w_conn w') = la /\ peer_addr_ (w_conn w') = pa) /\
  buf_ok (input_buffer_ (w_conn w')) /\ buf_ok (output_buffer_ (w_conn w')) /\
  (rank (state_ (w_conn w)) <= rank (state_ (w_conn w')) \/
   state_ (w_conn w) = kDisconnected /\ state_ (w_conn w') = kDisconnecting /\ (0 < n)%nat) /\
  (state_ (w_conn w) = kDisconnected -> n = 0%nat -> state_ (w_conn w') = kDisconnected /\ n' = 0%nat).
Proof.
  intros Hcc Hwc Hcl Hmsg Hhw (Ht & _ & <- & <- & <- & <-)%new_conn_typed H0 H1.
  apply conn_steps_life in H0, H1; try done. destruct (transitivity H0 H1) as [_ _ Hm Hw']. cbn in *.
  destruct (Hw' Ht). destruct H1 as [Hb Hd _ _]. cbn in Hb, Hd. split_and!; try tauto.
  destruct Hb as [Hb|[Hs Hs']]; [by left|]. destruct n; [destruct (Hd Hs eq_refl); congruence|right; by split_and!; [| |lia]].
Qed.

(** ** A server that answers and hangs up *)

Abbreviation ex_poller := (EpollPoller (gmap Z (Z * Z))).

(** The message callback: [conn->Send("bye"); conn->Shutdown();], with the string at address 100. *)
Definition ex_bye (t : Z) (w : ex_world) : result ex_world :=
  w ← run_call Ok Ok Ok (fun _ => Ok) 1 77 (CSendData 100 (lit "bye")) w;
  run_call Ok Ok Ok (fun _ => Ok) 1 77 CShutdown w.

Lemma ex_bye_moves t w : moves w (ex_bye t w).
Proof.
  unfold ex_bye. assert (forall v : ex_world, moves v (Ok v)) by (intros v; by apply moves_Ok).
  apply moves_bind; [|intros v]; by apply moves_run_call.
Qed.

(** The connection is made and established, answers a read event and sees the peer close. *)
Lemma ex_life : exists w0 w1 w w' : ex_world,
  TcpConnection_new (lit "conn") 5 9 InetAddress_default InetAddress_default ex_loop
    (mkTestSocket [] false [] (lit "ping")) tt = Ok w0 /\
  run_functor Ok Ok Ok (fun _ => Ok) 1 77 FConnectEstablished w0 = Ok w1 /\
  run_callback Ok Ok ex_bye 1 OnRead 0 w1 = Ok w /\ run_callback Ok Ok ex_bye 1 OnClose 0 w = Ok w' /\
  state_ (w_conn w0) = kConnecting /\
  state_ (w_conn w) = kDisconnecting /\ sk_sent (w_sock w) = lit "bye" /\ state_ (w_conn w') = kDisconnected /\
  sk_sent (w_sock w') = lit "bye".
Proof.
  assert (E : (w0 ← TcpConnection_new (lit "conn") 5 9 InetAddress_default InetAddress_default ex_loop
                (mkTestSocket [] false [] (lit "ping")) tt;
               w1 ← run_functor Ok Ok Ok (fun _ => Ok) 1 77 FConnectEstablished w0;
               w ← run_callback Ok Ok ex_bye 1 OnRead 0 w1; w' ← run_callback Ok Ok ex_bye 1 OnClose 0 w;
               Ok (state_ (w_conn w0), state_ (w_conn w), sk_sent (w_sock w), state_ (w_conn w'), sk_sent (w_sock w'))) =
              Ok (kConnecting, kDisconnecting, lit "bye", kDisconnected, lit "bye")) by (vm_compute; reflexivity).
  apply bind_Ok_inv in E as (w0 & E0 & E). apply bind_Ok_inv in E as (w1 & E1 & E).
  apply bind_Ok_inv in E as (w & E2 & E). apply bind_Ok_inv in E as (w' & E3 & E).
  exists w0, w1, w, w'. repeat (split; [assumption|]). by injection E.
Qed.

Abbreviation ex_steps := (rtc (conn_step Ok Ok Ok ex_bye (fun _ => Ok) 77)).

(** Another thread tests while the connection is open and is overtaken by the close. *)
Lemma connection_life_witness :
  exists w0 w w' : ex_world,
    TcpConnection_new (lit "conn") 5 9 InetAddress_default InetAddress_default ex_loop
      (mkTestSocket [] false [] (lit "ping")) tt = Ok w0 /\
    ex_steps (w0, 0%nat) (w, 1%nat) /\ ex_steps (w, 1%nat) (w', 0%nat) /\
    sk_sent (w_sock w) = lit "bye" /\ state_ (w_conn w) = kDisconnected /\ state_ (w_conn w') = kDisconnecting /\
    (name_ (w_conn w') = lit "conn" /\ channel_ (w_conn w') = 5 /\
     local_addr_ (w_conn w') = InetAddress_default /\ peer_addr_ (w_conn w') = InetAddress_default) /\
    buf_ok (input_buffer_ (w_conn w')) /\ buf_ok (output_buffer_ (w_conn w')) /\
    (rank (state_ (w_conn w)) <= rank (state_ (w_conn w')) \/
     state_ (w_conn w) = kDisconnected /\ state_ (w_conn w') = kDisconnecting /\ (0 < 1)%nat) /\
    (state_ (w_conn w) = kDisconnected -> 1%nat = 0%nat -> state_ (w_conn w') = kDisconnected /\ 0%nat = 0%nat).
Proof.
  destruct ex_life as (w0 & w1 & w2 & w3 & E0 & E1 & E2 & E3 & S0 & S1 & S2 & S3 & S4).
  assert (Hw : ex_steps (w0, 0%nat) (w3, 1%nat)).
  { eapply rtc_l; [by eapply step_functor, E1|]. eapply rtc_l; [eapply step_event, E2|].
    eapply rtc_l; [by apply step_test; unfold ForceClose_test; rewrite S1|]. eapply rtc_once, step_event, E3. }
  assert (Hw' : ex_steps (w3, 1%nat) (with_conn (SetState (w_conn w3) kDisconnecting) w3, 0%nat))
    by (apply rtc_once, step_assign).
  eexists w0, w3, _. do 6 (split; [done|]).
  apply (connection_life Ok Ok Ok ex_bye (fun _ => Ok) (lit "conn") 5 9 InetAddress_default InetAddress_default
    ex_loop (mkTestSocket [] false [] (lit "ping")) tt 77 w0 w3 1 _ 0);
    [intros v; by apply moves_Ok|intros v; by apply moves_Ok|intros v; by apply moves_Ok|exact ex_bye_moves|
     intros m v; by apply moves_Ok|exact E0|exact Hw|exact Hw'].
Defined.

(** ** Closing later

    The timer that [ForceCloseWithDelay] asks for calls [ForceClose] through a weak pointer. *)

Inductive conn_method := MForceClose.

(** src: ryan_network/tcp_connection/tcp_connection.cc:191-193 TcpConnection::ForceCloseWithDelay *)
Definition delayed_callback (self : Z) : WeakCallback conn_method := MakeWeakCallback self MForceClose.

(** What the timer does when it fires in thread [tid]. *)
Definition delayed_fires {P E K U} `{!Eventfd E} (lock : world P E K U -> Z -> bool) (tid self : Z) :
    world P E K U -> result (world P E K U) :=
  WeakCallback_call lock (fun _ m w => match m with MForceClose => Ok (ForceClose tid w) end) (delayed_callback self).

(** From the call on the connection is at least disconnecting, so that nothing more is sent by its
    user.  When the timer fires, whatever has happened meanwhile, a connection that is gone or closed
    is left alone, and one that is not gets [ForceCloseInLoop] queued, once. *)
Lemma delayed_close {P E K U : Type} `{!Poller conn_callback P} `{!Eventfd E} `{!Socket K}
    (cc wc cl : world P E K U -> result (world P E K U)) (msg hw : Z -> world P E K U -> result (world P E K U))
    lock tid self seconds w n w' n' :
  (forall v, moves v (cc v)) -> (forall v, moves v (wc v)) -> (forall v, moves v (cl v)) ->
  (forall t v, moves v (msg t v)) -> (forall n v, moves v (hw n v)) ->
  ForceClose_test w = true -> rtc (conn_step cc wc cl msg hw self) (ForceCloseWithDelay seconds w, n) (w', n') ->
  state_ (w_conn w') <> kConnected /\
  (forall other addr buf, is_Some (w_strings w' !! addr) ->
     Send_string cc wc cl hw other self addr w' = Ok w' /\ Send_buffer cc wc cl hw other self buf w' = Ok (w', buf)) /\
  (lock w' self = false \/ state_ (w_conn w') = kDisconnected -> delayed_fires lock tid self w' = Ok w') /\
  (lock w' self = true -> state_ (w_conn w') = kDisconnecting ->
   exists v, delayed_fires lock tid self w' = Ok v /\ w_conn v = w_conn w' /\
     pending_functors_ (w_loop v) = pending_functors_ (w_loop w') ++ [FForceCloseInLoop]).
Proof.
  intros Hcc Hwc Hcl Hmsg Hhw Ht Hr. apply conn_steps_life in Hr as [Hs _ _ _]; try done. cbn [fst snd] in Hs.
  assert (E1 : state_ (w_conn (ForceCloseWithDelay seconds w)) = kDisconnecting)
    by (unfold ForceCloseWithDelay, ForceClose_test in *; by rewrite Ht).
  rewrite E1 in Hs. assert (Hnc : state_ (w_conn w') <> kConnected)
    by (intros E2; rewrite E2 in Hs; cbn in Hs; destruct Hs as [Hs|[? _]]; [lia|done]).
  split; [done|]. split; [|split].
  - intros other addr buf [d Hd]. unfold Send_string, Send_buffer. rewrite Hd. by rewrite !decide_False.
  - unfold delayed_fires, WeakCallback_call. cbn [delayed_callback MakeWeakCallback object_ function_].
    intros [->|E2]; [done|]. case_match; [|done]. rewrite ForceClose_split. unfold ForceClose_test. by rewrite E2.
  - intros Hl E2. unfold delayed_fires, WeakCallback_call. cbn [delayed_callback MakeWeakCallback object_ function_].
    rewrite Hl, ForceClose_split. replace (ForceClose_test w') with true by (unfold ForceClose_test; by rewrite E2). eexists. split; [reflexivity|].
    split; [unfold ForceClose_rest; cbn; rewrite <- E2; by destruct (w_conn w')|].
    cbn. unfold QueueInLoop, wakeup_if_needed. by destruct (_ || _).
Qed.

(** ** The way back

    What follows when the assignment of another thread's [ForceClose] comes after a close. *)

(** C33: [ForceClose] from another thread can close a connection twice.  Suppose the other
    thread's test finds the connection open and then the loop's thread handles a close.  Called as
    a whole now, [ForceClose] would do nothing.  But the rest of the call sets the state back to
    disconnecting and queues [ForceCloseInLoop], and when the loop runs that on the connection it
    handles a close again: the channel is updated in the poller and the connection callback and the
    close callback of the server run a second time. *)
Theorem ForceClose_race {P E K U : Type} `{!Poller conn_callback P} `{!Eventfd E} `{!Socket K}
    (cc wc cl : world P E K U -> result (world P E K U)) (hw : Z -> world P E K U -> result (world P E K U))
    (w w1 : world P E K U) (other self : Z) :
  (forall v, moves v (cc v)) -> (forall v, moves v (cl v)) ->
  let tid := thread_id_ (w_loop w) in
  ForceClose_test w = true -> HandleClose cc cl tid w = Ok w1 ->
  ForceClose other w1 = w1 /\
  let w2 := ForceClose_rest other w1 in
  rank (state_ (w_conn w2)) < rank (state_ (w_conn w1)) /\
  pending_functors_ (w_loop w2) = pending_functors_ (w_loop w1) ++ [FForceCloseInLoop] /\
  forall v, w_conn v = w_conn w2 -> thread_id_ (w_loop v) = tid ->
    run_functor cc wc cl hw tid self FForceCloseInLoop v =
    (v ← on_channel DisableAll tid (with_conn (SetState (w_conn v) kDisconnected) v); v ← cc v; cl v).
Proof.
  intros Hcc Hcl tid Ht E1.
  assert (Hs : state_ (w_conn w1) = kDisconnected).
  { unfold HandleClose in E1. inv_bind. eapply forward_closed; [etransitivity; [|by eapply Hcl]|].
    - etransitivity; [|by eapply Hcc]. by eapply moves_on_channel.
    - done. }
  split; [unfold ForceClose; by rewrite Hs|]. split; [cbn; by rewrite Hs|]. split.
  - cbn. unfold QueueInLoop, wakeup_if_needed. by destruct (_ || _).
  - intros v Hv <-. cbn [run_functor]. unfold ForceCloseInLoop, HandleClose. by rewrite own_thread, !bind_Ok, Hv.
Qed.

(** The callbacks count: how often the user was told that the connection went down. *)
Definition ex_counted : Type := world ex_poller Z test_socket Z.
Definition ex_down (w : ex_counted) : result ex_counted :=
  Ok (mkWorld (w_conn w) (w_loop w) (w_sock w) (w_strings w) (w_delayed w) (w_user w + 1)).

Lemma ex_down_moves w : moves w (ex_down w).
Proof. by apply moves_Ok. Qed.

Definition ex_open : result ex_counted :=
  w ← TcpConnection_new (lit "conn") 5 9 InetAddress_default InetAddress_default ex_loop
        (mkTestSocket [] false [] []) 0;
  ConnectEstablished Ok 1 77 w.

(** A server with several loops removes the connection on its main loop, which then queues
    [ConnectDestroyed]: [ForceCloseInLoop] may come first.  The user is told twice, and the second
    [ConnectDestroyed] fails the assertion that the channel is in the poller. *)
Example closed_twice :
  (w ← ex_open; w ← HandleClose ex_down Ok 1 w; w ← ForceCloseInLoop ex_down Ok 1 (ForceClose_rest 2 w);
   w1 ← ConnectDestroyed ex_down 1 w; Ok (w_user w, w_user w1)) = Ok (2, 2) /\
  (w ← ex_open; w ← HandleClose ex_down Ok 1 w; w ← ForceCloseInLoop ex_down Ok 1 (ForceClose_rest 2 w);
   w ← ConnectDestroyed ex_down 1 w; ConnectDestroyed ex_down 1 w) = Fault FAssert.
Proof. split; vm_compute; reflexivity. Qed.

Lemma ForceClose_race_witness :
  exists w w1 : ex_counted, ex_open = Ok w /\ HandleClose ex_down Ok 1 w = Ok w1 /\ ForceClose_test w = true /\
  ForceClose 2 w1 = w1 /\
  let w2 := ForceClose_rest 2 w1 in
  rank (state_ (w_conn w2)) < rank (state_ (w_conn w1)) /\
  pending_functors_ (w_loop w2) = pending_functors_ (w_loop w1) ++ [FForceCloseInLoop] /\
  forall v, w_conn v = w_conn w2 -> thread_id_ (w_loop v) = 1 ->
    run_functor ex_down Ok Ok (fun _ => Ok) 1 77 FForceCloseInLoop v =
    (v ← on_channel DisableAll 1 (with_conn (SetState (w_conn v) kDisconnected) v); v ← ex_down v; Ok v).
Proof.
  assert (E : (w ← ex_open; w1 ← HandleClose ex_down Ok 1 w; Ok (ForceClose_test w, thread_id_ (w_loop w))) =
              Ok (true, 1)) by (vm_compute; reflexivity).
  apply bind_Ok_inv in E as (w & E0 & E). apply bind_Ok_inv in E as (w1 & E1 & E). injection E as Et Eid.
  exists w, w1. split; [done|]. split; [done|]. split; [done|]. rewrite <- Eid in E1 |- *.
  apply (ForceClose_race ex_down Ok Ok (fun _ => Ok) w w1 2 77);
    [exact ex_down_moves|intros v; by apply moves_Ok|exact Et|exact E1].
Defined.
