(* ===== verification/HttpTcp.v ===== *)
(** * The HTTP server on a TCP connection

    [HttpServer] writes to any [Connection]; here it is a [TcpConnection] in its
    loop's thread, and the server's [OnMessage] is the connection's message callback,
    called with a pointer to the input buffer. *)

From S2P Require Import Prelude Buffer BufferSpec Channel PollerSpec EventLoop TcpConnection TcpSpec.
From S2P Require Import Lines Connection HttpContext HttpSpec HttpServer HttpServerSpec EpollPoller.
Import HttpResponse.

Section Http.
Context {P E K U : Type} `{!Poller conn_callback P} `{!PollerContract conn_callback P}.
Context `{!Eventfd E} `{!Socket K} `{!SocketLaws K}.
Abbreviation W := (world P E K U).
Context (cc wc cl : W -> result W) (hw : Z -> W -> result W).
Context (iter : gmap bytes bytes -> list (bytes * bytes)).
Context (Hiter : forall m, iter m ≡ₚ map_to_list m).

(** [tid] is the calling thread, [self] the address of the connection, [tmp] that of the
    local string of [Send(const void*, int)]. *)
#[local] Instance tcp_connection (tid self tmp : Z) : Connection W := {
  conn_Send w s := Send_data cc wc cl hw tid self tmp s w;
  conn_SendBuffer w b := Send_buffer cc wc cl hw tid self b w;
  conn_Shutdown w := Shutdown cc wc cl hw tid self w
}.

(** The message callback: the fuel is enough for the input ([ParseRequest_terminates]). *)
Definition http_message (s : HttpServer) (tid self tmp : Z) (receiveTime : Z) (w : W) : result W :=
  let input := input_buffer_ (w_conn w) in
  match OnMessage (H := tcp_connection tid self tmp) iter (S (Z.to_nat (ReadableBytes input))) s w input receiveTime with
  | None => Fault FFuel
  | Some r => '(w, input) ← r; Ok (with_conn (set_input (w_conn w) input) w)
  end.

(** Parsing a whole message, with fuel for its bytes. *)
Lemma parse_message_fuel (m : message) rest t fuel :
  good_message m -> (length (message_text m ++ rest) < fuel)%nat ->
  parse_loop fuel false HttpContext_new (message_text m ++ rest) t =
    Some (true, mkContext kGotAll (message_request m t), rest).
Proof.
  intros Hm Hf. pose proof (parse_message m rest t Hm) as Hp.
  destruct (parse_loop_terminates fuel false HttpContext_new (message_text m ++ rest) t) as [r Hr]; [by left|done|].
  rewrite Hr. apply (parse_loop_fuel _ (fuel + S (S (length (m_headers m))))) in Hr; [|lia].
  apply (parse_loop_fuel _ (fuel + S (S (length (m_headers m))))) in Hp; [|lia]. congruence.
Qed.

(** The answer, sent and followed by the shutdown. *)
Lemma OnRequest_tcp s (w : W) ch (self tmp : Z) (req : HttpRequest) :
  let r := http_callback_ s req (new true) in
  good_response r -> zlen (response_text iter r) < 2 ^ 31 -> conn_ok w ch -> TcpConnection.state_ (w_conn w) = kConnected ->
  writer_index_ (output_buffer_ (w_conn w)) + zlen (response_text iter r) <= max_size ->
  exists w' ch' kept,
    OnRequest (H := tcp_connection (thread_id_ (w_loop w)) self tmp) iter s w req = Ok w' /\ conn_ok w' ch' /\
    stream w' = stream w ++ kept /\
    (refused w (response_text iter r) /\ kept = [] \/
     ~ refused w (response_text iter r) /\ kept = response_text iter r) /\
    TcpConnection.state_ (w_conn w') = (if CloseConnection r then kDisconnecting else kConnected).
Proof using Hiter SocketLaws0.
  intros r Hg Hs Hok Hst Hmax. unfold OnRequest. cbv zeta. fold r.
  destruct (Buffer_new kInitialSize) as [b|] eqn:Eb; [|by vm_compute in Eb].
  assert (buf_wf b /\ content b = [] /\ writer_index_ b = 8) as (Hwf & Hc & Hw).
  { vm_compute in Eb. injection Eb as <-. split; [|done]. by split. }
  rewrite bind_Ok.
  destruct (response_appended r iter b Hg (Hiter _) Hwf) as (b' & -> & Hwf' & Hc');
    [done|rewrite Hw; unfold max_size; lia|].
  rewrite Hc in Hc'. cbn [app] in Hc'. rewrite bind_Ok. cbn [conn_SendBuffer conn_Shutdown tcp_connection].
  unfold Send_buffer. rewrite decide_True by done.
  assert (IsInLoopThread (thread_id_ (w_loop w)) (w_loop w) = true) as -> by (unfold IsInLoopThread; apply Z.eqb_refl).
  rewrite (read_readable b' Hwf'), bind_Ok, Hc'.
  destruct (SendInLoop_ok w ch (response_text iter r) Hok Hs Hmax) as (w1 & ch1 & kept & G1 & G2 & [S1 S2 S3 S4 S5] & G3).
  rewrite G1, !bind_Ok. cbn beta iota. destruct (CloseConnection r).
  - destruct (Shutdown_ok cc wc cl hw self w1 ch1 G2) as (w2 & F1 & F2 & F3 & F4 & _); [congruence|].
    rewrite <- S3, F1. exists w2, ch1, kept. rewrite F3. done.
  - exists w1, ch1, kept. split; [done|]. split; [done|]. split; [done|]. split; [done|congruence].
Qed.

(** One read event. *)
Lemma http_read s (w : W) ch self tmp t m d :
  let r := http_callback_ s (message_request m t) (new true) in
  good_message m -> good_response r -> zlen (response_text iter r) < 2 ^ 31 ->
  conn_ok w ch -> TcpConnection.state_ (w_conn w) = kConnected ->
  holds (input_buffer_ (w_conn w)) d ->
  writer_index_ (input_buffer_ (w_conn w)) + zlen (message_text m) <= max_size ->
  writer_index_ (output_buffer_ (w_conn w)) + zlen (response_text iter r) <= max_size ->
  forall new_data k, message_text m = d ++ new_data -> new_data <> [] ->
  sk_readv (w_sock w) (ReadFd_vec (input_buffer_ (w_conn w))) = (ReadvData new_data, k) ->
  exists w' ch' kept,
    HandleRead cc cl (http_message s (thread_id_ (w_loop w)) self tmp) (thread_id_ (w_loop w)) t w = Ok w' /\
    conn_ok w' ch' /\ stream w' = stream w ++ kept /\
    (refused (with_sock k w) (response_text iter r) /\ kept = [] \/
     ~ refused (with_sock k w) (response_text iter r) /\ kept = response_text iter r) /\
    TcpConnection.state_ (w_conn w') = (if CloseConnection r then kDisconnecting else kConnected) /\
    content (input_buffer_ (w_conn w')) = [].
Proof using Hiter SocketLaws0.
  intros r Hm Hg Hs Hok Hst (Hiwf & Hisz & Hic) Himax Hmax new_data k Em Hne Ek.
  destruct (readv_keeps (w_sock w) (ReadFd_vec (input_buffer_ (w_conn w)))) as [K1 K2]. rewrite Ek in K1, K2. simpl in K1, K2.
  unfold HandleRead. rewrite Ek. cbn [snd].
  assert (zlen (message_text m) = zlen d + zlen new_data) as El by (rewrite Em, length_app; lia).
  destruct (ReadFd_data (input_buffer_ (w_conn w)) (fun iov => fst (sk_readv (w_sock w) iov)) new_data)
    as (input & -> & [A1 A2 A3 A4 A5 A6]); [done|apply readv_bounded|lia|by rewrite Ek|].
  rewrite bind_Ok. cbn beta iota. rewrite (proj2 (Z.ltb_lt 0 (zlen new_data))).
  2: { destruct new_data; [done|simpl; lia]. }
  set (w1 := with_sock k _).
  assert (holds input (message_text m)) as Hin by (split; [done|]; split; [lia|]; by rewrite A2, Hic, Em).
  assert (conn_ok w1 ch) as Hok1.
  { destruct Hok as [C1 C2 C3 C4 C5 C6]. split; simpl; rewrite ?K2; try done. by apply (chan_ok_ext w). }
  unfold http_message. change (input_buffer_ (w_conn w1)) with input.
  assert (holds input (message_text m ++ [])) as Hin' by (by rewrite app_nil_r).
  pose proof (ParseRequest_loop_string (S (Z.to_nat (ReadableBytes input))) false HttpContext_new input _ t Hin') as Hp.
  rewrite parse_message_fuel in Hp; [|done|].
  2: { rewrite app_nil_r, (ReadableBytes_content input A1). destruct Hin as (_ & _ & ->). lia. }
  destruct Hp as (b' & Hp & (_ & _ & Hb')).
  unfold OnMessage, ParseRequest. rewrite Hp, !bind_Ok. unfold GotAll. cbn [HttpContext.state_ request_].
  rewrite bool_decide_true by done. cbn beta iota.
  destruct (OnRequest_tcp s w1 ch self tmp (message_request m t) Hg Hs Hok1 Hst Hmax)
    as (w2 & ch2 & kept & G1 & G2 & G3 & G4 & G5).
  change (thread_id_ (w_loop w1)) with (thread_id_ (w_loop w)) in G1. rewrite G1, !bind_Ok. cbn beta iota.
  eexists _, ch2, kept. split; [reflexivity|]. split.
  { destruct G2 as [C1 C2 C3 C4 C5 C6]. split; simpl; try done. by apply (chan_ok_ext w2). }
  split; [unfold stream in *; simpl in *; by rewrite G3, K1|]. split; [exact G4|]. split; [exact G5|exact Hb'].
Qed.
End Http.

(** C7: an HTTP request on a TCP connection is answered on its stream.  When a read event
    delivers a whole request to an established connection with nothing unread, the
    connection's handler parses it, runs the user's callback and succeeds; the
    stream of the connection (what the kernel has accepted, then what is pending) grows by
    exactly the text of the response, or by nothing if the peer is already gone; the
    output stays consistent with the channel whatever part the kernel took at once;
    the input is consumed, and the connection is shutting down unless the callback
    asked to keep it open. *)
Theorem http_answer_on_stream {P E K U : Type} `{!Poller conn_callback P} `{!PollerContract conn_callback P}
    `{!Eventfd E} `{!Socket K} `{!SocketLaws K} cc wc cl hw iter s (w : world P E K U) ch self tmp t m k :
  let r := http_callback_ s (message_request m t) (new true) in
  (forall h, iter h ≡ₚ map_to_list h) ->
  good_message m -> good_response r -> zlen (response_text iter r) < 2 ^ 31 ->
  conn_ok w ch -> TcpConnection.state_ (w_conn w) = kConnected ->
  holds (input_buffer_ (w_conn w)) [] ->
  writer_index_ (input_buffer_ (w_conn w)) + zlen (message_text m) <= max_size ->
  writer_index_ (output_buffer_ (w_conn w)) + zlen (response_text iter r) <= max_size ->
  sk_readv (w_sock w) (ReadFd_vec (input_buffer_ (w_conn w))) = (ReadvData (message_text m), k) ->
  exists w' ch' kept,
    HandleRead cc cl (http_message cc wc cl hw iter s (thread_id_ (w_loop w)) self tmp)
      (thread_id_ (w_loop w)) t w = Ok w' /\
    conn_ok w' ch' /\ stream w' = stream w ++ kept /\
    (refused (with_sock k w) (response_text iter r) /\ kept = [] \/
     ~ refused (with_sock k w) (response_text iter r) /\ kept = response_text iter r) /\
    TcpConnection.state_ (w_conn w') = (if CloseConnection r then kDisconnecting else kConnected) /\
    content (input_buffer_ (w_conn w')) = [].
Proof.
  intros r Hiter Hm Hg Hs Hok Hst Hin Hi Ho Ek.
  apply (http_read cc wc cl hw iter Hiter s w ch self tmp t m []) with (new_data := message_text m); try done.
  unfold message_text, request_line. intros He. apply (f_equal length) in He. rewrite !length_app in He. simpl in He. lia.
Qed.

(** The kernel takes three bytes of the answer at first. *)
Definition ex_http_sock : test_socket := mkTestSocket [] false [3; 0] (message_text ex_message).
Definition ex_after_read : test_socket := mkTestSocket [] false [3; 0] [].

Lemma http_answer_on_stream_witness :
  exists (w : ex_world) (ch : Channel conn_callback), ex_connect [3; 0] = Ok w /\
  let w0 := with_sock ex_http_sock w in
  exists w' ch' kept,
    HandleRead Ok Ok (http_message Ok Ok Ok (fun _ => Ok) map_to_list ex_server (thread_id_ (w_loop w0)) 0 0)
      (thread_id_ (w_loop w0)) 7 w0 = Ok w' /\
    conn_ok w' ch' /\ stream w' = stream w0 ++ kept /\
    (refused (with_sock ex_after_read w0) ex_answer /\ kept = [] \/
     ~ refused (with_sock ex_after_read w0) ex_answer /\ kept = ex_answer) /\
    TcpConnection.state_ (w_conn w') = kDisconnecting /\
    content (input_buffer_ (w_conn w')) = [].
Proof.
  destruct (ex_connect_ok [3; 0]) as (w & ch & Ew & Hok & Hst & _ & _ & _ & Hw). exists w, ch. split; [done|].
  intros w0.
  assert (holds (input_buffer_ (w_conn w0)) [] /\ writer_index_ (input_buffer_ (w_conn w0)) = 8 /\
    sk_readv (w_sock w0) (ReadFd_vec (input_buffer_ (w_conn w0))) = (ReadvData (message_text ex_message), ex_after_read))
    as (H1 & H2 & H3).
  { clear -Ew. vm_compute in Ew. injection Ew as <-. split; [|split; vm_compute; reflexivity].
    split; [split; vm_compute; intuition discriminate|]. by vm_compute. }
  assert (conn_ok w0 ch) as Hok0.
  { destruct Hok as [C1 C2 C3 C4 C5 C6]. split; simpl; try done; [by apply (chan_ok_ext w)|]. by rewrite Hst. }
  refine (http_answer_on_stream (P := EpollPoller (gmap Z (Z * Z))) Ok Ok Ok (fun _ => Ok) map_to_list ex_server
    w0 ch 0 0 7 ex_message ex_after_read (fun h => reflexivity _) ex_message_good _ _ Hok0 Hst H1 _ _ H3).
  - constructor; [apply not_elem_of_nil|constructor|done|done].
  - vm_compute. reflexivity.
  - rewrite H2. vm_compute. discriminate.
  - change (w_conn w0) with (w_conn w). rewrite Hw. vm_compute. discriminate.
Defined.
