(* ===== verification/Acceptor.v ===== *)
(** * Socket and Acceptor
      (ryan_network/net/socket.h, socket.cc, acceptor.h, acceptor.cc)

    A socket of the kernel is a record of the state these calls set; what a
    system call answers is an argument. *)

From S2P Require Import Prelude Channel InetAddress.

(** ** Socket *)

(** [None] for an address before [bind]. *)
Record ksocket := mkKsocket {
  tcp_nodelay : bool;
  so_reuseaddr : bool;
  so_reuseport : bool;
  so_keepalive : bool;
  bound : option sockaddr_in;
  accepting : bool;
  write_shut : bool;
  open : bool
}.

Definition ksocket_new : ksocket := mkKsocket false false false false None false false true.

(** [::setsockopt(sockfd_, level, name, ...)]; its failure is ignored. *)
Inductive option_name := TCP_NODELAY | SO_REUSEADDR | SO_REUSEPORT | SO_KEEPALIVE.

Definition setsockopt (o : option_name) (on : bool) (k : ksocket) : ksocket :=
  match o with
  | TCP_NODELAY => mkKsocket on (so_reuseaddr k) (so_reuseport k) (so_keepalive k) (bound k) (accepting k) (write_shut k) (open k)
  | SO_REUSEADDR => mkKsocket (tcp_nodelay k) on (so_reuseport k) (so_keepalive k) (bound k) (accepting k) (write_shut k) (open k)
  | SO_REUSEPORT => mkKsocket (tcp_nodelay k) (so_reuseaddr k) on (so_keepalive k) (bound k) (accepting k) (write_shut k) (open k)
  | SO_KEEPALIVE => mkKsocket (tcp_nodelay k) (so_reuseaddr k) (so_reuseport k) on (bound k) (accepting k) (write_shut k) (open k)
  end.

(** src: ryan_network/net/socket.h:31-32 Socket *)
Record Socket := mkSocket { sockfd_ : Z; kernel : ksocket }.

Definition with_kernel (s : Socket) (k : ksocket) : Socket := mkSocket (sockfd_ s) k.

(** src: ryan_network/net/socket.h:11-11 Socket::Socket *)
Definition Socket_new (sockfd : Z) : Socket := mkSocket sockfd ksocket_new.
(** src: ryan_network/net/socket.h:15-15 Socket::Fd *)
Definition Fd (s : Socket) : Z := sockfd_ s.
(** src: ryan_network/net/socket.cc:13-13 Socket::~Socket *)
Definition Socket_destroy (s : Socket) : Socket :=
  let k := kernel s in
  with_kernel s (mkKsocket (tcp_nodelay k) (so_reuseaddr k) (so_reuseport k) (so_keepalive k) (bound k) false
    (write_shut k) false).

(** [ret] is what bind(2) returned.
    src: ryan_network/net/socket.cc:15-20 Socket::BindAddress *)
Definition BindAddress (ret : Z) (localaddr : InetAddress) (s : Socket) : result Socket :=
  if negb (0 =? ret) then Fault FAbort else
  let k := kernel s in
  Ok (with_kernel s (mkKsocket (tcp_nodelay k) (so_reuseaddr k) (so_reuseport k) (so_keepalive k)
        (Some (addr_ localaddr)) (accepting k) (write_shut k) (open k))).

(** src: ryan_network/net/socket.cc:22-26 Socket::Listen *)
Definition Listen_socket (ret : Z) (s : Socket) : result Socket :=
  if negb (0 =? ret) then Fault FAbort else
  let k := kernel s in
  Ok (with_kernel s (mkKsocket (tcp_nodelay k) (so_reuseaddr k) (so_reuseport k) (so_keepalive k)
        (bound k) true (write_shut k) (open k))).

(** accept4(2) returned [connfd] and stored [addr].
    src: ryan_network/net/socket.cc:28-48 Socket::Accept *)
Definition Accept (connfd : Z) (addr : sockaddr_in) (peeraddr : InetAddress) : Z * InetAddress :=
  (connfd, if connfd >=? 0 then SetSockAddr peeraddr addr else peeraddr).

(** src: ryan_network/net/socket.cc:51-58 Socket::ShutdownWrite *)
Definition ShutdownWrite (s : Socket) : Socket :=
  let k := kernel s in
  with_kernel s (mkKsocket (tcp_nodelay k) (so_reuseaddr k) (so_reuseport k) (so_keepalive k)
    (bound k) (accepting k) true (open k)).

(** src: ryan_network/net/socket.cc:61-65 Socket::SetTcpNoDelay *)
Definition SetTcpNoDelay (on : bool) (s : Socket) : Socket :=
  with_kernel s (setsockopt TCP_NODELAY on (kernel s)).
(** src: ryan_network/net/socket.cc:68-72 Socket::SetReuseAddr *)
Definition SetReuseAddr (on : bool) (s : Socket) : Socket :=
  with_kernel s (setsockopt SO_REUSEADDR on (kernel s)).
(** src: ryan_network/net/socket.cc:75-79 Socket::SetReusePort *)
Definition SetReusePort (on : bool) (s : Socket) : Socket :=
  with_kernel s (setsockopt SO_REUSEPORT on (kernel s)).
(** src: ryan_network/net/socket.cc:81-85 Socket::SetKeepAlive *)
Definition SetKeepAlive (on : bool) (s : Socket) : Socket :=
  with_kernel s (setsockopt SO_KEEPALIVE on (kernel s)).

(** ** Acceptor *)

Section Acceptor.
Context {CB P : Type} `{!Poller CB P}.

(** [accept_channel_] is the channel's address.
    src: ryan_network/net/acceptor.h:33-37 Acceptor *)
Record Acceptor := mkAcceptor {
  accept_socket_ : Socket;
  accept_channel_ : Z;
  new_connection_callback_ : bool;
  listenning_ : bool
}.

(** socket(2) returned [sockfd].
    src: ryan_network/net/acceptor.cc:12-21 CreateNonblocking *)
Definition CreateNonblocking (sockfd : Z) : result Z :=
  if sockfd <? 0 then Fault FAbort else Ok sockfd.

(** [read] is [Acceptor::HandleRead] bound to the object.
    src: ryan_network/net/acceptor.cc:23-43 Acceptor::Acceptor *)
Definition Acceptor_new (sockfd bind_ret c : Z) (ListenAddr : InetAddress) (reuseport : bool) (read : CB)
    (n : net CB P) : result (Acceptor * net CB P) :=
  fd ← CreateNonblocking sockfd;
  let s := Socket_new fd in
  let s := SetReuseAddr reuseport s in
  let s := SetReusePort true s in
  s ← BindAddress bind_ret ListenAddr s;
  let ch := SetReadCallback (Channel_new (Fd s)) read in
  Ok (mkAcceptor s c false false, mkNet (poller_ n) (<[c := ch]> (store_ n))).

(** src: ryan_network/net/acceptor.h:23-25 Acceptor::SetNewConnectionCallback *)
Definition SetNewConnectionCallback (a : Acceptor) : Acceptor :=
  mkAcceptor (accept_socket_ a) (accept_channel_ a) true (listenning_ a).

(** src: ryan_network/net/acceptor.cc:45-51 Acceptor::~Acceptor *)
Definition Acceptor_destroy (tid : Z) (a : Acceptor) (n : net CB P) : result (net CB P) :=
  n ← DisableAll tid (accept_channel_ a) n;
  Remove tid (accept_channel_ a) n.

(** src: ryan_network/net/acceptor.cc:53-59 Acceptor::Listen *)
Definition Listen (tid listen_ret : Z) (a : Acceptor) (n : net CB P) : result (Acceptor * net CB P) :=
  let a := mkAcceptor (accept_socket_ a) (accept_channel_ a) (new_connection_callback_ a) true in
  s ← Listen_socket listen_ret (accept_socket_ a);
  n ← EnableReading tid (accept_channel_ a) n;
  Ok (mkAcceptor s (accept_channel_ a) (new_connection_callback_ a) (listenning_ a), n).

(** What becomes of the new descriptor. *)
Inductive accepted := NewConn (connfd : Z) (peer : InetAddress) | ClosedConn (connfd : Z) | NoConn.

(** src: ryan_network/net/acceptor.cc:62-93 Acceptor::HandleRead *)
Definition HandleRead (answer : Z * sockaddr_in) (a : Acceptor) : accepted :=
  let '(connfd, peer_addr) := Accept (fst answer) (snd answer) InetAddress_default in
  if connfd >=? 0 then
    if new_connection_callback_ a then NewConn connfd peer_addr else ClosedConn connfd
  else NoConn.
End Acceptor.

(** Whatever option the server asks for, the listening socket shares its port;
    the option sets the reuse of the address instead. *)
Lemma Acceptor_options {CB P : Type} (sockfd c : Z) (addr : InetAddress) (reuseport : bool) (read : CB)
    (n : net CB P) a n' :
  Acceptor_new sockfd 0 c addr reuseport read n = Ok (a, n') ->
  so_reuseport (kernel (accept_socket_ a)) = true /\
  so_reuseaddr (kernel (accept_socket_ a)) = reuseport.
Proof.
  unfold Acceptor_new, CreateNonblocking. destruct (sockfd <? 0); [done|]. rewrite bind_Ok.
  intros [= <- <-]. done.
Qed.
