(* ===== verification/TcpServer.v ===== *)
(** * TcpServer (ryan_network/tcp_connection/tcp_server.h, tcp_server.cc)

    A loop is a number, and so is the thread that runs it; [pending] holds what was
    handed to the loops and has not run, in order, with the loop.  A
    connection is what the server sees of a [TcpConnection]: its name, its
    loop, its state and how often [ConnectDestroyed] ran on it; the connection
    itself is module [TcpConnection]. *)

From S2P Require Import Prelude Format InetAddress LoopThreads TcpConnection.

(** src: ryan_network/tcp_connection/tcp_server.h:26-29 TcpServer::Option *)
Inductive Option := kNoReusePort | kReusePort.

(** src: ryan_network/tcp_connection/tcp_server.cc:11-16 CheckLoopNotNull *)
Definition CheckLoopNotNull (loop : Z) : result Z :=
  if loop =? 0 then Fault FAbort else Ok loop.

Record conn := mkConn {
  c_name : bytes;
  c_loop : Z;
  c_fd : Z;
  c_local : InetAddress;
  c_peer : InetAddress;
  c_state : StateE;
  c_destroyed : nat
}.

(** What is bound and handed to a loop. *)
Inductive task :=
  | TListen
  | TEstablished (c : Z)
  | TRemoveInLoop (c : Z)
  | TDestroyed (c : Z).

#[export] Instance task_eq_dec : EqDecision task.
Proof. solve_decision. Defined.

(** [listening_] is the state of [acceptor_], [reuse_port] the option it got;
    [conns] the connections that exist, by address.
    src: ryan_network/tcp_connection/tcp_server.h:68-85 TcpServer *)
Record TcpServer := mkTcpServer {
  loop_ : Z;
  ip_port_ : bytes;
  name_ : bytes;
  reuse_port : bool;
  listening_ : bool;
  thread_pool_ : EventLoopThreadPool;
  started_ : Z;
  next_conn_id_ : Z;
  connections_ : gmap bytes Z;
  conns : gmap Z conn;
  pending : list (Z * task)
}.

Definition set_pending (s : TcpServer) (p : list (Z * task)) : TcpServer :=
  mkTcpServer (loop_ s) (ip_port_ s) (name_ s) (reuse_port s) (listening_ s) (thread_pool_ s) (started_ s)
    (next_conn_id_ s) (connections_ s) (conns s) p.
Definition set_conns (s : TcpServer) (c : gmap Z conn) : TcpServer :=
  mkTcpServer (loop_ s) (ip_port_ s) (name_ s) (reuse_port s) (listening_ s) (thread_pool_ s) (started_ s)
    (next_conn_id_ s) (connections_ s) c (pending s).
Definition set_connections (s : TcpServer) (m : gmap bytes Z) : TcpServer :=
  mkTcpServer (loop_ s) (ip_port_ s) (name_ s) (reuse_port s) (listening_ s) (thread_pool_ s) (started_ s)
    (next_conn_id_ s) m (conns s) (pending s).
Definition set_listening (s : TcpServer) (b : bool) : TcpServer :=
  mkTcpServer (loop_ s) (ip_port_ s) (name_ s) (reuse_port s) b (thread_pool_ s) (started_ s)
    (next_conn_id_ s) (connections_ s) (conns s) (pending s).
Definition set_pool (s : TcpServer) (p : EventLoopThreadPool) (started next : Z) : TcpServer :=
  mkTcpServer (loop_ s) (ip_port_ s) (name_ s) (reuse_port s) (listening_ s) p started
    next (connections_ s) (conns s) (pending s).

(** [conn->...] *)
Definition conn_at (s : TcpServer) (c : Z) : result conn :=
  match conns s !! c with Some i => Ok i | None => Fault FUndef end.

Definition set_state (i : conn) (st : StateE) : conn :=
  mkConn (c_name i) (c_loop i) (c_fd i) (c_local i) (c_peer i) st (c_destroyed i).

(** src: ryan_network/tcp_connection/tcp_server.cc:18-35 TcpServer::TcpServer *)
Definition TcpServer_new (loop : Z) (listenAddr : InetAddress) (nameArg : bytes) (option : Option)
    : result TcpServer :=
  loop ← CheckLoopNotNull loop;
  ip_port ← ToIpPort listenAddr;
  Ok (mkTcpServer loop ip_port nameArg (match option with kReusePort => true | kNoReusePort => false end)
        false (EventLoopThreadPool_new loop nameArg) 0 1 ∅ ∅ []).

(** src: ryan_network/tcp_connection/tcp_server.cc:50-52 TcpServer::SetThreadNum *)
Definition SetThreadNum (s : TcpServer) (num_threads : Z) : TcpServer :=
  set_pool s (LoopThreads.SetThreadNum (thread_pool_ s) num_threads) (started_ s) (next_conn_id_ s).

(** ** Connections in their loops *)

(** What [TcpConnection::ConnectEstablished] and [ConnectDestroyed] do to the
    state of a connection. *)
Definition established (s : TcpServer) (c : Z) : result TcpServer :=
  i ← conn_at s c;
  Ok (set_conns s (<[c := set_state i kConnected]> (conns s))).

Definition destroyed (s : TcpServer) (c : Z) : result TcpServer :=
  i ← conn_at s c;
  let st := if decide (c_state i = kConnected) then kDisconnected else c_state i in
  Ok (set_conns s (<[c := mkConn (c_name i) (c_loop i) (c_fd i) (c_local i) (c_peer i) st
                            (S (c_destroyed i))]> (conns s))).

(** [loop->QueueInLoop(t)] *)
Definition QueueInLoop (loop : Z) (t : task) (s : TcpServer) : TcpServer :=
  set_pending s (pending s ++ [(loop, t)]).

(** src: ryan_network/tcp_connection/tcp_server.cc:110-117 TcpServer::RemoveConnectionInLoop *)
Definition RemoveConnectionInLoop (s : TcpServer) (c : Z) : result TcpServer :=
  i ← conn_at s c;
  let s := set_connections s (delete (c_name i) (connections_ s)) in
  Ok (QueueInLoop (c_loop i) (TDestroyed c) s).

Definition run_task (t : task) (s : TcpServer) : result TcpServer :=
  match t with
  | TListen => Ok (set_listening s true)
  | TEstablished c => established s c
  | TRemoveInLoop c => RemoveConnectionInLoop s c
  | TDestroyed c => destroyed s c
  end.

(** [loop->RunInLoop(t)] called by thread [tid] *)
Definition RunInLoop (tid loop : Z) (t : task) (s : TcpServer) : result TcpServer :=
  if tid =? loop then run_task t s else Ok (QueueInLoop loop t s).

(** src: ryan_network/tcp_connection/tcp_server.cc:106-108 TcpServer::RemoveConnection *)
Definition RemoveConnection (tid : Z) (s : TcpServer) (c : Z) : result TcpServer :=
  RunInLoop tid (loop_ s) (TRemoveInLoop c) s.

(** [TcpConnection::HandleClose] in the connection's thread: the assertion, the
    state, and the close callback, which is [RemoveConnection]. *)
Definition HandleClose (s : TcpServer) (c : Z) : result TcpServer :=
  i ← conn_at s c;
  _ ← assert_ (bool_decide (c_state i = kConnected) || bool_decide (c_state i = kDisconnecting));
  RemoveConnection (c_loop i) (set_conns s (<[c := set_state i kDisconnected]> (conns s))) c.

(** ** The server *)

(** [addr] are the ids and loops of the threads the pool starts.
    src: ryan_network/tcp_connection/tcp_server.cc:55-62 TcpServer::Start *)
Definition Start (tid : Z) (addr : nat -> Z * Z) (num_created : nat) (cb : bool) (s : TcpServer)
    : result TcpServer :=
  let first := started_ s =? 0 in
  let s := set_pool s (thread_pool_ s) (started_ s + 1) (next_conn_id_ s) in
  if first then
    let '(p, _) := LoopThreads.Start addr num_created cb (thread_pool_ s) in
    RunInLoop tid (loop_ s) TListen (set_pool s p (started_ s) (next_conn_id_ s))
  else Ok s.

(** src: ryan_network/tcp_connection/tcp_server.cc:69-74 TcpServer::NewConnection *)
Definition conn_name (s : TcpServer) (id : Z) : bytes :=
  name_ s ++ snprintf 64 (lit "-" ++ ip_port_ s ++ lit "#" ++ dec id).

(** [c] is the address of the new connection, [local] what [getsockname] stored; it
    runs in the thread of the base loop.
    src: ryan_network/tcp_connection/tcp_server.cc:65-104 TcpServer::NewConnection *)
Definition NewConnection (c sockfd : Z) (local : sockaddr_in) (peer_addr : InetAddress) (s : TcpServer)
    : result TcpServer :=
  '(io_loop, pool) ← GetNextLoop (thread_pool_ s);
  let name := conn_name s (next_conn_id_ s) in
  _ ← defined_if (next_conn_id_ s <? 2 ^ 31 - 1);
  let s := set_pool s pool (started_ s) (next_conn_id_ s + 1) in
  let i := mkConn name io_loop sockfd (mkInetAddress local) peer_addr kConnecting 0 in
  let s := set_conns s (<[c := i]> (conns s)) in
  let s := set_connections s (<[name := c]> (connections_ s)) in
  RunInLoop (loop_ s) io_loop (TEstablished c) s.

(** [RunInLoop] for one item of the map. *)
Definition destroy_one (tid : Z) (c : Z) (s : TcpServer) : result TcpServer :=
  i ← conn_at s c; RunInLoop tid (c_loop i) (TDestroyed c) s.

(** src: ryan_network/tcp_connection/tcp_server.cc:37-47 TcpServer::~TcpServer *)
Fixpoint destroy_all (tid : Z) (items : list Z) (s : TcpServer) : result TcpServer :=
  match items with
  | [] => Ok s
  | c :: items => s ← destroy_one tid c s; destroy_all tid items s
  end.

(** The order of the map is not specified.
    src: ryan_network/tcp_connection/tcp_server.cc:37-47 TcpServer::~TcpServer *)
Definition TcpServer_destroy (tid : Z) (s : TcpServer) : result TcpServer :=
  destroy_all tid (snd <$> map_to_list (connections_ s)) s.

(** ** What can happen *)

(** the first task of [loop], and the others *)
Fixpoint take_task (loop : Z) (p : list (Z * task)) : option (task * list (Z * task)) :=
  match p with
  | [] => None
  | (l, t) :: p =>
      if l =? loop then Some (t, p)
      else match take_task loop p with
           | Some (u, p) => Some (u, (l, t) :: p)
           | None => None
           end
  end.

(** A connection is accepted at a fresh address, a loop runs its first task, a
    connection starts to shut down or is closed in its loop. *)
Inductive step : TcpServer -> TcpServer -> Prop :=
  | step_accept s s' c sockfd local peer :
      conns s !! c = None -> NewConnection c sockfd local peer s = Ok s' -> step s s'
  | step_run s s' loop t p :
      take_task loop (pending s) = Some (t, p) -> run_task t (set_pending s p) = Ok s' -> step s s'
  | step_shutdown s c i :
      conns s !! c = Some i -> c_state i = kConnected ->
      step s (set_conns s (<[c := set_state i kDisconnecting]> (conns s)))
  | step_close s s' c i :
      conns s !! c = Some i -> c_state i = kConnected \/ c_state i = kDisconnecting ->
      HandleClose s c = Ok s' -> step s s'.
