(* ===== verification/TcpServerSpec.v ===== *)
(** * Properties of TcpServer *)

From S2P Require Import Prelude Format InetAddress LoopThreads TcpConnection TcpServer.

(** ** Tasks of one connection *)

Definition mentions (c : Z) (e : Z * task) : Prop :=
  match snd e with
  | TListen => False
  | TEstablished d | TRemoveInLoop d | TDestroyed d => d = c
  end.

#[export] Instance mentions_dec c e : Decision (mentions c e).
Proof. unfold mentions. destruct (snd e); apply _. Defined.

Definition about (c : Z) (p : list (Z * task)) : list (Z * task) := filter (mentions c) p.

Lemma about_app c p q : about c (p ++ q) = about c p ++ about c q.
Proof. apply filter_app. Qed.

Lemma about_yes c e : mentions c e -> about c [e] = [e].
Proof. intros H. unfold about. by rewrite filter_cons_True. Qed.

Lemma about_no c e : ~ mentions c e -> about c [e] = [].
Proof. intros H. unfold about. by rewrite filter_cons_False. Qed.

Lemma take_task_spec loop p t q :
  take_task loop p = Some (t, q) -> exists l k, p = l ++ (loop, t) :: k /\ q = l ++ k.
Proof.
  revert q. induction p as [|[l u] p IH]; intros q; [done|]. simpl.
  destruct (Z.eqb_spec l loop) as [->|Hne].
  - intros [= -> ->]. by exists [], q.
  - destruct (take_task loop p) as [[v p']|]; [|done]. intros [= -> <-].
    destruct (IH p' eq_refl) as (l1 & k1 & -> & ->). by exists ((l, u) :: l1), k1.
Qed.

Lemma take_task_about loop p t q c :
  take_task loop p = Some (t, q) ->
  (~ mentions c (loop, t) -> about c q = about c p) /\
  (forall e, about c p = [e] -> mentions c (loop, t) -> e = (loop, t) /\ about c q = []).
Proof.
  intros (l & k & -> & ->)%take_task_spec. rewrite about_app.
  change ((loop, t) :: k) with ([(loop, t)] ++ k). rewrite !about_app. split.
  - intros H. by rewrite (about_no c _ H).
  - intros e He H. rewrite (about_yes c _ H) in He.
    destruct (about c l) as [|a l']; simpl in He; [|by destruct l'].
    injection He as <- ->. done.
Qed.

(** ** The invariant *)

(** Where a connection is in its life: waiting to be established; in use;
    closed, waiting to be removed; removed, waiting to be destroyed; destroyed. *)
Inductive phase (s : TcpServer) (c : Z) (i : conn) : Prop :=
  | ph_connecting :
      c_state i = kConnecting -> about c (pending s) = [(c_loop i, TEstablished c)] ->
      connections_ s !! c_name i = Some c -> c_destroyed i = 0%nat -> phase s c i
  | ph_open :
      c_state i = kConnected \/ c_state i = kDisconnecting -> about c (pending s) = [] ->
      connections_ s !! c_name i = Some c -> c_destroyed i = 0%nat -> phase s c i
  | ph_closed :
      c_state i = kDisconnected -> about c (pending s) = [(loop_ s, TRemoveInLoop c)] ->
      connections_ s !! c_name i = Some c -> c_destroyed i = 0%nat -> phase s c i
  | ph_removed :
      c_state i = kDisconnected -> about c (pending s) = [(c_loop i, TDestroyed c)] ->
      connections_ s !! c_name i = None -> c_destroyed i = 0%nat -> phase s c i
  | ph_destroyed :
      c_state i = kDisconnected -> about c (pending s) = [] ->
      connections_ s !! c_name i = None -> c_destroyed i = 1%nat -> phase s c i.

Record server_ok (s : TcpServer) : Prop := {
  so_names : forall c i, conns s !! c = Some i ->
    exists k, 1 <= k < next_conn_id_ s /\ c_name i = conn_name s k;
  so_unique : forall c d i j, conns s !! c = Some i -> conns s !! d = Some j -> c_name i = c_name j -> c = d;
  so_phase : forall c i, conns s !! c = Some i -> phase s c i;
  so_map : forall n c, connections_ s !! n = Some c -> exists i, conns s !! c = Some i /\ c_name i = n;
  so_pending : forall c, about c (pending s) <> [] -> is_Some (conns s !! c);
  so_next : 1 <= next_conn_id_ s < 2 ^ 31;
  so_pool : pool_wf (thread_pool_ s);
  so_ip : zlen (ip_port_ s) <= 40
}.

(** The parts that nothing changes after construction. *)
Definition same_server (s s' : TcpServer) : Prop :=
  loop_ s' = loop_ s /\ ip_port_ s' = ip_port_ s /\ name_ s' = name_ s /\
  next_conn_id_ s' = next_conn_id_ s /\ thread_pool_ s' = thread_pool_ s.

(** A step that concerns one connection only. *)
Lemma update_ok s s' c i i' :
  server_ok s -> conns s !! c = Some i -> c_name i' = c_name i -> same_server s s' ->
  conns s' = <[c := i']> (conns s) ->
  (connections_ s' = connections_ s \/ connections_ s' = delete (c_name i) (connections_ s)) ->
  (forall d, d <> c -> about d (pending s') = about d (pending s)) ->
  phase s' c i' -> server_ok s'.
Proof.
  intros [H1 H2 H3 H4 H5 H6 H7 H8] Hi Hname (S1 & S2 & S3 & S4 & S5) Hc Hm Hp Hph.
  assert (Hin : forall d j, conns s' !! d = Some j ->
    exists j0, conns s !! d = Some j0 /\ c_name j = c_name j0 /\ (d <> c -> j = j0)).
  { intros d j Hd. rewrite Hc in Hd. destruct (decide (d = c)) as [->|Hne].
    - rewrite lookup_insert_eq in Hd. injection Hd as <-. exists i. by split.
    - rewrite lookup_insert_ne in Hd by done. by exists j. }
  assert (Hcn : forall k, conn_name s' k = conn_name s k) by (intros k; unfold conn_name; by rewrite S2, S3).
  split.
  - intros d j Hd. destruct (Hin d j Hd) as (j0 & G1 & G2 & _). rewrite G2, S4.
    destruct (H1 d j0 G1) as (k & K1 & K2). exists k. by rewrite Hcn.
  - intros d e j k Hd He Hn. destruct (Hin d j Hd) as (j0 & G1 & G2 & _), (Hin e k He) as (k0 & K1 & K2 & _).
    apply (H2 d e j0 k0); [done|done|congruence].
  - intros d j Hd. destruct (decide (d = c)) as [->|Hne].
    { rewrite Hc, lookup_insert_eq in Hd. by injection Hd as <-. }
    destruct (Hin d j Hd) as (j0 & G1 & G2 & G3). rewrite (G3 Hne) in *.
    assert (Hdiff : c_name j0 <> c_name i) by (intros E; by apply Hne, (H2 d c j0 i)).
    assert (Hlook : connections_ s' !! c_name j0 = connections_ s !! c_name j0).
    { destruct Hm as [->| ->]; [done|]. by rewrite lookup_delete_ne. }
    destruct (H3 d j0 G1) as [P1 P2 P3 P4|P1 P2 P3 P4|P1 P2 P3 P4|P1 P2 P3 P4|P1 P2 P3 P4];
      rewrite <- (Hp d Hne) in P2; rewrite <- Hlook in P3.
    + by apply ph_connecting.
    + by apply ph_open.
    + apply ph_closed; try done. by rewrite S1.
    + by apply ph_removed.
    + by apply ph_destroyed.
  - intros n d Hn. assert (connections_ s !! n = Some d) as Hn0.
    { destruct Hm as [E|E]; rewrite E in Hn; [done|]. by apply lookup_delete_Some in Hn as [_ Hn]. }
    destruct (H4 n d Hn0) as (j & G1 & G2). destruct (decide (d = c)) as [->|Hne].
    + exists i'. rewrite Hc, lookup_insert_eq. split; [done|]. congruence.
    + exists j. by rewrite Hc, lookup_insert_ne.
  - intros d Hd. rewrite Hc. destruct (decide (d = c)) as [->|Hne]; [by rewrite lookup_insert_eq|].
    rewrite lookup_insert_ne by done. apply H5. by rewrite <- Hp.
  - by rewrite S4.
  - by rewrite S5.
  - by rewrite S2.
Qed.

(** A step that only takes a task about no connection away. *)
Lemma quiet_ok s s' :
  server_ok s -> same_server s s' -> conns s' = conns s -> connections_ s' = connections_ s ->
  (forall d, about d (pending s') = about d (pending s)) -> server_ok s'.
Proof.
  intros [H1 H2 H3 H4 H5 H6 H7 H8] (S1 & S2 & S3 & S4 & S5) Hc Hm Hp.
  assert (Hcn : forall k, conn_name s' k = conn_name s k) by (intros k; unfold conn_name; by rewrite S2, S3).
  split; rewrite ?Hc, ?Hm, ?S2, ?S4, ?S5; try done.
  - intros c i Hi. destruct (H1 c i Hi) as (k & K1 & K2). exists k. by rewrite Hcn.
  - intros c i Hi. destruct (H3 c i Hi) as [P1 P2 P3 P4|P1 P2 P3 P4|P1 P2 P3 P4|P1 P2 P3 P4|P1 P2 P3 P4];
      rewrite <- Hp in P2; rewrite <- Hm in P3.
    + by apply ph_connecting.
    + by apply ph_open.
    + apply ph_closed; try done. by rewrite S1.
    + by apply ph_removed.
    + by apply ph_destroyed.
  - intros c. rewrite Hp. apply H5.
Qed.

(** A task about a connection finds it in the phase that waits for it. *)
Lemma task_phase s loop t p c :
  server_ok s -> take_task loop (pending s) = Some (t, p) -> mentions c (loop, t) ->
  exists i, conns s !! c = Some i /\ about c p = [] /\
    (forall d, d <> c -> about d p = about d (pending s)) /\
    match t with
    | TListen => False
    | TEstablished _ => c_state i = kConnecting /\ connections_ s !! c_name i = Some c /\
        c_destroyed i = 0%nat /\ loop = c_loop i
    | TRemoveInLoop _ => c_state i = kDisconnected /\ connections_ s !! c_name i = Some c /\
        c_destroyed i = 0%nat /\ loop = loop_ s
    | TDestroyed _ => c_state i = kDisconnected /\ connections_ s !! c_name i = None /\
        c_destroyed i = 0%nat /\ loop = c_loop i
    end.
Proof.
  intros Hs Ht Hm. destruct (take_task_about _ _ _ _ c Ht) as [_ Hyes].
  assert (Hne : about c (pending s) <> []).
  { apply take_task_spec in Ht as (l & k & -> & _).
    change ((loop, t) :: k) with ([(loop, t)] ++ k). rewrite !about_app, (about_yes _ _ Hm). by destruct (about c l). }
  destruct (so_pending s Hs c Hne) as [i Hi]. exists i. split; [done|].
  assert (Hoth : forall d, d <> c -> about d p = about d (pending s)).
  { intros d Hd. destruct (take_task_about _ _ _ _ d Ht) as [Hno _]. apply Hno.
    unfold mentions in *. simpl in *. destruct t; congruence. }
  destruct (so_phase s Hs c i Hi) as [P1 P2 P3 P4|P1 P2 P3 P4|P1 P2 P3 P4|P1 P2 P3 P4|P1 P2 P3 P4]; [|done| | |done];
    destruct (Hyes _ P2 Hm) as [[= <- <-] Hnil]; done.
Qed.

Lemma server_run_ok s s' loop t p :
  server_ok s -> take_task loop (pending s) = Some (t, p) -> run_task t (set_pending s p) = Ok s' ->
  server_ok s'.
Proof.
  intros Hs Ht Hrun. destruct t as [|c|c|c]; simpl in Hrun.
  - injection Hrun as <-. apply (quiet_ok s); try done.
    intros d. destruct (take_task_about _ _ _ _ d Ht) as [Hno _]. apply Hno. intros [].
  - destruct (task_phase s loop _ p c Hs Ht eq_refl) as (i & Hi & Hnil & Hoth & P1 & P2 & P3 & _).
    unfold established, conn_at in Hrun. simpl in Hrun. rewrite Hi, bind_Ok in Hrun. injection Hrun as <-.
    apply (update_ok s _ c i (set_state i kConnected)); try done; [by left|].
    apply ph_open; try done. by left.
  - destruct (task_phase s loop _ p c Hs Ht eq_refl) as (i & Hi & Hnil & Hoth & P1 & P2 & P3 & _).
    unfold RemoveConnectionInLoop, conn_at in Hrun. simpl in Hrun. rewrite Hi, bind_Ok in Hrun.
    injection Hrun as <-.
    apply (update_ok s _ c i i); try done; [simpl; by rewrite insert_id|by right| |].
    + intros d Hd. simpl. rewrite about_app, (about_no d), app_nil_r, Hoth; [done|done|].
      intros E. by apply Hd.
    + apply ph_removed; try done; simpl; [|by rewrite lookup_delete_eq].
      rewrite about_app, Hnil. by apply about_yes.
  - destruct (task_phase s loop _ p c Hs Ht eq_refl) as (i & Hi & Hnil & Hoth & P1 & P2 & P3 & _).
    unfold destroyed, conn_at in Hrun. simpl in Hrun. rewrite Hi, bind_Ok in Hrun. injection Hrun as <-.
    rewrite P1, P3. rewrite decide_False by done.
    apply (update_ok s _ c i (mkConn (c_name i) (c_loop i) (c_fd i) (c_local i) (c_peer i) kDisconnected 1));
      try done; [by left|]. by apply ph_destroyed.
Qed.

Lemma shutdown_ok s c i :
  server_ok s -> conns s !! c = Some i -> c_state i = kConnected ->
  server_ok (set_conns s (<[c := set_state i kDisconnecting]> (conns s))).
Proof.
  intros Hs Hi Hst. apply (update_ok s _ c i (set_state i kDisconnecting)); try done; [by left|].
  destruct (so_phase s Hs c i Hi) as [P1 P2 P3 P4|P1 P2 P3 P4|P1|P1|P1]; try congruence.
  apply ph_open; try done. by right.
Qed.

Lemma close_ok s s' c i :
  server_ok s -> conns s !! c = Some i -> c_state i = kConnected \/ c_state i = kDisconnecting ->
  HandleClose s c = Ok s' -> server_ok s'.
Proof.
  intros Hs Hi Hst Hc. unfold HandleClose, conn_at in Hc. rewrite Hi, bind_Ok in Hc.
  rewrite assert_Ok, bind_Ok in Hc by (destruct Hst as [->| ->]; done).
  assert (about c (pending s) = [] /\ connections_ s !! c_name i = Some c /\ c_destroyed i = 0%nat) as (Q1 & Q2 & Q3).
  { destruct (so_phase s Hs c i Hi) as [P1 P2 P3 P4|P1 P2 P3 P4|P1|P1|P1]; [|done|..];
      destruct Hst; congruence. }
  unfold RemoveConnection, RunInLoop in Hc. cbn [loop_ set_conns] in Hc.
  destruct (Z.eqb_spec (c_loop i) (loop_ s)) as [El|El].
  - simpl in Hc. unfold RemoveConnectionInLoop, conn_at in Hc. simpl in Hc.
    rewrite lookup_insert_eq, bind_Ok in Hc. injection Hc as <-.
    apply (update_ok s _ c i (set_state i kDisconnected)); try done; [by right| |].
    + intros d Hd. simpl. rewrite about_app, (about_no d), app_nil_r; [done|]. intros E. by apply Hd.
    + apply ph_removed; try done; simpl; [|by rewrite lookup_delete_eq].
      rewrite about_app, Q1. by apply about_yes.
  - injection Hc as <-.
    apply (update_ok s _ c i (set_state i kDisconnected)); try done; [by left| |].
    + intros d Hd. simpl. rewrite about_app, (about_no d), app_nil_r; [done|]. intros E. by apply Hd.
    + apply ph_closed; try done. simpl. rewrite about_app, Q1. by apply about_yes.
Qed.

(** ** Accepting *)

Lemma conn_name_inj s k k' :
  zlen (ip_port_ s) <= 40 -> 1 <= k < 2 ^ 31 -> 1 <= k' < 2 ^ 31 -> conn_name s k = conn_name s k' -> k = k'.
Proof.
  intros Hip Hk Hk' E. unfold conn_name, snprintf in E. apply app_inv_head in E.
  assert (forall n, 1 <= n < 2 ^ 31 -> (length (dec n) <= 10)%nat) as Hd.
  { intros n Hn. unfold dec. rewrite (proj2 (Z.ltb_ge _ _)) by lia. unfold dec_nat.
    rewrite length_rev, (digits_fuel 10 ltac:(lia) 10 digit_fuel) by (unfold digit_fuel; lia). apply length_digits. }
  pose proof (Hd k Hk). pose proof (Hd k' Hk').
  rewrite !take_ge in E by (rewrite !length_app; simpl; lia).
  do 3 apply app_inv_head in E. apply (dec_inj k k'); [lia|lia|done].
Qed.

Lemma pool_next p l p' : pool_wf p -> GetNextLoop p = Ok (l, p') -> pool_wf p'.
Proof.
  intros Hp E. destruct (decide (loops_ p = [])) as [Hl|Hl].
  - unfold GetNextLoop in E. rewrite Hl in E. cbn in E. congruence.
  - destruct (GetNextLoop_ok p Hp Hl) as (p1 & E1 & Hp1 & _). congruence.
Qed.

(** A new connection is added with a name of its own; [q] are its first tasks. *)
Lemma insert_ok s pool i c q :
  server_ok s -> conns s !! c = None -> next_conn_id_ s < 2 ^ 31 - 1 -> pool_wf pool ->
  c_name i = conn_name s (next_conn_id_ s) -> c_destroyed i = 0%nat ->
  (c_state i = kConnecting /\ q = [(c_loop i, TEstablished c)] \/ c_state i = kConnected /\ q = []) ->
  server_ok (mkTcpServer (loop_ s) (ip_port_ s) (name_ s) (reuse_port s) (listening_ s) pool (started_ s)
    (next_conn_id_ s + 1) (<[c_name i := c]> (connections_ s)) (<[c := i]> (conns s)) (pending s ++ q)).
Proof.
  intros [H1 H2 H3 H4 H5 H6 H7 H8] Hc Hn Hpool Hname Hdes Hq.
  assert (Hfresh : forall d j, conns s !! d = Some j -> c_name j <> c_name i).
  { intros d j Hd E. destruct (H1 d j Hd) as (k & Hk & Ek).
    assert (k = next_conn_id_ s); [|lia]. apply (conn_name_inj s); [done|lia|lia|congruence]. }
  assert (Hnil : about c (pending s) = []).
  { destruct (about c (pending s)) as [|e q'] eqn:E; [done|]. destruct (H5 c) as [j Hj]; [congruence|]. congruence. }
  assert (Hqc : forall d, d <> c -> about d q = []).
  { intros d Hd. destruct Hq as [[_ ->]|[_ ->]]; [|done]. apply about_no. intros E. by apply Hd. }
  assert (Hqq : about c q = q).
  { destruct Hq as [[_ ->]|[_ ->]]; [|done]. by apply about_yes. }
  split; simpl; try done; try lia.
  - intros d j Hd. apply lookup_insert_Some in Hd as [[<- <-]|[Hne Hd]].
    + exists (next_conn_id_ s). split; [lia|done].
    + destruct (H1 d j Hd) as (k & Hk & Ek). exists k. split; [lia|done].
  - intros d e j k Hd He E.
    apply lookup_insert_Some in Hd as [[<- <-]|[Hne Hd]], He as [[<- <-]|[Hne' He]]; [done|..].
    + by destruct (Hfresh e k He).
    + by destruct (Hfresh d j Hd).
    + by apply (H2 d e j k).
  - intros d j Hd. apply lookup_insert_Some in Hd as [[<- <-]|[Hne Hd]].
    + destruct Hq as [[Hst ->]|[Hst ->]].
      * apply ph_connecting; simpl; [done| |by rewrite lookup_insert_eq|done]. by rewrite about_app, Hnil, Hqq.
      * apply ph_open; simpl; [by left| |by rewrite lookup_insert_eq|done]. by rewrite app_nil_r.
    + assert (Hp : about d (pending s ++ q) = about d (pending s))
        by (rewrite about_app, Hqc, app_nil_r by done; done).
      assert (Hl : <[c_name i := c]> (connections_ s) !! c_name j = connections_ s !! c_name j).
      { rewrite lookup_insert_ne; [done|]. intros E. by apply (Hfresh d j). }
      destruct (H3 d j Hd) as [P1 P2 P3 P4|P1 P2 P3 P4|P1 P2 P3 P4|P1 P2 P3 P4|P1 P2 P3 P4];
        rewrite <- Hp in P2; rewrite <- Hl in P3.
      * by apply ph_connecting.
      * by apply ph_open.
      * by apply ph_closed.
      * by apply ph_removed.
      * by apply ph_destroyed.
  - intros n d Hd. apply lookup_insert_Some in Hd as [[<- <-]|[Hne Hd]].
    + exists i. by rewrite lookup_insert_eq.
    + destruct (H4 n d Hd) as (j & G1 & G2). exists j. split; [|done]. rewrite lookup_insert_ne; [done|congruence].
  - intros d Hd. destruct (decide (c = d)) as [->|Hne]; [by rewrite lookup_insert_eq|].
    rewrite lookup_insert_ne by done. apply H5. by rewrite about_app, Hqc, app_nil_r in Hd.
Qed.

Lemma accept_ok s s' c sockfd local peer :
  server_ok s -> conns s !! c = None -> NewConnection c sockfd local peer s = Ok s' -> server_ok s'.
Proof.
  intros Hs Hc Hnew. unfold NewConnection in Hnew.
  apply bind_Ok_inv in Hnew as ([io_loop pool] & Hpool & Hnew).
  apply bind_Ok_inv in Hnew as ([] & Hlt & Hnew).
  unfold defined_if in Hlt. destruct (Z.ltb_spec (next_conn_id_ s) (2 ^ 31 - 1)) as [Hn|]; [clear Hlt|done].
  pose proof (pool_next _ _ _ (so_pool s Hs) Hpool) as Hp.
  set (i := mkConn (conn_name s (next_conn_id_ s)) io_loop sockfd (mkInetAddress local) peer kConnecting 0) in *.
  unfold RunInLoop in Hnew. cbn [loop_ set_pool set_conns set_connections] in Hnew. destruct (Z.eqb_spec (loop_ s) io_loop) as [El|El].
  - simpl in Hnew. unfold established, conn_at in Hnew. simpl in Hnew.
    rewrite lookup_insert_eq, bind_Ok in Hnew. injection Hnew as <-.
    pose proof (insert_ok s pool (set_state i kConnected) c [] Hs Hc Hn Hp eq_refl eq_refl (or_intror (conj eq_refl eq_refl))) as H.
    rewrite app_nil_r in H. simpl in *. by rewrite insert_insert_eq.
  - injection Hnew as <-.
    exact (insert_ok s pool i c _ Hs Hc Hn Hp eq_refl eq_refl (or_introl (conj eq_refl eq_refl))).
Qed.

Lemma server_step_ok s s' : server_ok s -> step s s' -> server_ok s'.
Proof.
  intros Hs Hstep. destruct Hstep.
  - by apply (accept_ok s s' c sockfd local peer).
  - by apply (server_run_ok s s' loop t p).
  - by apply shutdown_ok.
  - by apply (close_ok s s' c i).
Qed.

(** A server after construction, [SetThreadNum] and [Start]. *)
Definition running_server (loop : Z) (addr : InetAddress) (name : bytes) (opt : Option) (threads : Z)
    (addrs : nat -> Z * Z) (s : TcpServer) : Prop :=
  exists s0, TcpServer_new loop addr name opt = Ok s0 /\
    TcpServer.Start loop addrs 0 false (TcpServer.SetThreadNum s0 threads) = Ok s.

Lemma started_loops addrs cb name n (l : list nat) :
  omap StartLoop_test ((fun i => start_one addrs cb name (n + i) i) <$> l) = (fun i => snd (addrs i)) <$> l.
Proof. induction l as [|i l IH]; [done|]. rewrite !fmap_cons, <- IH. reflexivity. Qed.

Lemma start_loops addrs n cb p :
  length (loops_ (fst (LoopThreads.Start addrs n cb p))) =
    (length (loops_ p) + Z.to_nat (num_threads_ p))%nat /\
  next_ (fst (LoopThreads.Start addrs n cb p)) = next_ p.
Proof.
  unfold LoopThreads.Start. cbn [fst loops_ next_]. split; [|done].
  by rewrite started_loops, length_app, length_fmap, length_seq.
Qed.

Lemma running_ok loop addr name opt threads addrs s :
  running_server loop addr name opt threads addrs s -> threads < 2 ^ 31 -> server_ok s /\ conns s = ∅.
Proof.
  intros (s0 & E0 & E) Ht. unfold TcpServer_new, CheckLoopNotNull in E0.
  destruct (loop =? 0); [done|]. rewrite bind_Ok in E0.
  destruct (ToIpPort_short addr) as (ip & Eip & Hip). rewrite Eip, bind_Ok in E0. injection E0 as <-.
  unfold TcpServer.Start in E. cbn [started_ TcpServer.SetThreadNum set_pool] in E.
  change (0 =? 0) with true in E. cbn match in E.
  match type of E with context [LoopThreads.Start addrs 0 false ?p] =>
    pose proof (start_loops addrs 0 false p) as [L1 L2]; destruct (LoopThreads.Start addrs 0 false p) as [pool cb] end.
  unfold RunInLoop in E. simpl in E, L1, L2. rewrite Z.eqb_refl in E. injection E as <-.
  split; [|done]. split; simpl; try done; try lia.
  unfold pool_wf. rewrite L1, L2. split; [lia|]. split; [|lia].
  intros Hne. destruct (loops_ pool); [done|]. simpl in L1. lia.
Qed.

Lemma server_reachable_ok s s' : server_ok s -> rtc step s s' -> server_ok s'.
Proof. apply rtc_invariant. apply server_step_ok. Qed.

(** C3: every connection of a running server has a life of its own.  Whatever the
    order in which connections are accepted, shut down and closed and the loops
    run what was handed to them: no two connections ever have the same name; the
    map holds a connection under its name from its acceptance until it is
    removed in the server's loop, and no other; once closed it is waiting to be
    removed in the server's loop, or, removed, to be destroyed in its own, or
    destroyed; and no connection is destroyed twice, nor before it is closed. *)
Theorem server_lifecycle (loop : Z) (addr : InetAddress) (name : bytes) (opt : Option) (threads : Z)
    (addrs : nat -> Z * Z) (s s' : TcpServer) :
  running_server loop addr name opt threads addrs s -> threads < 2 ^ 31 -> rtc step s s' ->
  (forall c d i j, conns s' !! c = Some i -> conns s' !! d = Some j -> c_name i = c_name j -> c = d) /\
  (forall n c, connections_ s' !! n = Some c -> exists i, conns s' !! c = Some i /\ c_name i = n) /\
  (forall c i, conns s' !! c = Some i ->
    if decide (c_state i = kDisconnected) then
      (connections_ s' !! c_name i = Some c /\ c_destroyed i = 0%nat /\
         about c (pending s') = [(loop_ s', TRemoveInLoop c)]) \/
      (connections_ s' !! c_name i = None /\ c_destroyed i = 0%nat /\
         about c (pending s') = [(c_loop i, TDestroyed c)]) \/
      (connections_ s' !! c_name i = None /\ c_destroyed i = 1%nat /\ about c (pending s') = [])
    else connections_ s' !! c_name i = Some c /\ c_destroyed i = 0%nat).
Proof.
  intros Hrun Ht Hr. destruct (running_ok _ _ _ _ _ _ _ Hrun Ht) as [Hs _].
  destruct (server_reachable_ok s s' Hs Hr) as [H1 H2 H3 H4 H5 H6 H7 H8].
  split; [done|]. split; [done|]. intros c i Hi.
  destruct (H3 c i Hi) as [P1 P2 P3 P4|P1 P2 P3 P4|P1 P2 P3 P4|P1 P2 P3 P4|P1 P2 P3 P4].
  - rewrite decide_False by congruence. done.
  - rewrite decide_False by (destruct P1; congruence). done.
  - rewrite decide_True by done. by left.
  - rewrite decide_True by done. right. by left.
  - rewrite decide_True by done. right. by right.
Qed.

(** A server of two threads accepts a connection, establishes it and closes it. *)
Definition ex_addr : InetAddress := InetAddress_new 8000 [].
Definition ok_or (s : TcpServer) (r : result TcpServer) : TcpServer :=
  match r with Ok s => s | Fault _ => s end.
Definition ex_blank : TcpServer :=
  mkTcpServer 0 [] [] false false (EventLoopThreadPool_new 0 []) 0 0 ∅ ∅ [].
Definition ex_started : TcpServer :=
  ok_or ex_blank (s ← TcpServer_new 5 ex_addr (lit "srv") kReusePort;
    TcpServer.Start 5 (fun i => (Z.of_nat i, 1000 + Z.of_nat i)) 0 false (TcpServer.SetThreadNum s 2)).
Definition ex_accepted : TcpServer :=
  ok_or ex_blank (NewConnection 1 9 (mkSockaddr 2 0 0) ex_addr ex_started).
Definition ex_established : TcpServer := ok_or ex_blank (run_task (TEstablished 1) (set_pending ex_accepted [])).
Definition ex_closed : TcpServer := ok_or ex_blank (HandleClose ex_established 1).

Lemma server_lifecycle_witness :
  (forall c d i j, conns ex_closed !! c = Some i -> conns ex_closed !! d = Some j -> c_name i = c_name j -> c = d) /\
  (forall n c, connections_ ex_closed !! n = Some c -> exists i, conns ex_closed !! c = Some i /\ c_name i = n) /\
  (forall c i, conns ex_closed !! c = Some i ->
    if decide (c_state i = kDisconnected) then
      (connections_ ex_closed !! c_name i = Some c /\ c_destroyed i = 0%nat /\
         about c (pending ex_closed) = [(loop_ ex_closed, TRemoveInLoop c)]) \/
      (connections_ ex_closed !! c_name i = None /\ c_destroyed i = 0%nat /\
         about c (pending ex_closed) = [(c_loop i, TDestroyed c)]) \/
      (connections_ ex_closed !! c_name i = None /\ c_destroyed i = 1%nat /\ about c (pending ex_closed) = [])
    else connections_ ex_closed !! c_name i = Some c /\ c_destroyed i = 0%nat).
Proof.
  apply (server_lifecycle 5 ex_addr (lit "srv") kReusePort 2 (fun i => (Z.of_nat i, 1000 + Z.of_nat i))
    ex_started ex_closed).
  - eexists. split; vm_compute; reflexivity.
  - lia.
  - eapply rtc_l; [apply (step_accept ex_started ex_accepted 1 9 (mkSockaddr 2 0 0) ex_addr);
      vm_compute; reflexivity|].
    eapply rtc_l; [apply (step_run ex_accepted ex_established 1000 (TEstablished 1) []);
      vm_compute; reflexivity|].
    apply rtc_once. eapply (step_close ex_established ex_closed 1).
    + vm_compute. reflexivity.
    + by left.
    + vm_compute. reflexivity.
Defined.

Example ex_name : c_name <$> conns ex_closed !! 1 = Some (lit "srv-0.0.0.0:8000#1").
Proof. vm_compute. reflexivity. Qed.
