(* ===== verification/MysqlConn.v ===== *)
(** * MysqlConn (ryan_network/mysql/mysql_conn.h, mysql_conn.cc)

    The client library is the class [Mysql]: [H] is a connection handle with the
    state of its server, [R] a stored result set with its cursor.  A row is its
    fields, [None] for a NULL; [mysql_fetch_lengths] gives the length of each.
    The library's functions of a null pointer are undefined. *)

From S2P Require Import Prelude.

Class Mysql (H R : Type) := {
  mysql_init : option H;
  mysql_set_character_set : H -> bytes -> H;
  mysql_real_connect : H -> bytes -> bytes -> bytes -> bytes -> Z -> bool * H;
  mysql_query : H -> bytes -> Z * H;
  mysql_store_result : H -> option R * H;
  mysql_fetch_row : R -> option (list (option bytes)) * R;
  mysql_num_fields : R -> Z;
  mysql_autocommit : H -> bool -> bool * H;
  mysql_commit : H -> bool * H;
  mysql_rollback : H -> bool * H
}.

Section MysqlConn.
Context {H R : Type} `{!Mysql H R}.

(** src: ryan_network/mysql/mysql_conn.h:41-46 MysqlConn *)
Record MysqlConn := mkMysqlConn {
  conn_ : option H;
  result_ : option R;
  row_ : option (list (option bytes));
  m_alivetime : Z
}.

Definition set_conn (c : MysqlConn) (h : H) : MysqlConn := mkMysqlConn (Some h) (result_ c) (row_ c) (m_alivetime c).
Definition set_result (c : MysqlConn) (r : option R) : MysqlConn := mkMysqlConn (conn_ c) r (row_ c) (m_alivetime c).

Definition handle (c : MysqlConn) : result H :=
  match conn_ c with Some h => Ok h | None => Fault FUndef end.

(** src: ryan_network/mysql/mysql_conn.cc:4-10 MysqlConn::MysqlConn *)
Definition MysqlConn_new : result MysqlConn :=
  match mysql_init with
  | Some h => Ok (mkMysqlConn (Some (mysql_set_character_set h (lit "utf8"))) None None 0)
  | None => Fault FUndef
  end.

(** src: ryan_network/mysql/mysql_conn.cc:108-113 MysqlConn::FreeResult *)
Definition FreeResult (c : MysqlConn) : MysqlConn :=
  match result_ c with
  | Some _ => set_result c None
  | None => c
  end.

(** src: ryan_network/mysql/mysql_conn.cc:13-19 MysqlConn::~MysqlConn *)
Definition MysqlConn_destroy (c : MysqlConn) : MysqlConn :=
  FreeResult (mkMysqlConn None (result_ c) (row_ c) (m_alivetime c)).

(** src: ryan_network/mysql/mysql_conn.cc:22-30 MysqlConn::Connect *)
Definition Connect (user passwd dbName ip : bytes) (port : Z) (c : MysqlConn) : result (bool * MysqlConn) :=
  h ← handle c;
  let '(ok, h) := mysql_real_connect h ip user passwd dbName port in
  Ok (ok, set_conn c h).

(** src: ryan_network/mysql/mysql_conn.cc:33-38 MysqlConn::Update *)
Definition Update (sql : bytes) (c : MysqlConn) : result (bool * MysqlConn) :=
  h ← handle c;
  let '(e, h) := mysql_query h sql in
  Ok (e =? 0, set_conn c h).

(** src: ryan_network/mysql/mysql_conn.cc:41-50 MysqlConn::Query *)
Definition Query (sql : bytes) (c : MysqlConn) : result (bool * MysqlConn) :=
  let c := FreeResult c in
  h ← handle c;
  let '(e, h) := mysql_query h sql in
  if negb (e =? 0) then Ok (false, set_conn c h)
  else
    let '(r, h) := mysql_store_result h in
    Ok (true, set_result (set_conn c h) r).

(** src: ryan_network/mysql/mysql_conn.cc:53-61 MysqlConn::Next *)
Definition Next (c : MysqlConn) : bool * MysqlConn :=
  match result_ c with
  | Some r =>
      let '(row, r) := mysql_fetch_row r in
      (bool_decide (is_Some row), mkMysqlConn (conn_ c) (Some r) row (m_alivetime c))
  | None => (false, c)
  end.

(** [row_] may be null, and stays so after the last row; the length of a NULL field
    is zero.
    src: ryan_network/mysql/mysql_conn.cc:64-75 MysqlConn::Value *)
Definition Value (index : Z) (c : MysqlConn) : result bytes :=
  match result_ c with
  | None => Fault FUndef
  | Some r =>
      if (index >=? s32 (mysql_num_fields r)) || (index <? 0) then Ok []
      else
        match row_ c with
        | None => Fault FUndef
        | Some row =>
            match row !! Z.to_nat index with
            | Some field => Ok (default [] field)
            | None => Fault FUndef
            end
        end
  end.

(** These three return what the library does: true when it failed.
    src: ryan_network/mysql/mysql_conn.cc:78-82 MysqlConn::Transaction *)
Definition Transaction (c : MysqlConn) : result (bool * MysqlConn) :=
  h ← handle c; let '(e, h) := mysql_autocommit h false in Ok (e, set_conn c h).
(** src: ryan_network/mysql/mysql_conn.cc:85-85 MysqlConn::Commit *)
Definition Commit (c : MysqlConn) : result (bool * MysqlConn) :=
  h ← handle c; let '(e, h) := mysql_commit h in Ok (e, set_conn c h).
(** src: ryan_network/mysql/mysql_conn.cc:88-88 MysqlConn::Rollbock *)
Definition Rollbock (c : MysqlConn) : result (bool * MysqlConn) :=
  h ← handle c; let '(e, h) := mysql_rollback h in Ok (e, set_conn c h).

(** [now] is the steady clock, in nanoseconds.
    src: ryan_network/mysql/mysql_conn.cc:91-94 MysqlConn::RefreshAliveTime *)
Definition RefreshAliveTime (now : Z) (c : MysqlConn) : MysqlConn :=
  mkMysqlConn (conn_ c) (result_ c) (row_ c) now.

(** Milliseconds, towards zero.
    src: ryan_network/mysql/mysql_conn.cc:97-105 MysqlConn::GetAliveTime *)
Definition GetAliveTime (now : Z) (c : MysqlConn) : Z := Z.quot (now - m_alivetime c) 1000000.

(** ** Reading a result set *)

(** [while (conn.Next()) ...]: the rows read, and the connection after them. *)
Fixpoint read_rows (fuel : nat) (c : MysqlConn) : option (list (list (option bytes)) * MysqlConn) :=
  match fuel with
  | O => None
  | S fuel =>
      match Next c with
      | (true, c') =>
          match row_ c', read_rows fuel c' with
          | Some row, Some (rows, c'') => Some (row :: rows, c'')
          | _, _ => None
          end
      | (false, c') => Some ([], c')
      end
  end.
End MysqlConn.
Arguments MysqlConn : clear implicits.

(** A result set as the list of its rows. *)
Class MysqlRows (H R : Type) `{!Mysql H R} := {
  rows_left : R -> list (list (option bytes));
  fetch_spec r : mysql_fetch_row r =
    (head (rows_left r), snd (mysql_fetch_row r)) /\ rows_left (snd (mysql_fetch_row r)) = tail (rows_left r)
}.

(** Reading to the end gives every row of the result set once, in order; the
    loop ends one call after the last row. *)
Lemma read_rows_all {H R : Type} `{MysqlRows H R} (c : MysqlConn H R) (r : R) (fuel : nat) :
  result_ c = Some r -> (length (rows_left r) < fuel)%nat ->
  exists c', read_rows fuel c = Some (rows_left r, c') /\ row_ c' = None.
Proof.
  revert c r. induction fuel as [|fuel IH]; intros c r Hr Hf; [lia|]. cbn [read_rows]. unfold Next.
  rewrite Hr. destruct (fetch_spec r) as [E1 E2]. rewrite E1. set (r' := snd (mysql_fetch_row r)) in *.
  destruct (rows_left r) as [|row rows] eqn:El; simpl.
  - eexists. split; [reflexivity|done].
  - destruct (IH (mkMysqlConn (conn_ c) (Some r') (Some row) (m_alivetime c)) r' eq_refl) as (c' & E & Hc').
    { rewrite E2. simpl. simpl in Hf. lia. }
    rewrite E, E2. by exists c'.
Qed.
