(* ===== verification/MysqlConnPool.v ===== *)
(** * MysqlConnPool (ryan_network/mysql/mysql_conn_pool.h, mysql_conn_pool.cc)

    A connection is its number in the order of creation, with the time of its last
    use.  A block that holds [mutex_] is one atomic step; [produce], [recycle], [get] and
    [give_back] are those of the two threads, of [GetConnection] and of the deleter
    of the pointer it returns.  The configuration file is read by the JSON
    library. *)

From S2P Require Import Prelude.

Record pooled := mkPooled { id : nat; alive_since : Z }.

(** [borrowed] are the connections handed out, [created] and [deleted] count.
    src: ryan_network/mysql/mysql_conn_pool.h:33-45 MysqlConnPool *)
Record MysqlConnPool := mkPool {
  min_size_ : Z;
  max_size_ : Z;
  current_size_ : Z;
  timeout_ : Z;
  max_idle_time_ : Z;
  connection_queue_ : list pooled;
  borrowed : list nat;
  created : nat;
  deleted : nat
}.

Definition set_queue (p : MysqlConnPool) (current : Z) (q : list pooled) (b : list nat) (cr de : nat) : MysqlConnPool :=
  mkPool (min_size_ p) (max_size_ p) current (timeout_ p) (max_idle_time_ p) q b cr de.

(** [get] is the number that the library finds under a key, 64 bits wide; the members
    are [int]s.  The strings and the port are only passed on to [MysqlConn::Connect].
    src: ryan_network/mysql/mysql_conn_pool.cc:39-53 MysqlConnPool::ParseJsonFile *)
Definition ParseJsonFile (get : bytes -> result Z) : result MysqlConnPool :=
  min_size ← get (lit "min_size");
  max_size ← get (lit "max_size");
  timeout ← get (lit "timeout");
  max_idle_time ← get (lit "max_idle_time");
  Ok (mkPool (s32 min_size) (s32 max_size) 0 (s32 timeout) (s32 max_idle_time) [] [] 0 0).

(** [current_size_++] and [current_size_--]: the counter is an [int], whose overflow is
    undefined. *)
Definition count_by (d : Z) (p : MysqlConnPool) : result MysqlConnPool :=
  _ ← defined_if ((- 2 ^ 31 <=? current_size_ p + d) && (current_size_ p + d <? 2 ^ 31));
  Ok (set_queue p (current_size_ p + d) (connection_queue_ p) (borrowed p) (created p) (deleted p)).

(** Whether the connection succeeds is not looked at.
    src: ryan_network/mysql/mysql_conn_pool.cc:96-102 MysqlConnPool::AddConnection *)
Definition AddConnection (now : Z) (p : MysqlConnPool) : result MysqlConnPool :=
  count_by 1 (set_queue p (current_size_ p) (connection_queue_ p ++ [mkPooled (created p) now]) (borrowed p)
    (S (created p)) (deleted p)).

(** src: ryan_network/mysql/mysql_conn_pool.cc:16-19 MysqlConnPool::MysqlConnPool *)
Fixpoint add_first (n : nat) (now : Z) (p : MysqlConnPool) : result MysqlConnPool :=
  match n with
  | O => Ok p
  | S n => p ← AddConnection now p; p ← count_by 1 p; add_first n now p
  end.

(** The object is static: [current_size_] starts at zero.
    src: ryan_network/mysql/mysql_conn_pool.cc:12-26 MysqlConnPool::MysqlConnPool *)
Definition MysqlConnPool_new (get : bytes -> result Z) (now : Z) : result MysqlConnPool :=
  p ← ParseJsonFile get;
  add_first (Z.to_nat (min_size_ p)) now p.

(** One turn of the producer, [None] while it waits.
    src: ryan_network/mysql/mysql_conn_pool.cc:55-72 MysqlConnPool::ProduceConnection *)
Definition produce (now : Z) (p : MysqlConnPool) : option (result MysqlConnPool) :=
  match connection_queue_ p with
  | [] => Some (if current_size_ p <? max_size_ p then p ← AddConnection now p; count_by 1 p else Ok p)
  | _ => None
  end.

(** The front connection leaves the queue and is deleted. *)
Definition delete_front (q' : list pooled) (p : MysqlConnPool) : result MysqlConnPool :=
  count_by (-1) (set_queue p (current_size_ p) q' (borrowed p) (created p) (S (deleted p))).

(** The inner loop of the recycler; [min_size_] is compared as a [size_t].
    src: ryan_network/mysql/mysql_conn_pool.cc:81-92 MysqlConnPool::RecycleConnection *)
Fixpoint recycle_loop (now : Z) (p : MysqlConnPool) (q : list pooled) : result MysqlConnPool :=
  match q with
  | [] => Ok p
  | conn :: q' =>
      if zlen q >? u64 (min_size_ p) then
        if Z.quot (now - alive_since conn) 1000000 >=? max_idle_time_ p then
          p ← delete_front q' p;
          recycle_loop now p q'
        else Ok p
      else Ok p
  end.

(** src: ryan_network/mysql/mysql_conn_pool.cc:75-94 MysqlConnPool::RecycleConnection *)
Definition recycle (now : Z) (p : MysqlConnPool) : result MysqlConnPool :=
  recycle_loop now p (connection_queue_ p).

(** [None]: the caller goes on waiting.
    src: ryan_network/mysql/mysql_conn_pool.cc:105-133 MysqlConnPool::GetConnection *)
Definition get (p : MysqlConnPool) : option (nat * MysqlConnPool) :=
  match connection_queue_ p with
  | [] => None
  | conn :: q =>
      Some (id conn, set_queue p (current_size_ p) q (id conn :: borrowed p) (created p) (deleted p))
  end.

(** The deleter.
    src: ryan_network/mysql/mysql_conn_pool.cc:125-129 MysqlConnPool::GetConnection *)
Definition give_back (now : Z) (c : nat) (p : MysqlConnPool) : MysqlConnPool :=
  set_queue p (current_size_ p) (connection_queue_ p ++ [mkPooled c now])
    (filter (fun d => d <> c) (borrowed p)) (created p) (deleted p).

(** src: ryan_network/mysql/mysql_conn_pool.cc:28-36 MysqlConnPool::~MysqlConnPool *)
Fixpoint delete_all (q : list pooled) (p : MysqlConnPool) : result MysqlConnPool :=
  match q with
  | [] => Ok p
  | _ :: q => p ← delete_front q p; delete_all q p
  end.

Definition MysqlConnPool_destroy (p : MysqlConnPool) : result MysqlConnPool := delete_all (connection_queue_ p) p.

Inductive step : MysqlConnPool -> MysqlConnPool -> Prop :=
  | step_produce now p p' : produce now p = Some (Ok p') -> step p p'
  | step_recycle now p p' : recycle now p = Ok p' -> step p p'
  | step_get c p p' : get p = Some (c, p') -> step p p'
  | step_give_back now c p : c ∈ borrowed p -> step p (give_back now c p).

(** ** How many connections a pool makes *)

(** The limits of a pool are those it was made with. *)
Definition same_limits (p q : MysqlConnPool) : Prop := min_size_ p = min_size_ q /\ max_size_ p = max_size_ q.

Definition limit (p : MysqlConnPool) : Z := Z.max 0 (Z.max (min_size_ p) (max_size_ p)).

Record mysql_ok (p : MysqlConnPool) : Prop := {
  mo_current : current_size_ p = 2 * Z.of_nat (created p) - Z.of_nat (deleted p);
  mo_int : current_size_ p < 2 ^ 31;
  mo_limits : - 2 ^ 31 <= min_size_ p < 2 ^ 31 /\ - 2 ^ 31 <= max_size_ p < 2 ^ 31;
  mo_count : (length (connection_queue_ p) + length (borrowed p) + deleted p = created p)%nat;
  mo_nodup : NoDup (map id (connection_queue_ p) ++ borrowed p);
  mo_old : Forall (fun c => c < created p)%nat (map id (connection_queue_ p) ++ borrowed p);
  mo_life : Z.of_nat (created p) <= limit p
}.

(** A new connection is distinct from the others, and counted twice. *)
Definition with_new (now : Z) (p : MysqlConnPool) : MysqlConnPool :=
  set_queue p (current_size_ p + 2) (connection_queue_ p ++ [mkPooled (created p) now]) (borrowed p)
    (S (created p)) (deleted p).

Lemma add_result now p :
  mysql_ok p ->
  (p ← AddConnection now p; count_by 1 p) =
  (if current_size_ p + 2 <? 2 ^ 31 then Ok (with_new now p) else Fault FUndef).
Proof.
  intros Hp. destruct Hp as [H1 H2 _ H3 _ _ _]. unfold AddConnection, count_by, with_new.
  cbn [set_queue current_size_ connection_queue_ borrowed created deleted].
  rewrite (proj2 (Z.leb_le (- 2 ^ 31) (current_size_ p + 1))) by lia.
  destruct (Z.ltb_spec (current_size_ p + 1) (2 ^ 31)) as [Ha|Ha].
  - rewrite defined_Ok, !bind_Ok by done. cbn [set_queue current_size_ connection_queue_ borrowed created deleted].
    rewrite (proj2 (Z.leb_le (- 2 ^ 31) (current_size_ p + 1 + 1))), <- Z.add_assoc by lia.
    change (1 + 1) with 2. by case_match.
  - rewrite (proj2 (Z.ltb_ge (current_size_ p + 2) _)) by lia. done.
Qed.

Lemma with_new_ok now p :
  mysql_ok p -> Z.of_nat (created p) < limit p -> current_size_ p + 2 < 2 ^ 31 -> mysql_ok (with_new now p).
Proof.
  intros [H1 H1' H0 H2 H3 H4 H5] Hlt Hint. split; simpl.
  - lia.
  - lia.
  - done.
  - rewrite length_app. simpl. lia.
  - rewrite map_app, <- app_assoc. simpl. rewrite <- Permutation_middle. constructor; [|done].
    intros Hin. rewrite Forall_forall in H4. specialize (H4 _ Hin). lia.
  - rewrite map_app, <- app_assoc. simpl. rewrite <- Permutation_middle. constructor; [lia|].
    eapply Forall_impl; [exact H4|]. simpl. lia.
  - unfold limit in *. simpl. lia.
Qed.

(** The first connections fit the counter exactly when there are fewer than [2 ^ 30]. *)
Lemma add_first_ok n now p :
  mysql_ok p -> Z.of_nat (created p) + Z.of_nat n <= limit p ->
  if current_size_ p + 2 * Z.of_nat n <? 2 ^ 31
  then exists p', add_first n now p = Ok p' /\ mysql_ok p' /\ same_limits p' p
  else add_first n now p = Fault FUndef.
Proof.
  revert p. induction n as [|n IH]; intros p Hp Hn.
  { destruct (Z.ltb_spec (current_size_ p + 2 * Z.of_nat 0) (2 ^ 31)); [by exists p|]. destruct Hp. lia. }
  cbn [add_first]. rewrite <- bind_assoc, add_result by done.
  destruct (Z.ltb_spec (current_size_ p + 2) (2 ^ 31)) as [Ha|Ha].
  - specialize (IH (with_new now p)). simpl in IH.
    replace (current_size_ p + 2 * Z.of_nat (S n)) with (current_size_ p + 2 + 2 * Z.of_nat n) by lia.
    apply IH; [apply with_new_ok; [done|lia|lia]|unfold limit in *; simpl; lia].
  - rewrite (proj2 (Z.ltb_ge _ _)) by lia. done.
Qed.

Lemma delete_front_ok c q p :
  mysql_ok p -> connection_queue_ p = c :: q ->
  exists p', delete_front q p = Ok p' /\ mysql_ok p' /\ connection_queue_ p' = q /\ same_limits p' p.
Proof.
  intros [H1 H1' H0 H2 H3 H4 H5] Hq. rewrite Hq in *. unfold delete_front, count_by.
  cbn [set_queue current_size_ connection_queue_ borrowed created deleted]. simpl in H2.
  rewrite defined_Ok, bind_Ok by (apply andb_true_iff; split; [apply Z.leb_le|apply Z.ltb_lt]; lia).
  eexists. split; [reflexivity|]. split; [|done]. split; simpl in *; try done; try lia.
  - by apply NoDup_cons in H3 as [_ H3].
  - by apply Forall_cons in H4 as [_ H4].
Qed.

Lemma recycle_ok now p q :
  mysql_ok p -> connection_queue_ p = q ->
  exists p', recycle_loop now p q = Ok p' /\ mysql_ok p' /\ same_limits p' p.
Proof.
  revert p. induction q as [|c q IH]; intros p Hp Hq; [by exists p|]. cbn [recycle_loop].
  case_match; [|by exists p]. case_match; [|by exists p].
  destruct (delete_front_ok c q p Hp Hq) as (p1 & E1 & Hp1 & Hq1 & Hl1). rewrite E1, bind_Ok.
  destruct (IH p1 Hp1 Hq1) as (p2 & E2 & Hp2 & Hl2). exists p2. split; [done|]. split; [done|].
  unfold same_limits in *. intuition congruence.
Qed.

(** The destructor deletes what is in the queue. *)
Lemma destroy_ok p :
  mysql_ok p -> exists p', MysqlConnPool_destroy p = Ok p' /\ connection_queue_ p' = [] /\ mysql_ok p'.
Proof.
  unfold MysqlConnPool_destroy. remember (connection_queue_ p) as q eqn:Hq. revert p Hq.
  induction q as [|c q IH]; intros p Hq Hp; [by exists p|]. cbn [delete_all].
  destruct (delete_front_ok c q p Hp ltac:(done)) as (p1 & E1 & Hp1 & Hq1 & _). rewrite E1, bind_Ok.
  by apply IH.
Qed.

Lemma filter_out (c : nat) (l : list nat) :
  NoDup l -> c ∈ l -> l ≡ₚ c :: filter (fun d => d <> c) l.
Proof.
  induction l as [|d l IH]; intros Hnd Hin; [set_solver|]. apply NoDup_cons in Hnd as [Hd Hnd].
  rewrite filter_cons. destruct (decide (d = c)) as [->|Hne].
  - rewrite decide_False by (intros H; by apply H). f_equiv.
    clear IH Hnd Hin. induction l as [|e l IH]; [done|]. rewrite filter_cons, decide_True by set_solver.
    f_equiv. apply IH. set_solver.
  - rewrite decide_True by done. rewrite Permutation_swap. f_equiv. apply IH; [done|set_solver].
Qed.

Lemma give_back_ok now c p : mysql_ok p -> c ∈ borrowed p -> mysql_ok (give_back now c p).
Proof.
  intros [H1 H1' H0 H2 H3 H4 H5] Hc. assert (NoDup (borrowed p)) as Hnb by (by apply NoDup_app in H3 as (_ & _ & ?)).
  pose proof (filter_out c (borrowed p) Hnb Hc) as Hperm.
  assert (map id (connection_queue_ p ++ [mkPooled c now]) ++ filter (fun d => d <> c) (borrowed p)
    ≡ₚ map id (connection_queue_ p) ++ borrowed p) as Hall.
  { rewrite map_app, <- app_assoc. f_equiv. simpl. by rewrite <- Hperm. }
  split; cbn [give_back set_queue current_size_ created deleted connection_queue_ borrowed min_size_ max_size_]; try done.
  - apply Permutation_length in Hperm. rewrite length_app. simpl in *. lia.
  - by rewrite Hall.
  - by rewrite Hall.
Qed.

(** A turn of the producer is undefined only at the top of the counter. *)
Lemma produce_ok now p r :
  mysql_ok p -> produce now p = Some r ->
  (max_size_ p = 2 ^ 31 - 1 /\ current_size_ p = 2 ^ 31 - 2 /\ r = Fault FUndef) \/
  (~ (max_size_ p = 2 ^ 31 - 1 /\ current_size_ p = 2 ^ 31 - 2) /\
   exists p', r = Ok p' /\ mysql_ok p' /\ same_limits p' p).
Proof.
  intros Hp. unfold produce. destruct (connection_queue_ p) eqn:Eq; [|done]. intros [= <-].
  pose proof (add_result now p Hp) as Ha. pose proof Hp as [H1 H1' H0 H2 H3 H4 H5].
  destruct (Z.ltb_spec (current_size_ p) (max_size_ p)); [|right; split; [lia|by exists p]].
  rewrite Ha. destruct (Z.ltb_spec (current_size_ p + 2) (2 ^ 31)); [right|left; split; [lia|split; [lia|done]]].
  split; [lia|]. eexists. split; [reflexivity|]. split; [|done]. apply with_new_ok; [done|unfold limit; lia|lia].
Qed.

Lemma mysql_step_ok p p' : mysql_ok p -> step p p' -> mysql_ok p' /\ same_limits p' p.
Proof.
  intros Hp Hst. revert Hp. destruct Hst as [now q q' Hs|now q q' Hs|c q q' Hs|now c q Hc]; intros Hp.
  - apply produce_ok in Hs as [(_ & _ & H)|(_ & p' & [= <-] & ?)]; [discriminate H|done|done].
  - destruct (recycle_ok now q _ Hp eq_refl) as (q1 & E & H). unfold recycle in Hs.
    rewrite E in Hs. by injection Hs as <-.
  - unfold get in Hs. destruct (connection_queue_ q) as [|d l] eqn:El; [done|]. injection Hs as <- <-.
    split; [|done]. destruct Hp as [H1 H1' H0 H2 H3 H4 H5]. rewrite El in *.
    split; simpl in *; try done; try lia; by rewrite <- Permutation_middle.
  - split; [|done]. by apply give_back_ok.
Qed.

Lemma parsed_ok get_conf q : ParseJsonFile get_conf = Ok q -> mysql_ok q /\ created q = 0%nat /\ current_size_ q = 0.
Proof.
  unfold ParseJsonFile. intros E. inv_bind. split; [|done].
  assert (forall z, - 2 ^ 31 <= s32 z < 2 ^ 31) as Hs by (intros z; by apply (swrap_range 32)).
  split; simpl; first [done|lia|apply NoDup_nil_2|by apply Forall_nil|idtac]. unfold limit. lia.
Qed.

Lemma mysql_reachable p0 p : mysql_ok p0 -> rtc step p0 p -> mysql_ok p /\ same_limits p p0.
Proof.
  intros H0. apply (rtc_invariant step (fun p => mysql_ok p /\ same_limits p p0)); [|done].
  intros x y (Hx & El) Hst. destruct (mysql_step_ok _ _ Hx Hst) as [Hy El']. split; [done|].
  unfold same_limits in *. intuition congruence.
Qed.


Definition ex_conf (key : bytes) : result Z :=
  if decide (key = lit "min_size") then Ok 1 else if decide (key = lit "max_size") then Ok 3 else Ok 100.
Definition ex_parsed : MysqlConnPool :=
  match ParseJsonFile ex_conf with Ok p => p | Fault _ => mkPool 0 0 0 0 0 [] [] 0 0 end.
Definition ex_mysql : MysqlConnPool :=
  match MysqlConnPool_new ex_conf 0 with Ok p => p | Fault _ => mkPool 0 0 0 0 0 [] [] 0 0 end.
Definition ex_busy : MysqlConnPool := default ex_mysql (snd <$> get ex_mysql).

(** With limits 1 and 3, the second connection brings the count to 4: no third
    one. *)
Example ex_two :
  match produce 0 ex_busy with
  | Some (Ok p) =>
      created p = 2%nat /\ current_size_ p = 4 /\
      match get p with Some (_, q) => produce 0 q = Some (Ok q) | None => False end
  | _ => False
  end.
Proof. vm_compute. done. Qed.

(** At the top of the counter, one connection more is undefined. *)
Example ex_overflow :
  produce 0 (mkPool 0 (2 ^ 31 - 1) (2 ^ 31 - 2) 100 100 [] [] 0 0) = Some (Fault FUndef).
Proof. reflexivity. Qed.

