(* ===== verification/Sudoku.v ===== *)
(** * The sudoku solver (examples/sudoku/sudoku.h, sudoku.cc)

    Dancing links.  A [Node*] is the node's number in the array [nodes_]; the memory
    maps a field of a node to its value, and a field that was never written is
    undefined.  Loops over rings take fuel, as many turns as there can be nodes. *)

From S2P Require Import Prelude.

(** ** Nodes *)

(** src: examples/sudoku/sudoku.cc:16-24 Node *)
Inductive field := left | right | up | down | col | name | size.

#[export] Instance field_eq_dec : EqDecision field.
Proof. solve_decision. Defined.
#[export] Instance field_countable : Countable field.
Proof.
  refine (inj_countable'
    (fun f => match f with left => 0%nat | right => 1%nat | up => 2%nat | down => 3%nat
                           | col => 4%nat | name => 5%nat | size => 6%nat end)
    (fun n => match n with 0%nat => left | 1%nat => right | 2%nat => up | 3%nat => down
                           | 4%nat => col | 5%nat => name | _ => size end) _).
  by intros [].
Defined.

Abbreviation memory := (gmap (Z * field) Z).

Definition load (f : field) (p : Z) (h : memory) : result Z :=
  match h !! (p, f) with Some v => Ok v | None => Fault FUndef end.
Definition store (f : field) (p v : Z) (h : memory) : result memory :=
  _ ← load f p h; Ok (<[(p, f) := v]> h).

(** src: examples/sudoku/sudoku.h:8-8 kCells *)
Definition kCells : Z := 81.
(** src: examples/sudoku/sudoku.cc:26-26 kMaxNodes *)
Definition kMaxNodes : Z := 1 + 81 * 4 + 9 * 9 * 9 * 4.
(** src: examples/sudoku/sudoku.cc:28-28 kRow *)
Definition kRow : Z := 100.
Definition kCol : Z := 200.
Definition kBox : Z := 300.
(** src: examples/sudoku/sudoku.cc:29-29 kNoSolution *)
Definition kNoSolution : bytes := lit "NoSolution".

(** No ring has more nodes. *)
Definition ring_fuel : nat := Z.to_nat kMaxNodes.

(** [for (p = ...; p != stop; p = p->f) body] *)
Fixpoint for_ring {S : Type} (mem : S -> memory) (fuel : nat) (f : field) (stop p : Z) (body : Z -> S -> result S) (s : S)
    : result S :=
  match fuel with
  | O => Fault FFuel
  | S fuel =>
      if p =? stop then Ok s else
      s ← body p s;
      q ← load f p (mem s);
      for_ring mem fuel f stop q body s
  end.

Abbreviation for_nodes := (for_ring (fun h : memory => h) (S ring_fuel)).

(** ** Covering a column *)

(** One turn of the inner loop: [j] leaves its column.
    src: examples/sudoku/sudoku.cc:204-206 SudokuSolver::cover *)
Definition hide (j : Z) (h : memory) : result memory :=
  d ← load down j h; u ← load up j h; h ← store up d u h;
  u ← load up j h; d ← load down j h; h ← store down u d h;
  c ← load col j h; n ← load size c h; store size c (n - 1) h.

(** src: examples/sudoku/sudoku.cc:199-209 SudokuSolver::cover *)
Definition cover (c : Z) (h : memory) : result memory :=
  r ← load right c h; l ← load left c h; h ← store left r l h;
  l ← load left c h; r ← load right c h; h ← store right l r h;
  row ← load down c h;
  for_nodes down c row (fun row h =>
    j ← load right row h;
    for_nodes right row j hide h) h.

(** src: examples/sudoku/sudoku.cc:214-216 SudokuSolver::uncover *)
Definition unhide (j : Z) (h : memory) : result memory :=
  c ← load col j h; n ← load size c h; h ← store size c (n + 1) h;
  d ← load down j h; h ← store up d j h;
  u ← load up j h; store down u j h.

(** src: examples/sudoku/sudoku.cc:211-221 SudokuSolver::uncover *)
Definition uncover (c : Z) (h : memory) : result memory :=
  row ← load up c h;
  h ← for_nodes up c row (fun row h =>
    j ← load left row h;
    for_nodes left row j unhide h) h;
  r ← load right c h; h ← store left r c h;
  l ← load left c h; store right l c h.

(** src: examples/sudoku/sudoku.cc:223-228 SudokuSolver::put_left *)
Definition put_left (old new : Z) (h : memory) : result memory :=
  l ← load left old h; h ← store left new l h;
  h ← store right new old h;
  l ← load left old h; h ← store right l new h;
  store left old new h.

(** src: examples/sudoku/sudoku.cc:230-237 SudokuSolver::put_up *)
Definition put_up (old new : Z) (h : memory) : result memory :=
  u ← load up old h; h ← store up new u h;
  h ← store down new old h;
  u ← load up old h; h ← store down u new h;
  h ← store up old new h;
  n ← load size old h; h ← store size old (n + 1) h;
  store col new old h.

(** ** The solver *)

(** [columns_] has an entry for the pointers that are not null.
    src: examples/sudoku/sudoku.cc:130-135 SudokuSolver *)
Record SudokuSolver := mkSolver {
  root_ : Z;
  inout_ : list Z;
  columns_ : gmap Z Z;
  stack_ : list Z;
  nodes_ : memory;
  curr_node_ : Z
}.

Definition set_nodes (s : SudokuSolver) (h : memory) : SudokuSolver :=
  mkSolver (root_ s) (inout_ s) (columns_ s) (stack_ s) h (curr_node_ s).
Definition set_stack (s : SudokuSolver) (l : list Z) : SudokuSolver :=
  mkSolver (root_ s) (inout_ s) (columns_ s) l (nodes_ s) (curr_node_ s).
Definition on_nodes (f : memory -> result memory) (s : SudokuSolver) : result SudokuSolver :=
  h ← f (nodes_ s); Ok (set_nodes s h).

(** A node whose fields are all written: [memset] and the assignments after it. *)
Definition fresh_node (p c n : Z) (h : memory) : memory :=
  <[(p, left) := p]> (<[(p, right) := p]> (<[(p, up) := p]> (<[(p, down) := p]>
  (<[(p, col) := c]> (<[(p, name) := n]> (<[(p, size) := 0]> h)))))).

(** src: examples/sudoku/sudoku.cc:137-149 SudokuSolver::new_column *)
Definition new_column (n : Z) (s : SudokuSolver) : result (Z * SudokuSolver) :=
  _ ← assert_ (curr_node_ s <? kMaxNodes);
  let c := curr_node_ s in
  Ok (c, mkSolver (root_ s) (inout_ s) (columns_ s) (stack_ s) (fresh_node c c n (nodes_ s)) (c + 1)).

(** src: examples/sudoku/sudoku.cc:151-157 SudokuSolver::append_column *)
Definition append_column (n : Z) (s : SudokuSolver) : result SudokuSolver :=
  _ ← assert_ (bool_decide (columns_ s !! n = None));
  '(c, s) ← new_column n s;
  s ← on_nodes (put_left (root_ s) c) s;
  Ok (mkSolver (root_ s) (inout_ s) (<[n := c]> (columns_ s)) (stack_ s) (nodes_ s) (curr_node_ s)).

(** src: examples/sudoku/sudoku.cc:159-176 SudokuSolver::new_row *)
Definition new_row (n : Z) (s : SudokuSolver) : result (Z * SudokuSolver) :=
  match columns_ s !! n with
  | None => Fault FAssert
  | Some c =>
      _ ← assert_ (curr_node_ s <? kMaxNodes);
      let r := curr_node_ s in
      h ← put_up c r (fresh_node r c n (nodes_ s));
      Ok (r, mkSolver (root_ s) (inout_ s) (columns_ s) (stack_ s) h (r + 1))
  end.

(** src: examples/sudoku/sudoku.cc:178-178 SudokuSolver::get_row_col *)
Definition get_row_col (row val : Z) : Z := kRow + row * 10 + val.
(** src: examples/sudoku/sudoku.cc:180-180 SudokuSolver::get_col_col *)
Definition get_col_col (col val : Z) : Z := kCol + col * 10 + val.
(** src: examples/sudoku/sudoku.cc:182-182 SudokuSolver::get_box_col *)
Definition get_box_col (box val : Z) : Z := kBox + box * 10 + val.

(** ** Construction *)

(** [for (x : l) body] *)
Fixpoint for_each {A S : Type} (l : list A) (body : A -> S -> result S) (s : S) : result S :=
  match l with
  | [] => Ok s
  | x :: l => s ← body x s; for_each l body s
  end.

(** [from], [from + 1], ... below [to]. *)
Definition range (from to : Z) : list Z := seqZ from (to - from).

Definition row_of (i : Z) : Z := i / 9.
Definition col_of (i : Z) : Z := i mod 9.
Definition box_of (i : Z) : Z := i / 9 / 3 * 3 + i mod 9 / 3.

(** The entries that are true of [rows], [cols] and [boxes]. *)
Record seen := mkSeen { rows : gset (Z * Z); cols : gset (Z * Z); boxes : gset (Z * Z) }.

(** src: examples/sudoku/sudoku.cc:45-53 SudokuSolver::SudokuSolver *)
Definition look (board : list Z) (i : Z) (a : seen) : seen :=
  let val := default 0 (board !! Z.to_nat i) in
  mkSeen ({[(row_of i, val)]} ∪ rows a) ({[(col_of i, val)]} ∪ cols a) ({[(box_of i, val)]} ∪ boxes a).

Definition look_all (board : list Z) : seen :=
  foldl (fun a i => look board i a) (mkSeen ∅ ∅ ∅) (range 0 kCells).

Definition is_empty_cell (board : list Z) (i : Z) : bool := bool_decide (board !! Z.to_nat i = Some 0).

(** src: examples/sudoku/sudoku.cc:55-59 SudokuSolver::SudokuSolver *)
Definition cell_columns (board : list Z) (s : SudokuSolver) : result SudokuSolver :=
  for_each (range 0 kCells) (fun i s => if is_empty_cell board i then append_column i s else Ok s) s.

(** src: examples/sudoku/sudoku.cc:63-65 SudokuSolver::SudokuSolver *)
Definition unit_columns (a : seen) (i v : Z) (s : SudokuSolver) : result SudokuSolver :=
  s ← (if bool_decide ((i, v) ∈ rows a) then Ok s else append_column (get_row_col i v) s);
  s ← (if bool_decide ((i, v) ∈ cols a) then Ok s else append_column (get_col_col i v) s);
  if bool_decide ((i, v) ∈ boxes a) then Ok s else append_column (get_box_col i v) s.

(** src: examples/sudoku/sudoku.cc:61-67 SudokuSolver::SudokuSolver *)
Definition all_unit_columns (a : seen) (s : SudokuSolver) : result SudokuSolver :=
  for_each (range 0 9) (fun i => for_each (range 1 10) (unit_columns a i)) s.

Definition candidate (a : seen) (i v : Z) : bool :=
  negb (bool_decide ((row_of i, v) ∈ rows a) || bool_decide ((col_of i, v) ∈ cols a)
        || bool_decide ((box_of i, v) ∈ boxes a)).

(** src: examples/sudoku/sudoku.cc:77-83 SudokuSolver::SudokuSolver *)
Definition add_row (i v : Z) (s : SudokuSolver) : result SudokuSolver :=
  '(n0, s) ← new_row i s;
  '(nr, s) ← new_row (get_row_col (row_of i) v) s;
  '(nc, s) ← new_row (get_col_col (col_of i) v) s;
  '(nb, s) ← new_row (get_box_col (box_of i) v) s;
  s ← on_nodes (put_left n0 nr) s;
  s ← on_nodes (put_left n0 nc) s;
  on_nodes (put_left n0 nb) s.

(** src: examples/sudoku/sudoku.cc:69-87 SudokuSolver::SudokuSolver *)
Definition all_rows (board : list Z) (a : seen) (s : SudokuSolver) : result SudokuSolver :=
  for_each (range 0 kCells) (fun i s =>
    if is_empty_cell board i then
      for_each (range 1 10) (fun v s => if candidate a i v then add_row i v s else Ok s) s
    else Ok s) s.

(** src: examples/sudoku/sudoku.cc:33-88 SudokuSolver::SudokuSolver *)
Definition SudokuSolver_new (board : list Z) : result SudokuSolver :=
  '(root, s) ← new_column 0 (mkSolver 0 board ∅ [] ∅ 0);
  h ← store right root root (nodes_ s); h ← store left root root h;
  let s := mkSolver root (inout_ s) (columns_ s) (stack_ s) h (curr_node_ s) in
  let a := look_all board in
  s ← cell_columns board s;
  s ← all_unit_columns a s;
  all_rows board a s.

(** ** The search *)

(** src: examples/sudoku/sudoku.cc:188-194 SudokuSolver::get_min_column *)
Fixpoint min_loop (fuel : nat) (root cc c min_size : Z) (h : memory) : result Z :=
  match fuel with
  | O => Fault FFuel
  | S fuel =>
      if cc =? root then Ok c else
      n ← load size cc h;
      if (min_size >? n) && (n <=? 1) then Ok cc else
      next ← load right cc h;
      if min_size >? n then min_loop fuel root next cc n h else min_loop fuel root next c min_size h
  end.

(** src: examples/sudoku/sudoku.cc:184-197 SudokuSolver::get_min_column *)
Definition get_min_column (s : SudokuSolver) : result Z :=
  c ← load right (root_ s) (nodes_ s);
  min_size ← load size c (nodes_ s);
  if min_size >? 1 then
    cc ← load right c (nodes_ s);
    min_loop (S ring_fuel) (root_ s) cc c min_size (nodes_ s)
  else Ok c.

(** src: examples/sudoku/sudoku.cc:96-102 SudokuSolver::solve *)
Fixpoint read_row (fuel : nat) (n cell val : Z) (h : memory) : result (Z * Z) :=
  match fuel with
  | O => Fault FFuel
  | S fuel =>
      if (cell =? -1) || (val =? -1) then
        x ← load name n h;
        next ← load right n h;
        if x <? 100 then read_row fuel next x val h else read_row fuel next cell (Z.rem x 10) h
      else Ok (cell, val)
  end.

(** src: examples/sudoku/sudoku.cc:92-106 SudokuSolver::solve *)
Definition write_rows (s : SudokuSolver) : result SudokuSolver :=
  for_each (stack_ s) (fun n s =>
    '(cell, val) ← read_row (S ring_fuel) n (-1) (-1) (nodes_ s);
    _ ← defined_if ((0 <=? cell) && (cell <? zlen (inout_ s)));
    Ok (mkSolver (root_ s) (<[Z.to_nat cell := val]> (inout_ s)) (columns_ s) (stack_ s) (nodes_ s) (curr_node_ s))) s.

(** src: examples/sudoku/sudoku.cc:112-124 SudokuSolver::solve *)
Fixpoint try_rows (rec : SudokuSolver -> result (bool * SudokuSolver)) (fuel : nat) (c row : Z) (s : SudokuSolver)
    : result (bool * SudokuSolver) :=
  match fuel with
  | O => Fault FFuel
  | S fuel =>
      if row =? c then Ok (false, s) else
      let s := set_stack s (stack_ s ++ [row]) in
      j ← load right row (nodes_ s);
      s ← on_nodes (for_nodes right row j (fun j h => c ← load col j h; cover c h)) s;
      '(found, s) ← rec s;
      if (found : bool) then Ok (true, s) else
      let s := set_stack s (removelast (stack_ s)) in
      j ← load left row (nodes_ s);
      s ← on_nodes (for_nodes left row j (fun j h => c ← load col j h; uncover c h)) s;
      next ← load down row (nodes_ s);
      try_rows rec fuel c next s
  end.

(** [depth] bounds the recursion: each call covers a column.
    src: examples/sudoku/sudoku.cc:90-127 SudokuSolver::solve *)
Fixpoint solve (depth : nat) (s : SudokuSolver) : result (bool * SudokuSolver) :=
  match depth with
  | O => Fault FFuel
  | S depth =>
      l ← load left (root_ s) (nodes_ s);
      if l =? root_ s then s ← write_rows s; Ok (true, s) else
      c ← get_min_column s;
      s ← on_nodes (cover c) s;
      row ← load down c (nodes_ s);
      '(found, s) ← try_rows (solve depth) (S ring_fuel) c row s;
      if (found : bool) then Ok (true, s) else
      s ← on_nodes (uncover c) s;
      Ok (false, s)
  end.

(** ** SolveSudoku *)

(** src: examples/sudoku/sudoku.cc:245-250 SolveSudoku *)
Definition read_board (puzzle : bytes) : list Z := map (fun b => s8 (byte_val b) - 48) puzzle.

(** src: examples/sudoku/sudoku.cc:240-263 SolveSudoku *)
Definition SolveSudoku (puzzle : bytes) : result bytes :=
  _ ← assert_ (zlen puzzle =? kCells);
  let board := read_board puzzle in
  if forallb (fun v => (0 <=? v) && (v <=? 9)) board then
    s ← SudokuSolver_new board;
    '(found, s) ← solve (S ring_fuel) s;
    Ok (if (found : bool) then map (fun v => byte_of_Z (v + 48)) (inout_ s) else kNoSolution)
  else Ok kNoSolution.
