(* ===== verification/DancingLinks.v ===== *)
(** * Dancing links

    The rings of [Sudoku] as linked lists, the matrix they represent, and what
    [cover], [uncover] and [solve] do to it: covering a column is undone exactly,
    and the search decides whether the matrix has an exact cover. *)

From S2P Require Import Prelude Sudoku.

(** ** Memory *)

Lemma load_Some f p h v : h !! (p, f) = Some v -> load f p h = Ok v.
Proof. unfold load. by intros ->. Qed.

Lemma store_Some f p v w h : h !! (p, f) = Some w -> store f p v h = Ok (<[(p, f) := v]> h).
Proof. intros E. unfold store. by rewrite (load_Some _ _ _ _ E), bind_Ok. Qed.

Create HintDb rings.
#[export] Hint Resolve load_Some : rings.

(** ** Linked lists *)

(** From [x] along [a] through [l] to [y], and back along [b]. *)
Fixpoint links (a b : field) (x : Z) (l : list Z) (y : Z) (h : memory) : Prop :=
  match l with
  | [] => h !! (x, a) = Some y /\ h !! (y, b) = Some x
  | z :: l => h !! (x, a) = Some z /\ h !! (z, b) = Some x /\ links a b z l y h
  end.

Lemma links_app a b x l1 z l2 y h :
  links a b x (l1 ++ z :: l2) y h <-> links a b x l1 z h /\ links a b z l2 y h.
Proof. revert x. induction l1 as [|w l1 IH]; intros x; simpl; [tauto|]. rewrite IH. tauto. Qed.

Lemma links_rev a b x l y h : links a b x l y h -> links b a y (rev l) x h.
Proof.
  revert x. induction l as [|z l IH]; intros x; simpl; [tauto|]. intros (H1 & H2 & H3).
  apply links_app. split; [by apply IH|]. by split.
Qed.

(** Only these fields matter. *)
Lemma links_frame a b x l y h h' :
  (forall p, p ∈ x :: l -> h' !! (p, a) = h !! (p, a)) ->
  (forall p, p ∈ l ++ [y] -> h' !! (p, b) = h !! (p, b)) ->
  links a b x l y h -> links a b x l y h'.
Proof.
  revert x. induction l as [|z l IH]; intros x Ha Hb; simpl.
  - intros [H1 H2]. rewrite Ha, Hb by set_solver. done.
  - intros (H1 & H2 & H3). rewrite Ha, Hb by set_solver. split; [done|]. split; [done|].
    apply IH; [|by set_solver|done]. intros p Hp. apply Ha. set_solver.
Qed.

Lemma links_first a b x l y h : links a b x l y h -> h !! (x, a) = Some (hd y l).
Proof. destruct l; simpl; tauto. Qed.

Lemma links_last a b x l y h : links a b x l y h -> h !! (y, b) = Some (default x (last l)).
Proof.
  revert x. induction l as [|z l IH]; intros x; [simpl; tauto|]. intros (_ & _ & H). apply IH in H.
  rewrite H, last_cons. by destruct (last l).
Qed.

Lemma links_next a b x l1 z l2 y h : links a b x (l1 ++ z :: l2) y h -> h !! (z, a) = Some (hd y l2).
Proof. rewrite links_app. intros [_ H]. by eapply links_first. Qed.

(** What is left when the node after [u] is passed over. *)
Lemma links_skip a b u j l y h h' :
  let d := hd y l in
  links a b j l y h -> NoDup l -> y ∉ l -> u ∉ l ->
  h' !! (u, a) = Some d -> h' !! (d, b) = Some u ->
  (forall p, p <> u -> h' !! (p, a) = h !! (p, a)) -> (forall p, p <> d -> h' !! (p, b) = h !! (p, b)) ->
  links a b u l y h'.
Proof.
  intros d Hl Hnd Hy Hu H1 H2 Ha Hb. destruct l as [|w l]; [done|]. simpl in d. subst d. simpl.
  split; [done|]. split; [done|]. apply NoDup_cons in Hnd as [Hw Hnd]. destruct Hl as (_ & _ & Hl).
  apply (links_frame a b w l y h h'); [intros p Hp; apply Ha; set_solver|intros p Hp; apply Hb; set_solver|done].
Qed.

(** [j] between [u] and [d]. *)
Record between (a b : field) (j u d : Z) (h : memory) : Prop := {
  bw_next : h !! (j, a) = Some d;
  bw_prev : h !! (j, b) = Some u;
  bw_from_prev : h !! (u, a) = Some j;
  bw_from_next : h !! (d, b) = Some j;
  bw_u : u <> j;
  bw_d : d <> j
}.

(** Read a field through the writes made so far; execute loads and stores. *)
Ltac mem := repeat first [eassumption | rewrite lookup_insert_eq; reflexivity | rewrite lookup_insert_ne by congruence].
Ltac mem_run := repeat (first [erewrite load_Some by mem | erewrite store_Some by mem]; rewrite ?bind_Ok); try reflexivity.

Lemma links_end a b x l y h : links a b x l y h -> h !! (default x (last l), a) = Some y.
Proof.
  revert x. induction l as [|z l IH]; intros x; [simpl; tauto|]. intros (_ & _ & H). apply IH in H.
  rewrite last_cons. by destruct (last l).
Qed.

(** The last of a ring is no other node. *)
Lemma last_ne (x y : Z) l : y ∉ x :: l -> default x (last l) <> y.
Proof.
  intros [Hx Hl]%not_elem_of_cons. destruct (last l) as [w|] eqn:E; [|by simpl]. simpl. intros ->.
  by apply last_Some_elem_of in E.
Qed.

Lemma last_in (x : Z) l : default x (last l) ∈ x :: l.
Proof. destruct (last l) as [w|] eqn:E; simpl; [right; by apply last_Some_elem_of|left]. Qed.

Lemma hd_in (y : Z) l : hd y l = y \/ hd y l ∈ l.
Proof. destruct l; [by left|right; left]. Qed.

Lemma links_between a b x l1 j l2 y h :
  links a b x l1 j h -> links a b j l2 y h -> j ∉ x :: l1 -> j ∉ y :: l2 ->
  between a b j (default x (last l1)) (hd y l2) h.
Proof.
  intros H1 H2 Hj1 Hj2. split.
  - by eapply links_first.
  - by eapply links_last.
  - by eapply links_end.
  - destruct l2 as [|w l2]; [by apply links_last in H2|]. by destruct H2 as (_ & ? & _).
  - by apply last_ne.
  - destruct (hd_in y l2) as [->|Hd]; [|congruence || (intros E; rewrite E in Hd; apply Hj2; by right)].
    intros ->. apply Hj2. left.
Qed.

(** Passing over [j]: only the two pointers at it change. *)
Lemma links_pass a b x l1 j l2 y h h' :
  let u := default x (last l1) in let d := hd y l2 in
  links a b x l1 j h -> links a b j l2 y h -> NoDup (x :: l1) -> NoDup l2 -> y ∉ l1 ++ l2 -> x ∉ l2 ->
  (forall p, p ∈ l1 -> p ∉ l2) ->
  h' !! (u, a) = Some d -> h' !! (d, b) = Some u ->
  (forall p, p <> u -> h' !! (p, a) = h !! (p, a)) -> (forall p, p <> d -> h' !! (p, b) = h !! (p, b)) ->
  links a b x (l1 ++ l2) y h'.
Proof.
  intros u d H1 H2 N1 N2 Hy Hx Hd12 Hu Hd Ha Hb. apply not_elem_of_app in Hy as [Hy1 Hy2].
  destruct l1 as [|w l1 _] using rev_ind; [by apply (links_skip a b x j l2 y h)|].
  unfold u in *. rewrite last_snoc in *. cbn [default from_option] in *. change (Datatypes.id w) with w in *. clear u.
  apply links_app in H1 as [H1 _]. rewrite <- app_assoc. cbn [app]. apply links_app. apply NoDup_cons in N1 as [Nx N1].
  apply NoDup_app in N1 as (_ & N3 & _).
  assert (forall p, p ∈ x :: l1 -> p <> w) as Hw.
  { intros p [->|Hp]%elem_of_cons ->; [apply Nx, elem_of_app; right; left|]. apply (N3 w Hp). left. }
  assert (forall p, p ∈ l1 ++ [w] -> p <> d) as Hpd.
  { intros p Hp Ep. apply (Hd12 p Hp). destruct (hd_in y l2) as [E|Hin]; [|by rewrite Ep].
    exfalso. apply Hy1. replace y with p; [done|]. by rewrite Ep. }
  split; [|apply (links_skip a b w j l2 y h); try done; apply Hd12, elem_of_app; right; left].
  apply (links_frame a b x l1 w h); [intros p Hp; by apply Ha, Hw|intros p Hp; by apply Hb, Hpd|done].
Qed.

(** A node's neighbours, and the list without it. *)
Lemma links_remove a b x l1 j l2 y h :
  a <> b -> links a b x (l1 ++ j :: l2) y h -> NoDup (l1 ++ j :: l2) -> x ∉ l1 ++ j :: l2 -> y ∉ l1 ++ j :: l2 ->
  exists u d, between a b j u d h /\ (u = x \/ u ∈ l1) /\ (d = y \/ d ∈ l2) /\
    links a b x (l1 ++ l2) y (<[(u, a) := d]> (<[(d, b) := u]> h)).
Proof.
  intros Hab Hl Hnd Hx Hy. apply links_app in Hl as [H1 H2].
  apply not_elem_of_app in Hx as [Hx1 [Hxj Hx2]%not_elem_of_cons], Hy as [Hy1 [Hyj Hy2]%not_elem_of_cons].
  apply NoDup_app in Hnd as (N1 & N2 & [N3 N4]%NoDup_cons).
  exists (default x (last l1)), (hd y l2). split; [|split; [|split; [apply hd_in|]]].
  - apply links_between; [done|done|..]; rewrite not_elem_of_cons; [|by split]. split; [done|]. intros Hin. apply (N2 j Hin). left.
  - apply elem_of_cons, last_in.
  - apply (links_pass a b x l1 j l2 y h); try done.
    + by apply NoDup_cons.
    + by rewrite not_elem_of_app.
    + intros p Hp Hin. apply (N2 p Hp). by right.
    + by rewrite lookup_insert_eq.
    + rewrite lookup_insert_ne by congruence. by rewrite lookup_insert_eq.
    + intros p Hp. by rewrite !lookup_insert_ne by congruence.
    + intros p Hp. by rewrite !lookup_insert_ne by congruence.
Qed.

(** ** Loops *)

(** A loop over a ring visits the rest of the list, when the body leaves the next pointer as
    [R], which speaks of what is left to visit, requires. *)
Lemma for_ring_ok {S : Type} (mem : S -> memory) fuel f stop (body : Z -> S -> result S) (R : list Z -> S -> Prop) l s :
  R l s -> (length l < fuel)%nat -> stop ∉ l ->
  (forall z l' s, R (z :: l') s -> exists s', body z s = Ok s' /\ R l' s' /\ mem s' !! (z, f) = Some (hd stop l')) ->
  exists s', for_ring mem fuel f stop (hd stop l) body s = Ok s' /\ R [] s'.
Proof.
  intros HR Hf Hstop Hbody. revert fuel s HR Hf. induction l as [|z l IH]; intros fuel s HR Hf;
    (destruct fuel as [|fuel]; [simpl in Hf; lia|]); cbn [for_ring hd].
  - rewrite Z.eqb_refl. by exists s.
  - apply not_elem_of_cons in Hstop as [Hz Hl]. rewrite (proj2 (Z.eqb_neq _ _)) by congruence.
    destruct (Hbody z l s HR) as (s1 & E1 & HR1 & Hn). rewrite E1, bind_Ok, (load_Some _ _ _ _ Hn), bind_Ok.
    apply IH; [done|done|simpl in Hf; lia].
Qed.

Lemma for_each_app {A S : Type} (l1 l2 : list A) (body : A -> S -> result S) s :
  for_each (l1 ++ l2) body s = (s ← for_each l1 body s; for_each l2 body s).
Proof. revert s. induction l1 as [|x l1 IH]; intros s; [done|]. simpl. rewrite bind_assoc. by destruct (body x s); [apply IH|]. Qed.

(** ** The matrix *)

(** [N] are the nodes, [colof] the column of each, [others] the rest of its row in the
    order of [right], [nameof] its name; [C] are the columns. *)
Record matrix := mkMatrix {
  mN : list Z;
  mC : list Z;
  mroot : Z;
  colof : Z -> Z;
  nameof : Z -> Z;
  others : Z -> list Z
}.

(** The columns of the row of [n], its own first. *)
Definition row_cols (M : matrix) (n : Z) : list Z := map (colof M) (n :: others M n).

Record matrix_ok (M : matrix) : Prop := {
  mx_cols : NoDup (mroot M :: mC M);
  mx_nodes : NoDup (mN M);
  mx_apart n : n ∈ mN M -> n <> mroot M /\ n ∉ mC M;
  mx_col n : n ∈ mN M -> colof M n ∈ mC M;
  mx_row n : n ∈ mN M -> NoDup (row_cols M n);
  mx_others n k : n ∈ mN M -> k ∈ others M n ->
    k ∈ mN M /\ forall x, x ∈ k :: others M k <-> x ∈ n :: others M n;
  mx_fuel : (length (mN M) + length (mC M) < ring_fuel)%nat
}.

(** What covering does not change. *)
Record static_ok (M : matrix) (h : memory) : Prop := {
  so_col n : n ∈ mN M -> h !! (n, col) = Some (colof M n);
  so_name n : n ∈ mN M -> h !! (n, name) = Some (nameof M n);
  so_row n : n ∈ mN M -> links right left n (others M n) n h
}.

(** [Ls c] are the nodes in the ring of column [c]. *)
Record lists_ok (M : matrix) (Ls : Z -> list Z) : Prop := {
  lk_nodup c : c ∈ mC M -> NoDup (Ls c);
  lk_col c n : c ∈ mC M -> n ∈ Ls c -> n ∈ mN M /\ colof M n = c
}.

Definition columns_ok (M : matrix) (Ls : Z -> list Z) (h : memory) : Prop :=
  forall c, c ∈ mC M -> links down up c (Ls c) c h /\ h !! (c, size) = Some (zlen (Ls c)).

(** Nothing but [up], [down] and [size] differs. *)
Definition same_rows (h h' : memory) : Prop :=
  forall p f, f <> up -> f <> down -> f <> size -> h' !! (p, f) = h !! (p, f).

Lemma same_rows_static M h h' : same_rows h h' -> static_ok M h -> static_ok M h'.
Proof.
  intros Hs [S1 S2 S3]. split; intros n Hn.
  - rewrite Hs by done. by apply S1.
  - rewrite Hs by done. by apply S2.
  - apply (links_frame right left n _ n h); [intros; by apply Hs|intros; by apply Hs|by apply S3].
Qed.

Section Rows.
Context (M : matrix) (Hm : matrix_ok M).

Lemma others_mem n k : n ∈ mN M -> k ∈ others M n -> k ∈ mN M.
Proof. intros Hn Hk. by destruct (mx_others _ Hm n k Hn Hk). Qed.

Lemma others_cols n k : n ∈ mN M -> k ∈ others M n -> forall c, c ∈ row_cols M k <-> c ∈ row_cols M n.
Proof.
  intros Hn Hk c. destruct (mx_others _ Hm n k Hn Hk) as [_ He]. unfold row_cols. rewrite !list_elem_of_fmap.
  split; intros (x & -> & Hx); exists x; (split; [done|]); by apply He.
Qed.

Lemma others_sym n k : n ∈ mN M -> k ∈ others M n -> n ∈ others M k.
Proof.
  intros Hn Hk. destruct (mx_others _ Hm n k Hn Hk) as [HkN He].
  assert (n ∈ k :: others M k) as Hin by (apply He; by left). apply elem_of_cons in Hin as [->|Hin]; [|done].
  pose proof (mx_row _ Hm k HkN) as Hr. apply NoDup_cons in Hr as [Hr _]. exfalso. apply Hr.
  apply list_elem_of_fmap. by exists k.
Qed.

Lemma others_nodup n : n ∈ mN M -> NoDup (n :: others M n).
Proof. intros Hn. pose proof (mx_row _ Hm n Hn) as Hr. by apply NoDup_fmap_1 in Hr. Qed.

(** The node of the row of [n] in column [c]. *)
Lemma row_node n c : n ∈ mN M -> c ∈ row_cols M n ->
  exists k, k ∈ n :: others M n /\ colof M k = c /\ k ∈ mN M.
Proof.
  intros Hn Hc. unfold row_cols in Hc. apply list_elem_of_fmap in Hc as (k & -> & Hk). exists k. split; [done|]. split; [done|].
  apply elem_of_cons in Hk as [->|Hk]; [done|by eapply others_mem].
Qed.
End Rows.

(** ** Taking a node out of its column *)

(** Writing back what was there. *)
Lemma restore_map (h : memory) k1 k2 k3 v1 v2 v3 w1 w2 w3 :
  h !! k1 = Some v1 -> h !! k2 = Some v2 -> h !! k3 = Some v3 ->
  <[k1 := v1]> (<[k2 := v2]> (<[k3 := v3]> (<[k3 := w3]> (<[k1 := w1]> (<[k2 := w2]> h))))) = h.
Proof.
  intros H1 H2 H3. apply map_eq. intros k.
  destruct (decide (k = k1)) as [->|N1]; [by rewrite lookup_insert_eq|]. rewrite lookup_insert_ne by done.
  destruct (decide (k = k2)) as [->|N2]; [by rewrite lookup_insert_eq|]. rewrite lookup_insert_ne by done.
  destruct (decide (k = k3)) as [->|N3]; [by rewrite lookup_insert_eq|]. by rewrite !lookup_insert_ne by done.
Qed.

Section Columns.
Context (M : matrix) (Hm : matrix_ok M).

Lemma col_not_node c n : c ∈ mC M -> n ∈ mN M -> c <> n.
Proof. intros Hc Hn ->. by destruct (mx_apart _ Hm n Hn). Qed.

(** The nodes of a ring belong to no other ring. *)
Lemma ring_apart Ls c c' x :
  lists_ok M Ls -> c ∈ mC M -> c' ∈ mC M -> c <> c' -> x ∈ c :: Ls c -> x ∉ c' :: Ls c'.
Proof.
  intros [_ Hl] Hc Hc' Hne Hx Hx'. apply elem_of_cons in Hx as [->|Hx], Hx' as [Hx'|Hx']; try done.
  - destruct (Hl c' c Hc' Hx') as [Hn _]. by apply (col_not_node c c).
  - subst x. destruct (Hl c c' Hc Hx) as [Hn _]. by apply (col_not_node c' c').
  - destruct (Hl c x Hc Hx) as [_ E], (Hl c' x Hc' Hx') as [_ E']. congruence.
Qed.

Definition without (js : list Z) (Ls : Z -> list Z) (c : Z) : list Z := filter (fun n => n ∉ js) (Ls c).

Lemma without_ok js Ls : lists_ok M Ls -> lists_ok M (without js Ls).
Proof.
  intros [H1 H2]. split.
  - intros c Hc. by apply NoDup_filter, H1.
  - intros c n Hc [_ Hn]%list_elem_of_filter. by apply H2.
Qed.

Lemma without_one Ls j l1 l2 :
  Ls (colof M j) = l1 ++ j :: l2 -> NoDup (l1 ++ j :: l2) -> without [j] Ls (colof M j) = l1 ++ l2.
Proof.
  intros E Hnd. unfold without. rewrite E. apply NoDup_app in Hnd as (_ & N2 & N3).
  apply NoDup_cons in N3 as [N3 _]. rewrite filter_app, filter_cons_False by (intros H; apply H; by left).
  rewrite !filter_all; [done| |]; intros x Hx Hin%list_elem_of_singleton; subst x; [done|].
  apply (N2 j Hx). by left.
Qed.

Lemma without_other Ls j c : lists_ok M Ls -> c ∈ mC M -> c <> colof M j -> without [j] Ls c = Ls c.
Proof.
  intros [_ Hl] Hc Hne. apply filter_all. intros x Hx ->%list_elem_of_singleton. destruct (Hl c j Hc Hx). congruence.
Qed.

(** Executed: [j] out of its column, and back. *)
Definition hide_at (j u d c n : Z) (h : memory) : memory :=
  <[(c, size) := n - 1]> (<[(u, down) := d]> (<[(d, up) := u]> h)).

Lemma hide_run j u d c n h :
  between down up j u d h -> h !! (j, col) = Some c -> h !! (c, size) = Some n ->
  hide j h = Ok (hide_at j u d c n h) /\ unhide j (hide_at j u d c n h) = Ok h.
Proof.
  intros [D1 D2 D3 D4 D5 D6] Hc Hn. unfold hide_at. split.
  - unfold hide. mem_run.
  - unfold unhide. mem_run. replace (n - 1 + 1) with n by lia. f_equal. by apply restore_map.
Qed.

Lemma hide_columns Ls j l1 l2 u d n h :
  let c := colof M j in
  lists_ok M Ls -> columns_ok M Ls h -> c ∈ mC M -> Ls c = l1 ++ j :: l2 -> (u = c \/ u ∈ l1) -> (d = c \/ d ∈ l2) ->
  n = zlen (Ls c) -> links down up c (l1 ++ l2) c (<[(u, down) := d]> (<[(d, up) := u]> h)) ->
  columns_ok M (without [j] Ls) (hide_at j u d c n h).
Proof.
  intros c Hl Hv Hc E Hu Hd -> Hring c' Hc'. pose proof (lk_nodup _ _ Hl c Hc) as Hnd. rewrite E in Hnd.
  unfold hide_at. destruct (decide (c' = c)) as [->|Hne].
  - assert (without [j] Ls c = l1 ++ l2) as -> by (by apply without_one). split.
    + eapply links_frame; [intros p _|intros p _|exact Hring]; by rewrite lookup_insert_ne by congruence.
    + rewrite lookup_insert_eq, E, !length_app. simpl. f_equal. lia.
  - rewrite (without_other Ls j c' Hl Hc' Hne). destruct (Hv c' Hc') as [Hr' Hs'].
    assert (u ∉ c' :: Ls c' /\ d ∉ c' :: Ls c') as [Hu' Hd'].
    { split; apply (ring_apart Ls c c' _ Hl Hc Hc' ltac:(done)); rewrite E, elem_of_cons, elem_of_app, elem_of_cons; tauto. }
    apply not_elem_of_cons in Hu' as [Hu1 Hu2], Hd' as [Hd1 Hd2]. split; [|by rewrite !lookup_insert_ne by congruence].
    apply (links_frame down up c' (Ls c') c' h); [intros p Hp|intros p Hp|done].
    + apply elem_of_cons in Hp as [->|Hp]; by rewrite !lookup_insert_ne by congruence.
    + apply elem_of_app in Hp as [Hp|Hp%list_elem_of_singleton]; [|subst p]; by rewrite !lookup_insert_ne by congruence.
Qed.

Lemma hide_ok Ls j h :
  static_ok M h -> lists_ok M Ls -> columns_ok M Ls h -> colof M j ∈ mC M -> j ∈ Ls (colof M j) ->
  exists h', hide j h = Ok h' /\ columns_ok M (without [j] Ls) h' /\ same_rows h h' /\ unhide j h' = Ok h.
Proof.
  intros Hs Hl Hv Hc Hj. set (c := colof M j) in *. destruct (lk_col _ _ Hl c j Hc Hj) as [HjN _].
  pose proof (lk_nodup _ _ Hl c Hc) as Hnd. destruct (list_elem_of_split _ _ Hj) as (l1 & l2 & E).
  destruct (Hv c Hc) as [Hring Hsize]. rewrite E in Hring, Hnd.
  assert (c ∉ l1 ++ j :: l2) as Hcl.
  { rewrite <- E. intros Hin. destruct (lk_col _ _ Hl c c Hc Hin) as [Hn _]. by apply (col_not_node c c). }
  destruct (links_remove down up c l1 j l2 c h ltac:(done) Hring Hnd Hcl Hcl) as (u & d & Hb & Hu & Hd & Hring').
  destruct (hide_run j u d c (zlen (Ls c)) h Hb (so_col _ _ Hs j HjN) Hsize) as [R1 R2].
  exists (hide_at j u d c (zlen (Ls c)) h). split; [done|]. split; [by apply (hide_columns Ls j l1 l2)|]. split; [|done].
  intros p f F1 F2 F3. unfold hide_at. by rewrite !lookup_insert_ne by congruence.
Qed.

Lemma columns_ok_ext Ls Ls' h : (forall c, c ∈ mC M -> Ls c = Ls' c) -> columns_ok M Ls h -> columns_ok M Ls' h.
Proof. intros E Hv c Hc. rewrite <- E by done. by apply Hv. Qed.

Lemma without_cons j js Ls c : without js (without [j] Ls) c = without (j :: js) Ls c.
Proof. unfold without. rewrite list_filter_filter. apply list_filter_iff. intros x. set_solver. Qed.

Lemma hide_all_ok js Ls h :
  static_ok M h -> lists_ok M Ls -> columns_ok M Ls h -> NoDup js ->
  (forall j, j ∈ js -> j ∈ mN M /\ j ∈ Ls (colof M j)) ->
  exists h', for_each js hide h = Ok h' /\ columns_ok M (without js Ls) h' /\ same_rows h h' /\
    for_each (rev js) unhide h' = Ok h.
Proof.
  revert Ls h. induction js as [|j js IH]; intros Ls h Hs Hl Hv Hnd Hj.
  - exists h. split; [done|]. split; [|done]. apply (columns_ok_ext Ls); [|done]. intros c Hc.
    symmetry. apply filter_all. intros x _ Hx. by apply not_elem_of_nil in Hx.
  - apply NoDup_cons in Hnd as [Hjs Hnd]. destruct (Hj j) as [HjN HjL]; [by left|].
    destruct (hide_ok Ls j h Hs Hl Hv (mx_col _ Hm j HjN) HjL) as (h1 & E1 & Hv1 & Hs1 & U1).
    destruct (IH (without [j] Ls) h1) as (h' & E & Hv' & Hs' & U).
    + by apply (same_rows_static M h).
    + by apply without_ok.
    + done.
    + done.
    + intros k Hk. destruct (Hj k) as [HkN HkL]; [by right|]. split; [done|].
      apply list_elem_of_filter. split; [|done]. intros ->%list_elem_of_singleton. done.
    + exists h'. cbn [for_each]. rewrite E1, bind_Ok. split; [done|]. split; [|split].
      * apply (columns_ok_ext (without js (without [j] Ls))); [|done]. intros c _. apply without_cons.
      * intros p f F1 F2 F3. rewrite Hs' by done. by apply Hs1.
      * cbn [rev]. rewrite for_each_app, U, bind_Ok. cbn [for_each]. by rewrite U1, bind_Ok.
Qed.
End Columns.

(** ** Loops over rows *)

Lemma for_each_prefix {A S : Type} (l1 l2 : list A) (body : A -> S -> result S) s s' :
  for_each (l1 ++ l2) body s = Ok s' -> exists s1, for_each l1 body s = Ok s1 /\ for_each l2 body s1 = Ok s'.
Proof. rewrite for_each_app. intros (s1 & H1 & H2)%bind_Ok_inv. by exists s1. Qed.

Lemma for_ring_each {S : Type} (mem : S -> memory) fuel f stop l (body : Z -> S -> result S) s s' :
  for_each l body s = Ok s' -> (length l < fuel)%nat -> stop ∉ l ->
  (forall l1 z l2 s1, l = l1 ++ z :: l2 -> for_each (l1 ++ [z]) body s = Ok s1 ->
     mem s1 !! (z, f) = Some (hd stop l2)) ->
  for_ring mem fuel f stop (hd stop l) body s = Ok s'.
Proof.
  intros E Hf Hstop Hnext.
  destruct (for_ring_ok mem fuel f stop body
    (fun l2 s1 => exists l1, l = l1 ++ l2 /\ for_each l1 body s = Ok s1) l s) as (s2 & E2 & l1 & El & E3).
  - by exists [].
  - done.
  - done.
  - intros z l2 s1 (l1 & El & E1).
    pose proof E as E'. rewrite El in E'. replace (l1 ++ z :: l2) with ((l1 ++ [z]) ++ l2) in E' by (by rewrite <- app_assoc).
    apply for_each_prefix in E' as (s2 & E2 & _). pose proof E2 as E2'. rewrite for_each_app, E1, bind_Ok in E2.
    cbn [for_each] in E2. apply bind_Ok_inv in E2 as (s3 & E2 & [= ->]).
    exists s2. split; [done|]. split; [exists (l1 ++ [z]); split; [by rewrite <- app_assoc|done]|].
    by apply (Hnext l1 z l2 s2).
  - rewrite app_nil_r in El. subst l1. congruence.
Qed.

Lemma same_rows_trans h1 h2 h3 : same_rows h1 h2 -> same_rows h2 h3 -> same_rows h1 h3.
Proof. intros H1 H2 p f F1 F2 F3. rewrite H2 by done. by apply H1. Qed.

Lemma store_same f p v h h' : f = up \/ f = down \/ f = size -> store f p v h = Ok h' -> same_rows h h'.
Proof.
  intros Hf. unfold store. intros (w & _ & [= <-])%bind_Ok_inv q g F1 F2 F3.
  rewrite lookup_insert_ne; [done|]. intros [= _ ->]. naive_solver.
Qed.

Ltac store_chain := repeat match goal with
  | H : (_ ≫= _) = Ok _ |- _ => apply bind_Ok_inv in H as (? & ? & H)
  | H : store _ _ _ ?h = Ok ?h' |- _ => apply store_same in H; [|tauto]
  end.

Lemma hide_same j h h' : hide j h = Ok h' -> same_rows h h'.
Proof. unfold hide. intros E. store_chain. eauto using same_rows_trans. Qed.

Lemma unhide_same j h h' : unhide j h = Ok h' -> same_rows h h'.
Proof. unfold unhide. intros E. store_chain. eauto using same_rows_trans. Qed.

Lemma for_each_same (body : Z -> memory -> result memory) l h h' :
  (forall x h h', body x h = Ok h' -> same_rows h h') -> for_each l body h = Ok h' -> same_rows h h'.
Proof.
  intros Hb. revert h. induction l as [|x l IH]; intros h; cbn [for_each]; [by intros [= <-]|].
  intros (h1 & E1 & E2)%bind_Ok_inv. apply (same_rows_trans _ h1); [by eapply Hb|by apply IH].
Qed.

Lemma elem_of_rev (x : Z) l : x ∈ rev l <-> x ∈ l.
Proof. rewrite !list_elem_of_In. symmetry. apply in_rev. Qed.

Lemma NoDup_concat_map (f : Z -> list Z) l :
  NoDup l -> (forall n, n ∈ l -> NoDup (f n)) ->
  (forall n n', n ∈ l -> n' ∈ l -> n <> n' -> forall x, x ∈ f n -> x ∉ f n') -> NoDup (concat (map f l)).
Proof.
  induction l as [|n l IH]; intros Hl Hf Hd; [constructor|]. apply NoDup_cons in Hl as [Hn Hl]. simpl.
  apply NoDup_app. split; [apply Hf; by left|]. split.
  - intros x Hx Hin. apply list_elem_of_In, in_concat in Hin as (y & Hy & Hxy).
    apply in_map_iff in Hy as (n' & <- & Hn'). apply list_elem_of_In in Hn', Hxy.
    refine (Hd n n' _ _ _ x Hx Hxy); [by left|by right|by intros ->].
  - apply IH; [done|intros k Hk; apply Hf; by right|].
    intros k k' Hk Hk'. apply Hd; by right.
Qed.

Section Covering.
Context (M : matrix) (Hm : matrix_ok M).

Lemma others_short n : n ∈ mN M -> (length (others M n) < S ring_fuel)%nat.
Proof.
  intros Hn. pose proof (mx_fuel _ Hm). assert (length (others M n) <= length (mN M))%nat; [|lia].
  apply submseteq_length, NoDup_submseteq.
  - pose proof (others_nodup M Hm n Hn) as Hnd. by apply NoDup_cons in Hnd as [_ Hnd].
  - intros k Hk. by eapply others_mem.
Qed.

(** A walk over the rest of a row is a loop over [others], while the rows are in place. *)
Lemma row_right (n : Z) (body : Z -> memory -> result memory) (h h' : memory) :
  n ∈ mN M -> for_each (others M n) body h = Ok h' ->
  (forall l1 h1, l1 `prefix_of` others M n -> for_each l1 body h = Ok h1 -> static_ok M h1) ->
  (j ← load right n h; for_nodes right n j body h) = Ok h'.
Proof.
  intros Hn E Hs. assert (static_ok M h) as H0 by (apply (Hs []); [apply prefix_nil|done]).
  rewrite (load_Some _ _ _ _ (links_first _ _ _ _ _ _ (so_row _ _ H0 n Hn))), bind_Ok.
  apply for_ring_each; [done|by apply others_short| |].
  - pose proof (others_nodup M Hm n Hn) as Hnd. by apply NoDup_cons in Hnd as [Hnd _].
  - intros l1 z l2 h1 El E1. assert (static_ok M h1) as Hs1.
    { apply (Hs (l1 ++ [z])); [|done]. exists l2. by rewrite El, <- app_assoc. }
    pose proof (so_row _ _ Hs1 n Hn) as Hr. rewrite El in Hr. by eapply links_next.
Qed.

Lemma row_left (n : Z) (body : Z -> memory -> result memory) (h h' : memory) :
  n ∈ mN M -> for_each (rev (others M n)) body h = Ok h' ->
  (forall l1 h1, l1 `prefix_of` rev (others M n) -> for_each l1 body h = Ok h1 -> static_ok M h1) ->
  (j ← load left n h; for_nodes left n j body h) = Ok h'.
Proof.
  intros Hn E Hs. assert (static_ok M h) as H0 by (apply (Hs []); [apply prefix_nil|done]).
  rewrite (load_Some _ _ _ _ (links_first _ _ _ _ _ _ (links_rev _ _ _ _ _ _ (so_row _ _ H0 n Hn)))), bind_Ok.
  apply for_ring_each; [done| | |].
  - rewrite length_rev. by apply others_short.
  - rewrite elem_of_rev. pose proof (others_nodup M Hm n Hn) as Hnd. by apply NoDup_cons in Hnd as [Hnd _].
  - intros l1 z l2 h1 El E1. assert (static_ok M h1) as Hs1.
    { apply (Hs (l1 ++ [z])); [|done]. exists l2. by rewrite El, <- app_assoc. }
    pose proof (links_rev _ _ _ _ _ _ (so_row _ _ Hs1 n Hn)) as Hr. rewrite El in Hr. by eapply links_next.
Qed.

Definition hide_row (row : Z) (h : memory) : result memory :=
  j ← load right row h; for_nodes right row j hide h.
Definition unhide_row (row : Z) (h : memory) : result memory :=
  j ← load left row h; for_nodes left row j unhide h.

Lemma static_each (body : Z -> memory -> result memory) l h h' :
  (forall x h h', body x h = Ok h' -> same_rows h h') -> static_ok M h -> for_each l body h = Ok h' -> static_ok M h'.
Proof. intros Hb Hs E. apply (same_rows_static M h); [|done]. by eapply for_each_same. Qed.

Lemma hide_rows_each rows h h' :
  static_ok M h -> (forall n, n ∈ rows -> n ∈ mN M) ->
  for_each (concat (map (others M) rows)) hide h = Ok h' -> for_each rows hide_row h = Ok h'.
Proof.
  revert h. induction rows as [|n rows IH]; intros h Hs Hin E; [done|]. simpl in E.
  apply for_each_prefix in E as (h1 & E1 & E2). cbn [for_each].
  assert (hide_row n h = Ok h1) as ->.
  { apply row_right; [apply Hin; by left|done|intros l1 h2 _; apply static_each; [apply hide_same|done]]. }
  rewrite bind_Ok. apply IH; [|intros k Hk; apply Hin; by right|done]. by apply (static_each hide (others M n) h); [apply hide_same|..].
Qed.

Lemma unhide_rows_each rows h h' :
  static_ok M h -> (forall n, n ∈ rows -> n ∈ mN M) ->
  for_each (concat (map (fun n => rev (others M n)) rows)) unhide h = Ok h' -> for_each rows unhide_row h = Ok h'.
Proof.
  revert h. induction rows as [|n rows IH]; intros h Hs Hin E; [done|]. simpl in E.
  apply for_each_prefix in E as (h1 & E1 & E2). cbn [for_each].
  assert (unhide_row n h = Ok h1) as ->.
  { apply row_left; [apply Hin; by left|done|intros l1 h2 _; apply static_each; [apply unhide_same|done]]. }
  rewrite bind_Ok. apply IH; [|intros k Hk; apply Hin; by right|done].
  by apply (static_each unhide (rev (others M n)) h); [apply unhide_same|..].
Qed.

Lemma rev_concat_others rows :
  rev (concat (map (others M) rows)) = concat (map (fun n => rev (others M n)) (rev rows)).
Proof.
  induction rows as [|n rows IH]; [done|]. simpl. rewrite rev_app_distr, IH, map_app, concat_app. simpl. by rewrite app_nil_r.
Qed.

(** ** The matrix left when columns are covered *)

(** The rings when the columns of [K] have been covered, the last first: that of a
    covered column stays as it was then; the others lose the rows that meet it. *)
Fixpoint lists (K : list Z) (c : Z) : list Z :=
  match K with
  | [] => filter (fun n => colof M n = c) (mN M)
  | k :: K' => if decide (c ∈ k :: K') then lists K' c else filter (fun n => k ∉ row_cols M n) (lists K' c)
  end.

Definition active (K : list Z) : list Z := filter (fun c => c ∉ K) (mC M).

Record inv (K : list Z) (h : memory) : Prop := {
  iv_static : static_ok M h;
  iv_head : links right left (mroot M) (active K) (mroot M) h;
  iv_columns : columns_ok M (lists K) h
}.

Lemma lists_in K c n :
  c ∉ K -> n ∈ lists K c <-> n ∈ mN M /\ colof M n = c /\ forall k, k ∈ K -> k ∉ row_cols M n.
Proof.
  induction K as [|k K IH]; intros Hc; cbn [lists].
  - rewrite list_elem_of_filter. split; [intros [? ?]; split; [done|]; split; [done|]; intros k Hk; by apply not_elem_of_nil in Hk|tauto].
  - rewrite decide_False by done. apply not_elem_of_cons in Hc as [Hck Hc].
    rewrite list_elem_of_filter, (IH Hc). split.
    + intros (H1 & H2 & H3 & H4). split; [done|]. split; [done|]. intros x [->|Hx]%elem_of_cons; [done|by apply H4].
    + intros (H1 & H2 & H3). split; [apply H3; by left|]. split; [done|]. split; [done|]. intros x Hx. apply H3. by right.
Qed.

Lemma lists_lists_ok K : lists_ok M (lists K).
Proof.
  split.
  - intros c _. induction K as [|k K IH]; cbn [lists]; [apply NoDup_filter, Hm|]. case_decide; [done|by apply NoDup_filter].
  - intros c n _. induction K as [|k K IH]; cbn [lists].
    + intros [-> Hn]%list_elem_of_filter. done.
    + case_decide; [done|]. intros [_ Hn]%list_elem_of_filter. by apply IH.
Qed.

Section OneColumn.
Context (K : list Z) (c : Z) (Hc : c ∈ mC M) (HcK : c ∉ K).
Abbreviation column_rows := (lists K c).
Abbreviation hidden := (concat (map (others M) column_rows)).

Lemma hidden_in j : j ∈ hidden <-> exists n, n ∈ column_rows /\ j ∈ others M n.
Proof.
  rewrite list_elem_of_In, in_concat. setoid_rewrite in_map_iff. setoid_rewrite <- list_elem_of_In. naive_solver.
Qed.

Lemma column_row n : n ∈ column_rows -> n ∈ mN M /\ colof M n = c /\ forall k, k ∈ K -> k ∉ row_cols M n.
Proof. by apply lists_in. Qed.

Lemma hidden_linked j : j ∈ hidden -> j ∈ mN M /\ j ∈ lists K (colof M j) /\ colof M j ∉ K /\ colof M j <> c /\ c ∈ row_cols M j.
Proof.
  rewrite hidden_in. intros (n & Hn & Hj). destruct (column_row n Hn) as (HnN & Ec & HK).
  pose proof (others_mem M Hm n j HnN Hj) as HjN. pose proof (others_cols M Hm n j HnN Hj) as Hrc.
  assert (colof M j ∉ K) as HjK.
  { intros Hin. apply (HK _ Hin), Hrc. left. }
  assert (c ∈ row_cols M j) as Hcj by (apply Hrc; rewrite <- Ec; left).
  split; [done|]. split; [|split; [done|split; [|done]]].
  - apply lists_in; [done|]. split; [done|]. split; [done|]. intros k Hk. rewrite Hrc. by apply HK.
  - intros E. pose proof (mx_row _ Hm n HnN) as Hnd. unfold row_cols in Hnd. cbn [map] in Hnd.
    apply NoDup_cons in Hnd as [Hnd _]. apply Hnd. rewrite Ec, <- E. apply list_elem_of_fmap. by exists j.
Qed.

(** Two nodes of one column are not in one row. *)
Lemma same_row_same n n' : n ∈ column_rows -> n' ∈ column_rows -> n' ∈ n :: others M n -> n = n'.
Proof.
  intros Hn Hn' [->|Hin]%elem_of_cons; [done|]. exfalso.
  destruct (column_row n' Hn') as (_ & E' & _). assert (n' ∈ hidden) as Hh by (apply hidden_in; by exists n).
  by destruct (hidden_linked n' Hh) as (_ & _ & _ & ? & _).
Qed.

Lemma hidden_nodup : NoDup hidden.
Proof.
  apply NoDup_concat_map.
  - by apply lists_lists_ok.
  - intros n Hn. destruct (column_row n Hn) as (HnN & _). pose proof (others_nodup M Hm n HnN) as Hnd.
    by apply NoDup_cons in Hnd as [_ Hnd].
  - intros n n' Hn Hn' Hne j Hj Hj'. apply Hne.
    destruct (column_row n Hn) as (HnN & _), (column_row n' Hn') as (HnN' & _).
    destruct (mx_others _ Hm n j HnN Hj) as [_ E], (mx_others _ Hm n' j HnN' Hj') as [_ E'].
    apply same_row_same; [done|done|]. apply E, E'. left.
Qed.

(** The rings after the column is covered. *)
Lemma lists_cover d : d ∈ mC M -> without hidden (lists K) d = lists (c :: K) d.
Proof.
  intros Hd. cbn [lists]. unfold without. case_decide as Hin.
  - apply filter_all. intros n Hn Hh. destruct (hidden_linked n Hh) as (_ & _ & H1 & H2 & _).
    destruct (lk_col _ _ (lists_lists_ok K) d n Hd Hn) as [_ <-]. by apply elem_of_cons in Hin as [?|?].
  - apply not_elem_of_cons in Hin as [Hdc HdK]. apply filter_ext_in. intros n Hn.
    apply lists_in in Hn as (HnN & En & HK); [|done]. split.
    + intros Hh Hrc. apply Hh. destruct (row_node M Hm n c HnN Hrc) as (k & Hk & Ek & HkN).
      apply elem_of_cons in Hk as [->|Hk]; [congruence|]. apply hidden_in. exists k. split.
      * apply lists_in; [done|]. split; [done|]. split; [done|]. intros x Hx. rewrite (others_cols M Hm n k HnN Hk). by apply HK.
      * by apply others_sym.
    + intros Hrc Hh. by destruct (hidden_linked n Hh) as (_ & _ & _ & _ & ?).
Qed.

(** Its own ring, at any moment of the loop. *)
Lemma column_stays js : (forall j, j ∈ js -> j ∈ hidden) -> without js (lists K) c = column_rows.
Proof.
  intros Hjs. apply filter_all. intros n Hn Hin. destruct (column_row n Hn) as (_ & E & _).
  by destruct (hidden_linked n (Hjs n Hin)) as (_ & _ & _ & ? & _).
Qed.

(** *** The header *)

Definition unlink (h : memory) : result memory :=
  r ← load right c h; l ← load left c h; h ← store left r l h;
  l ← load left c h; r ← load right c h; store right l r h.
Definition relink (h : memory) : result memory :=
  r ← load right c h; h ← store left r c h; l ← load left c h; store right l c h.

Lemma active_mem d : d ∈ active K <-> d ∈ mC M /\ d ∉ K.
Proof. unfold active. rewrite list_elem_of_filter. tauto. Qed.

Lemma active_nodup : NoDup (active K) /\ mroot M ∉ active K.
Proof.
  pose proof (mx_cols _ Hm) as Hnd. apply NoDup_cons in Hnd as [Hr Hnd]. split; [by apply NoDup_filter|].
  rewrite active_mem. tauto.
Qed.

Lemma active_split : exists l1 l2, active K = l1 ++ c :: l2 /\ active (c :: K) = l1 ++ l2.
Proof.
  destruct (list_elem_of_split (active K) c) as (l1 & l2 & E); [by apply active_mem|]. exists l1, l2. split; [done|].
  assert (active (c :: K) = filter (fun d => d <> c) (active K)) as ->.
  { unfold active. rewrite list_filter_filter. apply filter_ext_in. intros x _. rewrite not_elem_of_cons. tauto. }
  destruct active_nodup as [Hnd _]. rewrite E in *. apply NoDup_app in Hnd as (_ & N2 & N3). apply NoDup_cons in N3 as [N3 _].
  rewrite filter_app, filter_cons_False by (intros He; by apply He).
  rewrite !filter_all; [done| |]; intros x Hx ->; [done|]. apply (N2 c Hx). left.
Qed.

Lemma restore_two (h : memory) k1 k2 v1 v2 w1 w2 :
  h !! k1 = Some v1 -> h !! k2 = Some v2 -> <[k1 := v1]> (<[k2 := v2]> (<[k1 := w1]> (<[k2 := w2]> h))) = h.
Proof.
  intros H1 H2. apply map_eq. intros k.
  destruct (decide (k = k1)) as [->|N1]; [by rewrite lookup_insert_eq|]. rewrite lookup_insert_ne by done.
  destruct (decide (k = k2)) as [->|N2]; [by rewrite lookup_insert_eq|]. by rewrite !lookup_insert_ne by done.
Qed.

Lemma relink_unlink u d h :
  between right left c u d h -> let h' := <[(u, right) := d]> (<[(d, left) := u]> h) in
  unlink h = Ok h' /\ relink h' = Ok h.
Proof.
  intros [D1 D2 D3 D4 D5 D6]. cbv zeta. split; [unfold unlink; mem_run|].
  unfold relink. mem_run. f_equal. by apply restore_two.
Qed.

(** Writing [left] and [right] of columns leaves the rows. *)
Lemma static_head u d h :
  static_ok M h -> u ∉ mN M -> d ∉ mN M -> static_ok M (<[(u, right) := d]> (<[(d, left) := u]> h)).
Proof.
  intros [S1 S2 S3] Hu Hd. split; intros n Hn.
  - rewrite !lookup_insert_ne by congruence. by apply S1.
  - rewrite !lookup_insert_ne by congruence. by apply S2.
  - assert (Hrow : forall p, p ∈ n :: others M n -> p <> u /\ p <> d).
    { intros p Hp. assert (p ∈ mN M); [|split; congruence]. apply elem_of_cons in Hp as [->|Hp]; [done|by eapply others_mem]. }
    apply (links_frame right left n _ n h); [intros p Hp|intros p Hp|by apply S3].
    + destruct (Hrow p Hp). by rewrite !lookup_insert_ne by congruence.
    + destruct (Hrow p); [apply elem_of_app in Hp as [Hp|Hp%list_elem_of_singleton]; [by right|subst; left]|].
      by rewrite !lookup_insert_ne by congruence.
Qed.

Lemma unlink_ok h :
  inv K h -> exists h1, unlink h = Ok h1 /\ static_ok M h1 /\ columns_ok M (lists K) h1 /\
    links right left (mroot M) (active (c :: K)) (mroot M) h1 /\ relink h1 = Ok h.
Proof.
  intros [Hs Hh Hv]. destruct active_split as (l1 & l2 & E & E'). destruct active_nodup as [Hnd Hr]. rewrite E in Hh, Hnd, Hr.
  destruct (links_remove right left (mroot M) l1 c l2 (mroot M) h ltac:(done) Hh Hnd Hr Hr) as (u & d & Hb & Hu & Hd & Hring).
  destruct (relink_unlink u d h Hb) as [R1 R2].
  assert (forall x, x = mroot M \/ x ∈ active K -> x ∉ mN M) as Hx.
  { intros x Hx Hn. destruct (mx_apart _ Hm x Hn) as [? HnC]. destruct Hx as [->|[? _]%active_mem]; done. }
  rewrite E in Hx. setoid_rewrite elem_of_app in Hx. setoid_rewrite elem_of_cons in Hx.
  exists (<[(u, right) := d]> (<[(d, left) := u]> h)). split; [done|]. split; [apply static_head; [done|apply Hx; tauto..]|].
  split; [|by rewrite E']. intros c' Hc'. destruct (Hv c' Hc') as [V1 V2]. split.
  - apply (links_frame down up c' _ c' h); [intros p _|intros p _|done]; by rewrite !lookup_insert_ne by congruence.
  - by rewrite !lookup_insert_ne by congruence.
Qed.

(** *** Covering and uncovering *)

Lemma cover_split h :
  cover c h = (h ← unlink h; row ← load down c h; for_nodes down c row hide_row h).
Proof.
  unfold cover, unlink. destruct (load right c h); [|done]. rewrite !bind_Ok.
  destruct (load left c h); [|done]. rewrite !bind_Ok. destruct (store left _ _ h) as [h1|]; [|done]. rewrite !bind_Ok.
  destruct (load left c h1); [|done]. rewrite !bind_Ok. by destruct (load right c h1).
Qed.

Lemma column_short : (length column_rows < S ring_fuel)%nat.
Proof.
  pose proof (mx_fuel _ Hm). assert (length column_rows <= length (mN M))%nat; [|lia].
  apply submseteq_length, NoDup_submseteq; [by apply lists_lists_ok|]. intros n Hn. by destruct (column_row n Hn).
Qed.

Lemma column_not_in : c ∉ column_rows.
Proof. intros Hin. destruct (column_row c Hin) as (HcN & _). by apply (col_not_node M Hm c c). Qed.

Lemma hidden_prefix rows1 rows2 j :
  column_rows = rows1 ++ rows2 -> j ∈ concat (map (others M) rows1) -> j ∈ hidden.
Proof. intros -> Hj. rewrite map_app, concat_app. apply elem_of_app. by left. Qed.

(** The memory after the rows of a prefix are hidden. *)
Lemma hide_prefix h rows1 rows2 :
  static_ok M h -> columns_ok M (lists K) h -> column_rows = rows1 ++ rows2 ->
  exists h', for_each (concat (map (others M) rows1)) hide h = Ok h' /\
    columns_ok M (without (concat (map (others M) rows1)) (lists K)) h' /\ same_rows h h' /\
    for_each (rev (concat (map (others M) rows1))) unhide h' = Ok h /\
    links down up c column_rows c h'.
Proof.
  intros Hs Hv E. destruct (hide_all_ok M Hm (concat (map (others M) rows1)) (lists K) h) as (h' & E1 & V & S & U); try done.
  - apply lists_lists_ok.
  - pose proof hidden_nodup as Hnd. rewrite E, map_app, concat_app in Hnd. by apply NoDup_app in Hnd as [Hnd _].
  - intros j Hj. destruct (hidden_linked j) as (? & ? & _); [by eapply hidden_prefix|done].
  - exists h'. do 4 (split; [done|]). destruct (V c Hc) as [V1 _].
    rewrite column_stays in V1; [done|]. intros j Hj. by eapply hidden_prefix.
Qed.

Lemma column_rows_nodes rows1 rows2 : column_rows = rows1 ++ rows2 -> forall n, n ∈ rows1 -> n ∈ mN M.
Proof. intros E n Hn. destruct (column_row n) as [? _]; [|done]. rewrite E. apply elem_of_app. by left. Qed.

(** The rows of a suffix are brought back to where they were. *)
Lemma unhide_suffix h h' rows1 rows2 :
  static_ok M h -> columns_ok M (lists K) h -> column_rows = rows1 ++ rows2 ->
  for_each hidden hide h = Ok h' ->
  exists h1, for_each (concat (map (others M) rows1)) hide h = Ok h1 /\
    for_each (rev rows2) unhide_row h' = Ok h1 /\ links down up c column_rows c h1.
Proof.
  intros Hs Hv E Eh. destruct (hide_prefix h rows1 rows2 Hs Hv E) as (h1 & E1 & V1 & S1 & _ & R1).
  pose proof hidden_nodup as Hnd. rewrite E, map_app, concat_app in Hnd, Eh.
  apply for_each_prefix in Eh as (h1' & E1' & E2). assert (h1' = h1) as -> by congruence.
  apply NoDup_app in Hnd as (_ & Hd & Hnd).
  destruct (hide_all_ok M Hm (concat (map (others M) rows2)) (without (concat (map (others M) rows1)) (lists K)) h1)
    as (h2 & E2' & _ & S2 & U).
  - by apply (same_rows_static M h).
  - apply without_ok, lists_lists_ok.
  - done.
  - done.
  - intros j Hj. destruct (hidden_linked j) as (H1 & H2 & _).
    { rewrite E, map_app, concat_app. apply elem_of_app. by right. }
    split; [done|]. apply list_elem_of_filter. split; [|done]. intros Hj1. by apply (Hd j).
  - assert (h2 = h') as -> by congruence. exists h1. split; [done|]. split; [|done].
    apply unhide_rows_each.
    + apply (same_rows_static M h1); [done|]. by apply (same_rows_static M h).
    + intros n Hn. rewrite elem_of_rev in Hn. destruct (column_row n) as [? _]; [|done]. rewrite E. apply elem_of_app. by right.
    + by rewrite <- rev_concat_others.
Qed.

Lemma cover_ok h :
  inv K h -> exists h', cover c h = Ok h' /\ inv (c :: K) h' /\ uncover c h' = Ok h /\
    links down up c column_rows c h'.
Proof.
  intros Hi. destruct (unlink_ok h Hi) as (h1 & E1 & Hs1 & Hv1 & Hh1 & R1).
  assert (column_rows = column_rows ++ []) as Eall by by rewrite app_nil_r.
  destruct (hide_prefix h1 column_rows [] Hs1 Hv1 Eall) as (h' & E2 & V2 & S2 & _ & Rg2).
  assert (static_ok M h') as Hs' by by apply (same_rows_static M h1).
  exists h'. split; [|split; [|split; [|done]]].
  - rewrite cover_split, E1, bind_Ok. destruct (Hv1 c Hc) as [Hring _].
    rewrite (load_Some _ _ _ _ (links_first _ _ _ _ _ _ Hring)), bind_Ok.
    apply for_ring_each; [|apply column_short|apply column_not_in|].
    + apply hide_rows_each; [done|by eapply column_rows_nodes|done].
    + intros l1 z l2 s1 E Es. assert (column_rows = (l1 ++ [z]) ++ l2) as E' by (by rewrite <- app_assoc).
      destruct (hide_prefix h1 (l1 ++ [z]) l2 Hs1 Hv1 E') as (s2 & F1 & _ & _ & _ & F2).
      apply hide_rows_each in F1; [|done|by eapply column_rows_nodes]. assert (s2 = s1) as -> by congruence.
      rewrite E in F2. by eapply links_next.
  - split; [done| |].
    + apply (links_frame right left _ _ _ h1); [intros p _; by apply S2|intros p _; by apply S2|done].
    + apply (columns_ok_ext M (without hidden (lists K))); [apply lists_cover|done].
  - unfold uncover. rewrite (load_Some _ _ _ _ (links_first _ _ _ _ _ _ (links_rev _ _ _ _ _ _ Rg2))), bind_Ok.
    destruct (unhide_suffix h1 h' [] column_rows Hs1 Hv1 ltac:(done) E2) as (h0 & [= <-] & U & _).
    erewrite for_ring_each; [|exact U| | |].
    + rewrite bind_Ok. exact R1.
    + rewrite length_rev. apply column_short.
    + rewrite elem_of_rev. apply column_not_in.
    + intros l1 z l2 s1 E Es.
      assert (column_rows = rev l2 ++ z :: rev l1) as E'.
      { rewrite <- (rev_involutive column_rows), E, rev_app_distr. simpl. by rewrite <- app_assoc. }
      destruct (unhide_suffix h1 h' (rev l2) (z :: rev l1) Hs1 Hv1 E' E2) as (h2 & _ & U2 & Rg).
      simpl in U2. rewrite rev_involutive in U2. change (for_each (l1 ++ [z]) unhide_row h' = Ok s1) in Es. assert (h2 = s1) as -> by congruence.
      apply links_rev in Rg. rewrite E in Rg. by eapply links_next.
Qed.
End OneColumn.

(** ** Covering the other columns of a row *)

Definition cover_of (j : Z) (h : memory) : result memory := c ← load col j h; cover c h.
Definition uncover_of (j : Z) (h : memory) : result memory := c ← load col j h; uncover c h.

Lemma cover_list js K h :
  inv K h -> (forall j, j ∈ js -> j ∈ mN M /\ colof M j ∉ K) -> NoDup (map (colof M) js) ->
  exists h', for_each js cover_of h = Ok h' /\ inv (rev (map (colof M) js) ++ K) h' /\
    for_each (rev js) uncover_of h' = Ok h.
Proof.
  revert K h. induction js as [|j js IH]; intros K h Hi Hj Hnd; [by exists h|].
  cbn [map] in Hnd. apply NoDup_cons in Hnd as [Hjs Hnd]. destruct (Hj j) as [HjN HjK]; [left|].
  destruct (cover_ok K (colof M j) (mx_col _ Hm j HjN) HjK h Hi) as (h1 & E1 & Hi1 & U1 & _).
  destruct (IH (colof M j :: K) h1 Hi1) as (h' & E2 & Hi2 & U2); [|done|].
  { intros k Hk. destruct (Hj k) as [HkN HkK]; [by right|]. split; [done|]. apply not_elem_of_cons. split; [|done].
    intros E. apply Hjs. rewrite <- E. apply list_elem_of_fmap. by exists k. }
  exists h'. cbn [for_each map rev]. split; [|split].
  - assert (cover_of j h = Ok h1) as ->; [|done].
    unfold cover_of. rewrite (load_Some _ _ _ _ (so_col _ _ (iv_static _ _ Hi) j HjN)). by rewrite bind_Ok.
  - by rewrite <- app_assoc.
  - rewrite for_each_app, U2, bind_Ok. cbn [for_each].
    assert (uncover_of j h1 = Ok h) as ->; [|done].
    unfold uncover_of. rewrite (load_Some _ _ _ _ (so_col _ _ (iv_static _ _ Hi1) j HjN)). by rewrite bind_Ok.
Qed.

(** The covered columns once the row of [r] is chosen, its own column being covered. *)
Definition row_covered (r : Z) (K : list Z) : list Z := rev (map (colof M) (others M r)) ++ K.

Lemma cover_row_ok r K h :
  r ∈ mN M -> inv K h -> (forall j, j ∈ others M r -> colof M j ∉ K) ->
  exists h', (j ← load right r h; for_nodes right r j cover_of h) = Ok h' /\
    inv (row_covered r K) h' /\
    (j ← load left r h'; for_nodes left r j uncover_of h') = Ok h.
Proof.
  intros Hr Hi HK. pose proof (mx_row _ Hm r Hr) as Hnd. unfold row_cols in Hnd. cbn [map] in Hnd.
  apply NoDup_cons in Hnd as [_ Hnd].
  assert (Hj : forall j, j ∈ others M r -> j ∈ mN M /\ colof M j ∉ K) by (intros j Hj; split; [by eapply others_mem|by apply HK]).
  destruct (cover_list (others M r) K h Hi Hj Hnd) as (h' & E & Hi' & U). exists h'. split; [|split; [done|]].
  - apply row_right; [done|done|]. intros l1 h1 [l2 El] E1. rewrite El in Hj, Hnd. rewrite map_app in Hnd.
    apply NoDup_app in Hnd as [Hnd _].
    destruct (cover_list l1 K h Hi) as (h1' & E1' & Hi1 & _); [intros j Hjl; apply Hj, elem_of_app; by left|done|].
    assert (h1' = h1) as -> by congruence. apply Hi1.
  - apply row_left; [done|done|]. intros l1 h1 [l2 El] E1.
    assert (others M r = rev l2 ++ rev l1) as El'.
    { by rewrite <- (rev_involutive (others M r)), El, rev_app_distr. }
    rewrite El' in Hj, Hnd, E. rewrite map_app in Hnd. apply NoDup_app in Hnd as (Hnd1 & Hd & Hnd2).
    apply for_each_prefix in E as (h2 & E2 & E3).
    destruct (cover_list (rev l2) K h Hi) as (h2' & E2' & Hi2 & _); [intros j Hjl; apply Hj, elem_of_app; by left|done|].
    assert (h2' = h2) as -> by congruence.
    destruct (cover_list (rev l1) _ h2 Hi2) as (h3 & E3' & _ & U3); [|done|].
    { intros j Hjl. destruct (Hj j) as [HjN HjK]; [apply elem_of_app; by right|]. split; [done|].
      rewrite elem_of_app, elem_of_rev. intros [Hin|Hin]; [|done]. apply (Hd _ Hin), list_elem_of_fmap. by exists j. }
    rewrite rev_involutive in U3. assert (h3 = h') as -> by congruence. assert (h2 = h1) as <- by congruence. apply Hi2.
Qed.

(** ** Choosing a column *)

Lemma min_loop_ok K h root cc c min fuel l :
  inv K h -> root = mroot M -> c ∈ active K -> links right left cc l root h \/ (cc = root /\ l = []) ->
  (cc <> root -> cc ∈ active K /\ forall d, d ∈ l -> d ∈ active K) -> mroot M ∉ l -> (length l + 1 < fuel)%nat ->
  exists d, min_loop fuel root cc c min h = Ok d /\ d ∈ active K.
Proof.
  intros Hi -> Hc. revert fuel cc c min Hc. induction l as [|d l IH]; intros fuel cc c min Hc Hl Hact Hr Hf;
    (destruct fuel as [|fuel]; [simpl in Hf; lia|]); cbn [min_loop];
    (destruct (cc =? mroot M) eqn:Ecc; [by exists c|]); destruct Hl as [Hl|[? ?]]; try (subst; lia); try done;
    (destruct (Hact ltac:(lia)) as [Hcc Hal]); pose proof Hcc as [HccC _]%active_mem;
    destruct (iv_columns _ _ Hi cc HccC) as [_ Hsz]; rewrite (load_Some _ _ _ _ Hsz), bind_Ok;
    (destruct ((min >? zlen (lists K cc)) && (zlen (lists K cc) <=? 1)); [by exists cc|]).
  - destruct Hl as [Hl _]. rewrite (load_Some _ _ _ _ Hl), bind_Ok.
    destruct fuel as [|fuel]; [simpl in Hf; lia|]. cbn [min_loop]. rewrite Z.eqb_refl.
    destruct (min >? _); [by exists cc|by exists c].
  - destruct Hl as (Hl & _ & Hl'). rewrite (load_Some _ _ _ _ Hl), bind_Ok. apply not_elem_of_cons in Hr as [Hrd Hr].
    destruct (min >? _); apply IH; try done; try (by left); try (simpl in Hf; lia);
      intros _; (split; [apply Hal; left|intros x Hx; apply Hal; by right]).
Qed.

Lemma get_min_column_ok K s :
  inv K (nodes_ s) -> root_ s = mroot M -> active K <> [] ->
  exists c, get_min_column s = Ok c /\ c ∈ active K.
Proof.
  intros Hi Er Hne. unfold get_min_column. rewrite Er. pose proof (iv_head _ _ Hi) as Hh.
  destruct active_nodup with (K := K) as [Hnd Hr].
  assert (length (active K) <= length (mC M))%nat as Hlen by apply length_filter. pose proof (mx_fuel _ Hm) as Hfu.
  destruct (active K) as [|c l] eqn:Ea; [done|]. destruct Hh as (H1 & _ & Hl).
  assert (c ∈ active K) as Hc by (rewrite Ea; left). pose proof Hc as [HcC _]%active_mem.
  rewrite (load_Some _ _ _ _ H1), bind_Ok. destruct (iv_columns _ _ Hi c HcC) as [_ Hsz].
  rewrite (load_Some _ _ _ _ Hsz), bind_Ok. destruct (_ >? 1); [|exists c; by rewrite <- Ea].
  rewrite (load_Some _ _ _ _ (links_first _ _ _ _ _ _ Hl)), bind_Ok. rewrite <- Ea.
  apply not_elem_of_cons in Hr as [Hrc Hr]. destruct l as [|d l].
  - cbn [hd min_loop]. rewrite Z.eqb_refl. by exists c.
  - destruct Hl as (_ & _ & Hl). cbn [hd]. apply not_elem_of_cons in Hr as [Hrd Hr].
    apply (min_loop_ok K _ _ _ _ _ _ l); try done; [by left| |simpl in Hlen; lia].
    intros _. rewrite Ea. split; [right; left|]. intros x Hx. right. by right.
Qed.

(** ** Exact covers *)

(** The rows of the nodes of [T] cover each column that is not in [K] once, and no other. *)
Record exact (K T : list Z) : Prop := {
  ex_nodes n : n ∈ T -> n ∈ mN M;
  ex_once : NoDup (concat (map (row_cols M) T));
  ex_disjoint c : c ∈ concat (map (row_cols M) T) -> c ∉ K;
  ex_all c : c ∈ mC M -> c ∈ K \/ c ∈ concat (map (row_cols M) T)
}.

Lemma row_covered_in r c K d :
  colof M r = c -> d ∈ row_covered r (c :: K) <-> d ∈ row_cols M r \/ d ∈ K.
Proof.
  intros <-. unfold row_covered, row_cols. rewrite elem_of_app, elem_of_rev. cbn [map]. rewrite !elem_of_cons. tauto.
Qed.

Lemma exact_cons K c r T :
  r ∈ lists K c -> c ∉ K -> exact (row_covered r (c :: K)) T -> exact K (r :: T).
Proof.
  intros Hr Hc [E1 E2 E3 E4]. apply lists_in in Hr as (HrN & Ec & HK); [|done]. split.
  - intros n [->|Hn]%elem_of_cons; [done|by apply E1].
  - cbn [map concat]. apply NoDup_app. split; [by apply Hm|]. split; [|done].
    intros d Hd Hin. apply (E3 d Hin). apply (row_covered_in r c K d Ec). by left.
  - cbn [map concat]. intros d [Hd|Hd]%elem_of_app HdK; [by apply (HK d)|]. apply (E3 d Hd). apply (row_covered_in r c K d Ec). by right.
  - intros d HdC. cbn [map concat]. rewrite elem_of_app. destruct (E4 d HdC) as [Hd|Hd]; [|tauto].
    apply (row_covered_in r c K d Ec) in Hd. tauto.
Qed.

Lemma exact_uncons K c T :
  c ∈ mC M -> c ∉ K -> exact K T -> exists r T', r ∈ lists K c /\ exact (row_covered r (c :: K)) T'.
Proof.
  intros Hc HcK [E1 E2 E3 E4]. destruct (E4 c Hc) as [|Hin]; [done|].
  apply list_elem_of_In, in_concat in Hin as (x & Hx & Hcx). apply in_map_iff in Hx as (n & <- & Hn).
  apply list_elem_of_In in Hn, Hcx. pose proof (E1 n Hn) as HnN.
  destruct (row_node M Hm n c HnN Hcx) as (r & Hr & Er & HrN).
  assert (Hcols : forall d, d ∈ row_cols M r <-> d ∈ row_cols M n).
  { apply elem_of_cons in Hr as [->|Hr]; [done|]. by apply others_cols. }
  destruct (list_elem_of_split _ _ Hn) as (T1 & T2 & ->). rewrite map_app, concat_app in E2, E3, E4. cbn [map concat] in E2, E3, E4.
  exists r, (T1 ++ T2). split.
  - apply lists_in; [done|]. split; [done|]. split; [done|]. intros k Hk Hin. apply Hcols in Hin.
    apply (E3 k); [|done]. rewrite !elem_of_app. tauto.
  - apply NoDup_app in E2 as (N1 & N2 & N3). apply NoDup_app in N3 as (N3 & N4 & N5). split.
    + intros k Hk. apply E1. rewrite elem_of_app in *. rewrite elem_of_cons. tauto.
    + rewrite map_app, concat_app. apply NoDup_app. split; [done|]. split; [|done].
      intros d Hd Hin. apply (N2 d Hd). rewrite elem_of_app. tauto.
    + intros d Hd Hin. rewrite map_app, concat_app in Hd. apply (row_covered_in r c K d Er) in Hin as [Hin|Hin].
      * apply Hcols in Hin. apply elem_of_app in Hd as [Hd|Hd].
        -- apply (N2 d Hd). rewrite elem_of_app. tauto.
        -- by apply (N4 d Hin).
      * apply (E3 d); [|done]. rewrite !elem_of_app in *. tauto.
    + intros d Hd. rewrite map_app, concat_app. rewrite (row_covered_in r c K d Er), Hcols.
      specialize (E4 d Hd). rewrite !elem_of_app in *. tauto.
Qed.

(** ** The search *)

Lemma length_filter_le (P Q : Z -> Prop) `{!forall x, Decision (P x), !forall x, Decision (Q x)} (l : list Z) :
  (forall x, P x -> Q x) -> (length (filter P l) <= length (filter Q l))%nat.
Proof.
  intros HPQ. induction l as [|x l IH]; [done|]. rewrite !filter_cons. pose proof (HPQ x). repeat case_decide; simpl; try tauto; lia.
Qed.

Lemma active_shorter K c r :
  c ∈ active K -> (length (active (row_covered r (c :: K))) < length (active K))%nat.
Proof.
  intros [Hc HcK]%active_mem. destruct (active_split K c Hc HcK) as (l1 & l2 & E1 & E2).
  assert (length (active (row_covered r (c :: K))) <= length (active (c :: K)))%nat as Hle.
  { apply length_filter_le. intros x Hx Hin. apply Hx. unfold row_covered. rewrite elem_of_app. by right. }
  rewrite E1, E2, !length_app in *. simpl. lia.
Qed.

(** The solver when the search has found its last row. *)
Record found_at (s : SudokuSolver) (T : list Z) (s1 : SudokuSolver) : Prop := {
  fa_board : inout_ s1 = inout_ s;
  fa_stack : stack_ s1 = stack_ s ++ T;
  fa_rows : static_ok M (nodes_ s1)
}.

(** What a search comes to: an exact cover on the stack, or no change and none exists. *)
Definition decides (K : list Z) (s : SudokuSolver) (r : result (bool * SudokuSolver)) : Prop :=
  (exists T s1, exact K T /\ found_at s T s1 /\ r = (s2 ← write_rows s1; Ok (true, s2))) \/
  (r = Ok (false, s) /\ forall T, ~ exact K T).

Lemma on_nodes_Ok f s h : f (nodes_ s) = Ok h -> on_nodes f s = Ok (set_nodes s h).
Proof. intros E. unfold on_nodes. by rewrite E, bind_Ok. Qed.

Lemma set_back s h row :
  set_nodes (set_stack (set_nodes (set_stack s (stack_ s ++ [row])) h) (removelast (stack_ s ++ [row]))) (nodes_ s) = s.
Proof. destruct s. unfold set_nodes, set_stack. simpl. by rewrite removelast_last. Qed.

Lemma try_rows_ok depth rec K c :
  c ∈ active K ->
  (forall K' s', inv K' (nodes_ s') -> root_ s' = mroot M -> (length (active K') < depth)%nat -> decides K' s' (rec s')) ->
  (length (active K) <= depth)%nat ->
  forall rem pre fuel s, lists K c = pre ++ rem -> inv (c :: K) (nodes_ s) -> root_ s = mroot M ->
    links down up c (lists K c) c (nodes_ s) -> (length rem < fuel)%nat ->
  (exists r T s1, r ∈ rem /\ exact (row_covered r (c :: K)) T /\ found_at s (r :: T) s1 /\
     try_rows rec fuel c (hd c rem) s = (s2 ← write_rows s1; Ok (true, s2))) \/
  (try_rows rec fuel c (hd c rem) s = Ok (false, s) /\ forall r T, r ∈ rem -> ~ exact (row_covered r (c :: K)) T).
Proof.
  intros Hc Hrec Hdepth. pose proof Hc as [HcC HcK]%active_mem.
  induction rem as [|r rem IH]; intros pre fuel s E Hi Hroot Hring Hf;
    (destruct fuel as [|fuel]; [simpl in Hf; lia|]); cbn [try_rows hd].
  - rewrite Z.eqb_refl. right. split; [done|]. intros r T Hr. by apply not_elem_of_nil in Hr.
  - assert (r ∈ lists K c) as Hr by (rewrite E; apply elem_of_app; right; left).
    pose proof Hr as (HrN & Er & HrK)%(lists_in K c r HcK).
    rewrite (proj2 (Z.eqb_neq _ _)) by (intros ->; by apply (col_not_node M Hm c c)).
    destruct (cover_row_ok r (c :: K) (nodes_ s) HrN Hi) as (h' & C1 & Hi' & U1).
    { intros j Hj. rewrite not_elem_of_cons. destruct (hidden_linked K c HcK j) as (_ & _ & ? & ? & _); [|done].
      apply hidden_in. by exists r. }
    apply bind_Ok_inv in C1 as (j & C1 & C2), U1 as (j' & U1 & U2).
    set (s0 := set_stack s (stack_ s ++ [r])). change (nodes_ s0) with (nodes_ s). rewrite C1, bind_Ok.
    set (s1 := set_nodes s0 h').
    assert (on_nodes (for_nodes right r j (fun j h => c ← load col j h; cover c h)) s0 = Ok s1) as ->.
    { apply (on_nodes_Ok _ s0). exact C2. }
    rewrite bind_Ok.
    destruct (Hrec (row_covered r (c :: K)) s1) as [(T & s2 & HT & [F1 F2 F3] & ->)|[-> Hno]]; [done|done| | |].
    { pose proof (active_shorter K c r Hc). lia. }
    + left. exists r, T, s2. split; [left|]. split; [done|]. split.
      * split; [done| |done]. rewrite F2. simpl. by rewrite <- app_assoc.
      * rewrite bind_assoc. by destruct (write_rows s2).
    + rewrite bind_Ok. change (nodes_ (set_stack s1 _)) with h'. rewrite U1, bind_Ok.
      set (s2 := set_stack s1 _).
      assert (on_nodes (for_nodes left r j' (fun j h => c ← load col j h; uncover c h)) s2 = Ok (set_nodes s2 (nodes_ s))) as ->.
      { apply (on_nodes_Ok _ s2). exact U2. }
      rewrite bind_Ok. subst s2.
      change (set_nodes (set_stack s1 (removelast (stack_ s1))) (nodes_ s)) with
        (set_nodes (set_stack (set_nodes (set_stack s (stack_ s ++ [r])) h') (removelast (stack_ s ++ [r]))) (nodes_ s)).
      rewrite set_back. pose proof Hring as Hring'. rewrite E in Hring'.
      rewrite (load_Some _ _ _ _ (links_next _ _ _ _ _ _ _ _ Hring')), bind_Ok.
      destruct (IH (pre ++ [r]) fuel s) as [(r' & T & s2 & Hr' & H')|[-> Hno']]; try done.
      * by rewrite E, <- app_assoc.
      * simpl in Hf. lia.
      * left. exists r', T, s2. split; [by right|done].
      * right. split; [done|]. intros r' T [->|Hr']%elem_of_cons; [by apply Hno|by apply Hno'].
Qed.

Lemma exact_done K : active K = [] -> exact K [].
Proof.
  intros E. split; simpl; try (intros ? H'; by apply not_elem_of_nil in H'); [constructor|].
  intros c Hc. left. destruct (decide (c ∈ K)) as [|HcK]; [done|].
  assert (c ∈ active K) as Hin by (by apply active_mem). rewrite E in Hin. by apply not_elem_of_nil in Hin.
Qed.

Lemma solve_ok depth K s :
  inv K (nodes_ s) -> root_ s = mroot M -> (length (active K) < depth)%nat -> decides K s (solve depth s).
Proof.
  revert K s. induction depth as [|depth IH]; intros K s Hi Hroot Hdepth; [lia|]. cbn [solve]. rewrite Hroot.
  pose proof (links_last _ _ _ _ _ _ (iv_head _ _ Hi)) as Hlast. rewrite (load_Some _ _ _ _ Hlast), bind_Ok.
  destruct (active_nodup K) as [_ Hr].
  destruct (decide (active K = [])) as [Ea|Ea].
  - rewrite Ea. cbn [last default from_option]. rewrite Z.eqb_refl. left. exists [], s. split; [by apply exact_done|].
    split; [|done]. split; [done|by rewrite app_nil_r|apply Hi].
  - assert (default (mroot M) (last (active K)) <> mroot M) as Hne.
    { destruct (last (active K)) as [d|] eqn:El; [|by apply last_None in El]. simpl. intros ->.
      by apply last_Some_elem_of in El. }
    rewrite (proj2 (Z.eqb_neq _ _)) by done.
    destruct (get_min_column_ok K s Hi Hroot Ea) as (c & -> & Hc). rewrite bind_Ok.
    pose proof Hc as [HcC HcK]%active_mem.
    destruct (cover_ok K c HcC HcK (nodes_ s) Hi) as (h1 & E1 & Hi1 & U1 & Hring).
    rewrite (on_nodes_Ok (cover c) s h1 E1), bind_Ok. cbn [set_nodes nodes_ root_].
    rewrite (load_Some _ _ _ _ (links_first _ _ _ _ _ _ Hring)), bind_Ok. change (set_nodes s h1) with (set_nodes s h1).
    destruct (try_rows_ok depth (solve depth) K c Hc IH ltac:(lia) (lists K c) [] (S ring_fuel) (set_nodes s h1))
      as [(r & T & s1 & Hr' & HT & [F1 F2 F3] & E)|[E Hno]]; [done|done|done|done|by apply column_short| |].
    + left. exists (r :: T), s1. split; [by apply (exact_cons K c)|]. split; [by split|].
      unfold set_nodes in E at 1. unfold set_nodes. rewrite E, bind_assoc. by destruct (write_rows s1).
    + right. split.
      * change (mkSolver (root_ s) (inout_ s) (columns_ s) (stack_ s) h1 (curr_node_ s)) with (set_nodes s h1).
        rewrite E, bind_Ok. rewrite (on_nodes_Ok (uncover c) (set_nodes s h1) (nodes_ s) U1), bind_Ok. by destruct s.
      * intros T HT. destruct (exact_uncons K c T HcC HcK HT) as (r & T' & Hr' & HT'). by apply (Hno r T').
Qed.
End Covering.
