(* ===== verification/SudokuMatrix.v ===== *)
(** * The matrix of a sudoku

    What the constructor of [SudokuSolver] builds: a column for each empty cell and for each
    value missing in a row, a column or a box; for each empty cell and value that may go
    there, a row of four nodes. *)

From S2P Require Import Prelude Sudoku DancingLinks.

(** ** Rings that grow *)

Lemma links_rotate a b x l1 z l2 h : links a b x (l1 ++ z :: l2) x h -> links a b z (l2 ++ x :: l1) z h.
Proof. rewrite !links_app. tauto. Qed.

(** [y] before [x], as [put_left] and [put_up] write it. *)
Definition insert_last (a b : field) (x u y : Z) (h : memory) : memory :=
  <[(x, b) := y]> (<[(u, a) := y]> (<[(y, a) := x]> (<[(y, b) := u]> h))).

Lemma links_snoc a b x l y h :
  a <> b -> links a b x l x h -> NoDup (x :: l) -> y ∉ x :: l ->
  links a b x (l ++ [y]) x (insert_last a b x (default x (last l)) y h).
Proof.
  intros Hab Hl Hnd Hy. apply not_elem_of_cons in Hy as [Hyx Hyl]. apply NoDup_cons in Hnd as [Hx Hnd].
  unfold insert_last. set (u := default x (last l)).
  assert (u <> y) as Huy.
  { subst u. destruct (last l) as [w|] eqn:E; [|by simpl]. simpl. intros ->. by apply last_Some_elem_of in E. }
  apply links_app. split.
  - destruct l as [|w l _] using rev_ind.
    + simpl in u. subst u. simpl in *. rewrite lookup_insert_ne by congruence. rewrite lookup_insert_eq.
      rewrite !lookup_insert_ne by congruence. by rewrite lookup_insert_eq.
    + subst u. rewrite last_snoc in *. cbn [default from_option id] in *. unfold id in *.
      apply links_app in Hl as [H1 [H2 H3]]. apply links_app.
      apply not_elem_of_app in Hx as [Hxl Hxw], Hyl as [Hyl Hyw]. apply not_elem_of_cons in Hxw as [Hxw _], Hyw as [Hyw _].
      apply NoDup_app in Hnd as (N1 & N2 & _). split.
      * apply (links_frame a b x l w h); [| |done]; intros p Hp.
        -- rewrite !lookup_insert_ne; [done|congruence|intros [= <-]|intros [= <-]|congruence].
           ++ by apply not_elem_of_cons in Hp.
           ++ apply elem_of_cons in Hp as [->|Hp]; [done|]. apply (N2 w Hp). left.
        -- apply elem_of_app in Hp as [Hp|Hp%list_elem_of_singleton].
           ++ rewrite !lookup_insert_ne; [done|intros [= <-]; done|congruence|congruence|intros [= <-]; done].
           ++ subst p. by rewrite !lookup_insert_ne by congruence.
      * simpl. rewrite lookup_insert_ne by congruence. rewrite lookup_insert_eq.
        rewrite !lookup_insert_ne by congruence. by rewrite lookup_insert_eq.
  - simpl. rewrite !lookup_insert_ne by congruence. rewrite lookup_insert_eq. split; [done|].
    by rewrite lookup_insert_eq.
Qed.

Lemma insert_last_frame a b x u y h p f :
  (f <> b \/ (p <> x /\ p <> y)) -> (f <> a \/ (p <> u /\ p <> y)) -> insert_last a b x u y h !! (p, f) = h !! (p, f).
Proof. intros Hb Ha. unfold insert_last. rewrite !lookup_insert_ne; [done|..]; intros [= <- <-]; naive_solver. Qed.

Lemma put_left_ok x l y h :
  links right left x l x h -> y ∉ x :: l -> is_Some (h !! (y, left)) -> is_Some (h !! (y, right)) ->
  put_left x y h = Ok (insert_last right left x (default x (last l)) y h).
Proof.
  intros Hl Hy [vl Hvl] [vr Hvr]. pose proof (last_ne x y l Hy) as Hu. apply not_elem_of_cons in Hy as [Hyx _].
  pose proof (links_last _ _ _ _ _ _ Hl) as H1. pose proof (links_end _ _ _ _ _ _ Hl) as H2. unfold put_left, insert_last.
  rewrite (load_Some _ _ _ _ H1), bind_Ok, (store_Some _ _ _ _ _ Hvl), bind_Ok.
  rewrite (store_Some right y x vr _) by (by rewrite lookup_insert_ne by congruence). rewrite bind_Ok.
  rewrite (load_Some left x _ (default x (last l))) by (by rewrite !lookup_insert_ne by congruence). rewrite bind_Ok.
  rewrite (store_Some right (default x (last l)) y x _) by (by rewrite !lookup_insert_ne by congruence). rewrite bind_Ok.
  by rewrite (store_Some left x y (default x (last l)) _) by (by rewrite !lookup_insert_ne by congruence).
Qed.

Lemma put_up_ok x l y h n :
  links down up x l x h -> y ∉ x :: l -> is_Some (h !! (y, up)) -> is_Some (h !! (y, down)) ->
  h !! (x, size) = Some n -> is_Some (h !! (y, col)) ->
  put_up x y h = Ok (<[(y, col) := x]> (<[(x, size) := n + 1]> (insert_last down up x (default x (last l)) y h))).
Proof.
  intros Hl Hy [vl Hvl] [vr Hvr] Hn [vc Hvc]. pose proof (last_ne x y l Hy) as Hu. apply not_elem_of_cons in Hy as [Hyx _].
  pose proof (links_last _ _ _ _ _ _ Hl) as H1. pose proof (links_end _ _ _ _ _ _ Hl) as H2. unfold put_up, insert_last.
  rewrite (load_Some _ _ _ _ H1), bind_Ok, (store_Some _ _ _ _ _ Hvl), bind_Ok.
  rewrite (store_Some down y x vr _) by (by rewrite lookup_insert_ne by congruence). rewrite bind_Ok.
  rewrite (load_Some up x _ (default x (last l))) by (by rewrite !lookup_insert_ne by congruence). rewrite bind_Ok.
  rewrite (store_Some down (default x (last l)) y x _) by (by rewrite !lookup_insert_ne by congruence). rewrite bind_Ok.
  rewrite (store_Some up x y (default x (last l)) _) by (by rewrite !lookup_insert_ne by congruence). rewrite bind_Ok.
  rewrite (load_Some size x _ n) by (by rewrite !lookup_insert_ne by congruence). rewrite bind_Ok.
  rewrite (store_Some size x (n + 1) n _) by (by rewrite !lookup_insert_ne by congruence). rewrite bind_Ok.
  by rewrite (store_Some col y x vc _) by (by rewrite !lookup_insert_ne by congruence).
Qed.

(** ** The columns *)

Fixpoint index (n : Z) (l : list Z) : Z :=
  match l with
  | [] => 0
  | x :: l => if decide (x = n) then 0 else 1 + index n l
  end.

Lemma index_range n l : n ∈ l -> 0 <= index n l < zlen l.
Proof.
  induction l as [|x l IH]; [by intros ?%not_elem_of_nil|]. intros [->|Hn]%elem_of_cons; cbn [index length].
  - rewrite decide_True by done. lia.
  - case_decide; [lia|]. specialize (IH Hn). lia.
Qed.

Lemma index_app n l1 l2 : n ∈ l1 -> index n (l1 ++ l2) = index n l1.
Proof.
  induction l1 as [|x l IH]; [by intros ?%not_elem_of_nil|]. intros [->|Hn]%elem_of_cons; cbn [index app].
  - by rewrite !decide_True by done.
  - case_decide; [done|]. by rewrite IH.
Qed.

Lemma index_last n l : n ∉ l -> index n (l ++ [n]) = zlen l.
Proof.
  induction l as [|x l IH]; intros Hn; cbn [index app]; [by rewrite decide_True|].
  apply not_elem_of_cons in Hn as [Hx Hn]. rewrite decide_False by congruence. rewrite IH by done. simpl. lia.
Qed.

Lemma index_lookup n l : n ∈ l -> l !! Z.to_nat (index n l) = Some n.
Proof.
  induction l as [|x l IH]; [by intros ?%not_elem_of_nil|]. intros Hn. cbn [index]. case_decide as E; [by subst|].
  apply elem_of_cons in Hn as [->|Hn]; [done|]. pose proof (index_range n l Hn).
  replace (Z.to_nat (1 + index n l)) with (S (Z.to_nat (index n l))) by lia. by apply IH.
Qed.

(** The column named [n]. *)
Definition column_of (ns : list Z) (n : Z) : Z := 1 + index n ns.

(** The names of the columns a row meets, in the order of its nodes. *)
Definition row_names (r : Z * Z) : list Z :=
  let '(i, v) := r in [i; get_row_col (row_of i) v; get_col_col (col_of i) v; get_box_col (box_of i) v].

(** The first node of the [t]-th row; the name of the node [p]. *)
Definition row_base (ns : list Z) (t : Z) : Z := 1 + zlen ns + 4 * t.
Definition node_name (ns : list Z) (rs : list (Z * Z)) (p : Z) : Z :=
  let q := p - 1 - zlen ns in
  row_names (rs !!! Z.to_nat (q / 4)) !!! Z.to_nat (q mod 4).

Definition ring_of (ns : list Z) (rs : list (Z * Z)) (c : Z) : list Z :=
  filter (fun p => column_of ns (node_name ns rs p) = c) (seqZ (row_base ns 0) (4 * zlen rs)).

Definition rings (ns : list Z) (Ls : Z -> list Z) (h : memory) : Prop :=
  forall c, c ∈ seqZ 1 (zlen ns) -> links down up c (Ls c) c h /\ h !! (c, size) = Some (zlen (Ls c)).

Definition row_built (ns : list Z) (b : Z) (r : Z * Z) (h : memory) : Prop :=
  links right left b [b + 1; b + 2; b + 3] b h /\
  forall e n, row_names r !! e = Some n ->
    h !! (b + Z.of_nat e, name) = Some n /\ h !! (b + Z.of_nat e, col) = Some (column_of ns n).

Definition columns_built (ns : list Z) (m : gmap Z Z) : Prop :=
  forall n, m !! n = if decide (n ∈ ns) then Some (column_of ns n) else None.

(** What has been built when the columns [ns] and the rows [rs] are in place. *)
Record built (board ns : list Z) (rs : list (Z * Z)) (s : SudokuSolver) : Prop := {
  bu_root : root_ s = 0;
  bu_board : inout_ s = board;
  bu_stack : stack_ s = [];
  bu_curr : curr_node_ s = row_base ns (zlen rs);
  bu_columns : columns_built ns (columns_ s);
  bu_head : links right left 0 (seqZ 1 (zlen ns)) 0 (nodes_ s);
  bu_rings : rings ns (ring_of ns rs) (nodes_ s);
  bu_rows t r : rs !! t = Some r -> row_built ns (row_base ns (Z.of_nat t)) r (nodes_ s)
}.

Lemma fresh_other p c n h q f : q <> p -> fresh_node p c n h !! (q, f) = h !! (q, f).
Proof. intros Hq. unfold fresh_node. by rewrite !lookup_insert_ne by congruence. Qed.

Lemma fresh_field p c n h f :
  fresh_node p c n h !! (p, f) =
    Some (match f with left | right | up | down => p | col => c | name => n | size => 0 end).
Proof. unfold fresh_node. destruct f; repeat first [by rewrite lookup_insert_eq|rewrite lookup_insert_ne by congruence]. Qed.

Lemma seqZ_links_last x a n : 0 < n -> default x (last (seqZ a n)) = a + n - 1.
Proof. intros Hn. replace n with (n - 1 + 1) by lia. rewrite seqZ_snoc by lia. rewrite last_snoc. simpl. lia. Qed.

Lemma append_column_ok board ns n s :
  built board ns [] s -> n ∉ ns -> zlen ns < 324 ->
  exists s', append_column n s = Ok s' /\ built board (ns ++ [n]) [] s'.
Proof.
  intros [B1 B2 B3 B4 B5 B6 B7 B8] Hn Hlen. destruct s as [root board' cols stack h curr]. simpl in *.
  unfold row_base in B4. simpl in B4. set (c := 1 + zlen ns) in *. replace (c + _) with c in B4 by lia. subst root board' stack curr.
  assert (c ∉ 0 :: seqZ 1 (zlen ns)) as Hc.
  { intros [?|Hin]%elem_of_cons; [lia|]. apply elem_of_seqZ in Hin. lia. }
  set (h1 := fresh_node c c n h).
  assert (links right left 0 (seqZ 1 (zlen ns)) 0 h1) as Hl1.
  { apply (links_frame right left 0 _ 0 h); [intros p Hp|intros p Hp|done]; apply fresh_other; intros ->; apply Hc; [done|].
    apply elem_of_app in Hp as [Hp|Hp%list_elem_of_singleton]; [by right|rewrite Hp; left]. }
  assert (NoDup (0 :: seqZ 1 (zlen ns))) as Hnd.
  { apply NoDup_cons. split; [rewrite elem_of_seqZ; lia|apply NoDup_seqZ]. }
  set (h2 := insert_last right left 0 (default 0 (last (seqZ 1 (zlen ns)))) c h1).
  exists (mkSolver 0 board (<[n := c]> cols) [] h2 (c + 1)). split.
  { unfold append_column. simpl. rewrite bool_decide_true by (by rewrite (B5 n), decide_False). run.
    unfold new_column. simpl. unfold kMaxNodes. rewrite (proj2 (Z.ltb_lt _ _)) by lia. run. fold c. fold h1.
    rewrite (on_nodes_Ok _ _ h2); [done|]. simpl. apply put_left_ok; [done|done|..];
      subst h1; rewrite fresh_field; by eexists. }
  assert (zlen (ns ++ [n]) = zlen ns + 1) as El by (rewrite length_app; simpl; lia).
  split; simpl; rewrite ?El; try done; [unfold row_base; rewrite El; simpl; lia| | |].
  - intros m. destruct (decide (m = n)) as [->|Hm].
    + rewrite lookup_insert_eq, decide_True by (apply elem_of_app; right; left). unfold column_of. by rewrite index_last.
    + rewrite lookup_insert_ne by congruence. rewrite (B5 m). unfold column_of. case_decide as Hin.
      * rewrite decide_True by (apply elem_of_app; by left). by rewrite index_app.
      * rewrite decide_False; [done|]. by intros [?|?%list_elem_of_singleton]%elem_of_app.
  - rewrite seqZ_snoc by lia. fold c. by apply links_snoc.
  - intros d Hd. rewrite El, seqZ_snoc in Hd by lia. fold c in Hd. unfold ring_of. simpl.
    assert (forall f, f <> left -> f <> right -> h2 !! (d, f) = h1 !! (d, f)) as Hf.
    { intros f Hf1 Hf2. apply insert_last_frame; by left. }
    rewrite !Hf by done. apply elem_of_app in Hd as [Hd|Hd%list_elem_of_singleton].
    + assert (d <> c) by (apply elem_of_seqZ in Hd; lia). subst h1. rewrite !fresh_other by done.
      destruct (B7 d Hd) as [[? ?] ?]. done.
    + subst d h1. by rewrite !fresh_field.
Qed.

(** ** The rows *)

(** The rings when the nodes of a row are still to come; [p] is the next node. *)
Record open (ns : list Z) (Ls : Z -> list Z) (p : Z) (s : SudokuSolver) : Prop := {
  op_curr : curr_node_ s = p;
  op_low : 1 + zlen ns <= p;
  op_columns : columns_built ns (columns_ s);
  op_rings : rings ns Ls (nodes_ s);
  op_nodup c : c ∈ seqZ 1 (zlen ns) -> NoDup (Ls c);
  op_nodes c q : c ∈ seqZ 1 (zlen ns) -> q ∈ Ls c -> 1 + zlen ns <= q < p;
  op_apart c c' q : c ∈ seqZ 1 (zlen ns) -> c' ∈ seqZ 1 (zlen ns) -> q ∈ Ls c -> q ∈ Ls c' -> c = c'
}.

(** [s'] differs from [s] in [nodes_] and [curr_node_] only. *)
Definition same_rest (s s' : SudokuSolver) : Prop :=
  root_ s' = root_ s /\ inout_ s' = inout_ s /\ columns_ s' = columns_ s /\ stack_ s' = stack_ s.

(** What a new node [p] named [n] leaves of what was there, and what it holds itself. *)
Definition node_added (ns : list Z) (p n : Z) (h h' : memory) : Prop :=
  (forall q f, q <> p -> f <> up -> f <> down -> f <> size -> h' !! (q, f) = h !! (q, f)) /\
  h' !! (p, left) = Some p /\ h' !! (p, right) = Some p /\ h' !! (p, name) = Some n /\
  h' !! (p, col) = Some (column_of ns n).

Definition add_last (c p : Z) (Ls : Z -> list Z) (c' : Z) : list Z := if decide (c = c') then Ls c' ++ [p] else Ls c'.

Lemma column_of_range ns n : n ∈ ns -> column_of ns n ∈ seqZ 1 (zlen ns).
Proof. intros Hn%index_range. apply elem_of_seqZ. unfold column_of. lia. Qed.

(** Inserting in the ring of [c] leaves those of the other columns. *)
Lemma ring_frame ns Ls p s c c' h' :
  open ns Ls p s -> c ∈ seqZ 1 (zlen ns) -> c' ∈ seqZ 1 (zlen ns) -> c' <> c ->
  (forall q f, q <> p -> q ∉ c :: Ls c -> f <> col -> h' !! (q, f) = nodes_ s !! (q, f)) ->
  links down up c' (Ls c') c' h' /\ h' !! (c', size) = Some (zlen (Ls c')).
Proof.
  intros [O1 O2 O3 O4 O5 O6 O7] Hc Hc' Hne Hh. destruct (O4 c' Hc') as [Hr Hs].
  assert (Hq : forall q, q ∈ c' :: Ls c' -> q <> p /\ q ∉ c :: Ls c).
  { pose proof Hc as Hc1%elem_of_seqZ. pose proof Hc' as Hc2%elem_of_seqZ.
    intros q [->|Hq]%elem_of_cons; (split; [|intros [->|Hq']%elem_of_cons]); try done; try lia.
    - pose proof (O6 c c' Hc Hq'). lia.
    - pose proof (O6 c' q Hc' Hq). lia.
    - pose proof (O6 c' c Hc' Hq). lia.
    - apply Hne. by apply (O7 c' c q). }
  split.
  - apply (links_frame down up c' _ c' (nodes_ s)); [| |done]; intros q Hin; apply Hh; try done; apply Hq; [done|done|..];
      (apply elem_of_app in Hin as [Hin|Hin%list_elem_of_singleton]; [by right|subst; left]).
  - rewrite Hh; [done|apply Hq; left..|done].
Qed.

(** The memory after [new_row]: [p] is the last of the ring of [c], that had [m] nodes and
    ended in [u]. *)
Definition node_at (c u p n m : Z) (h : memory) : memory :=
  <[(p, col) := c]> (<[(c, size) := m + 1]> (insert_last down up c u p (fresh_node p c n h))).

Lemma node_at_other c u p n m h q f :
  q <> p -> q <> c -> q <> u -> node_at c u p n m h !! (q, f) = h !! (q, f).
Proof.
  intros Hp Hc Hu. unfold node_at. rewrite !lookup_insert_ne by congruence.
  rewrite insert_last_frame by (right; by split). by apply fresh_other.
Qed.

Lemma node_at_row c u p n m h q f :
  f <> up -> f <> down -> f <> size -> f <> col -> node_at c u p n m h !! (q, f) = fresh_node p c n h !! (q, f).
Proof. intros. unfold node_at. rewrite !lookup_insert_ne by congruence. apply insert_last_frame; by left. Qed.

Lemma node_at_added ns c u p n m h : c = column_of ns n -> c <> p -> node_added ns p n h (node_at c u p n m h).
Proof.
  intros Hc Hp. split; [|rewrite !node_at_row, !fresh_field by done; do 3 (split; [done|])].
  - intros q f Hq F1 F2 F3. destruct (decide (f = col)) as [->|F4].
    + unfold node_at. rewrite !lookup_insert_ne by congruence. rewrite insert_last_frame by (by left). by apply fresh_other.
    + rewrite node_at_row by done. by apply fresh_other.
  - unfold node_at. by rewrite lookup_insert_eq, Hc.
Qed.

Section NewRow.
Context (ns : list Z) (Ls : Z -> list Z) (p n : Z) (s : SudokuSolver) (Ho : open ns Ls p s) (Hn : n ∈ ns).
Abbreviation c := (column_of ns n).
Abbreviation u := (default c (last (Ls c))).
Abbreviation h3 := (node_at c u p n (zlen (Ls c)) (nodes_ s)).

Lemma open_apart : p ∉ c :: Ls c /\ NoDup (c :: Ls c).
Proof.
  pose proof (column_of_range ns n Hn) as Hc. pose proof Hc as Hc1%elem_of_seqZ. destruct Ho as [O1 O2 O3 O4 O5 O6 O7]. split.
  - intros [?|Hin]%elem_of_cons; [lia|]. pose proof (O6 c p Hc Hin). lia.
  - apply NoDup_cons. split; [|by apply O5]. intros Hin. pose proof (O6 c c Hc Hin). lia.
Qed.

Lemma open_fresh : links down up c (Ls c) c (fresh_node p c n (nodes_ s)).
Proof.
  destruct (op_rings _ _ _ _ Ho c (column_of_range ns n Hn)) as [Hr _]. destruct open_apart as [Hpc _].
  apply (links_frame down up c _ c (nodes_ s)); [intros q Hq|intros q Hq|done]; apply fresh_other; intros ->; apply Hpc; [done|].
  apply elem_of_app in Hq as [Hq|Hq%list_elem_of_singleton]; [by right|rewrite Hq; left].
Qed.

Lemma new_row_run : p < kMaxNodes ->
  new_row n s = Ok (p, mkSolver (root_ s) (inout_ s) (columns_ s) (stack_ s) h3 (p + 1)).
Proof.
  intros Hp. destruct (op_rings _ _ _ _ Ho c (column_of_range ns n Hn)) as [_ Hs]. destruct open_apart as [Hpc _].
  unfold new_row. rewrite (op_columns _ _ _ _ Ho n), decide_True by done. rewrite (op_curr _ _ _ _ Ho).
  rewrite (proj2 (Z.ltb_lt _ _)) by done. run.
  rewrite (put_up_ok c (Ls c) p _ (zlen (Ls c))); [done|apply open_fresh|done|rewrite fresh_field; by eexists..| |rewrite fresh_field; by eexists].
  rewrite fresh_other; [done|]. intros E. apply Hpc, elem_of_cons. by left.
Qed.

Lemma new_row_rings : rings ns (add_last c p Ls) h3.
Proof.
  destruct open_apart as [Hpc Hnd]. pose proof (column_of_range ns n Hn) as Hc. intros d Hd. unfold add_last, node_at. case_decide as E.
  - subst d. split.
    + eapply links_frame; [intros q _|intros q _|apply (links_snoc down up c (Ls c) p _ ltac:(done) open_fresh Hnd Hpc)];
        by rewrite !lookup_insert_ne by congruence.
    + rewrite lookup_insert_ne by congruence. rewrite lookup_insert_eq, length_app. simpl. f_equal. lia.
  - apply (ring_frame ns Ls p s c d); [done..|]. intros q f Hq Hqc _. apply node_at_other; [done|..]; intros ->; apply Hqc; [left|apply last_in].
Qed.

Lemma new_row_open : open ns (add_last c p Ls) (p + 1) (mkSolver (root_ s) (inout_ s) (columns_ s) (stack_ s) h3 (p + 1)).
Proof.
  destruct open_apart as [Hpc _]. pose proof (column_of_range ns n Hn) as Hc. pose proof new_row_rings as Hrings.
  destruct Ho as [O1 O2 O3 O4 O5 O6 O7]. split; simpl; try done; try lia; unfold add_last.
  - intros d Hd. case_decide as E; [|by apply O5]. subst d. apply NoDup_app. split; [by apply O5|].
    split; [|apply NoDup_singleton]. intros q Hq ->%list_elem_of_singleton. apply Hpc. by right.
  - intros d q Hd. case_decide; [intros [Hq|Hq%list_elem_of_singleton]%elem_of_app|intros Hq];
      try (pose proof (O6 d q Hd Hq)); lia.
  - intros d d' q Hd Hd'.
    case_decide as E1; case_decide as E2; rewrite ?elem_of_app, ?list_elem_of_singleton; [congruence|..|by apply O7].
    + intros [Hq| ->] Hq'; [by apply (O7 _ _ q)|]. pose proof (O6 d' p Hd' Hq'). lia.
    + intros Hq [Hq'| ->]; [by apply (O7 _ _ q)|]. pose proof (O6 d p Hd Hq). lia.
Qed.

Lemma new_row_ok : p < kMaxNodes ->
  exists s', new_row n s = Ok (p, s') /\ open ns (add_last c p Ls) (p + 1) s' /\ same_rest s s' /\
    node_added ns p n (nodes_ s) (nodes_ s').
Proof.
  intros Hp. destruct open_apart as [Hpc _]. eexists. split; [by apply new_row_run|]. split; [apply new_row_open|]. split; [done|].
  apply node_at_added; [done|]. intros E. apply Hpc, elem_of_cons. by left.
Qed.
End NewRow.

(** New nodes from [p] on, with the names [l]. *)
Definition nodes_added (ns : list Z) (p : Z) (l : list Z) (h h' : memory) : Prop :=
  (forall q f, ~ (p <= q < p + zlen l) -> f <> up -> f <> down -> f <> size -> h' !! (q, f) = h !! (q, f)) /\
  forall e n, l !! e = Some n ->
    let q := p + Z.of_nat e in
    h' !! (q, left) = Some q /\ h' !! (q, right) = Some q /\ h' !! (q, name) = Some n /\ h' !! (q, col) = Some (column_of ns n).

Lemma nodes_added_snoc ns p l n h h1 h2 :
  nodes_added ns p l h h1 -> node_added ns (p + zlen l) n h1 h2 -> nodes_added ns p (l ++ [n]) h h2.
Proof.
  intros [A1 A2] [B1 B2]. split.
  - intros q f Hq F1 F2 F3. rewrite length_app in Hq. simpl in Hq. rewrite B1 by (done || lia). apply A1; (done || lia).
  - intros e m Hm. apply lookup_snoc_Some in Hm as [[He Hm]|[-> <-]]; [|done].
    cbv zeta. rewrite !B1 by (done || lia). by apply A2.
Qed.

Lemma row_linked ns p l h0 h :
  nodes_added ns p l h0 h -> zlen l = 4 ->
  exists h1 h2 h', put_left p (p + 1) h = Ok h1 /\ put_left p (p + 2) h1 = Ok h2 /\ put_left p (p + 3) h2 = Ok h' /\
    links right left p [p + 1; p + 2; p + 3] p h' /\
    forall q f, ~ (p <= q < p + 4 /\ (f = left \/ f = right)) -> h' !! (q, f) = h !! (q, f).
Proof.
  intros [_ Hf] Hl.
  assert (Hlr : forall k, 0 <= k < 4 -> h !! (p + k, left) = Some (p + k) /\ h !! (p + k, right) = Some (p + k)).
  { intros k Hk. destruct (lookup_lt_is_Some_2 l (Z.to_nat k)) as [n Hn]; [lia|].
    destruct (Hf _ _ Hn) as (? & ? & _). by replace (p + k) with (p + Z.of_nat (Z.to_nat k)) by lia. }
  assert (links right left p [] p h) as L0.
  { destruct (Hlr 0 ltac:(lia)). by replace (p + 0) with p in * by lia. }
  set (h1 := insert_last right left p p (p + 1) h). set (h2 := insert_last right left p (p + 1) (p + 2) h1).
  set (h3 := insert_last right left p (p + 2) (p + 3) h2).
  assert (forall k f, 2 <= k < 4 -> h1 !! (p + k, f) = h !! (p + k, f)) as F1.
  { intros k f Hk. apply insert_last_frame; right; lia. }
  assert (forall k f, 3 <= k < 4 -> h2 !! (p + k, f) = h !! (p + k, f)) as F2.
  { intros k f Hk. rewrite <- F1 by lia. apply insert_last_frame; right; lia. }
  assert (links right left p [p + 1] p h1) as L1.
  { apply (links_snoc right left p [] (p + 1) h); [done|done|apply NoDup_singleton|]. rewrite list_elem_of_singleton. lia. }
  assert (links right left p [p + 1; p + 2] p h2) as L2.
  { apply (links_snoc right left p [p + 1] (p + 2) h1); [done|done|..].
    - apply NoDup_cons. rewrite list_elem_of_singleton. split; [lia|apply NoDup_singleton].
    - rewrite !elem_of_cons, elem_of_nil. lia. }
  assert (links right left p [p + 1; p + 2; p + 3] p h3) as L3.
  { apply (links_snoc right left p [p + 1; p + 2] (p + 3) h2); [done|done|..].
    - do 2 (apply NoDup_cons; split; [rewrite !elem_of_cons, elem_of_nil; lia|]). apply NoDup_singleton.
    - rewrite !elem_of_cons, elem_of_nil. lia. }
  exists h1, h2, h3. split; [|split; [|split; [|split; [done|]]]].
  - apply (put_left_ok p [] (p + 1) h); [done| |by eexists; apply Hlr; lia..]. rewrite list_elem_of_singleton. lia.
  - apply (put_left_ok p [p + 1] (p + 2) h1); [done| |rewrite F1 by lia; by eexists; apply Hlr; lia..].
    rewrite !elem_of_cons, elem_of_nil. lia.
  - apply (put_left_ok p [p + 1; p + 2] (p + 3) h2); [done| |rewrite F2 by lia; by eexists; apply Hlr; lia..].
    rewrite !elem_of_cons, elem_of_nil. lia.
  - intros q f Hq.
    assert ((f <> left /\ f <> right) \/ (q < p \/ p + 4 <= q)) as [[G1 G2]|Hq'].
    { destruct (decide (p <= q < p + 4)) as [Hin|]; [left; split; intros ->; tauto|right; lia]. }
    + subst h3 h2 h1. by rewrite !insert_last_frame by (left; done).
    + subst h3 h2 h1. by rewrite !insert_last_frame by (right; lia).
Qed.

Lemma built_open board ns rs s : built board ns rs s -> open ns (ring_of ns rs) (row_base ns (zlen rs)) s.
Proof.
  intros [B1 B2 B3 B4 B5 B6 B7 B8]. split; try done; [unfold row_base; lia|..].
  - intros c _. apply NoDup_filter, NoDup_seqZ.
  - intros c q _ [_ Hq]%list_elem_of_filter. apply elem_of_seqZ in Hq. unfold row_base in *. lia.
  - intros c c' q _ _ [<- _]%list_elem_of_filter [<- _]%list_elem_of_filter. done.
Qed.

Lemma node_name_old ns rs r q :
  row_base ns 0 <= q < row_base ns (zlen rs) -> node_name ns (rs ++ [r]) q = node_name ns rs q.
Proof. unfold row_base, node_name. intros Hq. rewrite lookup_total_app_l; [done|]. dlia. Qed.

Lemma node_name_at ns rs t r e n :
  rs !! t = Some r -> row_names r !! e = Some n -> node_name ns rs (row_base ns (Z.of_nat t) + Z.of_nat e) = n.
Proof.
  intros Hr Hn. assert (e < 4)%nat as He by (apply lookup_lt_Some in Hn; by destruct r).
  unfold node_name, row_base. replace (_ - 1 - _) with (Z.of_nat t * 4 + Z.of_nat e) by lia.
  rewrite Z.div_add_l, (Z.div_small (Z.of_nat e)), Z.add_0_r, Nat2Z.id by lia. rewrite Z.add_comm, Z_mod_plus_full, Z.mod_small, Nat2Z.id by lia.
  by rewrite (list_lookup_total_correct _ _ _ Hr), (list_lookup_total_correct _ _ _ Hn).
Qed.

Lemma ring_of_snoc ns rs r c :
  let p := row_base ns (zlen rs) in let col_at e := column_of ns (row_names r !!! e) in
  ring_of ns (rs ++ [r]) c =
    add_last (col_at 3%nat) (p + 3) (add_last (col_at 2%nat) (p + 2) (add_last (col_at 1%nat) (p + 1)
      (add_last (col_at 0%nat) p (ring_of ns rs)))) c.
Proof.
  intros p col_at. unfold ring_of at 1. rewrite length_app.
  replace (4 * Z.of_nat (length rs + length [r])) with (4 * zlen rs + 4) by (simpl; lia).
  rewrite seqZ_app, filter_app by lia.
  replace (filter _ (seqZ (row_base ns 0) (4 * zlen rs))) with (ring_of ns rs c).
  2:{ apply filter_ext_in. intros q Hq%elem_of_seqZ. rewrite node_name_old; [done|]. unfold row_base in *. lia. }
  replace (row_base ns 0 + 4 * zlen rs) with p by (subst p; unfold row_base; lia).
  change (seqZ p 4) with [0 + p; 1 + p; 2 + p; 3 + p].
  assert (Hcol : forall e, (e < 4)%nat -> column_of ns (node_name ns (rs ++ [r]) (Z.of_nat e + p)) = col_at e).
  { intros e He. destruct (lookup_lt_is_Some_2 (row_names r) e) as [n Hn]; [by destruct r|]. subst col_at. cbv beta.
    rewrite (list_lookup_total_correct _ _ _ Hn). f_equal. rewrite Z.add_comm. apply (node_name_at ns _ _ r e n); [|done].
    apply list_lookup_middle. lia. }
  pose proof (Hcol 0%nat ltac:(lia)) as H0. pose proof (Hcol 1%nat ltac:(lia)) as H1.
  pose proof (Hcol 2%nat ltac:(lia)) as H2. pose proof (Hcol 3%nat ltac:(lia)) as H3. 
  change (Z.of_nat 0) with 0 in H0. change (Z.of_nat 1) with 1 in H1. change (Z.of_nat 2) with 2 in H2. change (Z.of_nat 3) with 3 in H3.
  rewrite !filter_cons, H0, H1, H2, H3, filter_nil. unfold add_last.
  rewrite Z.add_0_l, (Z.add_comm 1), (Z.add_comm 2), (Z.add_comm 3).
  repeat case_decide; rewrite <- ?app_assoc; simpl; by rewrite ?app_nil_r.
Qed.

(** The four nodes of a row. *)
Lemma new_rows_ok board ns rs s i v :
  built board ns rs s -> (forall n, n ∈ row_names (i, v) -> n ∈ ns) -> row_base ns (zlen rs) + 3 < kMaxNodes ->
  let p := row_base ns (zlen rs) in
  exists s1 s2 s3 s4, new_row i s = Ok (p, s1) /\ new_row (get_row_col (row_of i) v) s1 = Ok (p + 1, s2) /\
    new_row (get_col_col (col_of i) v) s2 = Ok (p + 2, s3) /\ new_row (get_box_col (box_of i) v) s3 = Ok (p + 3, s4) /\
    same_rest s s4 /\ curr_node_ s4 = p + 4 /\ rings ns (ring_of ns (rs ++ [(i, v)])) (nodes_ s4) /\
    nodes_added ns p (row_names (i, v)) (nodes_ s) (nodes_ s4).
Proof.
  intros Hb Hn Hlen p. subst p. set (p := row_base ns (zlen rs)) in *. pose proof (built_open _ _ _ _ Hb) as O0.
  assert (nodes_added ns p [] (nodes_ s) (nodes_ s)) as A0 by (split; [done|intros e n He; by destruct e]).
  destruct (new_row_ok ns _ p i s O0) as (s1 & E1 & O1 & R1 & A1); [apply Hn; left|lia|].
  assert (nodes_added ns p [i] (nodes_ s) (nodes_ s1)) as A1' by (apply (nodes_added_snoc ns p [] i _ _ _ A0); by rewrite Z.add_0_r).
  clear A0 A1. rename A1' into A1.
  destruct (new_row_ok ns _ (p + 1) (get_row_col (row_of i) v) s1 O1) as (s2 & E2 & O2 & R2 & A2); [apply Hn; do 1 right; left|lia|].
  apply (nodes_added_snoc ns p [i]) with (h := nodes_ s) in A2; [|done]. replace (p + 1 + 1) with (p + 2) in O2 by lia.
  destruct (new_row_ok ns _ (p + 2) (get_col_col (col_of i) v) s2 O2) as (s3 & E3 & O3 & R3 & A3); [apply Hn; do 2 right; left|lia|].
  apply (nodes_added_snoc ns p [i; get_row_col (row_of i) v]) with (h := nodes_ s) in A3; [|done]. replace (p + 2 + 1) with (p + 3) in O3 by lia.
  destruct (new_row_ok ns _ (p + 3) (get_box_col (box_of i) v) s3 O3) as (s4 & E4 & O4 & R4 & A4); [apply Hn; do 3 right; left|lia|].
  apply (nodes_added_snoc ns p [i; get_row_col (row_of i) v; get_col_col (col_of i) v]) with (h := nodes_ s) in A4; [|done].
  exists s1, s2, s3, s4. do 4 (split; [done|]). split; [|split; [|split; [|done]]].
  - unfold same_rest in *. intuition congruence.
  - rewrite (op_curr _ _ _ _ O4). lia.
  - intros c Hc. rewrite ring_of_snoc. by apply (op_rings _ _ _ _ O4).
Qed.

Lemma row_built_frame ns b r h h' :
  (forall q f, b <= q < b + 4 -> f <> up -> f <> down -> f <> size -> h' !! (q, f) = h !! (q, f)) ->
  row_built ns b r h -> row_built ns b r h'.
Proof.
  intros Hh [H1 H2]. split.
  - apply (links_frame right left b _ b h); [| |done]; intros q Hq; apply Hh; try done;
      rewrite ?elem_of_app, !elem_of_cons, elem_of_nil in Hq; lia.
  - intros e n He. assert (e < 4)%nat by (apply lookup_lt_Some in He; by destruct r). rewrite !Hh by (done || lia). by apply H2.
Qed.

Lemma rings_frame ns Ls h h' :
  (forall q f, f = up \/ f = down \/ f = size -> h' !! (q, f) = h !! (q, f)) -> rings ns Ls h -> rings ns Ls h'.
Proof.
  intros Hh Hr c Hc. destruct (Hr c Hc) as [H1 H2]. split; [|rewrite Hh; tauto].
  apply (links_frame down up c _ c h); [intros; apply Hh; tauto|intros; apply Hh; tauto|done].
Qed.

Lemma add_row_ok board ns rs s i v :
  built board ns rs s -> (forall n, n ∈ row_names (i, v) -> n ∈ ns) -> row_base ns (zlen rs) + 3 < kMaxNodes ->
  exists s', add_row i v s = Ok s' /\ built board ns (rs ++ [(i, v)]) s'.
Proof.
  intros Hb Hn Hlen. destruct (new_rows_ok board ns rs s i v Hb Hn Hlen) as (s1 & s2 & s3 & s4 & E1 & E2 & E3 & E4 & Hs & Hc & Hr & Ha).
  set (p := row_base ns (zlen rs)) in *. destruct (row_linked ns p _ _ _ Ha eq_refl) as (h1 & h2 & h' & L1 & L2 & L3 & Hl & Hf).
  exists (set_nodes s4 h'). split.
  { unfold add_row. step_with E1. step_with E2. step_with E3. step_with E4.
    rewrite (on_nodes_Ok _ s4 h1 L1), bind_Ok. rewrite (on_nodes_Ok _ (set_nodes s4 h1) h2 L2), bind_Ok.
    by rewrite (on_nodes_Ok _ (set_nodes _ h2) h' L3). }
  destruct Hb as [B1 B2 B3 B4 B5 B6 B7 B8], Hs as (S1 & S2 & S3 & S4), Ha as [A1 A2]. simpl in A1.
  assert (Hframe : forall q f, q < p -> f <> up -> f <> down -> f <> size -> h' !! (q, f) = nodes_ s !! (q, f)).
  { intros q f Hq F1 F2 F3. rewrite Hf by lia. apply A1; (done || lia). }
  split; simpl; try congruence.
  - rewrite Hc, length_app. subst p. unfold row_base. simpl. lia.
  - intros n. by rewrite S3.
  - apply (links_frame right left 0 _ 0 (nodes_ s)); [| |done]; intros q Hq; apply Hframe; try done; subst p; unfold row_base;
      rewrite ?elem_of_app, !elem_of_cons, ?elem_of_nil, elem_of_seqZ in Hq; lia.
  - apply (rings_frame ns _ (nodes_ s4)); [|done]. intros q f Hq. apply Hf. intros [_ ?]. naive_solver.
  - intros t r Ht. apply lookup_snoc_Some in Ht as [[Ht1 Ht]|[-> <-]].
    + apply (row_built_frame ns _ r (nodes_ s)); [|by apply B8]. intros q f Hq. apply Hframe. subst p. unfold row_base in *. lia.
    + fold p. split; [done|]. intros e n He. rewrite !Hf by naive_solver. by apply A2.
Qed.

(** ** The matrix *)

(** The other nodes of a row follow [p] around it. *)
Definition row_others (ns : list Z) (p : Z) : list Z :=
  let e := (p - row_base ns 0) mod 4 in map (fun k => p - e + (e + k) mod 4) [1; 2; 3].

Definition matrix_of (ns : list Z) (rs : list (Z * Z)) : matrix :=
  mkMatrix (seqZ (row_base ns 0) (4 * zlen rs)) (seqZ 1 (zlen ns)) 0 (fun p => column_of ns (node_name ns rs p)) (node_name ns rs) (row_others ns).

(** What the constructor's lists promise. *)
Record fit (ns : list Z) (rs : list (Z * Z)) : Prop := {
  fit_nodup : NoDup ns;
  fit_names r n : r ∈ rs -> n ∈ row_names r -> n ∈ ns;
  fit_apart r : r ∈ rs -> NoDup (row_names r);
  fit_columns : zlen ns <= 324;
  fit_rows : zlen rs <= 729
}.

Lemma node_split ns rs p :
  p ∈ mN (matrix_of ns rs) <-> exists t e r, rs !! t = Some r /\ (e < 4)%nat /\ p = row_base ns (Z.of_nat t) + Z.of_nat e.
Proof.
  simpl. rewrite elem_of_seqZ. unfold row_base. split.
  - intros Hp. set (q := p - 1 - zlen ns). destruct (lookup_lt_is_Some_2 rs (Z.to_nat (q / 4))) as [r Hr]; [subst q; dlia|].
    exists (Z.to_nat (q / 4)), (Z.to_nat (q mod 4)), r. split; [done|]. subst q. split; dlia.
  - intros (t & e & r & Hr & He & ->). apply lookup_lt_Some in Hr. lia.
Qed.

Lemma row_others_at ns t e :
  (e < 4)%nat -> let b := row_base ns (Z.of_nat t) in
  row_others ns (b + Z.of_nat e) =
    match e with 0%nat => [b + 1; b + 2; b + 3] | 1%nat => [b + 2; b + 3; b] | 2%nat => [b + 3; b; b + 1] | _ => [b; b + 1; b + 2] end.
Proof.
  intros He b. unfold row_others. replace (b + Z.of_nat e - row_base ns 0) with (Z.of_nat e + Z.of_nat t * 4) by (subst b; unfold row_base; lia).
  rewrite Z_mod_plus_full, Z.mod_small by lia. replace (b + Z.of_nat e - Z.of_nat e) with b by lia.
  destruct e as [|[|[|[|e]]]]; [| | | |lia]; simpl; by rewrite ?Z.add_0_r.
Qed.

(** A row's nodes are those of its first four addresses. *)
Lemma row_nodes_at ns t e x :
  (e < 4)%nat -> let b := row_base ns (Z.of_nat t) in
  x ∈ (b + Z.of_nat e) :: row_others ns (b + Z.of_nat e) <-> exists d, (d < 4)%nat /\ x = b + Z.of_nat d.
Proof.
  intros He b. subst b. rewrite row_others_at by done. set (b := row_base ns (Z.of_nat t)).
  assert ((exists d, (d < 4)%nat /\ x = b + Z.of_nat d) <-> b <= x < b + 4) as ->.
  { split; [intros (d & ? & ->); lia|]. intros Hx. exists (Z.to_nat (x - b)). lia. }
  destruct e as [|[|[|[|e]]]]; [| | | |lia]; rewrite !elem_of_cons, elem_of_nil; lia.
Qed.

Lemma column_of_inj ns m n : m ∈ ns -> n ∈ ns -> column_of ns m = column_of ns n -> m = n.
Proof.
  unfold column_of. intros Hm%index_lookup Hn%index_lookup E. assert (index m ns = index n ns) as E' by lia.
  rewrite E' in Hm. congruence.
Qed.

Section Fit.
Context (ns : list Z) (rs : list (Z * Z)) (Hfit : fit ns rs).

Lemma row_length r : length (row_names r) = 4%nat.
Proof. by destruct r. Qed.

(** The columns of the row a node is in. *)
Lemma row_cols_at t e r :
  rs !! t = Some r -> (e < 4)%nat ->
  row_cols (matrix_of ns rs) (row_base ns (Z.of_nat t) + Z.of_nat e) ≡ₚ map (column_of ns) (row_names r).
Proof.
  intros Hr He. unfold row_cols. cbn [colof others matrix_of]. rewrite row_others_at by done. set (b := row_base ns (Z.of_nat t)).
  assert (Hname : forall d, (d < 4)%nat -> node_name ns rs (b + Z.of_nat d) = row_names r !!! d).
  { intros d Hd. destruct (lookup_lt_is_Some_2 (row_names r) d) as [n Hn]; [by rewrite row_length|].
    rewrite (list_lookup_total_correct _ _ _ Hn). by apply (node_name_at ns rs t r). }
  pose proof (Hname 0%nat ltac:(lia)) as N0. pose proof (Hname 1%nat ltac:(lia)) as N1.
  pose proof (Hname 2%nat ltac:(lia)) as N2. pose proof (Hname 3%nat ltac:(lia)) as N3.
  change (Z.of_nat 1) with 1 in N1. change (Z.of_nat 2) with 2 in N2. change (Z.of_nat 3) with 3 in N3. rewrite Z.add_0_r in N0.
  cbn [map]. rewrite Hname by done. destruct r as [i v]. simpl in *.
  destruct e as [|[|[|[|e]]]]; [| | | |lia]; simpl; rewrite ?N0, ?N1, ?N2, ?N3; solve_Permutation.
Qed.

Lemma matrix_of_ok : matrix_ok (matrix_of ns rs).
Proof.
  pose proof (fit_columns _ _ Hfit) as Hc. pose proof (fit_rows _ _ Hfit) as Hr. split.
  - simpl. apply NoDup_cons. split; [rewrite elem_of_seqZ; lia|apply NoDup_seqZ].
  - apply NoDup_seqZ.
  - simpl. intros n. rewrite !elem_of_seqZ. unfold row_base. lia.
  - intros n (t & e & r & Ht & He & ->)%node_split. simpl. apply column_of_range.
    destruct (lookup_lt_is_Some_2 (row_names r) e) as [m Hm]; [by rewrite row_length|].
    rewrite (node_name_at ns rs t r e m) by done. apply (fit_names _ _ Hfit r); by eapply list_elem_of_lookup_2.
  - intros n (t & e & r & Ht & He & ->)%node_split. rewrite (row_cols_at t e r) by done.
    apply list_elem_of_lookup_2 in Ht. apply NoDup_fmap_2_strong; [|by apply (fit_apart _ _ Hfit)].
    intros x y Hx Hy. apply column_of_inj; by apply (fit_names _ _ Hfit r).
  - intros n k (t & e & r & Ht & He & ->)%node_split Hk.
    assert (exists d, (d < 4)%nat /\ k = row_base ns (Z.of_nat t) + Z.of_nat d) as (d & Hd & ->).
    { apply (row_nodes_at ns t e k He). by right. }
    split; [apply node_split; by exists t, d, r|]. intros x. cbn [others matrix_of]. by rewrite !row_nodes_at.
  - simpl. rewrite !length_seqZ. unfold ring_fuel, kMaxNodes. lia.
Qed.

Lemma built_inv board s : built board ns rs s -> inv (matrix_of ns rs) [] (nodes_ s).
Proof.
  intros [B1 B2 B3 B4 B5 B6 B7 B8]. split.
  - split; intros n (t & e & r & Ht & He & ->)%node_split; destruct (B8 t r Ht) as [R1 R2];
      destruct (lookup_lt_is_Some_2 (row_names r) e) as [m Hm]; try (by rewrite row_length); destruct (R2 e m Hm) as [R3 R4].
    + cbn [colof nameof matrix_of]. by rewrite (node_name_at ns rs t r e m).
    + cbn [colof nameof matrix_of]. by rewrite (node_name_at ns rs t r e m).
    + cbn [others matrix_of]. rewrite row_others_at by done. set (b := row_base ns (Z.of_nat t)) in *. clear R3 R4 Hm.
      destruct e as [|[|[|[|e]]]]; [| | | |lia].
      * by rewrite Z.add_0_r.
      * by apply (links_rotate right left b [] (b + 1) [b + 2; b + 3]).
      * by apply (links_rotate right left b [b + 1] (b + 2) [b + 3]).
      * by apply (links_rotate right left b [b + 1; b + 2] (b + 3) []).
  - simpl. unfold active. simpl. rewrite filter_all; [done|]. intros x _ Hx. by apply not_elem_of_nil in Hx.
  - intros c Hc. exact (B7 c Hc).
Qed.
End Fit.

(** ** The constructor *)

Lemma for_each_if {A S : Type} (b : A -> bool) (f : A -> S -> result S) l s :
  for_each l (fun x s => if b x then f x s else Ok s) s = for_each (List.filter b l) f s.
Proof.
  revert s. induction l as [|x l IH]; intros s; [done|]. cbn [for_each List.filter]. destruct (b x); cbn [for_each].
  - destruct (f x s); [|done]. rewrite !bind_Ok. apply IH.
  - rewrite bind_Ok. apply IH.
Qed.

Lemma for_each_concat {A B S : Type} (g : A -> list B) (f : B -> S -> result S) (body : A -> S -> result S) l s :
  (forall x s, body x s = for_each (g x) f s) -> for_each l body s = for_each (concat (map g l)) f s.
Proof.
  intros Hb. revert s. induction l as [|x l IH]; intros s; [done|]. cbn [for_each map concat].
  rewrite for_each_app, Hb. destruct (for_each (g x) f s); [|done]. rewrite !bind_Ok. apply IH.
Qed.

(** The columns and rows of a board. *)
Definition cell_names (board : list Z) : list Z := List.filter (is_empty_cell board) (range 0 kCells).
Definition unit_names (a : seen) (i v : Z) : list Z :=
  (if bool_decide ((i, v) ∈ rows a) then [] else [get_row_col i v]) ++
  (if bool_decide ((i, v) ∈ cols a) then [] else [get_col_col i v]) ++
  (if bool_decide ((i, v) ∈ boxes a) then [] else [get_box_col i v]).
Definition all_unit_names (a : seen) : list Z := concat (map (fun i => concat (map (unit_names a i) (range 1 10))) (range 0 9)).
Definition names (board : list Z) : list Z := cell_names board ++ all_unit_names (look_all board).
Definition cell_candidates (board : list Z) (a : seen) (i : Z) : list (Z * Z) :=
  if is_empty_cell board i then map (pair i) (List.filter (candidate a i) (range 1 10)) else [].
Definition candidates (board : list Z) : list (Z * Z) :=
  concat (map (cell_candidates board (look_all board)) (range 0 kCells)).

Lemma cell_columns_each board s : cell_columns board s = for_each (cell_names board) append_column s.
Proof. apply for_each_if. Qed.

Lemma for_each_unless {A S : Type} (b : bool) (f : A -> S -> result S) x s :
  for_each (if b then [] else [x]) f s = if b then Ok s else f x s.
Proof. destruct b; [done|]. cbn [for_each]. by destruct (f x s). Qed.

Lemma unit_columns_each a i v s : unit_columns a i v s = for_each (unit_names a i v) append_column s.
Proof.
  unfold unit_columns, unit_names. rewrite for_each_app, for_each_unless. destruct (if bool_decide ((i, v) ∈ rows a) then _ else _); [|done]. rewrite !bind_Ok.
  rewrite for_each_app, for_each_unless. destruct (if bool_decide ((i, v) ∈ cols a) then _ else _); [|done]. rewrite !bind_Ok. by rewrite for_each_unless.
Qed.

Lemma all_unit_columns_each a s : all_unit_columns a s = for_each (all_unit_names a) append_column s.
Proof. apply for_each_concat. intros i s1. apply for_each_concat. intros v s2. apply unit_columns_each. Qed.

Lemma for_each_map {A B S : Type} (g : A -> B) (f : B -> S -> result S) l s :
  for_each l (fun x => f (g x)) s = for_each (map g l) f s.
Proof. revert s. induction l as [|x l IH]; intros s; [done|]. cbn [for_each map]. destruct (f (g x) s); [|done]. apply IH. Qed.

Lemma all_rows_each board s :
  all_rows board (look_all board) s = for_each (candidates board) (fun r => add_row r.1 r.2) s.
Proof.
  apply for_each_concat. intros i s1. unfold cell_candidates. destruct (is_empty_cell board i); [|done].
  rewrite for_each_if. by rewrite (for_each_map (pair i) (fun r => add_row r.1 r.2)).
Qed.

Lemma columns_each board ns l s :
  built board ns [] s -> NoDup (ns ++ l) -> zlen (ns ++ l) <= 324 ->
  exists s', for_each l append_column s = Ok s' /\ built board (ns ++ l) [] s'.
Proof.
  revert ns s. induction l as [|n l IH]; intros ns s Hb Hnd Hlen; [exists s; by rewrite app_nil_r|]. cbn [for_each].
  destruct (append_column_ok board ns n s Hb) as (s1 & E1 & Hb1).
  - apply NoDup_app in Hnd as (_ & Hd & _). intros Hin. apply (Hd n Hin). left.
  - rewrite length_app in Hlen. simpl in Hlen. lia.
  - step_with E1. replace (ns ++ n :: l) with ((ns ++ [n]) ++ l) in * by (by rewrite <- app_assoc). by apply IH.
Qed.

Lemma rows_each board ns rs l s :
  built board ns rs s -> fit ns (rs ++ l) ->
  exists s', for_each l (fun r => add_row r.1 r.2) s = Ok s' /\ built board ns (rs ++ l) s'.
Proof.
  revert rs s. induction l as [|r l IH]; intros rs s Hb Hf; [exists s; by rewrite app_nil_r|]. cbn [for_each].
  destruct (add_row_ok board ns rs s r.1 r.2 Hb) as (s1 & E1 & Hb1).
  - intros n Hn. apply (fit_names _ _ Hf r); [apply elem_of_app; right; left|by destruct r].
  - pose proof (fit_rows _ _ Hf) as Hr. rewrite length_app in Hr. simpl in Hr. pose proof (fit_columns _ _ Hf). unfold row_base, kMaxNodes. lia.
  - step_with E1. rewrite <- surjective_pairing in Hb1.
    replace (rs ++ r :: l) with ((rs ++ [r]) ++ l) in * by (by rewrite <- app_assoc). by apply IH.
Qed.

(** ** The lists fit *)

Lemma filter_sublist_bool {A} (b : A -> bool) l : List.filter b l `sublist_of` l.
Proof. induction l as [|x l IH]; [done|]. simpl. destruct (b x); by constructor. Qed.

Lemma concat_sublist {A B} (g g' : A -> list B) l :
  (forall x, g x `sublist_of` g' x) -> concat (map g l) `sublist_of` concat (map g' l).
Proof. intros Hg. induction l as [|x l IH]; [done|]. by apply sublist_app. Qed.

Definition all_names : list Z :=
  range 0 kCells ++ concat (map (fun i => concat (map (fun v => [get_row_col i v; get_col_col i v; get_box_col i v]) (range 1 10))) (range 0 9)).

Lemma all_names_nodup : NoDup all_names.
Proof. apply (bool_decide_unpack _). vm_compute. exact I. Qed.

Lemma all_names_length : length all_names = 324%nat.
Proof. vm_compute. reflexivity. Qed.

Definition all_candidates : list (Z * Z) := concat (map (fun i => map (pair i) (range 1 10)) (range 0 kCells)).

Lemma all_candidates_length : length all_candidates = 729%nat.
Proof. vm_compute. reflexivity. Qed.

Lemma names_sublist board : names board `sublist_of` all_names.
Proof.
  unfold names, all_names, cell_names, all_unit_names. generalize (look_all board). intros a.
  apply sublist_app; [apply filter_sublist_bool|]. apply concat_sublist. intros i. apply concat_sublist. intros v. unfold unit_names.
  change [get_row_col i v; get_col_col i v; get_box_col i v] with ([get_row_col i v] ++ [get_col_col i v] ++ [get_box_col i v]).
  repeat apply sublist_app; destruct (bool_decide _); try done; apply sublist_nil_l.
Qed.

Lemma candidates_sublist board : candidates board `sublist_of` all_candidates.
Proof.
  unfold candidates, all_candidates. generalize (look_all board). intros a.
  apply concat_sublist. intros i. unfold cell_candidates. destruct (is_empty_cell board i); [|apply sublist_nil_l].
  apply fmap_sublist, filter_sublist_bool.
Qed.

Lemma range_in i a b : i ∈ range a b <-> a <= i < b.
Proof. unfold range. rewrite elem_of_seqZ. lia. Qed.

Lemma cell_candidates_in board a i v w :
  (i, v) ∈ cell_candidates board a w <-> w = i /\ 1 <= v < 10 /\ is_empty_cell board i = true /\ candidate a i v = true.
Proof.
  unfold cell_candidates. destruct (is_empty_cell board w) eqn:E.
  - rewrite list_elem_of_fmap. setoid_rewrite list_elem_of_In. setoid_rewrite filter_In. setoid_rewrite <- list_elem_of_In.
    setoid_rewrite range_in. split; [|intros (-> & ? & _ & ?); by exists v]. by intros (x & [= <- <-] & ? & ?).
  - rewrite elem_of_nil. split; [done|]. intros (-> & _ & ? & _). congruence.
Qed.

Lemma candidates_in board i v :
  (i, v) ∈ candidates board <->
  0 <= i < 81 /\ 1 <= v < 10 /\ is_empty_cell board i = true /\ candidate (look_all board) i v = true.
Proof.
  unfold candidates. rewrite elem_of_concat. setoid_rewrite cell_candidates_in. setoid_rewrite range_in. unfold kCells.
  split; [by intros (j & ? & -> & ?)|]. intros (? & ?). by exists i.
Qed.

Lemma unit_names_in board i v n :
  0 <= i < 9 -> 1 <= v < 10 -> n ∈ unit_names (look_all board) i v -> n ∈ names board.
Proof.
  intros Hi Hv Hn. unfold names. apply elem_of_app. right. unfold all_unit_names. apply elem_of_concat. exists i. split; [by apply range_in|].
  apply elem_of_concat. exists v. split; [by apply range_in|done].
Qed.

Lemma cell_name_in board i : 0 <= i < 81 -> is_empty_cell board i = true -> i ∈ names board.
Proof.
  intros Hi He. unfold names. apply elem_of_app. left. unfold cell_names. apply list_elem_of_In, filter_In. split; [|done].
  by apply list_elem_of_In, range_in.
Qed.

Lemma unit_row_in a i v : (i, v) ∉ rows a -> get_row_col i v ∈ unit_names a i v.
Proof. intros H. unfold unit_names. rewrite (bool_decide_false (_ ∈ rows _)) by done. left. Qed.

Lemma unit_col_in a i v : (i, v) ∉ cols a -> get_col_col i v ∈ unit_names a i v.
Proof. intros H. unfold unit_names. rewrite (bool_decide_false (_ ∈ cols _)) by done. apply elem_of_app. right. left. Qed.

Lemma unit_box_in a i v : (i, v) ∉ boxes a -> get_box_col i v ∈ unit_names a i v.
Proof. intros H. unfold unit_names. rewrite (bool_decide_false (_ ∈ boxes _)) by done. do 2 (apply elem_of_app; right). left. Qed.

Lemma cell_units i : 0 <= i < 81 -> 0 <= row_of i < 9 /\ 0 <= col_of i < 9 /\ 0 <= box_of i < 9.
Proof. unfold row_of, col_of, box_of. intros Hi. dlia. Qed.

Lemma candidate_inv a i v :
  candidate a i v = true -> (row_of i, v) ∉ rows a /\ (col_of i, v) ∉ cols a /\ (box_of i, v) ∉ boxes a.
Proof. unfold candidate. rewrite negb_true_iff, !orb_false_iff, !bool_decide_eq_false. tauto. Qed.

Lemma board_fit board : fit (names board) (candidates board).
Proof.
  split.
  - eapply sublist_NoDup; [apply all_names_nodup|apply names_sublist].
  - intros [i v] n (Hi & Hv & He & Hc)%candidates_in Hn. destruct (cell_units i Hi) as (U1 & U2 & U3).
    apply candidate_inv in Hc as (C1 & C2 & C3).
    apply elem_of_cons in Hn as [->|Hn].
    { by apply cell_name_in. }
    repeat (apply elem_of_cons in Hn as [->|Hn]); [..|by apply not_elem_of_nil in Hn].
    + apply (unit_names_in board (row_of i) v); [done..|by apply unit_row_in].
    + apply (unit_names_in board (col_of i) v); [done..|by apply unit_col_in].
    + apply (unit_names_in board (box_of i) v); [done..|by apply unit_box_in].
  - intros [i v] (Hi & Hv & He & Hc)%candidates_in. destruct (cell_units i Hi) as (U1 & U2 & U3). simpl.
    unfold get_row_col, get_col_col, get_box_col, kRow, kCol, kBox.
    repeat (apply NoDup_cons; split; [rewrite ?elem_of_cons, elem_of_nil; lia|]). constructor.
  - pose proof (sublist_length _ _ (names_sublist board)) as Hl. rewrite all_names_length in Hl. lia.
  - pose proof (sublist_length _ _ (candidates_sublist board)) as Hl.
    rewrite all_candidates_length in Hl. lia.
Qed.

(** ** What has been built *)

Abbreviation board_matrix board := (matrix_of (names board) (candidates board)).

Lemma SudokuSolver_new_ok board :
  exists s, SudokuSolver_new board = Ok s /\ built board (names board) (candidates board) s.
Proof.
  unfold SudokuSolver_new. unfold new_column at 1. simpl. run. unfold store. rewrite (load_Some _ _ _ 0); [|by rewrite fresh_field]. run.
  rewrite (load_Some _ _ _ 0); [|by rewrite lookup_insert_ne, fresh_field by congruence]. run.
  rewrite cell_columns_each. pose proof (board_fit board) as Hf.
  set (s0 := mkSolver _ _ _ _ _ _).
  assert (built board [] [] s0) as H0.
  { subst s0. split; simpl; try done.
    - intros c Hc. by apply not_elem_of_nil in Hc. }
  pose proof (fit_nodup _ _ Hf) as Hnd. pose proof (fit_columns _ _ Hf) as Hlen. unfold names in Hnd, Hlen.
  destruct (columns_each board [] (cell_names board) s0 H0) as (s1 & E1 & H1).
  { by apply NoDup_app in Hnd as (? & _ & _). }
  { rewrite length_app in Hlen. simpl. lia. }
  step_with E1. rewrite all_unit_columns_each.
  destruct (columns_each board _ (all_unit_names (look_all board)) s1 H1 Hnd Hlen) as (s2 & E2 & H2).
  step_with E2. rewrite all_rows_each. destruct (rows_each board _ [] (candidates board) s2 H2 Hf) as (s3 & E3 & H3).
  by exists s3.
Qed.
