(* ===== verification/SudokuSpec.v ===== *)
(** * What the sudoku solver computes

    A completion of a board is a filling of its empty cells in which every row, every
    column and every box holds the values 1 to 9.  The exact covers of the matrix that
    the constructor builds are the completions, and so [SolveSudoku] answers with one
    when there is one. *)

From S2P Require Import Prelude Sudoku DancingLinks SudokuMatrix.

(** ** Completions *)

Inductive unit_kind := Rows | Cols | Boxes.

(** The number of the row, column or box of a cell. *)
Definition unit_at (k : unit_kind) (i : Z) : Z :=
  match k with Rows => row_of i | Cols => col_of i | Boxes => box_of i end.

Definition unit_cells (k : unit_kind) (u : Z) : list Z := filter (fun i => unit_at k i = u) (range 0 kCells).

Definition value (g : list Z) (i : Z) : Z := default 0 (g !! Z.to_nat i).

Record complete (g : list Z) : Prop := {
  cg_length : zlen g = kCells;
  cg_units k u : 0 <= u < 9 -> map (value g) (unit_cells k u) ≡ₚ range 1 10
}.

(** [g] completes [board]: it keeps the cells that are not empty. *)
Definition completes (board g : list Z) : Prop :=
  complete g /\ forall i, 0 <= i < kCells -> value board i <> 0 -> value g i = value board i.

(** The digits of a board. *)
Definition board_text (g : list Z) : bytes := map (fun v => byte_of_Z (v + 48)) g.

Lemma unit_at_range k i : 0 <= i < 81 -> 0 <= unit_at k i < 9.
Proof. intros Hi. destruct (cell_units i Hi) as (? & ? & ?). by destruct k. Qed.

Lemma unit_cells_in k u i : i ∈ unit_cells k u <-> 0 <= i < 81 /\ unit_at k i = u.
Proof. unfold unit_cells. rewrite list_elem_of_filter, range_in. unfold kCells. tauto. Qed.

Lemma unit_cells_length k u : 0 <= u < 9 -> length (unit_cells k u) = 9%nat.
Proof.
  intros Hu. assert (forallb (fun u => length (unit_cells k u) =? 9)%nat (seqZ 0 9) = true) as H by (destruct k; vm_compute; done).
  rewrite forallb_forall in H. apply Nat.eqb_eq, H. apply list_elem_of_In, elem_of_seqZ. lia.
Qed.

(** Nine cells with every value have each value once. *)
Lemma unit_permutation g k u :
  0 <= u < 9 -> (forall v, 1 <= v < 10 -> exists i, 0 <= i < 81 /\ unit_at k i = u /\ value g i = v) ->
  map (value g) (unit_cells k u) ≡ₚ range 1 10.
Proof.
  intros Hu Hv. symmetry. apply submseteq_length_Permutation.
  - apply NoDup_submseteq; [apply NoDup_seqZ|]. intros v Hin%range_in. destruct (Hv v Hin) as (i & Hi & Ei & <-).
    apply list_elem_of_fmap. exists i. split; [done|]. by apply unit_cells_in.
  - rewrite length_map, unit_cells_length by done. done.
Qed.

Lemma complete_value g i : complete g -> 0 <= i < 81 -> 1 <= value g i < 10.
Proof.
  intros [_ Hg] Hi. apply range_in. rewrite <- (Hg Rows (unit_at Rows i)) by (by apply unit_at_range).
  apply list_elem_of_fmap. exists i. split; [done|]. by apply unit_cells_in.
Qed.

Lemma complete_find g k u v : complete g -> 0 <= u < 9 -> 1 <= v < 10 ->
  exists i, 0 <= i < 81 /\ unit_at k i = u /\ value g i = v.
Proof.
  intros [_ Hg] Hu Hv%range_in. rewrite <- (Hg k u Hu) in Hv. apply list_elem_of_fmap in Hv as (i & -> & Hi%unit_cells_in).
  exists i. tauto.
Qed.

Lemma complete_inj g k i j :
  complete g -> 0 <= i < 81 -> 0 <= j < 81 -> unit_at k i = unit_at k j -> value g i = value g j -> i = j.
Proof.
  intros [_ Hg] Hi Hj Hu. apply (NoDup_map_inj _ (unit_cells k (unit_at k i))); [|by apply unit_cells_in..].
  rewrite Hg by (by apply unit_at_range). apply NoDup_seqZ.
Qed.

(** ** The names of the columns *)

Definition seen_in (k : unit_kind) (a : seen) : gset (Z * Z) :=
  match k with Rows => rows a | Cols => cols a | Boxes => boxes a end.
Definition unit_col (k : unit_kind) (u v : Z) : Z :=
  match k with Rows => get_row_col u v | Cols => get_col_col u v | Boxes => get_box_col u v end.

Lemma unit_col_inj k u v k' u' v' :
  0 <= u < 9 -> 0 <= u' < 9 -> 1 <= v < 10 -> 1 <= v' < 10 -> unit_col k u v = unit_col k' u' v' -> k = k' /\ u = u' /\ v = v'.
Proof. destruct k, k'; cbn [unit_col]; unfold get_row_col, get_col_col, get_box_col, kRow, kCol, kBox; intros; (split; [done || lia|]); lia. Qed.

Lemma unit_col_high k u v : 0 <= u < 9 -> 1 <= v < 10 -> 100 <= unit_col k u v /\ Z.rem (unit_col k u v) 10 = v.
Proof. destruct k; cbn [unit_col]; unfold get_row_col, get_col_col, get_box_col, kRow, kCol, kBox; intros; split; dlia. Qed.

Lemma row_names_in i v n : n ∈ row_names (i, v) <-> n = i \/ exists k, n = unit_col k (unit_at k i) v.
Proof.
  cbn [row_names]. rewrite !elem_of_cons, elem_of_nil. split.
  - intros [?|[?|[?|[?|?]]]]; [by left|right; by exists Rows|right; by exists Cols|right; by exists Boxes|done].
  - intros [?|[[] ?]]; tauto.
Qed.

Lemma candidate_units a i v : candidate a i v = true <-> forall k, (unit_at k i, v) ∉ seen_in k a.
Proof.
  split; [intros (H1 & H2 & H3)%candidate_inv []; done|]. intros H. unfold candidate.
  rewrite !bool_decide_false; [done|apply (H Boxes)|apply (H Cols)|apply (H Rows)].
Qed.

Lemma unit_names_units a u v n : n ∈ unit_names a u v <-> exists k, (u, v) ∉ seen_in k a /\ n = unit_col k u v.
Proof.
  unfold unit_names. rewrite !elem_of_app. split.
  - intros [H|[H|H]]; case_bool_decide; try (by apply not_elem_of_nil in H); apply list_elem_of_singleton in H; [exists Rows|exists Cols|exists Boxes]; done.
  - intros ([] & Hk & ->); [left|right; left|right; right]; rewrite bool_decide_false by done; left.
Qed.

Lemma look_all_in board k u v :
  (u, v) ∈ seen_in k (look_all board) <-> exists i, 0 <= i < 81 /\ unit_at k i = u /\ value board i = v.
Proof.
  unfold look_all. transitivity (exists i, i ∈ range 0 kCells /\ unit_at k i = u /\ value board i = v).
  2:{ setoid_rewrite range_in. done. }
  assert (forall l a, (u, v) ∈ seen_in k (foldl (fun a i => look board i a) a l) <->
    (u, v) ∈ seen_in k a \/ exists i, i ∈ l /\ unit_at k i = u /\ value board i = v) as ->.
  - induction l as [|i l IH]; intros a; cbn [foldl].
    + setoid_rewrite elem_of_nil. naive_solver.
    + rewrite IH. setoid_rewrite elem_of_cons.
      assert ((u, v) ∈ seen_in k (look board i a) <-> (u, v) = (unit_at k i, value board i) \/ (u, v) ∈ seen_in k a) as ->.
      { destruct k; cbn [seen_in look rows cols boxes unit_at]; rewrite elem_of_union, elem_of_singleton; done. }
      split; [intros [[[= -> ->]|H]|(j & H)]|intros [H|(j & [->|H] & <- & <-)]]; naive_solver.
  - assert ((u, v) ∉ seen_in k (mkSeen ∅ ∅ ∅)) by (destruct k; apply not_elem_of_empty). tauto.
Qed.

Lemma is_empty_value board i : zlen board = kCells -> 0 <= i < 81 -> is_empty_cell board i = true <-> value board i = 0.
Proof.
  unfold kCells, is_empty_cell, value. intros Hl Hi. rewrite bool_decide_eq_true.
  destruct (lookup_lt_is_Some_2 board (Z.to_nat i)) as [x ->]; [lia|]. simpl. split; congruence.
Qed.

Lemma names_in board n :
  n ∈ names board <-> (0 <= n < 81 /\ is_empty_cell board n = true) \/
    exists k u v, 0 <= u < 9 /\ 1 <= v < 10 /\ (u, v) ∉ seen_in k (look_all board) /\ n = unit_col k u v.
Proof.
  unfold names. rewrite elem_of_app. unfold cell_names, all_unit_names. generalize (look_all board). intros a.
  rewrite list_elem_of_In, filter_In, <- list_elem_of_In, range_in. unfold kCells.
  rewrite elem_of_concat. setoid_rewrite elem_of_concat. setoid_rewrite range_in. setoid_rewrite unit_names_units. naive_solver.
Qed.

(** ** Covers and completions *)

(** The candidates [C] cover each name once. *)
Record covers (board : list Z) (C : list (Z * Z)) : Prop := {
  cv_candidates r : r ∈ C -> r ∈ candidates board;
  cv_once : NoDup (concat (map row_names C));
  cv_all n : n ∈ names board -> n ∈ concat (map row_names C)
}.

(** The candidate whose row a node is in. *)
Definition node_candidate (board : list Z) (p : Z) : Z * Z :=
  candidates board !!! Z.to_nat ((p - 1 - zlen (names board)) / 4).

Lemma node_candidate_at board t e r :
  candidates board !! t = Some r -> (e < 4)%nat -> node_candidate board (row_base (names board) (Z.of_nat t) + Z.of_nat e) = r.
Proof.
  intros Hr He. unfold node_candidate, row_base. replace (_ - 1 - _) with (Z.of_nat t * 4 + Z.of_nat e) by lia.
  rewrite Z.div_add_l, (Z.div_small (Z.of_nat e)), Z.add_0_r, Nat2Z.id by lia. by apply list_lookup_total_correct.
Qed.

Lemma node_candidate_in board p : p ∈ mN (board_matrix board) ->
  node_candidate board p ∈ candidates board /\
  row_cols (board_matrix board) p ≡ₚ map (column_of (names board)) (row_names (node_candidate board p)).
Proof.
  intros (t & e & r & Ht & He & ->)%node_split. rewrite (node_candidate_at board t e r) by done.
  split; [by eapply list_elem_of_lookup_2|]. by apply row_cols_at.
Qed.

Lemma exact_columns board T :
  (forall p, p ∈ T -> p ∈ mN (board_matrix board)) ->
  concat (map (row_cols (board_matrix board)) T) ≡ₚ map (column_of (names board)) (concat (map row_names (map (node_candidate board) T))).
Proof.
  intros HT. induction T as [|p T IH]; [done|]. cbn [map concat]. rewrite map_app.
  destruct (node_candidate_in board p) as [_ ->]; [apply HT; left|]. rewrite IH; [done|]. intros q Hq. apply HT. by right.
Qed.

Lemma exact_covers board T : exact (board_matrix board) [] T -> covers board (map (node_candidate board) T).
Proof.
  intros [E1 E2 E3 E4]. rewrite exact_columns in E2 by done. split.
  - intros r (p & -> & Hp)%list_elem_of_fmap. by apply node_candidate_in, E1.
  - by apply NoDup_fmap_1 in E2.
  - intros n Hn. destruct (E4 (column_of (names board) n)) as [H|H]; [by apply column_of_range|by apply not_elem_of_nil in H|].
    rewrite exact_columns in H by done. apply list_elem_of_fmap in H as (m & Em & Hm).
    enough (n = m) as -> by done. apply (column_of_inj (names board)); [done| |done].
    apply elem_of_concat in Hm as (r & Hr & Hm). apply (fit_names _ _ (board_fit board) r); [|done].
    apply list_elem_of_fmap in Hr as (p & -> & Hp). by apply node_candidate_in, E1.
Qed.

Lemma covers_exact board C : covers board C -> exists T, exact (board_matrix board) [] T.
Proof.
  intros [C1 C2 C3].
  assert (exists T, (forall p, p ∈ T -> p ∈ mN (board_matrix board)) /\ map (node_candidate board) T = C) as (T & HT & <-).
  { clear C2 C3. induction C as [|r C IH]; [exists []; split; [by intros p ?%not_elem_of_nil|done]|].
    destruct IH as (T & HT & <-); [intros r' Hr'; apply C1; by right|].
    destruct (list_elem_of_lookup_1 (candidates board) r) as [t Ht]; [apply C1; left|].
    exists (row_base (names board) (Z.of_nat t) + Z.of_nat 0 :: T). split.
    - intros p [->|Hp]%elem_of_cons; [|by apply HT]. apply node_split. exists t, 0%nat, r. split; [done|]. split; [lia|done].
    - cbn [map]. by rewrite (node_candidate_at board t 0 r) by (done || lia). }
  assert (Hin : forall n, n ∈ concat (map row_names (map (node_candidate board) T)) -> n ∈ names board).
  { intros n (r & Hr & Hn)%elem_of_concat. apply (fit_names _ _ (board_fit board) r); [by apply C1|done]. }
  exists T. split; [done| | |].
  - rewrite exact_columns by done. apply NoDup_fmap_2_strong; [|done]. intros x y Hx Hy. by apply column_of_inj; apply Hin.
  - intros c _ Hc. by apply not_elem_of_nil in Hc.
  - intros c Hc. right. rewrite exact_columns by done. cbn [mC matrix_of] in Hc. apply elem_of_seqZ in Hc.
    destruct (lookup_lt_is_Some_2 (names board) (Z.to_nat (c - 1))) as [n Hn]; [lia|].
    apply list_elem_of_fmap. exists n. split; [|apply C3; by eapply list_elem_of_lookup_2].
    pose proof (index_lookup n (names board) ltac:(by eapply list_elem_of_lookup_2)) as Hi.
    pose proof (index_range n (names board) ltac:(by eapply list_elem_of_lookup_2)).
    pose proof (NoDup_lookup _ _ _ _ (fit_nodup _ _ (board_fit board)) Hn Hi) as E. unfold column_of. lia.
Qed.

(** The board with the candidates written in. *)
Definition fill (board : list Z) (C : list (Z * Z)) : list Z := foldl (fun g r => <[Z.to_nat r.1 := r.2]> g) board C.

Lemma fill_length C : forall board, length (fill board C) = length board.
Proof. induction C as [|r C IH]; intros board; [done|]. cbn [fill foldl]. fold (fill (<[Z.to_nat r.1 := r.2]> board) C). by rewrite IH, length_insert. Qed.

Lemma value_insert g i j v : 0 <= i < zlen g -> 0 <= j -> value (<[Z.to_nat i := v]> g) j = if decide (i = j) then v else value g j.
Proof.
  intros Hi Hj. unfold value. case_decide as E.
  - subst j. rewrite list_lookup_insert_eq by lia. done.
  - rewrite list_lookup_insert_ne by lia. done.
Qed.

Lemma fill_value C : forall board, (forall r, r ∈ C -> 0 <= r.1 < zlen board) -> NoDup (map fst C) -> forall i, 0 <= i ->
  (forall v, (i, v) ∈ C -> value (fill board C) i = v) /\ (i ∉ map fst C -> value (fill board C) i = value board i).
Proof.
  induction C as [|r C IH]; intros board HC Hnd i Hi; [split; [by intros v ?%not_elem_of_nil|done]|].
  cbn [map] in Hnd. apply NoDup_cons in Hnd as [Hr Hnd]. cbn [fill foldl]. fold (fill (<[Z.to_nat r.1 := r.2]> board) C).
  destruct (IH (<[Z.to_nat r.1 := r.2]> board)) with (i := i) as [I1 I2]; [|done|done|].
  { intros r' Hr'. rewrite length_insert. apply HC. by right. }
  pose proof (HC r ltac:(left)) as Hr1. split.
  - intros v [E|Hin]%elem_of_cons; [|by apply I1]. subst r. simpl in *. rewrite I2 by done.
    rewrite value_insert, decide_True by done. done.
  - cbn [map]. intros [Hne Hn]%not_elem_of_cons. rewrite I2 by done. rewrite value_insert, decide_False by done. done.
Qed.

Lemma covers_cells board C : covers board C -> NoDup (map fst C).
Proof.
  intros [_ C2 _]. apply (NoDup_concat_heads row_names); [done|]. intros [i v] _. left.
Qed.

Lemma covers_values board C :
  zlen board = kCells -> covers board C -> forall i, 0 <= i < 81 ->
  (forall v, (i, v) ∈ C -> value (fill board C) i = v) /\ (is_empty_cell board i = false -> value (fill board C) i = value board i).
Proof.
  intros Hl HC i Hi. pose proof (covers_cells board C HC) as Hnd.
  assert (Hr : forall r, r ∈ C -> 0 <= r.1 < zlen board).
  { intros [j v] Hr%(cv_candidates _ _ HC)%candidates_in. unfold kCells in Hl. simpl. lia. }
  destruct (fill_value C board Hr Hnd i) as [F1 F2]; [lia|]. split; [done|]. intros He. apply F2.
  intros ([j v] & -> & Hj)%list_elem_of_fmap. apply (cv_candidates _ _ HC), candidates_in in Hj as (_ & _ & Hj & _). simpl in He. congruence.
Qed.

(** A cover fills the board: each value of a unit is there or is a column. *)
Lemma covers_completes board C : zlen board = kCells -> covers board C -> completes board (fill board C).
Proof.
  intros Hl HC. pose proof (covers_values board C Hl HC) as HV. split.
  - split; [by rewrite fill_length|]. intros k u Hu. apply unit_permutation; [done|]. intros v Hv.
    destruct (decide ((u, v) ∈ seen_in k (look_all board))) as [(i & Hi & <- & Ei)%look_all_in|Hn].
    + exists i. split; [done|]. split; [done|]. rewrite <- Ei. apply HV; [done|].
      apply not_true_iff_false. rewrite is_empty_value by done. lia.
    + assert (unit_col k u v ∈ concat (map row_names C)) as Hin.
      { apply (cv_all _ _ HC), names_in. right. by exists k, u, v. }
      apply elem_of_concat in Hin as ([i w] & Hr & Hin). pose proof Hr as (Hi & Hw & _ & _)%(cv_candidates _ _ HC)%candidates_in.
      apply row_names_in in Hin as [E|(k' & E)].
      * pose proof (unit_col_high k u v Hu Hv). lia.
      * apply unit_col_inj in E as (<- & -> & <-); [|done|by apply unit_at_range|done|done].
        exists i. split; [done|]. split; [done|]. by apply HV.
  - intros i Hi Hne. unfold kCells in Hi. apply HV; [done|]. apply not_true_iff_false. by rewrite is_empty_value.
Qed.

(** The candidates a filling chooses. *)
Definition choice (board g : list Z) : list (Z * Z) := map (fun i => (i, value g i)) (cell_names board).

Lemma choice_in board g i v : (i, v) ∈ choice board g <-> 0 <= i < 81 /\ is_empty_cell board i = true /\ v = value g i.
Proof.
  unfold choice, cell_names. rewrite list_elem_of_fmap. setoid_rewrite list_elem_of_In. setoid_rewrite filter_In.
  setoid_rewrite <- list_elem_of_In. setoid_rewrite range_in. unfold kCells. naive_solver.
Qed.

(** In a unit, a value that was given is that of no other cell. *)
Lemma given_unseen board g k i :
  zlen board = kCells -> completes board g -> 0 <= i < 81 -> is_empty_cell board i = true ->
  (unit_at k i, value g i) ∉ seen_in k (look_all board).
Proof.
  intros Hl [Hg Hk] Hi He (j & Hj & Hu & Ev)%look_all_in. pose proof (complete_value g i Hg Hi).
  apply is_empty_value in He; [|done..]. assert (value g j = value board j) as Ej by (apply Hk; [done|lia]).
  assert (i = j) as <- by (apply (complete_inj g k); [done..|congruence]). lia.
Qed.

Lemma completes_covers board g : zlen board = kCells -> completes board g -> covers board (choice board g).
Proof.
  intros Hl Hg. pose proof Hg as [Hc Hk]. split.
  - intros [i v] (Hi & He & ->)%choice_in. apply candidates_in. split; [done|]. split; [by apply complete_value|].
    split; [done|]. apply candidate_units. intros k. by apply given_unseen.
  - apply NoDup_concat_map_intro.
    + apply NoDup_fmap_2; [by intros x y [= ->]|]. unfold cell_names. apply NoDup_ListNoDup, List.NoDup_filter, NoDup_ListNoDup, NoDup_seqZ.
    + intros [i v] (Hi & He & ->)%choice_in. apply (fit_apart _ _ (board_fit board)). apply candidates_in. split; [done|].
      split; [by apply complete_value|]. split; [done|]. apply candidate_units. intros k. by apply given_unseen.
    + intros [i v] [j w] n (Hi & _ & ->)%choice_in (Hj & _ & ->)%choice_in. rewrite !row_names_in.
      pose proof (complete_value g i Hc Hi) as Vi. pose proof (complete_value g j Hc Hj) as Vj.
      enough (n = i \/ (exists k, n = unit_col k (unit_at k i) (value g i)) ->
              n = j \/ (exists k, n = unit_col k (unit_at k j) (value g j)) -> i = j) as Hij.
      { intros H1 H2. by rewrite (Hij H1 H2). }
      intros [->|(k & ->)] [E|(k' & E)].
      * done.
      * pose proof (unit_col_high k' (unit_at k' j) (value g j) ltac:(by apply unit_at_range) Vj). lia.
      * pose proof (unit_col_high k (unit_at k i) (value g i) ltac:(by apply unit_at_range) Vi). lia.
      * apply unit_col_inj in E as (<- & E1 & E2); [|by apply unit_at_range|by apply unit_at_range|done|done].
        by apply (complete_inj g k).
  - intros n [[Hn He]|(k & u & v & Hu & Hv & Hs & ->)]%names_in; apply elem_of_concat.
    + exists (n, value g n). split; [by apply choice_in|]. left.
    + destruct (complete_find g k u v Hc Hu Hv) as (i & Hi & <- & <-). exists (i, value g i). split.
      * apply choice_in. split; [done|]. split; [|done]. rewrite is_empty_value by done.
        destruct (decide (value board i = 0)) as [|Hne]; [done|]. exfalso. apply Hs, look_all_in. exists i.
        split; [done|]. split; [done|]. symmetry. by apply Hk.
      * apply row_names_in. right. by exists k.
Qed.

(** ** Reading the answer *)

Lemma read_row_cell fuel n cell val i h next :
  h !! (n, name) = Some i -> h !! (n, right) = Some next -> i < 100 -> cell = -1 \/ val = -1 ->
  read_row (S fuel) n cell val h = read_row fuel next i val h.
Proof.
  intros H1 H2 Hi Hc. cbn [read_row]. replace ((cell =? -1) || (val =? -1)) with true by lia.
  rewrite (load_Some _ _ _ _ H1), bind_Ok, (load_Some _ _ _ _ H2), bind_Ok. by rewrite (proj2 (Z.ltb_lt _ _)).
Qed.

Lemma read_row_value fuel n cell val x h next :
  h !! (n, name) = Some x -> h !! (n, right) = Some next -> 100 <= x -> cell = -1 \/ val = -1 ->
  read_row (S fuel) n cell val h = read_row fuel next cell (Z.rem x 10) h.
Proof.
  intros H1 H2 Hi Hc. cbn [read_row]. replace ((cell =? -1) || (val =? -1)) with true by lia.
  rewrite (load_Some _ _ _ _ H1), bind_Ok, (load_Some _ _ _ _ H2), bind_Ok. by rewrite (proj2 (Z.ltb_ge _ _)).
Qed.

Lemma read_row_done fuel n cell val h : cell <> -1 -> val <> -1 -> read_row (S fuel) n cell val h = Ok (cell, val).
Proof. intros. cbn [read_row]. by replace ((cell =? -1) || (val =? -1)) with false by lia. Qed.

Lemma read_fuel : exists f, S ring_fuel = S (S (S (S (S f)))).
Proof. exists 3237%nat. by vm_compute. Qed.

(** From any node of a row, the candidate of the row is read. *)
Lemma read_row_ok board h p :
  static_ok (board_matrix board) h -> p ∈ mN (board_matrix board) ->
  read_row (S ring_fuel) p (-1) (-1) h = Ok (node_candidate board p).
Proof.
  intros [_ S2 S3] Hp. destruct (node_candidate_in board p Hp) as [Hc _].
  apply node_split in Hp as (t & e & r & Ht & He & ->). rewrite (node_candidate_at board t e r) in * by done.
  destruct r as [i v]. apply candidates_in in Hc as (Hi & Hv & _). set (b := row_base (names board) (Z.of_nat t)).
  assert (Hname : forall d n, (d < 4)%nat -> row_names (i, v) !! d = Some n -> h !! (b + Z.of_nat d, name) = Some n).
  { intros d n Hd Hn. rewrite S2 by (apply node_split; by exists t, d, (i, v)). f_equal. by apply (node_name_at _ _ t (i, v)). }
  assert (Hright : forall d, (d < 4)%nat -> h !! (b + Z.of_nat d, right) = Some (b + (Z.of_nat d + 1) mod 4)).
  { intros d Hd. assert (b + Z.of_nat d ∈ mN (board_matrix board)) as Hin by (apply node_split; by exists t, d, (i, v)).
    rewrite (links_first _ _ _ _ _ _ (S3 _ Hin)). cbn [others matrix_of]. subst b. rewrite row_others_at by done.
    destruct d as [|[|[|[|d]]]]; [| | | |lia]; cbn [hd]; f_equal. change ((Z.of_nat 3 + 1) mod 4) with 0. lia. }
  destruct (unit_col_high Rows (row_of i) v (unit_at_range Rows i Hi) Hv) as [R1 R2].
  destruct (unit_col_high Cols (col_of i) v (unit_at_range Cols i Hi) Hv) as [C1 C2].
  destruct (unit_col_high Boxes (box_of i) v (unit_at_range Boxes i Hi) Hv) as [B1 B2]. cbn [unit_col] in *.
  pose proof (Hname 0%nat _ ltac:(lia) eq_refl) as N0. pose proof (Hname 1%nat _ ltac:(lia) eq_refl) as N1.
  pose proof (Hname 2%nat _ ltac:(lia) eq_refl) as N2. pose proof (Hname 3%nat _ ltac:(lia) eq_refl) as N3.
  pose proof (Hright 0%nat ltac:(lia)) as Q0. pose proof (Hright 1%nat ltac:(lia)) as Q1.
  pose proof (Hright 2%nat ltac:(lia)) as Q2. pose proof (Hright 3%nat ltac:(lia)) as Q3.
  destruct read_fuel as [f ->].
  destruct e as [|[|[|[|e]]]]; [| | | |lia].
  - erewrite read_row_cell, read_row_value, read_row_done by (done || lia || (rewrite ?R2; lia)). by rewrite R2.
  - erewrite read_row_value, read_row_value, read_row_value, read_row_cell, read_row_done by (done || lia || (rewrite ?B2; lia)). by rewrite B2.
  - erewrite read_row_value, read_row_value, read_row_cell, read_row_done by (done || lia || (rewrite ?B2; lia)). by rewrite B2.
  - erewrite read_row_value, read_row_cell, read_row_done by (done || lia || (rewrite ?B2; lia)). by rewrite B2.
Qed.

Lemma write_rows_each board h l : static_ok (board_matrix board) h -> (forall p, p ∈ l -> p ∈ mN (board_matrix board)) ->
  forall s, nodes_ s = h -> 81 <= zlen (inout_ s) ->
  exists s', for_each l (fun n s =>
    '(cell, val) ← read_row (S ring_fuel) n (-1) (-1) (nodes_ s);
    _ ← defined_if ((0 <=? cell) && (cell <? zlen (inout_ s)));
    Ok (mkSolver (root_ s) (<[Z.to_nat cell := val]> (inout_ s)) (columns_ s) (stack_ s) (nodes_ s) (curr_node_ s))) s = Ok s' /\
    inout_ s' = fill (inout_ s) (map (node_candidate board) l).
Proof.
  intros Hs. induction l as [|p l IH]; intros Hl s E Hlen; [by exists s|]. cbn [for_each map].
  assert (p ∈ mN (board_matrix board)) as Hp by (apply Hl; left).
  rewrite E, (read_row_ok board h p Hs Hp), bind_Ok. destruct (node_candidate_in board p Hp) as [Hc _].
  destruct (node_candidate board p) as [i v]. apply candidates_in in Hc as (Hi & _). rewrite defined_Ok by lia. rewrite !bind_Ok.
  apply IH; [|done|simpl; by rewrite length_insert]. intros q Hq. apply Hl. by right.
Qed.

(** ** The whole program *)

(** The right answer for a board. *)
Definition answers (board : list Z) (text : bytes) : Prop :=
  (exists g, completes board g /\ text = board_text g) \/ (text = kNoSolution /\ forall g, ~ completes board g).

Lemma SolveSudoku_ok puzzle :
  zlen puzzle = kCells -> exists text, SolveSudoku puzzle = Ok text /\ answers (read_board puzzle) text.
Proof.
  intros Hlen. unfold SolveSudoku. rewrite Hlen, Z.eqb_refl. run. set (board := read_board puzzle).
  assert (zlen board = kCells) as Hl by (subst board; unfold read_board; by rewrite length_map).
  destruct (forallb _ board) eqn:Ed.
  - destruct (SudokuSolver_new_ok board) as (s & -> & Hb). rewrite bind_Ok. pose proof (board_fit board) as Hf.
    destruct (solve_ok _ (matrix_of_ok _ _ Hf) (S ring_fuel) [] s (built_inv _ _ _ _ Hb) (bu_root _ _ _ _ Hb))
      as [(T & s1 & HT & [F1 F2 F3] & ->)|[-> Hno]].
    + pose proof (mx_fuel _ (matrix_of_ok _ _ Hf)). pose proof (length_filter (fun c => c ∉ []) (mC (board_matrix board))) as Hle.
      unfold active. lia.
    + exists (board_text (fill board (map (node_candidate board) T))). split; [|left; eexists; by split; [apply covers_completes, exact_covers|]].
      rewrite (bu_stack _ _ _ _ Hb) in F2. cbn [app] in F2.
      destruct (write_rows_each board (nodes_ s1) T F3 (ex_nodes _ _ _ HT) s1 eq_refl) as (s2 & E2 & B2).
      { rewrite F1, (bu_board _ _ _ _ Hb). unfold kCells in Hl. lia. }
      unfold write_rows. rewrite F2, E2. run. by rewrite B2, F1, (bu_board _ _ _ _ Hb).
    + exists kNoSolution. split; [done|]. right. split; [done|]. intros g Hg. destruct (covers_exact board (choice board g)) as [T HT]; [by apply completes_covers|].
      by apply (Hno T).
  - exists kNoSolution. split; [done|]. right. split; [done|]. intros g [Hg Hk]. apply not_true_iff_false in Ed. apply Ed, forallb_forall.
    intros v [j Hj]%list_elem_of_In%list_elem_of_lookup_1. pose proof (lookup_lt_Some _ _ _ Hj) as Hjl. unfold kCells in *.
    assert (value board (Z.of_nat j) = v) as Ev by (unfold value; by rewrite Nat2Z.id, Hj).
    destruct (decide (v = 0)) as [->|Hv]; [done|]. pose proof (complete_value g (Z.of_nat j) Hg ltac:(lia)) as Hr.
    rewrite (Hk (Z.of_nat j)) in Hr by lia. lia.
Qed.

(** C8: [SolveSudoku] is correct and complete: for a text of 81 characters it returns, and
    what it returns is the text of a completion of the board that was read (every row, column
    and box has the values 1 to 9, the given cells are kept) whenever the board has one, and
    "NoSolution" exactly when it has none, be it because a character is no digit, because the
    given cells contradict each other, or because the search finds nothing. *)
Theorem SolveSudoku_decides puzzle :
  zlen puzzle = kCells ->
  (exists g, completes (read_board puzzle) g /\ SolveSudoku puzzle = Ok (board_text g)) \/
  (SolveSudoku puzzle = Ok kNoSolution /\ forall g, ~ completes (read_board puzzle) g).
Proof.
  intros Hlen. destruct (SolveSudoku_ok puzzle Hlen) as (text & -> & [(g & Hg & ->)|[-> Hno]]); [left; by exists g|by right].
Qed.

Definition ex_puzzle : bytes :=
  lit "530070000600195000098000060800060003400803001700020006060000280000419005000080079".
Definition ex_answer : bytes :=
  lit "534678912672195348198342567859761423426853791713924856961537284287419635345286179".

Lemma SolveSudoku_decides_witness :
  zlen ex_puzzle = kCells /\ SolveSudoku ex_puzzle = Ok ex_answer /\
  exists g, completes (read_board ex_puzzle) g /\ board_text g = ex_answer.
Proof.
  assert (SolveSudoku ex_puzzle = Ok ex_answer) as E by (by vm_compute).
  split; [done|]. split; [done|].
  destruct (SolveSudoku_decides ex_puzzle eq_refl) as [(g & Hg & H)|[H _]]; rewrite E in H.
  - exists g. split; [done|]. by injection H.
  - exfalso. vm_compute in H. congruence.
Defined.

Lemma covers_undone board cs h K :
  inv (board_matrix board) K h -> NoDup cs -> (forall c, c ∈ cs -> c ∈ mC (board_matrix board) /\ c ∉ K) ->
  exists h', for_each cs cover h = Ok h' /\ for_each (rev cs) uncover h' = Ok h.
Proof.
  pose proof (matrix_of_ok _ _ (board_fit board)) as Hm. revert h K. induction cs as [|c cs IH]; intros h K Hi Hnd Hc; [by exists h|].
  apply NoDup_cons in Hnd as [Hn Hnd]. destruct (Hc c) as [HcC HcK]; [left|].
  destruct (cover_ok _ Hm K c HcC HcK h Hi) as (h1 & E1 & Hi1 & U1 & _).
  destruct (IH h1 (c :: K) Hi1 Hnd) as (h' & E' & U').
  { intros d Hd. destruct (Hc d) as [? ?]; [by right|]. split; [done|]. rewrite not_elem_of_cons. split; [|done]. congruence. }
  exists h'. cbn [for_each rev]. rewrite E1, bind_Ok. split; [done|]. rewrite for_each_app, U', bind_Ok. cbn [for_each]. by rewrite U1.
Qed.

(** C20: the dancing of the links: in what the constructor builds for any board, covering any
    distinct columns one after the other and uncovering them in the opposite order gives back
    the very same memory, every link and every size. *)
Theorem cover_uncover board s cs :
  SudokuSolver_new board = Ok s -> NoDup cs -> (forall c, c ∈ cs -> exists n, columns_ s !! n = Some c) ->
  exists h, for_each cs cover (nodes_ s) = Ok h /\ for_each (rev cs) uncover h = Ok (nodes_ s).
Proof.
  intros E Hnd Hc. destruct (SudokuSolver_new_ok board) as (s' & E' & Hb). assert (s' = s) as -> by congruence.
  apply (covers_undone board cs (nodes_ s) []); [by apply (built_inv _ _ board)|done|].
  intros c Hin. split; [|apply not_elem_of_nil]. destruct (Hc c Hin) as [n Hn]. rewrite (bu_columns _ _ _ _ Hb n) in Hn.
  case_decide as D; [|done]. injection Hn as <-. by apply column_of_range.
Qed.

(** A board with one empty cell, and the columns of that cell and of its row. *)
Definition ex_board : list Z := read_board (lit "034678912672195348198342567859761423426853791713924856961537284287419635345286179").

Lemma cover_uncover_witness :
  exists s h, SudokuSolver_new ex_board = Ok s /\ for_each [1; 2] cover (nodes_ s) = Ok h /\
    for_each [2; 1] uncover h = Ok (nodes_ s).
Proof.
  destruct (SudokuSolver_new_ok ex_board) as (s & E & Hb). pose proof (bu_columns _ _ _ _ Hb) as Hc.
  assert (names ex_board = [0; get_row_col 0 5; get_col_col 0 5; get_box_col 0 5]) as En by (vm_compute; reflexivity).
  rewrite En in Hc. destruct (cover_uncover ex_board s [1; 2] E) as (h & H1 & H2).
  - apply (bool_decide_unpack _). vm_compute. exact I.
  - intros c Hin. apply elem_of_cons in Hin as [->|Hin%list_elem_of_singleton].
    + exists 0. rewrite (Hc 0). vm_compute. reflexivity.
    + subst c. exists (get_row_col 0 5). rewrite (Hc (get_row_col 0 5)). vm_compute. reflexivity.
  - exists s, h. cbn [rev app] in H2. exact (conj E (conj H1 H2)).
Defined.
