(* ===== verification/SudokuServer.v ===== *)
(** * The sudoku servers (examples/sudoku/server_basic.cc, server_multiloop.cc,
      server_threadpool.cc, server_hybrid.cc, server_prod.cc)

    A request is a line: a puzzle of 81 characters, with an identifier and a colon before
    it if the client wants one.  The five servers read lines in the same way; they
    differ in where a puzzle is solved: in the connection's loop, or by a pool of
    threads.  A connection is any instance of [Connection]. *)

From S2P Require Import Prelude Buffer Connection Sudoku ThreadPool.

Definition eol : bytes := kCRLF.

Section Server.
Context {C : Type} `{!Connection C}.

(** ** Reading requests *)

Section Read.
Context {S : Type} (conn_of : S -> C) (with_conn : S -> C -> S).
Context (ProcessRequest : S -> bytes -> result (bool * S)).

(** [conn->Send(s); conn->Shutdown(); break;] *)
Definition refuse (s : S) (text : bytes) : result S :=
  c ← conn_Send (conn_of s) text; c ← conn_Shutdown c; Ok (with_conn s c).

(** [len] is the variable of that name; each turn that goes on takes a line.
    src: examples/sudoku/server_basic.cc:43-62 SudokuServer::OnMessage *)
Fixpoint OnMessage_loop (fuel : nat) (s : S) (buf : Buffer) (len : Z) : result (S * Buffer) :=
  match fuel with
  | O => Fault FFuel
  | Datatypes.S fuel =>
      if len >=? kCells + 2 then
        crlf ← FindCRLF buf;
        match crlf with
        | Some crlf =>
            request ← read_bytes (buffer_ buf) (Peek buf) (crlf - Peek buf);
            let buf := RetrieveUntil buf (crlf + 2) in
            let len := ReadableBytes buf in
            '(good, s) ← ProcessRequest s request;
            if (good : bool) then OnMessage_loop fuel s buf len
            else s ← refuse s (lit "Bad Request!" ++ eol); Ok (s, buf)
        | None =>
            if len >? 100 then s ← refuse s (lit "Id too long!" ++ eol); Ok (s, buf)
            else Ok (s, buf)
        end
      else Ok (s, buf)
  end.

(** The fuel is one more than the readable bytes.
    src: examples/sudoku/server_basic.cc:40-63 SudokuServer::OnMessage *)
Definition OnMessage (s : S) (buf : Buffer) : result (S * Buffer) :=
  let len := ReadableBytes buf in
  OnMessage_loop (Datatypes.S (Z.to_nat len)) s buf len.
End Read.

(** The identifier, if there is a colon, and the puzzle.
    src: examples/sudoku/server_basic.cc:70-76 SudokuServer::ProcessRequest *)
Definition split_request (request : bytes) : option bytes * bytes :=
  let colon := std_find x3a request in
  if decide (colon = length request) then (None, request)
  else (Some (take colon request), drop (colon + 1) request).

(** The text sent for a result.
    src: examples/sudoku/server_basic.cc:81-85 SudokuServer::ProcessRequest *)
Definition reply (id result : bytes) : bytes :=
  if decide (id = []) then result ++ eol else id ++ lit ":" ++ result ++ eol.

(** ** Solving in the loop *)

(** src: examples/sudoku/server_basic.cc:65-90 SudokuServer::ProcessRequest *)
Definition ProcessRequest (conn : C) (request : bytes) : result (bool * C) :=
  let '(id, puzzle) := split_request request in
  if zlen puzzle =? kCells then
    text ← SolveSudoku puzzle;
    conn ← conn_Send conn (reply (default [] id) text);
    Ok (true, conn)
  else Ok (false, conn).

(** src: examples/sudoku/server_basic.cc:40-63 SudokuServer::OnMessage *)
Definition basic_OnMessage : C -> Buffer -> result (C * Buffer) :=
  OnMessage (fun c => c) (fun _ c => c) ProcessRequest.

(** Each connection's loop runs the same code.
    src: examples/sudoku/server_multiloop.cc:46-96 SudokuServer::OnMessage *)
Definition multiloop_OnMessage : C -> Buffer -> result (C * Buffer) := basic_OnMessage.

(** ** Solving in a pool *)

(** A connection and the server's pool. *)
Record pooled (Task : Type) := mkPooled { p_conn : C; p_pool : ThreadPool Task }.
Arguments mkPooled {_} _ _.
Arguments p_conn {_} _.
Arguments p_pool {_} _.

(** [thread_pool_.RunTask(task)].  A pool that is full would make the caller wait; the servers
    set no bound, so that no pool is ([never_waits]). *)
Definition run_task {Task} (solve : C -> Task -> result C) (t : Task) (s : pooled Task) : result (pooled Task) :=
  r ← RunTask (p_pool s) t;
  match r with
  | PutRun => c ← solve (p_conn s) t; Ok (mkPooled c (p_pool s))
  | PutSleep => Fault FFuel
  | PutDrop => Ok s
  | PutQueued p => Ok (mkPooled (p_conn s) p)
  end.

(** src: examples/sudoku/server_threadpool.cc:93-102 SudokuServer::Solve *)
Definition threadpool_Solve (conn : C) (task : bytes * bytes) : result C :=
  let '(puzzle, id) := task in
  text ← SolveSudoku puzzle;
  conn_Send conn (reply id text).

(** src: examples/sudoku/server_threadpool.cc:72-91 SudokuServer::ProcessRequest *)
Definition threadpool_ProcessRequest (s : pooled (bytes * bytes)) (request : bytes) : result (bool * pooled (bytes * bytes)) :=
  let '(id, puzzle) := split_request request in
  if zlen puzzle =? kCells then
    s ← run_task threadpool_Solve (puzzle, default [] id) s;
    Ok (true, s)
  else Ok (false, s).

Definition set_conn {Task} (s : pooled Task) (c : C) : pooled Task := mkPooled c (p_pool s).

(** src: examples/sudoku/server_threadpool.cc:47-70 SudokuServer::OnMessage *)
Definition threadpool_OnMessage : pooled (bytes * bytes) -> Buffer -> result (pooled (bytes * bytes) * Buffer) :=
  OnMessage p_conn set_conn threadpool_ProcessRequest.

(** src: examples/sudoku/server_hybrid.cc:81-85 SudokuServer::Request *)
Record Request := mkRequest { id : bytes; puzzle : bytes; receiveTime : Z }.

(** src: examples/sudoku/server_hybrid.cc:109-117 SudokuServer::Solve *)
Definition Solve (conn : C) (req : Request) : result C :=
  text ← SolveSudoku (puzzle req);
  conn_Send conn (reply (id req) text).

(** With more than one thread answers may come in any order: an identifier is required.
    src: examples/sudoku/server_hybrid.cc:87-107 SudokuServer::ProcessRequest *)
Definition hybrid_ProcessRequest (num_threads_ receiveTime : Z) (s : pooled Request) (request : bytes) : result (bool * pooled Request) :=
  let '(id, puzzle) := split_request request in
  if bool_decide (id = None) && (num_threads_ >? 1) then Ok (false, s) else
  if zlen puzzle =? kCells then
    s ← run_task Solve (mkRequest (default [] id) puzzle receiveTime) s;
    Ok (true, s)
  else Ok (false, s).

(** src: examples/sudoku/server_hybrid.cc:55-79 SudokuServer::OnMessage *)
Definition hybrid_OnMessage (num_threads_ receiveTime : Z) : pooled Request -> Buffer -> result (pooled Request * Buffer) :=
  OnMessage p_conn set_conn (hybrid_ProcessRequest num_threads_ receiveTime).

(** ** Throttling *)

(** What [server_prod] keeps in a connection: the context, the mark above which the callback
    runs, whether there is a callback for a complete write. *)
Record client := mkClient {
  c_pooled : pooled Request;
  c_throttle : option bool;
  c_watermark : Z;
  c_write_complete : bool
}.

(** The mark of a new connection is that of TcpConnection.
    src: examples/sudoku/server_prod.cc:49-61 SudokuServer::OnConnection *)
Definition prod_OnConnection (connected : bool) (s : client) : client :=
  if connected then mkClient (c_pooled s) (Some false) (5 * 1024 * 1024) (c_write_complete s) else s.

(** src: examples/sudoku/server_prod.cc:63-77 SudokuServer::HighWatermark *)
Definition HighWatermark (tosend : Z) (s : client) : result client :=
  if tosend <? 10 * 1024 * 1024 then
    Ok (mkClient (c_pooled s) (Some true) (10 * 1024 * 1024) true)
  else
    c ← conn_Send (p_conn (c_pooled s)) (lit "Bad Request!" ++ eol);
    c ← conn_Shutdown c;
    Ok (mkClient (set_conn (c_pooled s) c) (c_throttle s) (c_watermark s) (c_write_complete s)).

(** src: examples/sudoku/server_prod.cc:79-86 SudokuServer::WriteComplete *)
Definition WriteComplete (s : client) : client :=
  mkClient (c_pooled s) (Some false) (5 * 1024 * 1024) false.

(** [any_cast] throws when there is no context.
    src: examples/sudoku/server_prod.cc:119-148 SudokuServer::ProcessRequest *)
Definition prod_ProcessRequest (num_threads_ receiveTime : Z) (s : client) (request : bytes) : result (bool * client) :=
  let '(id, puzzle) := split_request request in
  if bool_decide (id = None) && (num_threads_ >? 1) then Ok (false, s) else
  let id := default [] id in
  if zlen puzzle =? kCells then
    match c_throttle s with
    | None => Fault FAbort
    | Some throttle =>
        if (QueueSize (p_pool (c_pooled s)) <? 1000 * 1000) && negb throttle then
          p ← run_task Solve (mkRequest id puzzle receiveTime) (c_pooled s);
          Ok (true, mkClient p (c_throttle s) (c_watermark s) (c_write_complete s))
        else
          c ← conn_Send (p_conn (c_pooled s)) (reply id (lit "ServerTooBusy"));
          Ok (true, mkClient (set_conn (c_pooled s) c) (c_throttle s) (c_watermark s) (c_write_complete s))
    end
  else Ok (false, s).

(** src: examples/sudoku/server_prod.cc:88-111 SudokuServer::OnMessage *)
Definition prod_OnMessage (num_threads_ receiveTime : Z) : client -> Buffer -> result (client * Buffer) :=
  OnMessage (fun s => p_conn (c_pooled s))
    (fun s c => mkClient (set_conn (c_pooled s) c) (c_throttle s) (c_watermark s) (c_write_complete s))
    (prod_ProcessRequest num_threads_ receiveTime).

End Server.

Arguments mkPooled {C Task} p_conn p_pool.
Arguments p_conn {C Task} p.
Arguments p_pool {C Task} p.
Arguments mkClient {C} c_pooled c_throttle c_watermark c_write_complete.
Arguments c_pooled {C} c.
Arguments c_throttle {C} c.
Arguments c_watermark {C} c.
Arguments c_write_complete {C} c.
