(* ===== verification/SudokuServerSpec.v ===== *)
(** * What the sudoku servers answer

    A client's requests, however TCP cuts their bytes into pieces, are answered one by one,
    in order, with the completion of each board or the news that there is none. *)

From S2P Require Import Prelude Buffer BufferSpec Lines Connection Sudoku SudokuSpec ThreadPool SudokuServer.

(** ** Requests *)

Record query := mkQuery { q_id : bytes; q_puzzle : bytes }.

(** An identifier has at most seventeen characters, so that a line without its line feed
    has at most the hundred that [OnMessage] waits for. *)
Record good (q : query) : Prop := {
  good_puzzle : zlen (q_puzzle q) = kCells;
  good_cr : x0d ∉ q_id q ++ q_puzzle q;
  good_colon : x3a ∉ q_id q;
  good_plain : q_id q = [] -> x3a ∉ q_puzzle q;
  good_short : zlen (q_id q) <= 17
}.

Definition query_text (q : query) : bytes :=
  if decide (q_id q = []) then q_puzzle q else q_id q ++ lit ":" ++ q_puzzle q.
Definition query_line (q : query) : bytes := query_text q ++ kCRLF.

(** [text] is the right answer to [q]. *)
Definition answered (q : query) (out : bytes) : Prop :=
  exists text, SolveSudoku (q_puzzle q) = Ok text /\ answers (read_board (q_puzzle q)) text /\ out = reply (q_id q) text.

Lemma good_answer q : good q -> exists out, answered q out.
Proof. intros Hq. destruct (SolveSudoku_ok (q_puzzle q) (good_puzzle _ Hq)) as (text & E & Ha). by exists (reply (q_id q) text), text. Qed.

Lemma split_query q : good q -> split_request (query_text q) =
  (if decide (q_id q = []) then None else Some (q_id q), q_puzzle q).
Proof.
  intros [_ _ Hc Hp _]. unfold split_request, query_text. destruct (decide (q_id q = [])) as [E|E].
  - rewrite std_find_notin by (by apply Hp). by rewrite decide_True.
  - change (q_id q ++ lit ":" ++ q_puzzle q) with (q_id q ++ x3a :: q_puzzle q). rewrite std_find_app by done.
    rewrite decide_False by (rewrite length_app; simpl; lia). rewrite take_app_length. do 2 f_equal.
    rewrite Nat.add_1_r. change (q_id q ++ x3a :: q_puzzle q) with (q_id q ++ [x3a] ++ q_puzzle q).
    rewrite app_assoc. rewrite <- (drop_app_length (q_id q ++ [x3a]) (q_puzzle q)) at 2. f_equal. rewrite length_app. simpl. lia.
Qed.

Lemma query_text_cr q : good q -> x0d ∉ query_text q.
Proof.
  intros Hq. pose proof (good_cr _ Hq) as Hc. apply not_elem_of_app in Hc as [H1 H2]. unfold query_text. destruct (decide _); [done|].
  rewrite !not_elem_of_app. split; [done|]. split; [|done]. intros Hin. apply list_elem_of_singleton in Hin. done.
Qed.

Lemma query_line_length q : good q -> kCells + 2 <= zlen (query_line q) <= 101.
Proof.
  intros [Hp _ _ _ Hs]. unfold query_line, query_text, kCells in *. case_decide; rewrite !length_app; simpl; lia.
Qed.

(** What has arrived of a line that is not whole holds no CRLF. *)
Lemma partial_line q s rest : good q -> s ++ rest = query_line q -> (length s < length (query_line q))%nat -> split_line s = None.
Proof.
  intros Hq E Hl. destruct (split_line s) as [[l r]|] eqn:Es; [|done].
  apply (split_line_more _ rest) in Es. rewrite E in Es.
  pose proof (split_line_app (query_text q) [] (query_text_cr q Hq)) as E2. rewrite app_nil_r in E2. fold (query_line q) in E2.
  rewrite E2 in Es. injection Es as _ Hr. destruct r; [|done]. destruct rest; [|done]. rewrite app_nil_r in E. subst s. lia.
Qed.

Section Server.
Context {C : Type} `{!Connection C}.

Fixpoint send_all (outs : list bytes) (c : C) : result C :=
  match outs with
  | [] => Ok c
  | out :: outs => c ← conn_Send c out; send_all outs c
  end.

Lemma ProcessRequest_good q out c c' :
  good q -> answered q out -> conn_Send c out = Ok c' -> ProcessRequest c (query_text q) = Ok (true, c').
Proof.
  intros Hq (text & Et & _ & ->) Es. unfold ProcessRequest. rewrite split_query by done. rewrite (good_puzzle _ Hq), Z.eqb_refl, Et, bind_Ok.
  assert (default [] (if decide (q_id q = []) then None else Some (q_id q)) = q_id q) as -> by (case_decide; [by symmetry|done]).
  by rewrite Es.
Qed.

(** The string in the buffer; its writer index is at most [cap]. *)
Definition keeps (b : Buffer) (s : bytes) (cap : Z) : Prop := exists f, abstracts b (mkAbuf s f) cap.

Lemma keeps_holds b s cap : keeps b s cap -> holds b s.
Proof. intros (f & [H1 H2 _ _ H5 _]). done. Qed.

Lemma keeps_line b line rest cap pos :
  keeps b (line ++ kCRLF ++ rest) cap -> pos = Peek b + zlen line -> zlen line + 2 < 2 ^ 64 -> keeps (RetrieveUntil b (pos + 2)) rest cap.
Proof.
  intros (f & Ha) -> Hl. unfold RetrieveUntil. replace (Peek b + zlen line + 2 - Peek b) with (zlen line + 2) by lia. rewrite uwrap_small by lia.
  destruct (a_drop (zlen line + 2) (mkAbuf (line ++ kCRLF ++ rest) f)) as [s' f'] eqn:E.
  exists f'. replace rest with s'; [rewrite <- E; apply abstracts_Retrieve; [done|lia]|].
  unfold a_drop in E. cbn [a_content a_front] in E. replace (Z.to_nat (zlen line + 2)) with (length (line ++ kCRLF)) in E by (rewrite length_app; simpl; lia).
  rewrite app_assoc, drop_app_length in E. destruct (_ <? _) eqn:El; injection E as <- _; [done|].
  rewrite !length_app in El. change (length kCRLF) with 2%nat in El. destruct rest; [done|]. cbn [length] in El. apply Z.ltb_ge in El. exfalso. clear -El. lia.
Qed.

(** One call of [OnMessage]: it takes the lines that are whole. *)
Lemma OnMessage_good qs : forall outs s rest b c c' cap fuel,
  Forall good qs -> Forall2 answered qs outs -> s ++ rest = concat (map query_line qs) ->
  keeps b s cap -> zlen s < 2 ^ 31 -> (length s < fuel)%nat -> send_all outs c = Ok c' ->
  exists qs' outs' c1 b1 s1,
    OnMessage_loop (fun c => c) (fun _ c => c) ProcessRequest fuel c b (zlen s) = Ok (c1, b1) /\
    Forall good qs' /\ Forall2 answered qs' outs' /\ s1 ++ rest = concat (map query_line qs') /\ keeps b1 s1 cap /\
    zlen s1 <= zlen s /\ send_all outs' c1 = Ok c' /\ match qs' with q :: _ => (length s1 < length (query_line q))%nat | [] => True end.
Proof.
  induction qs as [|q qs IH]; intros outs s rest b c c' cap fuel Hg Ha E Hk Hs Hf Hsend; (destruct fuel as [|fuel]; [lia|]); cbn [OnMessage_loop].
  - cbn [map concat] in E. apply app_eq_nil in E as [-> ->]. exists [], outs, c, b, []. by split.
  - apply Forall_cons in Hg as [Hq Hg]. destruct outs as [|out outs]; [by inversion Ha|]. apply Forall2_cons in Ha as [Ho Ha].
    cbn [map concat] in E. pose proof (query_line_length q Hq) as Hl. pose proof (keeps_holds _ _ _ Hk) as Hh.
    pose proof (FindCRLF_line b s Hh) as Hfind.
    destruct (decide (length s < length (query_line q))%nat) as [Hlt|Hge].
    + assert (split_line s = None) as En.
      { apply (partial_line q s (drop (length s) (query_line q)) Hq); [|done].
        rewrite <- (take_app_length' (query_line q) (concat (map query_line qs)) (length (query_line q))) by done.
        rewrite <- E. rewrite <- (take_drop (length s) (take _ (s ++ rest))) at 2. f_equal.
        rewrite take_take, Nat.min_l by lia. by rewrite take_app_length. }
      rewrite En in Hfind. exists (q :: qs), (out :: outs), c, b, s.
      split; [|split; [by constructor|split; [by constructor|split; [done|split; [done|split; [lia|done]]]]]].
      destruct (zlen s >=? kCells + 2); [|done]. rewrite Hfind, bind_Ok. cbn beta iota.
      by replace (zlen s >? 100) with false by lia.
    + assert (exists s', s = query_line q ++ s') as [s' ->].
      { exists (drop (length (query_line q)) s). rewrite <- (take_drop (length (query_line q)) s) at 1. f_equal.
        rewrite <- (take_app_le s rest) by lia. by rewrite E, take_app_length. }
      rewrite <- app_assoc in E. apply app_inv_head in E. rewrite length_app in Hs, Hf.
      rewrite (proj2 (Z.geb_le _ _)) by (rewrite length_app; lia).
      unfold query_line in Hfind, Hk. rewrite <- app_assoc in Hfind, Hk. rewrite (split_line_app _ s' (query_text_cr q Hq)) in Hfind.
      destruct Hfind as (pos & -> & Hread & _). rewrite bind_Ok. cbn beta iota. rewrite Hread, bind_Ok.
      cbn [send_all] in Hsend. apply bind_Ok_inv in Hsend as (c1 & Hc1 & Hsend).
      apply read_bytes_inv in Hread as (_ & _ & _ & Hpos & _).
      assert (keeps (RetrieveUntil b (pos + 2)) s' cap) as Hk'.
      { apply (keeps_line b (query_text q) s' cap pos); [done|lia|]. unfold query_line in Hl. rewrite length_app in Hl. simpl in Hl. lia. }
      rewrite (ProcessRequest_good q out c c1 Hq Ho Hc1), bind_Ok. cbv beta iota zeta.
      destruct Hk' as (f' & Hk'). rewrite <- (zlen_content _ (abs_wf _ _ _ Hk')), (abs_content _ _ _ Hk'). cbn [a_content].
      destruct (IH outs s' rest (RetrieveUntil b (pos + 2)) c1 c' cap fuel) as (qs' & outs' & c2 & b2 & s2 & E2 & P1 & P2 & P3 & P4 & P5 & P6);
        [done|done|done|by exists f'|lia|unfold query_line in Hf; rewrite length_app in Hf; simpl in Hf; lia|done|].
      exists qs', outs', c2, b2, s2. split; [done|]. do 4 (split; [done|]). split; [|done].
      rewrite length_app. lia.
Qed.

(** The pieces arrive one after the other, and [OnMessage] is called for each. *)
Fixpoint feed (ps : list bytes) (c : C) (b : Buffer) : result (C * Buffer) :=
  match ps with
  | [] => Ok (c, b)
  | p :: ps =>
      b ← Append b p;
      '(c, b) ← basic_OnMessage c b;
      feed ps c b
  end.

Lemma feed_good ps : forall qs outs s b c c' cap,
  Forall good qs -> Forall2 answered qs outs -> s ++ concat ps = concat (map query_line qs) ->
  keeps b s cap -> zlen (s ++ concat ps) < 2 ^ 31 -> cap + zlen (concat ps) <= max_size -> send_all outs c = Ok c' ->
  match qs with q :: _ => (length s < length (query_line q))%nat | [] => True end ->
  exists b', feed ps c b = Ok (c', b') /\ content b' = [].
Proof.
  induction ps as [|p ps IH]; intros qs outs s b c c' cap Hg Ha E Hk Hs Hm Hsend Hshort; cbn [feed concat] in *.
  - rewrite app_nil_r in E. destruct qs as [|q qs].
    + cbn [map concat] in E. subst s. apply Forall2_nil_inv_l in Ha as ->. injection Hsend as ->. exists b. split; [done|].
      destruct Hk as (f & Hk). apply (abs_content _ _ _ Hk).
    + subst s. cbn [map concat] in Hshort. rewrite length_app in Hshort. lia.
  - rewrite app_assoc in E. rewrite !length_app in Hs. rewrite length_app in Hm. destruct Hk as (f & Hk).
    destruct (abstracts_append b _ cap p Hk) as (b1 & -> & Hk1); [lia|lia|]. rewrite bind_Ok. cbn [a_content a_front] in Hk1.
    unfold basic_OnMessage, OnMessage. rewrite <- (zlen_content _ (abs_wf _ _ _ Hk1)), (abs_content _ _ _ Hk1). cbn [a_content].
    destruct (OnMessage_good qs outs (s ++ p) (concat ps) b1 c c' (cap + zlen p) (S (Z.to_nat (zlen (s ++ p)))))
      as (qs' & outs' & c1 & b2 & s2 & E2 & P1 & P2 & P3 & P4 & P5 & P6 & P7);
      [done|done|done|by exists f|rewrite length_app; lia|lia|done|].
    rewrite E2, bind_Ok. cbn beta iota. rewrite length_app in P5.
    apply (IH qs' outs' s2 b2 c1 c' (cap + zlen p)); [done|done|done|done|rewrite length_app; lia|lia|done|done].
Qed.

(** C21: the answers of the sudoku server (server_basic, and each loop of server_multiloop) do
    not depend on how TCP cuts the requests into pieces.  For any well-formed requests there
    are answers, each the identifier it came with and a completion of its board, or
    "NoSolution" when it has none, such that whatever the pieces are in which the bytes of
    the requests arrive, the server sends exactly these answers, in this order, and leaves
    nothing in the buffer. *)
Theorem sudoku_answers qs :
  Forall good qs -> zlen (concat (map query_line qs)) < 2 ^ 31 ->
  exists outs,
    Forall2 (fun q out => exists text, answers (read_board (q_puzzle q)) text /\ out = reply (q_id q) text) qs outs /\
    forall ps b c c', concat ps = concat (map query_line qs) -> Buffer_new kInitialSize = Ok b -> send_all outs c = Ok c' ->
    exists b', feed ps c b = Ok (c', b') /\ content b' = [].
Proof.
  intros Hg Hlen.
  assert (exists outs, Forall2 answered qs outs) as [outs Ha].
  { clear Hlen. induction Hg as [|q qs Hq Hg [outs IH]]; [by exists []|]. destruct (good_answer q Hq) as [out Ho]. exists (out :: outs). by constructor. }
  exists outs. split.
  - eapply Forall2_impl; [exact Ha|]. intros q out (text & _ & H1 & H2). by exists text.
  - intros ps b c c' E Eb Hs. destruct Buffer_new_initial as (b0 & Eb0 & Hb0). assert (b0 = b) as -> by congruence.
    apply (feed_good ps qs outs [] b c c' kCheapPrepend); try done.
    + by exists kCheapPrepend.
    + cbn [app]. by rewrite E.
    + rewrite E. unfold max_size, kCheapPrepend. lia.
    + destruct qs as [|q qs]; [done|]. apply Forall_cons in Hg as [Hq _]. pose proof (query_line_length q Hq). unfold kCells in *. cbn [length]. lia.
Qed.

(** ** The pool *)

(** The servers set no bound for their pool, so that [RunTask] never makes a loop wait. *)
Definition unbounded {Task} (s : pooled (C := C) Task) : Prop := max_queue_size_ (p_pool s) = 0.

Lemma never_waits {Task} solve (t : Task) (s : pooled Task) :
  unbounded s -> (forall c, solve c t <> Fault FFuel) ->
  run_task solve t s <> Fault FFuel /\ forall s', run_task solve t s = Ok s' -> unbounded s'.
Proof.
  unfold unbounded, run_task, RunTask, IsFull. intros Hu Hs. destruct s as [c p]. cbn [p_pool p_conn] in *. rewrite Hu.
  change (0 >? 0) with false. cbn [andb negb]. destruct (threads_ p); [|destruct (running_ p)]; cbn [negb]; run; cbn beta iota.
  - specialize (Hs c). split; [intros [?|(? & _ & ?)]%bind_Fault_inv; done|]. intros s' H. inv_bind. done.
  - split; [done|]. by intros s' [= <-].
  - split; [done|]. by intros s' [= <-].
Qed.

(** A task that a thread takes sends the right answer. *)
Lemma Solve_answers q t out c :
  answered q out -> Solve c (mkRequest (q_id q) (q_puzzle q) t) = conn_Send c out /\
    threadpool_Solve c (q_puzzle q, q_id q) = conn_Send c out.
Proof.
  intros (text & E & _ & ->). unfold Solve, threadpool_Solve. cbn [puzzle id]. by rewrite E, bind_Ok.
Qed.

(** With threads, a good request is queued for them; the connection is left alone. *)
Lemma hybrid_queues num t s q :
  good q -> q_id q <> [] -> unbounded s -> threads_ (p_pool s) <> [] -> running_ (p_pool s) = true ->
  hybrid_ProcessRequest num t s (query_text q) =
    Ok (true, mkPooled (p_conn s) (set_queue (p_pool s) (queue_ (p_pool s) ++ [mkRequest (q_id q) (q_puzzle q) t]))).
Proof.
  intros Hq Hid Hu Ht Hr. unfold hybrid_ProcessRequest. rewrite split_query by done. rewrite decide_False by done.
  rewrite bool_decide_false by done. cbn [andb]. rewrite (good_puzzle _ Hq), Z.eqb_refl. unfold run_task, RunTask, IsFull.
  rewrite Hu, Hr. destruct (threads_ (p_pool s)); [done|]. change (0 >? 0) with false. cbn [andb negb]. run. cbn beta iota. by run.
Qed.

(** ** Throttling *)

Inductive mark_op := MHigh (tosend : Z) | MComplete | MRequest (request : bytes).

Definition run_mark (num t : Z) (s : client) (op : mark_op) : result client :=
  match op with
  | MHigh tosend => HighWatermark tosend s
  | MComplete => Ok (WriteComplete s)
  | MRequest request => '(_, s) ← prod_ProcessRequest num t s request; Ok s
  end.

(** A connection is throttled as long as it waits for a complete write; its mark is then twice
    as high. *)
Definition marks_ok (s : client (C := C)) : Prop :=
  c_throttle s = Some (c_write_complete s) /\
  c_watermark s = (if c_write_complete s then 10 else 5) * (1024 * 1024).

Lemma marks_new s : c_write_complete s = false -> marks_ok (prod_OnConnection true s).
Proof. intros E. split; cbn; by rewrite E. Qed.

Lemma marks_kept num t s op s' : marks_ok s -> run_mark num t s op = Ok s' -> marks_ok s'.
Proof.
  intros Hs. destruct op as [tosend| |request]; cbn [run_mark].
  - unfold HighWatermark. destruct (_ <? _); [by intros [= <-]|]. intros H. by inv_bind.
  - by intros [= <-].
  - unfold prod_ProcessRequest. destruct (split_request request) as [i p].
    destruct (bool_decide (i = None) && (num >? 1)); [by intros [= <-]|].
    destruct (zlen p =? kCells); [|by intros [= <-]]. destruct Hs as [H1 H2]. rewrite H1.
    destruct (_ && _); intros H; inv_bind; by split.
Qed.

(** A throttled connection is told so, and nothing is queued for it. *)
Lemma prod_busy num t s q c :
  good q -> q_id q <> [] -> c_throttle s = Some true ->
  conn_Send (p_conn (c_pooled s)) (q_id q ++ lit ":ServerTooBusy" ++ kCRLF) = Ok c ->
  prod_ProcessRequest num t s (query_text q) =
    Ok (true, mkClient (mkPooled c (p_pool (c_pooled s))) (c_throttle s) (c_watermark s) (c_write_complete s)).
Proof.
  intros Hq Hid Ht Hs. unfold prod_ProcessRequest. rewrite split_query by done. rewrite decide_False by done.
  rewrite bool_decide_false by done. cbn [andb]. cbn [default from_option]. rewrite (good_puzzle _ Hq), Z.eqb_refl, Ht, andb_false_r.
  unfold reply, Datatypes.id. rewrite decide_False by done. change (lit ":" ++ lit "ServerTooBusy" ++ eol) with (lit ":ServerTooBusy" ++ kCRLF).
  by rewrite Hs, bind_Ok.
Qed.
End Server.

Definition ex_queries : list query := [mkQuery (lit "a1") ex_puzzle; mkQuery [] (replicate 81 "1"%byte)].
Definition ex_pieces : list bytes :=
  let s := concat (map query_line ex_queries) in [take 50 s; take 36 (drop 50 s); drop 86 s].

Lemma sudoku_answers_witness :
  exists b b' : Buffer, Buffer_new kInitialSize = Ok b /\
    feed ex_pieces [] b = Ok ([CSend (lit "a1:" ++ ex_answer ++ kCRLF); CSend (kNoSolution ++ kCRLF)], b') /\ content b' = [].
Proof.
  assert (Forall good ex_queries) as Hg.
  { repeat constructor; try (by vm_compute); try (apply (bool_decide_unpack _); by vm_compute). }
  destruct Buffer_new_initial as (b & Eb & _).
  destruct (sudoku_answers (C := list call) ex_queries Hg) as (outs & _ & Hall); [by vm_compute|].
  assert (forall c, send_all outs c = Ok (c ++ map CSend outs)) as Hsend.
  { clear Hall. induction outs as [|o outs IH]; intros c; [by rewrite app_nil_r|]. cbn [send_all conn_Send trace_connection]. 
    rewrite bind_Ok, IH. cbn [map]. rewrite <- app_assoc. done. }
  destruct (Hall ex_pieces b [] (map CSend outs)) as (b' & E & Hc); [by vm_compute|done|apply Hsend|].
  assert (exists b2, feed ex_pieces [] b = Ok ([CSend (lit "a1:" ++ ex_answer ++ kCRLF); CSend (kNoSolution ++ kCRLF)], b2)) as [b2 E2].
  { vm_compute in Eb. injection Eb as <-. eexists. vm_compute. reflexivity. }
  rewrite E2 in E. injection E as _ Eb2. subst b2. by exists b, b'.
Defined.
