(* ===== verification/IdleConnection.v ===== *)
(** * The server that closes idle connections (examples/idleconnection/echo.h, echo.cc)

    A time wheel: a ring of buckets, one for each second a connection may be idle.  An
    entry refers to a connection; the connection keeps a weak pointer to it, the
    buckets keep strong ones.  An entry that no bucket holds any more is destroyed,
    and its destructor shuts the connection down.

    An entry and a connection are numbers that are not used again; the strong pointers to
    an entry are those in the buckets.  [boost::circular_buffer] is a parameter, with what its
    documentation promises; so is the order in which an [unordered_set] is
    destroyed. *)

From S2P Require Import Prelude.

(** ** boost::circular_buffer *)

(** [cb_elems] from front to back; [cb_set_back] writes through the reference [back()]. *)
Class CircularBuffer (A B : Type) := {
  cb_new : Z -> B;
  cb_resize : Z -> A -> B -> B;
  cb_push_back : A -> B -> B;
  cb_set_back : A -> B -> B;
  cb_elems : B -> list A;
  cb_capacity : B -> Z
}.

(** A full ring loses its first element when one is pushed; [resize] adds copies at the back,
    and makes the ring as large as needed. *)
Class CircularBufferLaws (A B : Type) `{!CircularBuffer A B} := {
  cb_new_law n : 0 <= n -> cb_elems (cb_new n) = [] /\ cb_capacity (cb_new n) = n;
  cb_resize_law n x b : zlen (cb_elems b) <= n ->
    cb_elems (cb_resize n x b) = cb_elems b ++ replicate (Z.to_nat n - length (cb_elems b)) x /\
    cb_capacity (cb_resize n x b) = Z.max n (cb_capacity b);
  cb_push_back_law x b : 0 < cb_capacity b ->
    cb_elems (cb_push_back x b) = (if zlen (cb_elems b) =? cb_capacity b then drop 1 (cb_elems b) else cb_elems b) ++ [x] /\
    cb_capacity (cb_push_back x b) = cb_capacity b;
  cb_set_back_law x b l y : cb_elems b = l ++ [y] ->
    cb_elems (cb_set_back x b) = l ++ [x] /\ cb_capacity (cb_set_back x b) = cb_capacity b
}.

(** [EchoServer::Bucket] *)
Abbreviation Bucket := (gset Z).

Section Wheel.
Context {B : Type} `{!CircularBuffer Bucket B}.
(** The order in which the entries of a bucket are released. *)
Context (unordered : Bucket -> list Z).

(** ** The server *)

(** [weakConn_ e] is the connection of the entry [e]; [context_ c] the weak pointer that the
    connection [c] holds; [alive_] the connections that have not been destroyed.
    src: examples/idleconnection/echo.h:27-48 EchoServer *)
Record EchoServer := mkEcho {
  connectionBuckets_ : B;
  weakConn_ : gmap Z Z;
  context_ : gmap Z Z;
  alive_ : gset Z;
  next_entry : Z
}.

(** src: examples/idleconnection/echo.cc:14-23 EchoServer::EchoServer *)
Definition EchoServer_new (idleSeconds : Z) : EchoServer :=
  let buckets : B := cb_new idleSeconds in
  let buckets := cb_resize idleSeconds ∅ buckets in
  mkEcho buckets ∅ ∅ ∅ 0.

Definition buckets (s : EchoServer) : list Bucket := cb_elems (connectionBuckets_ s).
Definition set_buckets (s : EchoServer) (b : B) : EchoServer :=
  mkEcho b (weakConn_ s) (context_ s) (alive_ s) (next_entry s).

(** [connectionBuckets_.back().insert(entry)] *)
Definition insert_back (e : Z) (s : EchoServer) : result EchoServer :=
  match last (buckets s) with
  | None => Fault FUndef
  | Some bucket => Ok (set_buckets s (cb_set_back ({[e]} ∪ bucket) (connectionBuckets_ s)))
  end.

(** What the server does to connections. *)
Inductive action := Echo (c : Z) (msg : bytes) | Shutdown (c : Z).

(** [weak.lock()]: an entry lives as long as a bucket holds it. *)
Definition entry_lives (e : Z) (s : EchoServer) : bool := existsb (fun bucket : Bucket => bool_decide (e ∈ bucket)) (buckets s).

(** [~Entry]
    src: examples/idleconnection/echo.h:33-38 EchoServer::Entry::~Entry *)
Definition Entry_destroy (e : Z) (s : EchoServer) : list action :=
  match weakConn_ s !! e with
  | Some c => if bool_decide (c ∈ alive_ s) then [Shutdown c] else []
  | None => []
  end.

(** src: examples/idleconnection/echo.cc:27-44 EchoServer::OnConnection *)
Definition OnConnection (connected : bool) (c : Z) (s : EchoServer) : result EchoServer :=
  if connected then
    let e := next_entry s in
    let s := mkEcho (connectionBuckets_ s) (<[e := c]> (weakConn_ s)) (context_ s) (alive_ s) (e + 1) in
    s ← insert_back e s;
    Ok (mkEcho (connectionBuckets_ s) (weakConn_ s) (<[c := e]> (context_ s)) (alive_ s) (next_entry s))
  else
    _ ← assert_ (bool_decide (is_Some (context_ s !! c)));
    Ok s.

(** src: examples/idleconnection/echo.cc:46-60 EchoServer::OnMessage *)
Definition OnMessage (c : Z) (msg : bytes) (s : EchoServer) : result (list action * EchoServer) :=
  match context_ s !! c with
  | None => Fault FAssert
  | Some e =>
      if entry_lives e s then s ← insert_back e s; Ok ([Echo c msg], s)
      else Ok ([Echo c msg], s)
  end.

(** A bucket that is pushed out releases its entries; those that no other bucket holds are
    destroyed.
    src: examples/idleconnection/echo.cc:62-65 EchoServer::OnTimer *)
Definition OnTimer (s : EchoServer) : list action * EchoServer :=
  let s' := set_buckets s (cb_push_back ∅ (connectionBuckets_ s)) in
  let released := List.filter (fun e => negb (entry_lives e s')) (remove_dups (concat (map unordered (buckets s)))) in
  (concat (map (fun e => Entry_destroy e s') released), s').

(** ** What happens to the server *)

(** A connection is made and reported; sends a message; is reported closed; is destroyed; a
    second passes. *)
Inductive event := Up (c : Z) | Message (c : Z) (msg : bytes) | Down (c : Z) | Gone (c : Z) | Tick.

Definition set_alive (s : EchoServer) (a : gset Z) : EchoServer :=
  mkEcho (connectionBuckets_ s) (weakConn_ s) (context_ s) a (next_entry s).

Definition run_event (ev : event) (s : EchoServer) : result (list action * EchoServer) :=
  match ev with
  | Up c => s ← OnConnection true c (set_alive s ({[c]} ∪ alive_ s)); Ok ([], s)
  | Message c msg => OnMessage c msg s
  | Down c => s ← OnConnection false c s; Ok ([], s)
  | Gone c => Ok ([], set_alive s (alive_ s ∖ {[c]}))
  | Tick => Ok (OnTimer s)
  end.

Fixpoint run_events (evs : list event) (s : EchoServer) : result (list (list action) * EchoServer) :=
  match evs with
  | [] => Ok ([], s)
  | ev :: evs => '(out, s) ← run_event ev s; '(outs, s) ← run_events evs s; Ok (out :: outs, s)
  end.
End Wheel.

(** ** The specification

    For each connection, the seconds since it was made or last sent a message, until they
    are [n]: then it is shut down, and is idle for good. *)

Record idle := mkIdle { ages : gmap Z Z; known : gset Z; living : gset Z }.

Definition idle_new : idle := mkIdle ∅ ∅ ∅.

(** The connections that have been idle for [n] seconds with this one. *)
Definition expired (n : Z) (m : idle) : gset Z :=
  filter (fun c => c ∈ living m) (dom (filter (fun '(c, a) => a = n - 1) (ages m))).

Definition grow (n : Z) (a : Z) : option Z := if decide (a = n - 1) then None else Some (a + 1).

(** [None]: the event cannot happen. *)
Definition spec_event (n : Z) (ev : event) (m : idle) : option (list action * idle) :=
  match ev with
  | Up c => if decide (c ∈ known m) then None
            else Some ([], mkIdle (<[c := 0]> (ages m)) ({[c]} ∪ known m) ({[c]} ∪ living m))
  | Message c msg =>
      if decide (c ∈ known m) then
        Some ([Echo c msg], mkIdle (if ages m !! c then <[c := 0]> (ages m) else ages m) (known m) (living m))
      else None
  | Down c => if decide (c ∈ known m) then Some ([], m) else None
  | Gone c => Some ([], mkIdle (ages m) (known m) (living m ∖ {[c]}))
  | Tick => Some (Shutdown <$> elements (expired n m), mkIdle (omap (grow n) (ages m)) (known m) (living m))
  end.

Fixpoint spec_events (n : Z) (evs : list event) (m : idle) : option (list (list action) * idle) :=
  match evs with
  | [] => Some ([], m)
  | ev :: evs => '(out, m) ← spec_event n ev m; '(outs, m) ← spec_events n evs m; Some (out :: outs, m)
  end.

(** ** The wheel keeps the ages *)

(** How far from the newest bucket the newest one with [e] is. *)
Fixpoint age (bs : list Bucket) (e : Z) : option Z :=
  match bs with
  | [] => None
  | b :: bs => if decide (e ∈ b) then Some 0 else (fun a => a + 1) <$> age bs e
  end.

Lemma age_None bs e : age bs e = None <-> forall b, b ∈ bs -> e ∉ b.
Proof.
  induction bs as [|b bs IH]; cbn [age]; [split; [by intros _ b ?%not_elem_of_nil|done]|].
  case_decide as E; [split; [done|intros H; destruct (H b); [left|done]]|]. rewrite fmap_None, IH.
  split; [intros H b' [->|Hb]%elem_of_cons; [done|by apply H]|intros H b' Hb; apply H; by right].
Qed.

Lemma age_range bs e a : age bs e = Some a -> 0 <= a < zlen bs.
Proof.
  revert a. induction bs as [|b bs IH]; intros a; [done|]. cbn [age length]. case_decide; [intros [= <-]; lia|].
  intros (a' & Ha & ->)%fmap_Some. apply IH in Ha. lia.
Qed.

(** With a last bucket, that may be pushed out. *)
Lemma age_snoc bs x e :
  age (bs ++ [x]) e = match age bs e with Some a => Some a | None => if decide (e ∈ x) then Some (zlen bs) else None end.
Proof.
  induction bs as [|b bs IH]; cbn [age app length]; [by case_decide|].
  destruct (decide (e ∈ b)); [done|]. rewrite IH. destruct (age bs e); [done|]. case_decide; [|done]. cbn. f_equal. lia.
Qed.

Section Correct.
Context {B : Type} `{!CircularBuffer Bucket B} `{!CircularBufferLaws Bucket B}.
Context (unordered : Bucket -> list Z) (Hun : forall b, unordered b ≡ₚ elements b).
Context (n : Z) (Hn : 1 <= n).

Record refines (s : EchoServer (B := B)) (m : idle) : Prop := {
  rf_size : zlen (buckets s) = n /\ cb_capacity (connectionBuckets_ s) = n;
  rf_pair c e : context_ s !! c = Some e <-> weakConn_ s !! e = Some c;
  rf_entries b e : b ∈ buckets s -> e ∈ b -> is_Some (weakConn_ s !! e);
  rf_next e c : weakConn_ s !! e = Some c -> e < next_entry s;
  rf_known c : is_Some (context_ s !! c) <-> c ∈ known m;
  rf_alive : alive_ s = living m;
  rf_ages c : ages m !! c = (context_ s !! c ≫= age (rev (buckets s)))
}.

Lemma entry_lives_age e (s : EchoServer (B := B)) : entry_lives e s = false <-> age (rev (buckets s)) e = None.
Proof.
  unfold entry_lives. rewrite age_None. rewrite <- not_true_iff_false, existsb_exists. split.
  - intros H b Hb He. apply H. exists b. split; [|by apply bool_decide_eq_true]. apply list_elem_of_In in Hb. by apply in_rev.
  - intros H (b & Hb & He). apply bool_decide_eq_true in He. apply (H b); [|done]. apply list_elem_of_In. by apply in_rev in Hb.
Qed.

(** The newest bucket, and the others from the second newest on. *)
Lemma newest s m : refines s m -> exists l y, buckets s = l ++ [y].
Proof.
  intros [[Hs _] _ _ _ _ _ _]. destruct (buckets s) as [|y l _] using rev_ind; [simpl in Hs; lia|by exists l, y].
Qed.

Lemma insert_back_ok e s l y :
  buckets s = l ++ [y] ->
  exists b, insert_back e s = Ok (set_buckets s b) /\ cb_elems b = l ++ [{[e]} ∪ y] /\ cb_capacity b = cb_capacity (connectionBuckets_ s).
Proof.
  intros E. unfold insert_back. rewrite E, last_snoc.
  destruct (cb_set_back_law ({[e]} ∪ y) (connectionBuckets_ s) l y E) as [H1 H2]. by exists (cb_set_back ({[e]} ∪ y) (connectionBuckets_ s)).
Qed.

Lemma age_insert (e : Z) (y : Bucket) bs e' :
  age (({[e]} ∪ y) :: bs) e' = if decide (e' = e) then Some 0 else age (y :: bs) e'.
Proof.
  cbn [age]. destruct (decide (e' = e)) as [->|Hne]; [by rewrite decide_True by set_solver|].
  destruct (decide (e' ∈ y)); [by rewrite decide_True by set_solver|by rewrite decide_False by set_solver].
Qed.

Lemma up_ok s m c m' out : refines s m -> spec_event n (Up c) m = Some (out, m') ->
  exists s', run_event unordered (Up c) s = Ok (out, s') /\ refines s' m'.
Proof.
  intros Hr. cbn [spec_event]. case_decide as Hc; [done|]. intros [= <- <-]. destruct (newest s m Hr) as (l & y & El).
  destruct Hr as [[R1 R1'] R2 R3 R4 R5 R6 R7]. destruct s as [bk wc cx al ne]. cbn in *.
  unfold run_event, OnConnection, set_alive. cbn [next_entry connectionBuckets_ weakConn_ context_ alive_].
  destruct (insert_back_ok ne (mkEcho bk (<[ne := c]> wc) cx ({[c]} ∪ al) (ne + 1)) l y El) as (b & -> & E1 & E2). run.
  cbn in E2. eexists. split; [reflexivity|]. unfold set_buckets. cbn.
  assert (cx !! c = None) as Hcx by (apply eq_None_not_Some; by rewrite R5).
  assert (wc !! ne = None) as Hne.
  { destruct (wc !! ne) as [c'|] eqn:E; [|done]. apply R4 in E. lia. }
  split; cbn; unfold buckets in *; cbn in *; rewrite ?E1.
  - rewrite E2, R1'. split; [|done]. rewrite El, length_app in R1. rewrite length_app. simpl in *. lia.
  - intros c' e'. destruct (decide (c' = c)) as [->|Hc'], (decide (e' = ne)) as [->|He'];
      rewrite ?lookup_insert_eq, ?lookup_insert_ne by congruence.
    + done.
    + rewrite <- R2, Hcx. split; congruence.
    + rewrite R2, Hne. split; congruence.
    + apply R2.
  - intros b' e' Hb' He'. destruct (decide (e' = ne)) as [->|Hne']; [by rewrite lookup_insert_eq|].
    rewrite lookup_insert_ne by done. apply elem_of_app in Hb' as [Hb'|Hb'%list_elem_of_singleton].
    + apply (R3 b'); [|done]. rewrite El. apply elem_of_app. by left.
    + subst b'. apply (R3 y); [|set_solver]. rewrite El. apply elem_of_app. right. left.
  - intros e' c'. destruct (decide (e' = ne)) as [->|Hne']; [lia|]. rewrite lookup_insert_ne by done. intros H%R4. lia.
  - intros c'. rewrite elem_of_union, elem_of_singleton. destruct (decide (c' = c)) as [->|Hc'].
    + rewrite lookup_insert_eq. split; [by left|by eexists].
    + rewrite lookup_insert_ne by done. rewrite R5. tauto.
  - by rewrite R6.
  - intros c'. rewrite rev_app_distr. cbn [rev app]. destruct (decide (c' = c)) as [->|Hc'].
    + rewrite !lookup_insert_eq. cbn [mbind option_bind]. by rewrite age_insert, decide_True.
    + rewrite !lookup_insert_ne by done. rewrite R7, El, rev_app_distr. cbn [rev app].
      destruct (cx !! c') as [e'|] eqn:E'; [|done]. cbn [mbind option_bind]. rewrite age_insert, decide_False; [done|].
      intros ->. apply R2, R4 in E'. lia.
Qed.

Lemma message_ok s m c msg m' out : refines s m -> spec_event n (Message c msg) m = Some (out, m') ->
  exists s', run_event unordered (Message c msg) s = Ok (out, s') /\ refines s' m'.
Proof.
  intros Hr. cbn [spec_event]. case_decide as Hc; [|done]. intros [= <- <-]. destruct (newest s m Hr) as (l & y & El).
  pose proof Hr as [[R1 R1'] R2 R3 R4 R5 R6 R7]. apply R5 in Hc as [e He]. cbn [run_event]. unfold OnMessage. rewrite He.
  pose proof (R7 c) as Ha. rewrite He in Ha. cbn [mbind option_bind] in Ha. rewrite Ha.
  destruct (entry_lives e s) eqn:Elive.
  - destruct (age (rev (buckets s)) e) as [a|] eqn:Eage; [|apply entry_lives_age in Eage; congruence].
    destruct (insert_back_ok e s l y El) as (b & -> & E1 & E2). run. eexists. split; [done|].
    split; unfold buckets in *; cbn [connectionBuckets_ context_ weakConn_ next_entry alive_ set_buckets ages known living]; rewrite ?E1; try done.
    + rewrite E2. split; [|done]. rewrite El, length_app in R1. rewrite length_app. simpl in *. lia.
    + intros b' e' Hb' He'. destruct (decide (e' = e)) as [->|Hne']; [apply R2 in He; by eexists|].
      apply elem_of_app in Hb' as [Hb'|Hb'%list_elem_of_singleton].
      * apply (R3 b'); [|done]. rewrite El. apply elem_of_app. by left.
      * subst b'. apply (R3 y); [|set_solver]. rewrite El. apply elem_of_app. right. left.
    + intros c'. rewrite rev_app_distr. cbn [rev app]. destruct (decide (c' = c)) as [->|Hc'].
      * rewrite lookup_insert_eq, He. cbn [mbind option_bind]. by rewrite age_insert, decide_True.
      * rewrite lookup_insert_ne by done. rewrite R7, El, rev_app_distr. cbn [rev app].
        destruct (context_ s !! c') as [e'|] eqn:E'; [|done]. cbn [mbind option_bind]. rewrite age_insert, decide_False; [done|].
        intros ->. apply R2 in E', He. congruence.
  - apply entry_lives_age in Elive. rewrite Elive. exists s. split; [done|]. by split.
Qed.
Lemma tick_buckets s m : refines s m -> exists x rest b,
  buckets s = x :: rest /\ zlen rest = n - 1 /\ cb_push_back ∅ (connectionBuckets_ s) = b /\ cb_elems b = rest ++ [∅] /\ cb_capacity b = n.
Proof.
  intros [[R1 R1'] _ _ _ _ _ _]. destruct (cb_push_back_law ∅ (connectionBuckets_ s)) as [H1 H2]; [lia|]. unfold buckets in *.
  rewrite R1', (proj2 (Z.eqb_eq _ _) R1) in H1. destruct (cb_elems (connectionBuckets_ s)) as [|x rest] eqn:E; [simpl in R1; lia|].
  exists x, rest, (cb_push_back ∅ (connectionBuckets_ s)). cbn [length] in R1. split; [done|]. split; [lia|]. split; [done|].
  split; [by rewrite H1|congruence].
Qed.

(** The entries that a tick destroys are those in the oldest bucket and in no other. *)
Lemma released_in s x rest b e :
  buckets s = x :: rest -> cb_elems b = rest ++ [∅] ->
  e ∈ List.filter (fun e => negb (entry_lives e (set_buckets s b))) (remove_dups (concat (map unordered (buckets s)))) <->
  age (rev (buckets s)) e = Some (zlen rest).
Proof.
  intros Eb Er. rewrite list_elem_of_In, filter_In, <- list_elem_of_In, elem_of_remove_dups, elem_of_concat.
  rewrite negb_true_iff, entry_lives_age. unfold buckets in *. cbn [connectionBuckets_ set_buckets]. rewrite Eb, Er.
  rewrite rev_app_distr. cbn [rev app]. rewrite age_snoc, length_rev. cbn [age]. rewrite decide_False by apply (not_elem_of_empty (C := gset Z)). rewrite fmap_None.
  split.
  - intros [(b' & Hb' & He) Ha]. rewrite Ha. rewrite Hun, elem_of_elements in He. rewrite decide_True; [done|].
    apply elem_of_cons in Hb' as [->|Hb']; [done|]. exfalso. rewrite age_None in Ha. apply (Ha b'); [|done].
    apply list_elem_of_In. rewrite <- in_rev. by apply list_elem_of_In.
  - destruct (age (rev rest) e) as [a|] eqn:Ea.
    + intros [= ->]. apply age_range in Ea. rewrite length_rev in Ea. lia.
    + case_decide as Hx; [|done]. intros _. split; [|done]. exists x. split; [left|]. by rewrite Hun, elem_of_elements.
Qed.

Lemma Entry_destroy_in e (s : EchoServer (B := B)) a :
  a ∈ Entry_destroy e s <-> exists c, a = Shutdown c /\ weakConn_ s !! e = Some c /\ c ∈ alive_ s.
Proof.
  unfold Entry_destroy. destruct (weakConn_ s !! e) as [c|]; [case_bool_decide as Hc|].
  - rewrite list_elem_of_singleton. split; [intros ->; by exists c|]. by intros (c' & -> & [= <-] & _).
  - rewrite elem_of_nil. split; [done|]. by intros (c' & _ & [= <-] & ?).
  - rewrite elem_of_nil. split; [done|]. by intros (c' & _ & ? & _).
Qed.

Lemma expired_in m c : c ∈ expired n m <-> ages m !! c = Some (n - 1) /\ c ∈ living m.
Proof.
  unfold expired. rewrite elem_of_filter, elem_of_dom. split.
  - intros [Hl [a [Ha ->]%map_lookup_filter_Some]]. done.
  - intros [Ha Hl]. split; [done|]. exists (n - 1). by apply map_lookup_filter_Some.
Qed.

Lemma tick_ok s m m' out' : refines s m -> spec_event n Tick m = Some (out', m') ->
  exists out s', run_event unordered Tick s = Ok (out, s') /\ out ≡ₚ out' /\ refines s' m'.
Proof.
  intros Hr [= <- <-]. destruct (tick_buckets s m Hr) as (x & rest & b & Eb & Hl & Ep & Er & Ec).
  pose proof Hr as [[R1 R1'] R2 R3 R4 R5 R6 R7]. cbn [run_event]. unfold OnTimer. rewrite Ep.
  eexists _, (set_buckets s b). split; [done|]. split.
  - apply NoDup_Permutation.
    + apply NoDup_concat_map_intro.
      * apply NoDup_ListNoDup, List.NoDup_filter, NoDup_ListNoDup, NoDup_remove_dups.
      * intros e _. unfold Entry_destroy. case_match; [case_bool_decide|]; (apply NoDup_singleton || constructor).
      * intros e e' a _ _ (c & -> & H1 & _)%Entry_destroy_in (c' & [= <-] & H2 & _)%Entry_destroy_in. apply R2 in H1, H2. congruence.
    + apply NoDup_fmap_2; [by intros ?? [= ->]|apply NoDup_elements].
    + intros a. rewrite elem_of_concat. setoid_rewrite (released_in s x rest b); [|done|done]. setoid_rewrite Entry_destroy_in.
      rewrite list_elem_of_fmap. setoid_rewrite elem_of_elements. setoid_rewrite expired_in. cbn [set_buckets weakConn_ alive_]. rewrite Hl. split.
      * intros (e & He & c & -> & Hw & Ha). exists c. split; [done|]. apply R2 in Hw. rewrite R7, Hw, <- R6. done.
      * intros (c & -> & Hc & Ha). rewrite R7 in Hc. apply bind_Some in Hc as (e & He & Hage). exists e. split; [done|].
        exists c. split; [done|]. split; [by apply R2|]. by rewrite R6.
  - split; unfold buckets in *; cbn [set_buckets connectionBuckets_ context_ weakConn_ next_entry alive_ ages known living]; rewrite ?Er; try done.
    + split; [|done]. rewrite length_app. simpl. lia.
    + intros b' e' Hb' He'. apply elem_of_app in Hb' as [Hb'|Hb'%list_elem_of_singleton]; [|subst b'; by apply (not_elem_of_empty (C := gset Z)) in He'].
      apply (R3 b'); [|done]. rewrite Eb. by right.
    + intros c. rewrite lookup_omap, R7, Eb, rev_app_distr. cbn [rev app]. destruct (context_ s !! c) as [e|]; [|done]. cbn [mbind option_bind].
      rewrite age_snoc, length_rev, Hl. cbn [age]. rewrite (decide_False (P := e ∈ ∅)) by apply (not_elem_of_empty (C := gset Z)). unfold grow.
      destruct (age (rev rest) e) as [a|] eqn:Ea.
      * apply age_range in Ea. rewrite length_rev in Ea. cbn. by rewrite decide_False by lia.
      * case_decide; [|done]. cbn. by rewrite decide_True.
Qed.

Lemma other_ok s m ev m' out :
  match ev with Down _ | Gone _ => True | _ => False end -> refines s m -> spec_event n ev m = Some (out, m') ->
  exists s', run_event unordered ev s = Ok (out, s') /\ refines s' m'.
Proof.
  intros Hev Hr. pose proof Hr as [[R1 R1'] R2 R3 R4 R5 R6 R7]. destruct ev as [| |c|c|]; try done; cbn [spec_event run_event].
  - case_decide as Hc; [|done]. intros [= <- <-]. apply R5 in Hc. unfold OnConnection. rewrite bool_decide_true by done. run. by exists s.
  - intros [= <- <-]. eexists. split; [done|]. split; try done. cbn. by rewrite R6.
Qed.

Lemma events_ok evs : forall s m m' outs', refines s m -> spec_events n evs m = Some (outs', m') ->
  exists outs s', run_events unordered evs s = Ok (outs, s') /\ Forall2 (≡ₚ) outs outs' /\ refines s' m'.
Proof.
  induction evs as [|ev evs IH]; intros s m m' outs' Hr; cbn [spec_events run_events].
  - intros [= <- <-]. exists [], s. done.
  - intros ((out' & m1) & E1 & ((outs1 & m2) & E2 & [= <- <-])%bind_Some)%bind_Some.
    assert (exists out s1, run_event unordered ev s = Ok (out, s1) /\ out ≡ₚ out' /\ refines s1 m1) as (out & s1 & -> & Hp & Hr1).
    { destruct ev.
      - destruct (up_ok s m c m1 out' Hr E1) as (s1 & ? & ?). by exists out', s1.
      - destruct (message_ok s m c msg m1 out' Hr E1) as (s1 & ? & ?). by exists out', s1.
      - destruct (other_ok s m (Down c) m1 out' I Hr E1) as (s1 & ? & ?). by exists out', s1.
      - destruct (other_ok s m (Gone c) m1 out' I Hr E1) as (s1 & ? & ?). by exists out', s1.
      - by apply (tick_ok s m). }
    rewrite bind_Ok. destruct (IH s1 m1 m2 outs1 Hr1 E2) as (outs & s2 & -> & Hps & Hr2). rewrite bind_Ok.
    exists (out :: outs), s2. split; [done|]. split; [by constructor|done].
Qed.

Lemma new_refines : refines (EchoServer_new n) idle_new.
Proof.
  destruct (cb_new_law (A := Bucket) n) as [H1 H2]; [lia|]. destruct (cb_resize_law n (∅ : Bucket) (cb_new n)) as [H3 H4]; [rewrite H1; simpl; lia|].
  rewrite H1 in H3. cbn [app length] in H3. rewrite Nat.sub_0_r in H3. unfold EchoServer_new. split; unfold buckets; cbn.
  - rewrite H3, H4, H2, length_replicate. lia.
  - done.
  - intros b e Hb He. rewrite H3 in Hb. apply elem_of_replicate in Hb as [-> _]. by apply (not_elem_of_empty (C := gset Z)) in He.
  - done.
  - intros c. rewrite lookup_empty. split; [by intros [? ?]|intros Hc; by apply (not_elem_of_empty (C := gset Z)) in Hc].
  - done.
  - done.
Qed.

(** C22: the time wheel of the idle-connection server is a clock for each connection.  Whatever
    connections are made, send messages, are closed and are destroyed, in any order, between
    the ticks, the server made for [n] seconds never reads an empty ring nor a missing context, it
    echoes each message, and at each tick it shuts down exactly the connections that are still
    there and for which this is the [n]-th tick since they were made or last sent a
    message; none is shut down earlier, and none twice. *)
Theorem idle_wheel evs outs' m :
  spec_events n evs idle_new = Some (outs', m) ->
  exists outs s, run_events unordered evs (EchoServer_new n) = Ok (outs, s) /\ Forall2 (≡ₚ) outs outs' /\
    forall c, ages m !! c = (context_ s !! c ≫= age (rev (buckets s))).
Proof.
  intros E. destruct (events_ok evs _ _ m outs' new_refines E) as (outs & s & E' & Hp & Hr). exists outs, s.
  split; [done|]. split; [done|]. apply (rf_ages _ _ Hr).
Qed.
End Correct.

(** ** A ring *)

Record ring (A : Type) := mkRing { r_elems : list A; r_capacity : Z }.
Arguments mkRing {A} r_elems r_capacity.
Arguments r_elems {A} r.
Arguments r_capacity {A} r.

#[export] Instance ring_buffer (A : Type) : CircularBuffer A (ring A) := {
  cb_new n := mkRing [] n;
  cb_resize n x b := mkRing (r_elems b ++ replicate (Z.to_nat n - length (r_elems b)) x) (Z.max n (r_capacity b));
  cb_push_back x b := mkRing ((if zlen (r_elems b) =? r_capacity b then drop 1 (r_elems b) else r_elems b) ++ [x]) (r_capacity b);
  cb_set_back x b := mkRing (removelast (r_elems b) ++ [x]) (r_capacity b);
  cb_elems := r_elems;
  cb_capacity := r_capacity
}.

#[export] Instance ring_laws (A : Type) : CircularBufferLaws A (ring A).
Proof.
  split; try done. intros x b l y E. cbn in *. by rewrite E, removelast_last.
Qed.

(** Two seconds; the connection 7 sends a message after the first. *)
Definition ex_events : list event :=
  [Up 7; Tick; Message 7 (lit "hi"); Up 8; Tick; Down 8; Gone 8; Tick; Message 7 (lit "bye"); Tick].

Lemma idle_wheel_witness :
  exists outs s, run_events (B := ring Bucket) elements ex_events (EchoServer_new 2) = Ok (outs, s) /\
    outs = [[]; []; [Echo 7 (lit "hi")]; []; []; []; []; [Shutdown 7]; [Echo 7 (lit "bye")]; []].
Proof.
  destruct (spec_events 2 ex_events idle_new) as [[outs' m]|] eqn:E; [|vm_compute in E; discriminate].
  destruct (idle_wheel (B := ring Bucket) elements (fun b => reflexivity _) 2 ltac:(lia) ex_events outs' m E) as (outs & s & E2 & _ & _).
  exists outs, s. split; [done|].
  assert (exists s2, run_events (B := ring Bucket) elements ex_events (EchoServer_new 2) =
    Ok ([[]; []; [Echo 7 (lit "hi")]; []; []; []; []; [Shutdown 7]; [Echo 7 (lit "bye")]; []], s2)) as [s2 E3].
  { eexists. vm_compute. reflexivity. }
  rewrite E3 in E2. by injection E2.
Defined.
