(* ===== verification/SortedList.v ===== *)
(** * The server that closes idle connections, with a list
      (examples/idleconnection/sortedlist.cc)

    A list of weak pointers to the connections; the context of a connection is a node: when
    it last received, and the place of its pointer in the list.  What has just received is
    moved to the end, so that the timer need only look at the front.

    A connection is a number; so is a place, which an iterator refers to and which
    stays the same when its element is moved.  What is printed is left out. *)

From stdpp Require Import sorting.
From S2P Require Import Prelude Timestamp.

(** src: examples/idleconnection/sortedlist.cc:34-37 EchoServer::Node *)
Record Node := mkNode { lastReceiveTime : Z; position : Z }.

(** [connectionList_] has the places and what they hold; [context_ c] is the context of the
    connection [c], [alive_] are the connections that have not been destroyed, [connected_]
    those whose [Connected()] is true.
    src: examples/idleconnection/sortedlist.cc:39-41 EchoServer *)
Record EchoServer := mkEcho {
  idleSeconds_ : Z;
  connectionList_ : list (Z * Z);
  context_ : gmap Z Node;
  alive_ : gset Z;
  connected_ : gset Z;
  next_position : Z
}.

(** src: examples/idleconnection/sortedlist.cc:44-52 EchoServer::EchoServer *)
Definition EchoServer_new (idle_seconds : Z) : EchoServer := mkEcho idle_seconds [] ∅ ∅ ∅ 0.

Definition set_list (s : EchoServer) l : EchoServer :=
  mkEcho (idleSeconds_ s) l (context_ s) (alive_ s) (connected_ s) (next_position s).
Definition set_context (s : EchoServer) c n : EchoServer :=
  mkEcho (idleSeconds_ s) (connectionList_ s) (<[c := n]> (context_ s)) (alive_ s) (connected_ s) (next_position s).
Definition disconnect (s : EchoServer) c : EchoServer :=
  mkEcho (idleSeconds_ s) (connectionList_ s) (context_ s) (alive_ s) (connected_ s ∖ {[c]}) (next_position s).

(** What is at a place, and the list without it; an iterator whose element was erased must not be used. *)
Fixpoint take_place (p : Z) (l : list (Z * Z)) : result (Z * Z * list (Z * Z)) :=
  match l with
  | [] => Fault FUndef
  | x :: l => if fst x =? p then Ok (x, l) else '(y, l) ← take_place p l; Ok (y, x :: l)
  end.

(** [list.erase(position)] *)
Definition erase (p : Z) (l : list (Z * Z)) : result (list (Z * Z)) :=
  '(_, l) ← take_place p l; Ok l.

(** [list.splice(list.end(), list, position)] *)
Definition splice_end (p : Z) (l : list (Z * Z)) : result (list (Z * Z)) :=
  '(x, l) ← take_place p l; Ok (l ++ [x]).

(** What the server does to connections; the last is [ForceCloseWithDelay(3.5)]. *)
Inductive action := Echo (c : Z) (msg : bytes) | Shutdown (c : Z) | ForceCloseWithDelay (c : Z).

(** [now] is the answer of [Timestamp::Now()].
    src: examples/idleconnection/sortedlist.cc:54-71 EchoServer::OnConnection *)
Definition OnConnection (now : Z) (connected : bool) (c : Z) (s : EchoServer) : result EchoServer :=
  if connected then
    let p := next_position s in
    let s := mkEcho (idleSeconds_ s) (connectionList_ s ++ [(p, c)]) (context_ s) (alive_ s) (connected_ s) (p + 1) in
    Ok (set_context s c (mkNode now p))
  else
    match context_ s !! c with
    | None => Fault FAssert
    | Some node => l ← erase (position node) (connectionList_ s); Ok (set_list s l)
    end.

(** src: examples/idleconnection/sortedlist.cc:73-88 EchoServer::OnMessage *)
Definition OnMessage (c : Z) (msg : bytes) (time : Z) (s : EchoServer) : result (list action * EchoServer) :=
  match context_ s !! c with
  | None => Fault FAssert
  | Some node =>
      let s := set_context s c (mkNode time (position node)) in
      l ← splice_end (position node) (connectionList_ s);
      _ ← assert_ (bool_decide (fst <$> last l = Some (position node)));
      Ok ([Echo c msg], set_list s l)
  end.

(** The loop over the list: [l] is what is left of it; what is returned is what has become
    of it.
    src: examples/idleconnection/sortedlist.cc:93-117 EchoServer::OnTimer *)
Fixpoint OnTimer_loop (now : Z) (l : list (Z * Z)) (s : EchoServer) : result (list action * list (Z * Z) * EchoServer) :=
  match l with
  | [] => Ok ([], [], s)
  | (p, c) :: l' =>
      if bool_decide (c ∈ alive_ s) then
        match context_ s !! c with
        | None => Fault FUndef
        | Some n =>
            age ← TimeDifference now (lastReceiveTime n);
            if SFltb (double_of_Z (idleSeconds_ s)) age then
              let '(out, s) := if bool_decide (c ∈ connected_ s) then ([Shutdown c; ForceCloseWithDelay c], disconnect s c) else ([], s) in
              '(outs, l', s) ← OnTimer_loop now l' s;
              Ok (out ++ outs, (p, c) :: l', s)
            else if SFltb age (double_of_Z 0) then
              let s := set_context s c (mkNode now (position n)) in
              '(outs, l', s) ← OnTimer_loop now l' s;
              Ok (outs, (p, c) :: l', s)
            else Ok ([], (p, c) :: l', s)
        end
      else OnTimer_loop now l' s
  end.

(** src: examples/idleconnection/sortedlist.cc:90-118 EchoServer::OnTimer *)
Definition OnTimer (now : Z) (s : EchoServer) : result (list action * EchoServer) :=
  '(out, l, s) ← OnTimer_loop now (connectionList_ s) s;
  Ok (out, set_list s l).

(** ** What happens to the server *)

(** A connection is made, at a time, and reported; a message arrives, at a time; a connection is
    reported closed; is destroyed; the timer expires, at a time. *)
Inductive event := Up (now c : Z) | Message (time c : Z) (msg : bytes) | Down (c : Z) | Gone (c : Z) | Tick (now : Z).

Definition set_alive (s : EchoServer) (a co : gset Z) : EchoServer :=
  mkEcho (idleSeconds_ s) (connectionList_ s) (context_ s) a co (next_position s).

Definition run_event (ev : event) (s : EchoServer) : result (list action * EchoServer) :=
  match ev with
  | Up now c => s ← OnConnection now true c (set_alive s ({[c]} ∪ alive_ s) ({[c]} ∪ connected_ s)); Ok ([], s)
  | Message time c msg => OnMessage c msg time s
  | Down c => s ← OnConnection 0 false c (disconnect s c); Ok ([], s)
  | Gone c => Ok ([], set_alive s (alive_ s ∖ {[c]}) (connected_ s))
  | Tick now => OnTimer now s
  end.

Fixpoint run_events (evs : list event) (s : EchoServer) : result (list (list action) * EchoServer) :=
  match evs with
  | [] => Ok ([], s)
  | ev :: evs => '(out, s) ← run_event ev s; '(outs, s) ← run_events evs s; Ok (out :: outs, s)
  end.

(** ** The specification

    For each open connection, when it was made or last received; the connections that have
    not been told to close.  [clock] is the last time anything happened. *)

Record idle := mkIdle { since : gmap Z Z; open : gset Z; known : gset Z; clock : Z }.

Definition idle_new : idle := mkIdle ∅ ∅ ∅ 0.

(** Times from 1970 to 2112. *)
Definition time_ok (m : idle) (now : Z) : bool := (clock m <=? now) && (now <? 2 ^ 52).

Definition idle_longer (n now : Z) (t : option Z) : bool := match t with Some t => n * 1000000 <? now - t | None => false end.

(** The connections that have been idle for more than [n] seconds. *)
Definition expired (n now : Z) (m : idle) : gset Z :=
  filter (fun c => idle_longer n now (since m !! c) = true) (open m).

Definition close (c : Z) : list action := [Shutdown c; ForceCloseWithDelay c].

(** [None]: the event cannot happen. *)
Definition spec_event (n : Z) (ev : event) (m : idle) : option (list action * idle) :=
  match ev with
  | Up now c => if time_ok m now && bool_decide (c ∉ known m)
                then Some ([], mkIdle (<[c := now]> (since m)) ({[c]} ∪ open m) ({[c]} ∪ known m) now) else None
  | Message time c msg => if time_ok m time && bool_decide (c ∈ dom (since m))
                          then Some ([Echo c msg], mkIdle (<[c := time]> (since m)) (open m) (known m) time) else None
  | Down c => if bool_decide (c ∈ dom (since m))
              then Some ([], mkIdle (delete c (since m)) (open m ∖ {[c]}) (known m) (clock m)) else None
  | Gone c => if bool_decide (c ∈ dom (since m)) then None else Some ([], m)
  | Tick now => if time_ok m now
                then Some (concat (map close (elements (expired n now m))), mkIdle (since m) (open m ∖ expired n now m) (known m) now)
                else None
  end.

Fixpoint spec_events (n : Z) (evs : list event) (m : idle) : option (list (list action) * idle) :=
  match evs with
  | [] => Some ([], m)
  | ev :: evs => '(out, m) ← spec_event n ev m; '(outs, m) ← spec_events n evs m; Some (out :: outs, m)
  end.

(** ** The list is in the order of the times *)

Record entry := mkEntry { e_place : Z; e_conn : Z; e_time : Z }.

(** The element of the list and the node of a connection. *)
Definition pointer (x : entry) : Z * Z := (e_place x, e_conn x).
Definition node (x : entry) : Node := mkNode (e_time x) (e_place x).

Abbreviation ascending := (StronglySorted (fun x y => e_time x <= e_time y)).

Lemma take_place_at L1 x L2 : e_place x ∉ map e_place L1 ->
  take_place (e_place x) (map pointer (L1 ++ x :: L2)) = Ok (pointer x, map pointer (L1 ++ L2)).
Proof.
  induction L1 as [|y L1 IH]; cbn [map app take_place pointer fst]; [by rewrite Z.eqb_refl|].
  intros [Hne Hn]%not_elem_of_cons. rewrite (proj2 (Z.eqb_neq _ _)) by done. by rewrite IH.
Qed.

Section Correct.
Context (n : Z) (Hn : 0 <= n < 2 ^ 53).

Record lists (L : list entry) (s : EchoServer) (m : idle) : Prop := {
  li_idle : idleSeconds_ s = n;
  li_list : connectionList_ s = map pointer L;
  li_nodes x : x ∈ L -> context_ s !! e_conn x = Some (node x) /\ e_place x < next_position s /\ e_conn x ∈ alive_ s;
  li_places : NoDup (map e_place L);
  li_conns : NoDup (map e_conn L);
  li_sorted : ascending L;
  li_times x : x ∈ L -> 0 <= e_time x <= clock m;
  li_since c t : since m !! c = Some t <-> exists x, x ∈ L /\ e_conn x = c /\ e_time x = t;
  li_open : connected_ s = open m /\ open m ⊆ dom (since m);
  li_known : dom (since m) ⊆ known m;
  li_clock : 0 <= clock m < 2 ^ 52
}.

Lemma time_ok_spec m now : time_ok m now = true <-> clock m <= now < 2 ^ 52.
Proof. unfold time_ok. rewrite andb_true_iff, Z.leb_le, Z.ltb_lt. done. Qed.

Lemma since_in L s m c : lists L s m -> c ∈ dom (since m) -> exists L1 x L2, L = L1 ++ x :: L2 /\ e_conn x = c.
Proof.
  intros Hl [t Ht]%elem_of_dom. apply (li_since _ _ _ Hl) in Ht as (x & Hx & Hc & _). apply list_elem_of_split in Hx as (L1 & L2 & ->).
  by exists L1, x, L2.
Qed.

(** The last time in the list is not after the clock. *)
Lemma ascending_snoc L x : ascending L -> (forall y, y ∈ L -> e_time y <= e_time x) -> ascending (L ++ [x]).
Proof.
  intros HL Hx. apply StronglySorted_app. split; [|split; [done|repeat constructor]].
  intros y z Hy ->%list_elem_of_singleton. by apply Hx.
Qed.

Lemma ascending_without L1 x L2 : ascending (L1 ++ x :: L2) -> ascending (L1 ++ L2).
Proof.
  rewrite !StronglySorted_app, StronglySorted_cons. intros (H1 & H2 & _ & H3). split; [|done].
  intros y z Hy Hz. apply H1; [done|by right].
Qed.

Lemma list_up_ok L s m now c out m' : lists L s m -> spec_event n (Up now c) m = Some (out, m') ->
  exists s', run_event (Up now c) s = Ok (out, s') /\ lists (L ++ [mkEntry (next_position s) c now]) s' m'.
Proof.
  intros Hl. cbn [spec_event]. destruct (time_ok m now) eqn:Et; [|done]. apply time_ok_spec in Et. case_bool_decide as Hc; [|done].
  intros [= <- <-]. pose proof Hl as [R0 R1 R2 R3 R4 R5 R6 R7 [R8 R8'] R9 R10].
  assert (forall x, x ∈ L -> e_conn x <> c) as Hnew.
  { intros x Hx E. apply Hc, R9, elem_of_dom. exists (e_time x). apply R7. by exists x. }
  cbn [run_event OnConnection]. rewrite bind_Ok. eexists. split; [done|].
  split; cbn [set_context set_alive idleSeconds_ connectionList_ context_ alive_ connected_ next_position since open known clock].
  - done.
  - by rewrite R1, map_app.
  - intros x [Hx| ->%list_elem_of_singleton]%elem_of_app; [|cbn; rewrite lookup_insert_eq; split; [done|split; [lia|set_solver]]].
    rewrite lookup_insert_ne by (symmetry; by apply Hnew). apply R2 in Hx as (? & ? & ?). split; [done|]. split; [lia|set_solver].
  - rewrite map_app. apply NoDup_app. split; [done|]. split; [|apply NoDup_singleton].
    intros p (x & -> & Hx)%list_elem_of_fmap Hp%list_elem_of_singleton. apply R2 in Hx as (_ & ? & _). cbn in Hp. lia.
  - rewrite map_app. apply NoDup_app. split; [done|]. split; [|apply NoDup_singleton].
    intros p (x & -> & Hx)%list_elem_of_fmap Hp%list_elem_of_singleton. by apply (Hnew x).
  - apply ascending_snoc; [done|]. intros y Hy%R6. cbn. lia.
  - intros x [Hx%R6| ->%list_elem_of_singleton]%elem_of_app; cbn; lia.
  - intros c' t. destruct (decide (c' = c)) as [->|Hne].
    + rewrite lookup_insert_eq. split; [intros [= <-]; eexists; split; [apply elem_of_app; right; left|done]|].
      intros (x & [Hx| ->%list_elem_of_singleton]%elem_of_app & E & <-); [by apply Hnew in Hx|done].
    + rewrite lookup_insert_ne, R7 by done. split; intros (x & Hx & E & Ht).
      * exists x. split; [apply elem_of_app; by left|done].
      * apply elem_of_app in Hx as [Hx| ->%list_elem_of_singleton]; [by exists x|by cbn in E].
  - rewrite R8, dom_insert_L. split; [done|set_solver].
  - rewrite dom_insert_L. set_solver.
  - lia.
Qed.

(** An element apart from the others. *)
Lemma NoDup_middle {A} (f : entry -> A) L1 x L2 :
  NoDup (map f (L1 ++ x :: L2)) -> f x ∉ map f (L1 ++ L2) /\ NoDup (map f (L1 ++ L2)).
Proof. rewrite <- (Permutation_middle L1 L2 x). apply NoDup_cons. Qed.

Lemma elem_of_middle (y : entry) L1 x L2 : y ∈ L1 ++ x :: L2 <-> y = x \/ y ∈ L1 ++ L2.
Proof. rewrite <- (Permutation_middle L1 L2 x). apply elem_of_cons. Qed.

(** What holds of the list holds without one of its elements. *)
Lemma lists_without L1 x L2 s m : lists (L1 ++ x :: L2) s m ->
  take_place (e_place x) (connectionList_ s) = Ok (pointer x, map pointer (L1 ++ L2)) /\
  NoDup (map e_place (L1 ++ L2)) /\ e_place x ∉ map e_place (L1 ++ L2) /\
  NoDup (map e_conn (L1 ++ L2)) /\ e_conn x ∉ map e_conn (L1 ++ L2) /\ ascending (L1 ++ L2) /\
  (forall c, c <> e_conn x -> forall t, since m !! c = Some t <-> exists y, y ∈ L1 ++ L2 /\ e_conn y = c /\ e_time y = t).
Proof.
  intros [R0 R1 R2 R3 R4 R5 R6 R7 _ _ _]. destruct (NoDup_middle e_place L1 x L2 R3) as [H1 H2], (NoDup_middle e_conn L1 x L2 R4) as [H3 H4].
  split; [rewrite R1; apply take_place_at; intros H; apply H1; rewrite map_app; apply elem_of_app; by left|].
  split; [done|]. split; [done|]. split; [done|]. split; [done|]. split; [by eapply ascending_without|].
  intros c Hc t. rewrite R7. split; intros (y & Hy & E & Et); exists y; (split; [|done]).
  - apply elem_of_middle in Hy as [->|Hy]; [by rewrite E in Hc|done].
  - apply elem_of_middle. by right.
Qed.

Lemma list_message_ok L s m time c msg out m' : lists L s m -> spec_event n (Message time c msg) m = Some (out, m') ->
  exists L' s', run_event (Message time c msg) s = Ok (out, s') /\ lists L' s' m'.
Proof.
  intros Hl. cbn [spec_event]. destruct (time_ok m time) eqn:Et; [|done]. apply time_ok_spec in Et. case_bool_decide as Hc; [|done].
  intros [= <- <-]. destruct (since_in L s m c Hl Hc) as (L1 & x & L2 & -> & <-).
  destruct (lists_without L1 x L2 s m Hl) as (Htake & Hp1 & Hp2 & Hc1 & Hc2 & Hsort & Hsince).
  pose proof Hl as [R0 R1 R2 R3 R4 R5 R6 R7 [R8 R8'] R9 R10].
  assert (forall y, y ∈ L1 ++ L2 -> e_conn y <> e_conn x) as Hne.
  { intros y Hy E. apply Hc2. rewrite <- E. by apply list_elem_of_fmap_2. }
  destruct (R2 x) as (Hx & Hpx & Hax); [apply elem_of_middle; by left|].
  cbn [run_event]. unfold OnMessage. rewrite Hx. cbn [position node]. unfold splice_end. cbn [set_context connectionList_].
  rewrite Htake, !bind_Ok. cbn beta iota. rewrite last_snoc. cbn [fmap option_fmap option_map pointer fst].
  rewrite bool_decide_true by done. cbn [assert_]. rewrite bind_Ok.
  set (x' := mkEntry (e_place x) (e_conn x) time).
  exists (L1 ++ L2 ++ [x']). eexists. split; [done|]. rewrite app_assoc.
  split; cbn [set_context set_list idleSeconds_ connectionList_ context_ alive_ connected_ next_position since open known clock].
  - done.
  - by rewrite !map_app.
  - intros y [Hy| ->%list_elem_of_singleton]%elem_of_app; [|cbn; by rewrite lookup_insert_eq].
    rewrite lookup_insert_ne by (symmetry; by apply Hne). apply R2, elem_of_middle. by right.
  - rewrite map_app, Permutation_app_comm. by apply NoDup_cons.
  - rewrite map_app, Permutation_app_comm. by apply NoDup_cons.
  - apply ascending_snoc; [done|]. intros y Hy. destruct (R6 y) as [_ ?]; [apply elem_of_middle; by right|]. cbn. lia.
  - intros y [Hy| ->%list_elem_of_singleton]%elem_of_app; [|cbn; lia]. destruct (R6 y); [apply elem_of_middle; by right|]. lia.
  - intros c t. destruct (decide (c = e_conn x)) as [->|Hcx].
    + rewrite lookup_insert_eq. split; [intros [= <-]; exists x'; split; [apply elem_of_app; right; left|done]|].
      intros (y & [Hy| ->%list_elem_of_singleton]%elem_of_app & E & <-); [by apply Hne in Hy|done].
    + rewrite lookup_insert_ne, (Hsince c Hcx) by done. split; intros (y & Hy & E & Ht).
      * exists y. split; [apply elem_of_app; by left|done].
      * apply elem_of_app in Hy as [Hy| ->%list_elem_of_singleton]; [by exists y|by cbn in E].
  - rewrite R8, dom_insert_L. split; [done|set_solver].
  - rewrite dom_insert_L. set_solver.
  - lia.
Qed.

Lemma down_ok L s m c out m' : lists L s m -> spec_event n (Down c) m = Some (out, m') ->
  exists L' s', run_event (Down c) s = Ok (out, s') /\ lists L' s' m'.
Proof.
  intros Hl. cbn [spec_event]. case_bool_decide as Hc; [|done].
  intros [= <- <-]. destruct (since_in L s m c Hl Hc) as (L1 & x & L2 & -> & <-).
  destruct (lists_without L1 x L2 s m Hl) as (Htake & Hp1 & Hp2 & Hc1 & Hc2 & Hsort & Hsince).
  pose proof Hl as [R0 R1 R2 R3 R4 R5 R6 R7 [R8 R8'] R9 R10].
  destruct (R2 x) as (Hx & _); [apply elem_of_middle; by left|].
  cbn [run_event OnConnection disconnect context_ connectionList_]. rewrite Hx. cbn [position node]. unfold erase. rewrite Htake, !bind_Ok.
  exists (L1 ++ L2). eexists. split; [done|].
  split; cbn [disconnect set_list idleSeconds_ connectionList_ context_ alive_ connected_ next_position since open known clock]; try done.
  - intros y Hy. apply R2, elem_of_middle. by right.
  - intros y Hy. apply R6, elem_of_middle. by right.
  - intros c t. destruct (decide (c = e_conn x)) as [->|Hcx].
    + rewrite lookup_delete_eq. split; [done|]. intros (y & Hy & E & _). exfalso. apply Hc2. rewrite <- E. by apply list_elem_of_fmap_2.
    + rewrite lookup_delete_ne by done. by apply Hsince.
  - rewrite R8, dom_delete_L. split; [done|set_solver].
  - rewrite dom_delete_L. set_solver.
Qed.

Lemma gone_ok L s m c out m' : lists L s m -> spec_event n (Gone c) m = Some (out, m') ->
  exists s', run_event (Gone c) s = Ok (out, s') /\ lists L s' m'.
Proof.
  intros [R0 R1 R2 R3 R4 R5 R6 R7 [R8 R8'] R9 R10]. cbn [spec_event]. case_bool_decide as Hc; [done|]. intros [= <- <-].
  eexists. split; [done|]. split; try done. intros x Hx. destruct (R2 x Hx) as (H1 & H2 & H3). split; [done|]. split; [done|].
  apply elem_of_difference. split; [done|]. intros E%elem_of_singleton. apply Hc, elem_of_dom. exists (e_time x). apply R7. by exists x.
Qed.

(** What the timer does to the rest of the list: it closes, in order, those that are open and
    have been idle for too long. *)
Definition late (now : Z) (x : entry) : bool := n * kMicroSecondsPerSecond <? now - e_time x.

Definition told (now : Z) (co : gset Z) (L : list entry) : list Z :=
  map e_conn (List.filter (fun x => late now x && bool_decide (e_conn x ∈ co)) L).

Lemma told_not_late now co L : Forall (fun x => late now x = false) L -> told now co L = [].
Proof. unfold told. induction 1 as [|x L Hx _ IH]; [done|]. cbn. by rewrite Hx. Qed.

Lemma told_other now co c L : c ∉ map e_conn L -> told now (co ∖ {[c]}) L = told now co L.
Proof.
  intros Hc. unfold told. f_equal. apply List.filter_ext_in. intros x Hx%list_elem_of_In. f_equal. apply bool_decide_ext.
  rewrite elem_of_difference, not_elem_of_singleton. split; [tauto|]. intros ?. split; [done|]. intros <-. apply Hc. by apply list_elem_of_fmap_2.
Qed.

Lemma loop_ok now L : forall s,
  idleSeconds_ s = n -> (forall x, x ∈ L -> context_ s !! e_conn x = Some (node x) /\ e_conn x ∈ alive_ s) ->
  NoDup (map e_conn L) -> ascending L -> (forall x, x ∈ L -> 0 <= e_time x <= now) -> now < 2 ^ 52 ->
  OnTimer_loop now (map pointer L) s =
    Ok (concat (map close (told now (connected_ s) L)), map pointer L,
        set_alive s (alive_ s) (connected_ s ∖ list_to_set (told now (connected_ s) L))).
Proof using Hn.
  induction L as [|x L IH]; intros s Hi Hs Hd Ha Ht Hnow.
  - cbn. rewrite difference_empty_L. by destruct s.
  - cbn [map OnTimer_loop pointer]. destruct (Hs x) as [Hx Hax]; [left|]. rewrite bool_decide_true, Hx by done.
    apply NoDup_cons in Hd as [Hxd Hd]. apply StronglySorted_inv in Ha as [Ha Hxa]. destruct (Ht x) as [Ht1 Ht2]; [left|].
    cbn [lastReceiveTime node]. destruct (TimeDifference_seconds now (e_time x) n) as (age & -> & Egt & Elt); [lia|done|].
    rewrite bind_Ok, Hi, Egt. fold (late now x). destruct (late now x) eqn:El; [case_bool_decide as Hco|].
    + assert (told now (connected_ s) (x :: L) = e_conn x :: told now (connected_ s) L) as ->
        by (unfold told; cbn [List.filter]; by rewrite El, bool_decide_true).
      rewrite (IH (disconnect s (e_conn x))), bind_Ok; [|done|intros y Hy; apply Hs; by right|done|done|intros y Hy; apply Ht; by right|done].
      cbn [disconnect connected_]. rewrite told_other by done. unfold set_alive. cbn. by rewrite difference_difference_l_L.
    + assert (told now (connected_ s) (x :: L) = told now (connected_ s) L) as ->
        by (unfold told; cbn [List.filter]; by rewrite El, bool_decide_false).
      rewrite (IH s), bind_Ok; [|done|intros y Hy; apply Hs; by right|done|done|intros y Hy; apply Ht; by right|done]. done.
    + rewrite told_not_late.
      * rewrite Elt, (proj2 (Z.ltb_ge _ _)) by lia. cbn. rewrite difference_empty_L. by destruct s.
      * constructor; [done|]. eapply Forall_impl; [exact Hxa|]. intros y Hy. unfold late in *. apply Z.ltb_ge in El. apply Z.ltb_ge. cbv beta in Hy. lia.
Qed.

Lemma told_expired L s m now : lists L s m -> told now (connected_ s) L ≡ₚ elements (expired n now m).
Proof.
  intros [R0 R1 R2 R3 R4 R5 R6 R7 [R8 R8'] R9 R10]. apply NoDup_Permutation.
  - by apply NoDup_map_filter.
  - apply NoDup_elements.
  - intros c. rewrite elem_of_elements. unfold expired, told. rewrite elem_of_filter, list_elem_of_fmap, <- R8. split.
    + intros (x & -> & [Hx [Hl%Z.ltb_lt Ho%bool_decide_eq_true]%andb_true_iff]%list_elem_of_In%filter_In). split; [|done].
      assert (since m !! e_conn x = Some (e_time x)) as -> by (apply R7; exists x; split; [by apply list_elem_of_In|done]). by apply Z.ltb_lt.
    + intros [Hl Ho]. unfold idle_longer in Hl. destruct (since m !! c) as [t|] eqn:Es; [|done]. apply R7 in Es as (x & Hx & <- & <-).
      exists x. split; [done|]. apply list_elem_of_In, filter_In. split; [by apply list_elem_of_In|]. apply andb_true_iff. split; [exact Hl|].
      by apply bool_decide_eq_true.
Qed.

Lemma list_tick_ok L s m now out' m' : lists L s m -> spec_event n (Tick now) m = Some (out', m') ->
  exists out s', run_event (Tick now) s = Ok (out, s') /\ out ≡ₚ out' /\ lists L s' m'.
Proof using Hn.
  intros Hl. cbn [spec_event]. destruct (time_ok m now) eqn:Et; [|done]. apply time_ok_spec in Et.
  intros [= <- <-]. pose proof (told_expired L s m now Hl) as Ht. pose proof Hl as [R0 R1 R2 R3 R4 R5 R6 R7 [R8 R8'] R9 R10].
  cbn [run_event]. unfold OnTimer. rewrite R1, (loop_ok now L s), bind_Ok; [|done| |done|done| |lia].
  2:{ intros x Hx. destruct (R2 x Hx) as (? & _ & ?). done. }
  2:{ intros x Hx%R6. lia. }
  cbn beta iota. eexists _, _. split; [done|]. split; [by rewrite Ht|].
  assert (connected_ s ∖ list_to_set (told now (connected_ s) L) = open m ∖ expired n now m) as E.
  { apply set_eq. intros c. by rewrite !elem_of_difference, elem_of_list_to_set, Ht, elem_of_elements, R8. }
  split; cbn [set_list set_alive idleSeconds_ connectionList_ context_ alive_ connected_ next_position since open known clock]; try done.
  - intros x Hx%R6. lia.
  - split; [done|]. set_solver.
  - lia.
Qed.

Lemma list_events_ok evs : forall L s m outs' m', lists L s m -> spec_events n evs m = Some (outs', m') ->
  exists L' outs s', run_events evs s = Ok (outs, s') /\ Forall2 (≡ₚ) outs outs' /\ lists L' s' m'.
Proof using Hn.
  induction evs as [|ev evs IH]; intros L s m outs' m' Hl; cbn [spec_events run_events].
  - intros [= <- <-]. by exists L, [], s.
  - intros ((out' & m1) & E1 & ((outs1 & m2) & E2 & [= <- <-])%bind_Some)%bind_Some.
    assert (exists L1 out s1, run_event ev s = Ok (out, s1) /\ out ≡ₚ out' /\ lists L1 s1 m1) as (L1 & out & s1 & -> & Hp & Hl1).
    { destruct ev.
      - destruct (list_up_ok L s m now c out' m1 Hl E1) as (s1 & ? & ?). by eexists _, out', s1.
      - destruct (list_message_ok L s m time c msg out' m1 Hl E1) as (L1 & s1 & ? & ?). by exists L1, out', s1.
      - destruct (down_ok L s m c out' m1 Hl E1) as (L1 & s1 & ? & ?). by exists L1, out', s1.
      - destruct (gone_ok L s m c out' m1 Hl E1) as (s1 & ? & ?). by exists L, out', s1.
      - destruct (list_tick_ok L s m now out' m1 Hl E1) as (out & s1 & ? & ? & ?). by exists L, out, s1. }
    rewrite bind_Ok. destruct (IH L1 s1 m1 outs1 m2 Hl1 E2) as (L2 & outs & s2 & -> & Hps & Hl2). rewrite bind_Ok.
    exists L2, (out :: outs), s2. split; [done|]. split; [by constructor|done].
Qed.

Lemma new_lists : lists [] (EchoServer_new n) idle_new.
Proof.
  split; try done; cbn; try (by intros x ?%not_elem_of_nil); try constructor; try done.
  by intros (x & ?%not_elem_of_nil & _).
Qed.

(** C23: the sorted list of the other idle-connection server gives the same service to the
    microsecond.  Whatever connections are made, send messages, are closed and are destroyed, between
    ticks of the timer, as long as the times the server is given do not go back: no iterator that was
    erased is used, no context is missing and no assertion fails, each message is echoed, and a tick tells to
    close (and later to close by force) exactly the open connections that have not yet been told and were
    made, or last received, more than [n] seconds before -- though it stops at the first element of the
    list that is recent, and compares seconds in [double]. *)
Theorem idle_list evs outs' m :
  spec_events n evs idle_new = Some (outs', m) ->
  exists outs s, run_events evs (EchoServer_new n) = Ok (outs, s) /\ Forall2 (≡ₚ) outs outs' /\
    forall c, lastReceiveTime <$> (context_ s !! c ≫= fun nd => if bool_decide (c ∈ map snd (connectionList_ s)) then Some nd else None)
      = since m !! c.
Proof using Hn.
  intros E. destruct (list_events_ok evs _ _ _ outs' m new_lists E) as (L & outs & s & Er & Hp & Hl). exists outs, s.
  split; [done|]. split; [done|]. intros c. destruct Hl as [R0 R1 R2 R3 R4 R5 R6 R7 _ _ _]. rewrite R1, map_map.
  change (fun x => snd (pointer x)) with e_conn. destruct (since m !! c) as [t|] eqn:Es.
  - apply R7 in Es as (x & Hx & <- & <-). destruct (R2 x Hx) as (-> & _). cbn [mbind option_bind]. by rewrite bool_decide_true by by apply list_elem_of_fmap_2.
  - destruct (context_ s !! c); [|done]. cbn [mbind option_bind]. rewrite bool_decide_false; [done|].
    intros (x & -> & Hx)%list_elem_of_fmap. assert (since m !! e_conn x = Some (e_time x)) as ? by (apply R7; by exists x). congruence.
Qed.
End Correct.

(** Ten seconds; the connection 7 is idle from 3.5 s on. *)
Definition ex_events : list event :=
  [Up 1000000 7; Message 3500000 7 (lit "hi"); Up 4000000 8; Tick 13500000; Message 13500000 8 (lit "yo"); Tick 13500001; Tick 14500001;
   Down 7; Gone 7; Tick 24500000].

Lemma idle_list_witness :
  exists outs s, run_events ex_events (EchoServer_new 10) = Ok (outs, s) /\
    outs = [[]; [Echo 7 (lit "hi")]; []; []; [Echo 8 (lit "yo")]; [Shutdown 7; ForceCloseWithDelay 7]; []; []; [];
            [Shutdown 8; ForceCloseWithDelay 8]].
Proof.
  destruct (spec_events 10 ex_events idle_new) as [[outs' m]|] eqn:E; [|vm_compute in E; discriminate].
  destruct (idle_list 10 ltac:(lia) ex_events outs' m E) as (outs & s & E2 & _ & _).
  exists outs, s. split; [done|].
  assert (exists s2, run_events ex_events (EchoServer_new 10) = Ok ([[]; [Echo 7 (lit "hi")]; []; []; [Echo 8 (lit "yo")];
    [Shutdown 7; ForceCloseWithDelay 7]; []; []; []; [Shutdown 8; ForceCloseWithDelay 8]], s2)) as [s2 E3].
  { eexists. vm_compute. reflexivity. }
  rewrite E3 in E2. by injection E2.
Defined.

(** The times do go back: a message has the time at which poll returned, which is earlier than the
    time a connection made in the same turn of the loop has.  Its sender is then behind a more recent
    connection, and is not told to close when it should be. *)
Lemma times_go_back :
  exists s, run_events [Up 0 7; Up 1000500 8; Message 1000000 7 []; Tick 11000200] (EchoServer_new 10) = Ok ([[]; []; [Echo 7 []]; []], s) /\
    context_ s !! 7 = Some (mkNode 1000000 0).
Proof. eexists. split; vm_compute; reflexivity. Qed.
