(* ===== verification/SimpleServers.v ===== *)
(** * Small servers (examples/simple, examples/echo_server, examples/finger)

    The callbacks of the servers of RFC 862 to 868 and of the finger examples, over the class
    [Connection].  Log lines and socket options are left out. *)

From S2P Require Import Prelude Endian Buffer BufferSpec Lines Connection Timestamp.

Section Servers.
Context {C : Type} `{!Connection C}.

(** ** echo, discard *)

(** src: examples/simple/echo/echo.cc:26-32 EchoServer::OnMessage *)
Definition echo_OnMessage (conn : C) (buf : Buffer) : result (C * Buffer) :=
  '(msg, buf) ← RetrieveAllAsString buf;
  conn ← conn_Send conn msg;
  Ok (conn, buf).

(** src: examples/echo_server/echo_server.cc:36-42 EchoServer::OnMessage *)
Definition echo_server_OnMessage : C -> Buffer -> result (C * Buffer) := echo_OnMessage.
(** src: examples/echo_server/echo_server_async.cc:37-42 EchoServer::OnMessage *)
Definition echo_server_async_OnMessage : C -> Buffer -> result (C * Buffer) := echo_OnMessage.

(** src: examples/simple/discard/discard.cc:23-28 DiscardServer::OnMessage *)
Definition discard_OnMessage (conn : C) (buf : Buffer) : result (C * Buffer) :=
  '(msg, buf) ← RetrieveAllAsString buf;
  Ok (conn, buf).

(** ** daytime, time *)

(** [now] is the answer of [Timestamp::Now()].
    src: examples/simple/daytime/daytime.cc:21-29 DaytimeServer::OnConnection *)
Definition daytime_OnConnection (localtime : Z -> tm) (now : Z) (connected : bool) (conn : C) : result C :=
  if connected then
    conn ← conn_Send conn (ToFormattedString localtime false now ++ [x0a]);
    conn_Shutdown conn
  else Ok conn.

(** src: examples/simple/daytime/daytime.cc:31-36 DaytimeServer::OnMessage *)
Definition daytime_OnMessage : C -> Buffer -> result (C * Buffer) := discard_OnMessage.

(** [now] is the answer of [time(NULL)].
    src: examples/simple/time/time.cc:22-33 TimeServer::OnConnection *)
Definition time_OnConnection (now : Z) (connected : bool) (conn : C) : result C :=
  if connected then
    let be32 := s32 (HostToNetwork32 (u32 (s32 now))) in
    conn ← conn_Send conn (le_bytes 4 be32);
    conn_Shutdown conn
  else Ok conn.

(** src: examples/simple/time/time.cc:35-40 TimeServer::OnMessage *)
Definition time_OnMessage : C -> Buffer -> result (C * Buffer) := discard_OnMessage.

(** ** chargen *)

(** [line.substr(i, 72)] *)
Definition substr (s : bytes) (pos len : nat) : bytes := take len (drop pos s).

(** src: examples/simple/chargen/chargen.cc:24-28 ChargenServer::ChargenServer *)
Definition chargen_line : bytes :=
  let line := map byte_of_Z (seqZ 33 (127 - 33)) in line ++ line.

(** src: examples/simple/chargen/chargen.cc:30-32 ChargenServer::ChargenServer *)
Definition message_ : bytes := concat (map (fun i => substr chargen_line i 72 ++ [x0a]) (seq 0 (127 - 33))).

(** src: examples/simple/chargen/chargen.cc:37-45 ChargenServer::OnConnection *)
Definition chargen_OnConnection (connected : bool) (conn : C) : result C :=
  if connected then conn_Send conn message_ else Ok conn.

(** src: examples/simple/chargen/chargen.cc:47-52 ChargenServer::OnMessage *)
Definition chargen_OnMessage : C -> Buffer -> result (C * Buffer) := discard_OnMessage.

(** [transferred_] is an [int64_t].
    src: examples/simple/chargen/chargen.cc:54-57 ChargenServer::OnWriteComplete *)
Definition chargen_OnWriteComplete (transferred_ : Z) (conn : C) : result (Z * C) :=
  conn ← conn_Send conn message_;
  Ok (s64 (transferred_ + zlen message_), conn).

(** What is printed, in MiB/s, and the new [transferred_] and [start_time_]; [now] is the
    answer of [Timestamp::Now()].
    src: examples/simple/chargen/chargen.cc:59-66 ChargenServer::PrintThroughput *)
Definition chargen_PrintThroughput (now transferred_ start_time_ : Z) : result (double * (Z * Z)) :=
  time ← TimeDifference now start_time_;
  let rate := double_div (double_div (double_div (double_of_Z transferred_) time) (double_of_Z 1024)) (double_of_Z 1024) in
  Ok (rate, (0, now)).

(** ** finger *)

(** src: examples/finger/finger03.cc:4-8 OnConnection *)
Definition finger03_OnConnection (connected : bool) (conn : C) : result C :=
  if connected then conn_Shutdown conn else Ok conn.

(** src: examples/finger/finger04.cc:5-10 OnMessage *)
Definition finger04_OnMessage (conn : C) (buf : Buffer) : result (C * Buffer) :=
  crlf ← FindCRLF buf;
  match crlf with
  | Some _ => conn ← conn_Shutdown conn; Ok (conn, buf)
  | None => Ok (conn, buf)
  end.

(** src: examples/finger/finger05.cc:5-11 OnMessage *)
Definition finger05_OnMessage (conn : C) (buf : Buffer) : result (C * Buffer) :=
  crlf ← FindCRLF buf;
  match crlf with
  | Some _ =>
      conn ← conn_Send conn (lit "No such user" ++ kCRLF);
      conn ← conn_Shutdown conn; Ok (conn, buf)
  | None => Ok (conn, buf)
  end.

(** src: examples/finger/finger07.cc:9-16 GetUser *)
Definition GetUser (users : gmap bytes bytes) (user : bytes) : bytes :=
  default (lit "No such user") (users !! user).

(** src: examples/finger/finger07.cc:18-27 OnMessage *)
Definition finger_OnMessage (users : gmap bytes bytes) (conn : C) (buf : Buffer) : result (C * Buffer) :=
  crlf ← FindCRLF buf;
  match crlf with
  | Some crlf =>
      user ← read_bytes (buffer_ buf) (Peek buf) (crlf - Peek buf);
      conn ← conn_Send conn (GetUser users user ++ kCRLF);
      let buf := RetrieveUntil buf (crlf + 2) in
      conn ← conn_Shutdown conn; Ok (conn, buf)
  | None => Ok (conn, buf)
  end.

(** No users yet.
    src: examples/finger/finger06.cc:19-28 OnMessage *)
Definition finger06_OnMessage : C -> Buffer -> result (C * Buffer) := finger_OnMessage ∅.
End Servers.

(** src: examples/finger/finger07.cc:30-30 main *)
Definition users : gmap bytes bytes := {[ lit "ryan" := lit "Happy and well" ]}.

(** ** What they answer *)

(** The bytes that arrive between two calls, and the call. *)
Fixpoint feed_by {C} (OnMessage : C -> Buffer -> result (C * Buffer)) (ps : list bytes) (c : C) (b : Buffer) : result (C * Buffer) :=
  match ps with
  | [] => Ok (c, b)
  | p :: ps => b ← Append b p; '(c, b) ← OnMessage c b; feed_by OnMessage ps c b
  end.

(** An empty buffer that [Append] can write to. *)
Definition drained (b : Buffer) (cap : Z) : Prop := abstracts b abuf_empty cap.

Lemma echo_once (c : list call) b : buf_wf b -> echo_OnMessage c b = Ok (c ++ [CSend (content b)], RetrieveAll b).
Proof. intros Hb. unfold echo_OnMessage. by rewrite (RetrieveAllAsString_spec _ Hb). Qed.

(** Every piece comes back as it came. *)
Lemma echo_pieces ps : forall (c : list call) b cap,
  drained b cap -> cap + zlen (concat ps) <= max_size -> zlen (concat ps) < 2 ^ 31 ->
  exists b', feed_by echo_OnMessage ps c b = Ok (c ++ map CSend ps, b') /\ content b' = [].
Proof.
  induction ps as [|p ps IH]; intros c b cap Hb Hm Hl; cbn [feed_by concat map] in *.
  - exists b. rewrite app_nil_r. split; [done|]. apply (abs_content _ _ _ Hb).
  - rewrite length_app in Hm, Hl. destruct (abstracts_append b _ cap p Hb) as (b1 & -> & H1); [lia|lia|]. rewrite bind_Ok.
    rewrite (echo_once c b1 (abs_wf _ _ _ H1)), bind_Ok, (abs_content _ _ _ H1). cbn [a_content abuf_empty app].
    destruct (IH (c ++ [CSend p]) (RetrieveAll b1) (cap + zlen p)) as (b' & E & Hc); [by eapply abstracts_RetrieveAll|lia|lia|].
    exists b'. rewrite E. cbn [map]. by rewrite <- app_assoc.
Qed.

(** The time is sent as RFC 868 wants it: four bytes, the most significant first. *)
Lemma time_network (c : list call) now :
  time_OnConnection now true c = Ok (c ++ [CSend (be_bytes 4 now); CShutdown]).
Proof.
  unfold time_OnConnection, HostToNetwork32. rewrite (network_bytes 4 32) by lia.
  assert (be_bytes 4 (s32 now) = be_bytes 4 now) as ->.
  { unfold be_bytes. f_equal. rewrite <- (le_bytes_mod 4 (s32 now)), <- (le_bytes_mod 4 now). f_equal.
    change (256 ^ Z.of_nat 4) with (2 ^ 32). apply (uwrap_swrap 32). lia. }
  cbn [conn_Send conn_Shutdown trace_connection]. run. by rewrite <- app_assoc.
Qed.

(** 94 lines of 72 characters, each starting one character later. *)
Lemma chargen_message :
  message_ = concat (map (fun i => map (fun j => byte_of_Z (33 + (i + j) mod 94)) (seqZ 0 72) ++ [x0a]) (seqZ 0 94)) /\
  zlen message_ = 94 * 73.
Proof. split; by vm_compute. Qed.

(** A name is answered once its line is whole, with what is known of the user. *)
Lemma finger_answers us (c : list call) b user rest :
  holds b (user ++ kCRLF ++ rest) -> x0d ∉ user ->
  exists b', finger_OnMessage us c b = Ok (c ++ [CSend (GetUser us user ++ kCRLF); CShutdown], b') /\ holds b' rest.
Proof.
  intros Hb Hu. pose proof (FindCRLF_line b _ Hb) as Hf. rewrite split_line_app in Hf by done. destruct Hf as (pos & E & Er & Hh).
  unfold finger_OnMessage. rewrite E, bind_Ok. cbn beta iota. rewrite Er, bind_Ok. cbn [conn_Send conn_Shutdown trace_connection]. run.
  rewrite <- app_assoc. by eexists.
Qed.

Lemma finger_waits us (c : list call) b s : holds b s -> split_line s = None -> finger_OnMessage us c b = Ok (c, b).
Proof.
  intros Hb Hs. pose proof (FindCRLF_line b s Hb) as Hf. rewrite Hs in Hf. unfold finger_OnMessage. by rewrite Hf, bind_Ok.
Qed.
