(* ===== verification/FileTransfer.v ===== *)
(** * Sending a file (examples/filetransfer/download.cc, download2.cc, download3.cc)

    The first server reads the whole file; the second and the third send a piece of 64
    KiB each time the last one has been written.  They differ in who closes the file:
    the second when the connection is reported closed, the third when nobody refers to it. *)

From S2P Require Import Prelude Buffer Connection.

(** ** FILE *)

(** [f_left] is what has not been read; using a file that has been closed is undefined.  Reads do
    not fail. *)
Record FILE := mkFile { f_left : bytes; f_open : bool }.

Definition fread (n : Z) (fp : FILE) : result (bytes * FILE) :=
  _ ← defined_if (f_open fp);
  Ok (take (Z.to_nat n) (f_left fp), mkFile (drop (Z.to_nat n) (f_left fp)) true).

Definition fclose (fp : FILE) : result FILE :=
  _ ← defined_if (f_open fp);
  Ok (mkFile (f_left fp) false).

Section Download.
Context {C : Type} `{!Connection C}.

(** ** download: the whole file *)

(** [content.append], once for each read; the fuel is one more than the bytes.
    src: examples/filetransfer/download.cc:22-25 ReadFile *)
Fixpoint ReadFile_loop (fuel : nat) (fp : FILE) (content : bytes) : result (bytes * FILE) :=
  match fuel with
  | O => Fault FFuel
  | S fuel =>
      '(buf, fp) ← fread (1024 * 1024) fp;
      if 0 <? zlen buf then ReadFile_loop fuel fp (content ++ buf) else Ok (content, fp)
  end.

(** [file] is the answer of [fopen].
    src: examples/filetransfer/download.cc:12-29 ReadFile *)
Definition ReadFile (file : option bytes) : result bytes :=
  match file with
  | None => Ok []
  | Some data =>
      '(content, fp) ← ReadFile_loop (S (length data)) (mkFile data true) [];
      _ ← fclose fp;
      Ok content
  end.

(** src: examples/filetransfer/download.cc:35-48 OnConnection *)
Definition download_OnConnection (file : option bytes) (connected : bool) (conn : C) : result C :=
  if connected then
    fileContent ← ReadFile file;
    conn ← conn_Send conn fileContent;
    conn_Shutdown conn
  else Ok conn.

(** ** download2: a pointer in the context *)

(** src: examples/filetransfer/download2.cc:13-13 kBufSize *)
Definition kBufSize : Z := 64 * 1024.

(** The context has no value, a null pointer, or the pointer to [t_file]. *)
Inductive context := NoValue | Null | Pointer.

Record transfer := mkTransfer { t_conn : C; t_context : context; t_file : FILE }.

(** src: examples/filetransfer/download2.cc:16-43 OnConnection *)
Definition download2_OnConnection (file : option bytes) (connected : bool) (s : transfer) : result transfer :=
  if connected then
    match file with
    | Some data =>
        '(buf, fp) ← fread kBufSize (mkFile data true);
        conn ← conn_Send (t_conn s) buf;
        Ok (mkTransfer conn Pointer fp)
    | None => conn ← conn_Shutdown (t_conn s); Ok (mkTransfer conn (t_context s) (t_file s))
    end
  else
    match t_context s with
    | Pointer => fp ← fclose (t_file s); Ok (mkTransfer (t_conn s) Pointer fp)
    | _ => Ok s
    end.

(** [any_cast] throws when there is no value.
    src: examples/filetransfer/download2.cc:45-58 onWriteComplete *)
Definition download2_OnWriteComplete (s : transfer) : result transfer :=
  match t_context s with
  | NoValue => Fault FAbort
  | Null => Fault FUndef
  | Pointer =>
      '(buf, fp) ← fread kBufSize (t_file s);
      if 0 <? zlen buf then conn ← conn_Send (t_conn s) buf; Ok (mkTransfer conn Pointer fp)
      else
        fp ← fclose fp;
        conn ← conn_Shutdown (t_conn s);
        Ok (mkTransfer conn Null fp)
  end.

(** ** download3: a shared pointer in the context *)

(** The file is closed with the connection, which the calls that are queued keep.
    src: examples/filetransfer/download3.cc:18-39 OnConnection *)
Definition download3_OnConnection (file : option bytes) (connected : bool) (s : transfer) : result transfer :=
  if connected then
    match file with
    | Some data =>
        '(buf, fp) ← fread kBufSize (mkFile data true);
        conn ← conn_Send (t_conn s) buf;
        Ok (mkTransfer conn Pointer fp)
    | None => conn ← conn_Shutdown (t_conn s); Ok (mkTransfer conn (t_context s) (t_file s))
    end
  else Ok s.

(** src: examples/filetransfer/download3.cc:41-51 OnWriteComplete *)
Definition download3_OnWriteComplete (s : transfer) : result transfer :=
  match t_context s with
  | NoValue => Fault FAbort
  | Null => Fault FUndef
  | Pointer =>
      '(buf, fp) ← fread kBufSize (t_file s);
      if 0 <? zlen buf then conn ← conn_Send (t_conn s) buf; Ok (mkTransfer conn Pointer fp)
      else conn ← conn_Shutdown (t_conn s); Ok (mkTransfer conn Pointer fp)
  end.
End Download.

Arguments mkTransfer {C} t_conn t_context t_file.
Arguments t_conn {C} t.
Arguments t_context {C} t.
Arguments t_file {C} t.

(** ** What is sent *)

Lemma kBufSize_pos : 0 < kBufSize.
Proof. done. Qed.
#[local] Opaque kBufSize.

Lemma fread_open n d : fread n (mkFile d true) = Ok (take (Z.to_nat n) d, mkFile (drop (Z.to_nat n) d) true).
Proof. done. Qed.

Lemma take_none (d : bytes) n : 0 < n -> (0 <? zlen (take (Z.to_nat n) d)) = false -> d = [].
Proof. intros Hn H. destruct d as [|b d]; [done|]. destruct (Z.to_nat n) as [|k] eqn:E; [lia|]. exfalso. apply Z.ltb_ge in H. cbn [take length] in H. lia. Qed.

Lemma take_some (d : bytes) n : 0 < n -> (0 <? zlen (take (Z.to_nat n) d)) = true -> (length (drop (Z.to_nat n) d) < length d)%nat.
Proof. intros Hn H%Z.ltb_lt. rewrite length_take in H. rewrite length_drop. lia. Qed.

(** The whole file is read. *)
Lemma ReadFile_loop_all fuel : forall d content, (length d < fuel)%nat ->
  exists fp, ReadFile_loop fuel (mkFile d true) content = Ok (content ++ d, fp) /\ f_open fp = true.
Proof.
  induction fuel as [|fuel IH]; intros d content Hf; [lia|]. cbn [ReadFile_loop]. rewrite fread_open, bind_Ok. cbn beta iota.
  destruct (0 <? zlen (take (Z.to_nat (1024 * 1024)) d)) eqn:E.
  - pose proof (take_some d (1024 * 1024) ltac:(lia) E) as Hlt.
    destruct (IH (drop (Z.to_nat (1024 * 1024)) d) (content ++ take (Z.to_nat (1024 * 1024)) d) ltac:(lia)) as (fp & -> & Ho).
    exists fp. by rewrite <- app_assoc, take_drop.
  - apply take_none in E as ->; [|lia]. rewrite app_nil_r. by eexists.
Qed.

Lemma download_sends data (c : list call) :
  download_OnConnection (Some data) true c = Ok (c ++ [CSend data; CShutdown]).
Proof.
  unfold download_OnConnection, ReadFile. destruct (ReadFile_loop_all (S (length data)) data [] ltac:(lia)) as ([l o] & -> & Ho).
  run. unfold fclose. rewrite Ho. cbn. run. cbn. by rewrite <- app_assoc.
Qed.

(** The pieces of a file: the first may be empty, the others are not. *)
Fixpoint pieces (fuel : nat) (d : bytes) : list bytes :=
  match fuel, d with
  | O, _ | _, [] => []
  | S fuel, _ => take (Z.to_nat kBufSize) d :: pieces fuel (drop (Z.to_nat kBufSize) d)
  end.

Lemma pieces_all fuel : forall d, (length d <= fuel)%nat -> concat (pieces fuel d) = d.
Proof.
  induction fuel as [|fuel IH]; intros [|b d] Hf; try done; [simpl in Hf; lia|]. cbn [pieces concat].
  rewrite IH, take_drop; [done|]. rewrite length_drop. pose proof kBufSize_pos. cbn [length] in *. lia.
Qed.

Fixpoint completes {S : Type} (f : S -> result S) (n : nat) (s : S) : result S :=
  match n with O => Ok s | Datatypes.S n => s ← f s; completes f n s end.

Lemma download3_end (c : list call) :
  download3_OnWriteComplete (mkTransfer c Pointer (mkFile [] true)) = Ok (mkTransfer (c ++ [CShutdown]) Pointer (mkFile [] true)).
Proof.
  unfold download3_OnWriteComplete. cbn [t_context t_file t_conn]. rewrite fread_open, bind_Ok. cbn beta iota.
  by rewrite take_nil, drop_nil.
Qed.

Lemma download3_piece d (c : list call) :
  (0 <? zlen (take (Z.to_nat kBufSize) d)) = true ->
  download3_OnWriteComplete (mkTransfer c Pointer (mkFile d true)) =
    Ok (mkTransfer (c ++ [CSend (take (Z.to_nat kBufSize) d)]) Pointer (mkFile (drop (Z.to_nat kBufSize) d) true)).
Proof.
  intros E. unfold download3_OnWriteComplete. cbn [t_context t_file t_conn]. rewrite fread_open, bind_Ok. cbn beta iota. by rewrite E.
Qed.

(** Written piece after written piece, the rest of the file is sent, and then the
    connection is shut down. *)
Lemma download3_rest fuel : forall d (c : list call), (length d <= fuel)%nat ->
  exists n s, completes download3_OnWriteComplete n (mkTransfer c Pointer (mkFile d true)) = Ok s /\
    t_conn s = c ++ map CSend (pieces fuel d) ++ [CShutdown].
Proof.
  induction fuel as [|fuel IH]; intros d c Hf.
  - destruct d; [|simpl in Hf; lia]. exists 1%nat. eexists. cbn [completes]. rewrite download3_end. by split.
  - destruct d as [|b d]; [exists 1%nat; eexists; cbn [completes]; rewrite download3_end; by split|]. set (l := b :: d) in *.
    assert (0 <? zlen (take (Z.to_nat kBufSize) l) = true) as E.
    { subst l. pose proof kBufSize_pos. apply Z.ltb_lt. destruct (Z.to_nat kBufSize) eqn:En; [lia|]. cbn [take length]. lia. }
    pose proof (take_some l kBufSize kBufSize_pos E) as Hlt.
    destruct (IH (drop (Z.to_nat kBufSize) l) (c ++ [CSend (take (Z.to_nat kBufSize) l)]) ltac:(lia)) as (n & s & En & Es).
    exists (S n), s. cbn [completes]. rewrite (download3_piece l c E), bind_Ok, En. split; [done|]. rewrite Es. subst l. cbn [pieces map].
    by rewrite <- app_assoc.
Qed.

(** The client of the third server gets the file. *)
Lemma download3_sends data (s0 : transfer) :
  exists n s ps, (s ← download3_OnConnection (Some data) true s0; completes download3_OnWriteComplete n s) = Ok s /\
    t_conn s = t_conn s0 ++ map CSend ps ++ [CShutdown] /\ concat ps = data.
Proof.
  unfold download3_OnConnection. rewrite fread_open, bind_Ok. cbn beta iota. cbn [conn_Send trace_connection]. rewrite !bind_Ok.
  set (rest := drop (Z.to_nat kBufSize) data).
  destruct (download3_rest (length rest) rest (t_conn s0 ++ [CSend (take (Z.to_nat kBufSize) data)]) ltac:(lia)) as (n & s & E & Es).
  exists n, s, (take (Z.to_nat kBufSize) data :: pieces (length rest) rest). split; [exact E|]. split.
  - rewrite Es. cbn [map]. rewrite <- app_assoc. cbn [app]. reflexivity.
  - cbn [concat]. rewrite pieces_all by apply Nat.le_refl. subst rest. apply take_drop.
Qed.

Lemma download2_opens data (s : transfer (C := list call)) :
  download2_OnConnection (Some data) true s =
    Ok (mkTransfer (t_conn s ++ [CSend (take (Z.to_nat kBufSize) data)]) Pointer (mkFile (drop (Z.to_nat kBufSize) data) true)).
Proof. done. Qed.

(** In the second server, a completion that is still queued when the connection is reported
    closed reads a file that has been closed. *)
Lemma download2_reads_closed data (s0 : transfer (C := list call)) :
  (s ← download2_OnConnection (Some data) true s0; s ← download2_OnConnection (Some data) false s; download2_OnWriteComplete s)
  = Fault FUndef.
Proof. by rewrite download2_opens. Qed.
