(* ===== verification/ShortUrl.v ===== *)
(** * The URL shortener (examples/shorturl/shorturl.cc)

    A callback for [HttpServer] that redirects the paths of a table. *)

From S2P Require Import Prelude Format Buffer Connection HttpContext HttpSpec HttpServer HttpServerSpec Timestamp.
Import HttpResponse.

(** ** The table *)

(** A [std::map] of strings is traversed in the order of its keys, compared byte by byte. *)
Fixpoint bytes_ltb (a b : bytes) : bool :=
  match a, b with
  | _, [] => false
  | [], _ :: _ => true
  | x :: a, y :: b => (byte_val x <? byte_val y) || bool_decide (x = y) && bytes_ltb a b
  end.

(** [map[key] = value] *)
Fixpoint map_assign (key value : bytes) (m : list (bytes * bytes)) : list (bytes * bytes) :=
  match m with
  | [] => [(key, value)]
  | (k, v) :: m' =>
      if bool_decide (k = key) then (k, value) :: m'
      else if bytes_ltb key k then (key, value) :: m else (k, v) :: map_assign key value m'
  end.

(** [map.find(key)] *)
Fixpoint map_find (key : bytes) (m : list (bytes * bytes)) : option bytes :=
  match m with
  | [] => None
  | (k, v) :: m => if bool_decide (k = key) then Some v else map_find key m
  end.

(** src: examples/shorturl/shorturl.cc:64-65 main *)
Definition redirections : list (bytes * bytes) :=
  let redirections := map_assign (lit "/1") (lit "http://chenshuo.com") [] in
  map_assign (lit "/2") (lit "http://blog.csdn.net/Solstice") redirections.

(** src: examples/shorturl/shorturl.cc:106-169 favicon *)
Definition favicon : bytes := map byte_of_Z [
  137; 80; 78; 71; 13; 10; 26; 10; 0; 0; 0; 13; 73; 72; 68; 82; 0; 0; 0; 16; 0; 0; 0; 16; 8; 6; 0; 0; 0;
  31; 243; 255; 97; 0; 0; 0; 25; 116; 69; 88; 116; 83; 111; 102; 116; 119; 97; 114; 101; 0; 65; 100; 111;
  98; 101; 32; 73; 109; 97; 103; 101; 82; 101; 97; 100; 121; 113; 201; 101; 60; 0; 0; 1; 205; 73; 68; 65;
  84; 120; 218; 148; 147; 57; 72; 3; 65; 20; 134; 255; 93; 98; 167; 4; 82; 196; 109; 34; 30; 160; 70; 36;
  8; 22; 22; 118; 10; 54; 186; 74; 154; 128; 8; 65; 180; 113; 133; 88; 137; 71; 176; 73; 169; 81; 36; 205;
  166; 8; 164; 72; 99; 145; 66; 11; 175; 86; 193; 70; 180; 21; 207; 34; 88; 152; 11; 84; 72; 138; 100; 147;
  141; 251; 70; 103; 201; 26; 20; 125; 240; 102; 118; 102; 223; 124; 239; 231; 103; 70; 168; 213; 106; 72;
  36; 18; 42; 0; 5; 191; 71; 212; 239; 247; 47; 54; 236; 18; 32; 30; 143; 215; 170; 213; 234; 175; 73; 53;
  70; 170; 84; 95; 159; 34; 65; 42; 149; 10; 131; 229; 114; 57; 100; 179; 89; 150; 153; 76; 6; 233; 116;
  154; 37; 133; 44; 203; 84; 167; 196; 98; 49; 181; 94; 0; 3; 104; 154; 198; 22; 130; 32; 88; 82; 20; 69;
  54; 83; 148; 203; 101; 120; 189; 94; 170; 85; 84; 35; 76; 192; 224; 226; 193; 143; 0; 158; 188; 9; 65;
  124; 62; 31; 131; 68; 34; 17; 213; 84; 64; 63; 56; 128; 119; 229; 51; 7; 184; 92; 46; 72; 146; 4; 135;
  195; 129; 64; 32; 64; 103; 152; 233; 54; 26; 166; 103; 21; 4; 227; 215; 200; 189; 21; 225; 105; 183; 67;
  171; 234; 120; 47; 106; 88; 146; 187; 24; 32; 159; 207; 51; 195; 184; 233; 78; 167; 211; 108; 74; 0; 105;
  54; 124; 142; 225; 254; 86; 132; 231; 60; 159; 114; 43; 58; 66; 123; 55; 102; 119; 174; 142; 14; 243;
  189; 82; 169; 100; 2; 66; 175; 133; 50; 102; 70; 186; 12; 217; 159; 29; 154; 108; 34; 230; 199; 58; 44;
  128; 239; 193; 21; 144; 7; 147; 162; 40; 160; 83; 106; 177; 184; 223; 41; 53; 67; 14; 63; 88; 252; 152;
  218; 121; 106; 80; 64; 0; 135; 174; 27; 23; 66; 180; 58; 63; 190; 121; 199; 10; 38; 182; 238; 217; 154;
  96; 20; 147; 219; 143; 13; 10; 46; 233; 35; 149; 41; 88; 0; 39; 235; 110; 86; 112; 188; 214; 203; 214;
  71; 171; 61; 108; 125; 184; 210; 221; 160; 96; 131; 186; 239; 95; 164; 234; 204; 2; 78; 174; 94; 112; 26;
  236; 179; 64; 57; 172; 254; 242; 145; 137; 103; 145; 133; 33; 168; 135; 183; 88; 126; 126; 133; 187; 205;
  78; 78; 98; 116; 64; 250; 147; 137; 236; 30; 236; 134; 2; 72; 38; 147; 208; 117; 29; 127; 9; 50; 149;
  191; 31; 219; 215; 99; 138; 26; 247; 92; 193; 255; 34; 74; 195; 135; 0; 3; 0; 75; 187; 248; 214; 42; 118;
  152; 73; 0; 0; 0; 0; 73; 69; 78; 68; 174; 66; 96; 130].

(** ** The callback *)

(** src: examples/shorturl/shorturl.cc:42-45 onRequest *)
Definition redirections_text (redirections : list (bytes * bytes)) : bytes :=
  concat (map (fun '(first, second) => lit "<ul>" ++ first ++ lit " =&gt; " ++ second ++ lit "</ul>") redirections).

(** [now] is the answer of [Timestamp::Now()]; the log lines are left out.
    src: examples/shorturl/shorturl.cc:18-61 onRequest *)
Definition onRequest (localtime : Z -> tm) (redirections : list (bytes * bytes)) (now : Z) (req : HttpRequest)
    (resp : HttpResponse.t) : HttpResponse.t :=
  match map_find (path_ req) redirections with
  | Some target =>
      let resp := SetStatusCode resp k301MovedPermanently in
      let resp := SetStatusMessage resp (lit "Moved Permanently") in
      HttpResponse.AddHeader resp (lit "Location") target
  | None =>
      if bool_decide (path_ req = lit "/") then
        let resp := SetStatusCode resp k200Ok in
        let resp := SetStatusMessage resp (lit "OK") in
        let resp := SetContentType resp (lit "text/html") in
        let now := ToFormattedString localtime false now in
        let text := redirections_text redirections in
        SetBody resp (lit "<html><head><title>My tiny short url service</title></head>" ++
          lit "<body><h1>Known redirections</h1>" ++ text ++ lit "Now is " ++ now ++ lit "</body></html>")
      else if bool_decide (path_ req = lit "/favicon.ico") then
        let resp := SetStatusCode resp k200Ok in
        let resp := SetStatusMessage resp (lit "OK") in
        let resp := SetContentType resp (lit "image/png") in
        SetBody resp favicon
      else
        let resp := SetStatusCode resp k404NotFound in
        let resp := SetStatusMessage resp (lit "Not Found") in
        SetCloseConnection resp true
  end.

(** ** What is answered *)

(** A later assignment to the key replaces the value; other keys keep theirs. *)
Lemma map_find_assign k k' v m : map_find k' (map_assign k v m) = if bool_decide (k = k') then Some v else map_find k' m.
Proof.
  induction m as [|[k1 v1] m IH]; cbn [map_assign map_find]; [done|]. destruct (decide (k1 = k)) as [->|Hne].
  - rewrite bool_decide_true by done. cbn [map_find]. by case_bool_decide.
  - rewrite (bool_decide_false (k1 = k)) by done. destruct (bytes_ltb k k1); cbn [map_find]; [done|].
    rewrite IH. repeat case_bool_decide; congruence.
Qed.

Lemma map_find_in key m v : map_find key m = Some v -> (key, v) ∈ m.
Proof.
  induction m as [|[k1 v1] m IH]; cbn [map_find]; [done|]. case_bool_decide as E; [intros [= ->]; subst; left|].
  intros ?. right. by apply IH.
Qed.

Lemma redirections_text_in kv m : kv ∈ m -> zlen (snd kv) <= zlen (redirections_text m).
Proof.
  unfold redirections_text. induction m as [|[k v] m IH]; [by intros ?%not_elem_of_nil|]. cbn [map concat]. rewrite !length_app.
  intros [->|Hm]%elem_of_cons; [cbn [snd]; lia|]. apply IH in Hm. lia.
Qed.

Section Replies.
Context (localtime : Z -> tm) (rs : list (bytes * bytes)).
Context (Hclean : forall kv, kv ∈ rs -> x0d ∉ snd kv) (Hsize : zlen (redirections_text rs) < 2 ^ 29).

(** The header fields of a reply: none or one. *)
Definition reply_headers (path : bytes) : list (bytes * bytes) :=
  match map_find path rs with
  | Some target => [(lit "Location", target)]
  | None => if bool_decide (path = lit "/") then [(lit "Content-Type", lit "text/html")]
            else if bool_decide (path = lit "/favicon.ico") then [(lit "Content-Type", lit "image/png")] else []
  end.

Lemma onRequest_headers now req :
  map_to_list (headers_ (onRequest localtime rs now req (new true))) = reply_headers (path_ req).
Proof.
  unfold onRequest, reply_headers. destruct (map_find (path_ req) rs); [|case_bool_decide; [|case_bool_decide]]; cbn [headers_ SetBody
    SetContentType AddHeader SetStatusMessage SetStatusCode SetCloseConnection new]; by rewrite ?insert_empty, ?map_to_list_singleton, ?map_to_list_empty.
Qed.

Lemma reply_headers_clean path : Forall clean_header (reply_headers path).
Proof using Hclean.
  unfold reply_headers. destruct (map_find path rs) as [target|] eqn:E; [|case_bool_decide; [|case_bool_decide]]; repeat constructor; cbn [fst snd];
    try by apply (bool_decide_unpack _).
  apply map_find_in in E. by apply (Hclean _ E).
Qed.

Lemma length_ToFormattedString show t : zlen (ToFormattedString localtime show t) < 64.
Proof. unfold ToFormattedString, snprintf. destruct show; rewrite length_take; lia. Qed.

Lemma zlen_favicon : zlen favicon = 555.
Proof. vm_compute. done. Qed.

Lemma onRequest_body now req : zlen (body_ (onRequest localtime rs now req (new true))) < 2 ^ 29 + 1000.
Proof using Hsize.
  unfold onRequest. destruct (map_find (path_ req) rs); [done|]. case_bool_decide; [|case_bool_decide; [|done]];
    cbn [body_ SetBody SetContentType AddHeader SetStatusMessage SetStatusCode new].
  - pose proof (length_ToFormattedString false now). set (t := ToFormattedString _ _ _) in *. clearbody t. set (r := redirections_text rs) in *. clearbody r.
    rewrite !length_app, !Nat2Z.inj_add. change (zlen (lit "<html><head><title>My tiny short url service</title></head>")) with 59.
    change (zlen (lit "<body><h1>Known redirections</h1>")) with 33. change (zlen (lit "Now is ")) with 7. change (zlen (lit "</body></html>")) with 14. lia.
  - rewrite zlen_favicon. lia.
Qed.

Lemma reply_headers_size path : zlen (header_text (reply_headers path)) < 2 ^ 29 + 100.
Proof using Hsize.
  unfold reply_headers. destruct (map_find path rs) as [target|] eqn:E; [|case_bool_decide; [|case_bool_decide]]; [|done..].
  apply map_find_in, redirections_text_in in E. cbn [snd] in E. set (r := redirections_text rs) in *. clearbody r.
  unfold header_text, header_line. cbn [foldr fst snd]. rewrite !length_app, !Nat2Z.inj_add. change (zlen (lit "Location")) with 8.
  change (zlen [x3a; x20]) with 2. change (zlen kCRLF) with 2. lia.
Qed.

Section Served.
Context (iter : gmap bytes bytes -> list (bytes * bytes)).
Context (Hiter : forall m, iter m ≡ₚ map_to_list m).

Lemma iter_headers now req : iter (headers_ (onRequest localtime rs now req (new true))) = reply_headers (path_ req).
Proof using Hiter.
  pose proof (Hiter (headers_ (onRequest localtime rs now req (new true)))) as Hp. rewrite onRequest_headers in Hp. revert Hp.
  unfold reply_headers. destruct (map_find (path_ req) rs); [|case_bool_decide; [|case_bool_decide]]; intros Hp;
    (by apply Permutation_singleton_r in Hp) || by apply Permutation_nil_r in Hp.
Qed.

Lemma onRequest_closes now req : close_connection_ (onRequest localtime rs now req (new true)) = true.
Proof. unfold onRequest. destruct (map_find (path_ req) rs); [done|]. case_bool_decide; [done|]. by case_bool_decide. Qed.

Lemma status_line_size now req : zlen (status_line (onRequest localtime rs now req (new true))) < 100.
Proof. unfold onRequest. destruct (map_find (path_ req) rs); [done|]. case_bool_decide; [done|]. by case_bool_decide. Qed.

Lemma onRequest_good now req : good_response (onRequest localtime rs now req (new true)).
Proof using Hclean Hsize.
  split.
  - unfold onRequest. destruct (map_find (path_ req) rs); [|case_bool_decide; [|case_bool_decide]]; by apply (bool_decide_unpack _).
  - rewrite onRequest_headers. apply reply_headers_clean.
  - unfold onRequest. destruct (map_find (path_ req) rs); [|case_bool_decide; [|case_bool_decide]]; done.
  - pose proof (onRequest_body now req). lia.
Qed.

Lemma reply_size now req : zlen (response_text iter (onRequest localtime rs now req (new true))) < 2 ^ 31.
Proof using Hsize Hiter.
  unfold response_text, connection_headers. rewrite onRequest_closes, iter_headers. pose proof (status_line_size now req).
  pose proof (onRequest_body now req). pose proof (reply_headers_size (path_ req)) as Hh. unfold header_text in *. cbn [foldr app].
  rewrite !length_app, !Nat2Z.inj_add. change (zlen (header_line (lit "Connection", lit "close"))) with 17. change (zlen kCRLF) with 2. lia.
Qed.

(** Every request is answered and its connection shut down, as the callback of the server says. *)
Lemma shorturl_answers now req (conn : list call) :
  OnRequest iter (SetHttpCallback HttpServer_new (onRequest localtime rs now)) conn req =
    Ok (conn ++ [CSend (response_text iter (onRequest localtime rs now req (new true))); CShutdown]).
Proof using Hclean Hsize Hiter.
  rewrite (OnRequest_trace iter Hiter) by (apply onRequest_good || apply reply_size). cbn [http_callback_ SetHttpCallback].
  unfold CloseConnection. by rewrite onRequest_closes.
Qed.

(** What is sent for a path of the table. *)
Lemma shorturl_redirects now req target : map_find (path_ req) rs = Some target ->
  response_text iter (onRequest localtime rs now req (new true)) =
    lit "HTTP/1.1 301 Moved Permanently" ++ kCRLF ++ lit "Connection: close" ++ kCRLF ++ lit "Location: " ++ target ++ kCRLF ++ kCRLF.
Proof using Hiter.
  intros E. unfold response_text, connection_headers. rewrite onRequest_closes, iter_headers. unfold reply_headers, onRequest. rewrite E.
  unfold header_text. cbn [foldr app map]. unfold header_line. cbn [fst snd body_ AddHeader SetStatusMessage SetStatusCode new]. by rewrite app_nil_r.
Qed.
End Served.
End Replies.

(** The table of the program. *)
Example redirections_paths :
  map_find (lit "/1") redirections = Some (lit "http://chenshuo.com") /\
  map_find (lit "/2") redirections = Some (lit "http://blog.csdn.net/Solstice") /\ map_find (lit "/3") redirections = None.
Proof. vm_compute. done. Qed.

Lemma redirections_clean kv : kv ∈ redirections -> x0d ∉ snd kv.
Proof. intros Hkv. revert kv Hkv. apply Forall_forall. repeat constructor; by apply (bool_decide_unpack _). Qed.

Lemma redirections_small : zlen (redirections_text redirections) < 2 ^ 29.
Proof. vm_compute. done. Qed.
