(* ===== verification/TimerPrinter.v ===== *)
(** * Printers on timers (examples/timer/timer3 to timer6)

    A counter that timers print and advance: in one loop (timer3, timer4), in two loops with
    the whole callback under a mutex (timer5), or only the counter (timer6).  A loop whose callback
    has armed a timer calls it again; one whose callback has called [Quit] does not. *)

From stdpp Require Import sorting.
From S2P Require Import Prelude.

(** What a callback does to its loop. *)
Inductive next := RunAfter | Quit.

(** ** One loop *)

(** The number it prints, if any.
    src: examples/timer/timer3/timer.cc:5-14 Print *)
Definition Print (count : Z) : option Z * Z * next :=
  if count <? 5 then (Some count, count + 1, RunAfter) else (None, count, Quit).

(** src: examples/timer/timer4/timer.cc:14-23 Printer::Print *)
Definition Printer_Print : Z -> option Z * Z * next := Print.

(** [loop.Loop()]: the timer fires until the callback quits; then what was printed and the count.
    src: examples/timer/timer3/timer.cc:16-23 main *)
Fixpoint loop_Print (fuel : nat) (count : Z) (printed : list Z) : option (list Z * Z) :=
  match fuel with
  | O => None
  | S fuel =>
      let '(out, count, nx) := Print count in
      let printed := printed ++ option_list out in
      match nx with RunAfter => loop_Print fuel count printed | Quit => Some (printed, count) end
  end.

Lemma loop_prints : loop_Print 6 0 [] = Some ([0; 1; 2; 3; 4], 5).
Proof. reflexivity. Qed.

(** ** Two loops *)

(** A thread waits for its timer; has claimed a number to print, or found that it should quit, and
    released the mutex (timer6 only); or has quit. *)
Inductive thread := Waiting | Claimed (count : Z) | ShouldQuit | HasQuit.

(** [first] and [second] are the threads of [Print1] and [Print2]; what is printed has the number of
    the callback. *)
Record Printer := mkPrinter { count_ : Z; first : thread; second : thread; printed : list (bool * Z) }.

(** src: examples/timer/timer6/timer.cc:14-18 Printer::Printer *)
Definition Printer_new : Printer := mkPrinter 0 Waiting Waiting [].

Definition thread_of (is_first : bool) (s : Printer) : thread := if is_first then first s else second s.
Definition set_thread (is_first : bool) (t : thread) (s : Printer) : Printer :=
  if is_first then mkPrinter (count_ s) t (second s) (printed s) else mkPrinter (count_ s) (first s) t (printed s).
Definition set_count (n : Z) (s : Printer) : Printer := mkPrinter n (first s) (second s) (printed s).
Definition print (is_first : bool) (n : Z) (s : Printer) : Printer := mkPrinter (count_ s) (first s) (second s) (printed s ++ [(is_first, n)]).

(** The whole callback holds the mutex; the other one differs in the loop and what is printed.
    src: examples/timer/timer5/timer.cc:17-27 Printer::Print1 *)
Definition Print_locked (is_first : bool) (s : Printer) : Printer :=
  if count_ s <? 10 then set_thread is_first Waiting (set_count (count_ s + 1) (print is_first (count_ s) s))
  else set_thread is_first HasQuit s.

(** src: examples/timer/timer5/timer.cc:29-39 Printer::Print2 *)
Definition Print2_locked : Printer -> Printer := Print_locked false.

(** The block that holds the mutex ...
    src: examples/timer/timer6/timer.cc:30-38 Printer::Print1 *)
Definition Print_claim (is_first : bool) (s : Printer) : Printer :=
  if count_ s <? 10 then set_thread is_first (Claimed (count_ s)) (set_count (count_ s + 1) s)
  else set_thread is_first ShouldQuit s.

(** ... and what comes after it; [None] when the thread is not there.
    src: examples/timer/timer6/timer.cc:41-49 Printer::Print1 *)
Definition Print_rest (is_first : bool) (s : Printer) : option Printer :=
  match thread_of is_first s with
  | ShouldQuit => Some (set_thread is_first HasQuit s)
  | Claimed count => Some (set_thread is_first Waiting (print is_first count s))
  | _ => None
  end.

(** src: examples/timer/timer6/timer.cc:56-64 Printer::Print2 *)
Definition Print2_claim : Printer -> Printer := Print_claim false.
(** src: examples/timer/timer6/timer.cc:67-75 Printer::Print2 *)
Definition Print2_rest : Printer -> option Printer := Print_rest false.

Inductive step_locked : Printer -> Printer -> Prop :=
  | SL_print t s : thread_of t s = Waiting -> step_locked s (Print_locked t s).

Inductive step : Printer -> Printer -> Prop :=
  | S_claim t s : thread_of t s = Waiting -> step s (Print_claim t s)
  | S_rest t s s' : Print_rest t s = Some s' -> step s s'.

(** ** With the whole callback locked, the numbers come in order *)

Definition in_order (s : Printer) : Prop :=
  0 <= count_ s <= 10 /\ map snd (printed s) = seqZ 0 (count_ s) /\
  forall t, thread_of t s = Waiting \/ thread_of t s = HasQuit /\ count_ s = 10.

Lemma thread_set t t' x s : thread_of t' (set_thread t x s) = if decide (t' = t) then x else thread_of t' s.
Proof. destruct t, t'; done. Qed.

Lemma step_locked_ok s s' : step_locked s s' -> in_order s -> in_order s'.
Proof.
  intros [t s1 Ht] (Hc & Hp & Hth). unfold Print_locked. destruct (Z.ltb_spec (count_ s1) 10) as [Hlt|Hge].
  - split; [destruct t; cbn; lia|]. split; [destruct t; cbn; rewrite map_app, Hp; symmetry; apply seqZ_snoc; lia|].
    intros t'. rewrite thread_set. case_decide; [by left|]. destruct (Hth t') as [H0|[_ H0]]; [|lia]. left. by destruct t, t'.
  - split; [by destruct t|]. split; [by destruct t|]. intros t'. rewrite thread_set. case_decide.
    + right. split; [done|]. destruct t; cbn; lia.
    + destruct (Hth t') as [?|[? ?]]; [by left|right]. split; [done|]. by destruct t.
Qed.

Lemma locked_prints s : rtc step_locked Printer_new s -> in_order s.
Proof.
  intros H. assert (in_order Printer_new) as H0 by (split; [cbn; lia|split; [done|intros []; by left]]).
  revert H0. induction H as [|s s1 s2 Hs _ IH]; [done|]. intros H0. apply IH. by eapply step_locked_ok.
Qed.

(** When both loops have quit, ten numbers have been printed. *)
Lemma locked_final s : rtc step_locked Printer_new s -> first s = HasQuit -> map snd (printed s) = seqZ 0 10.
Proof.
  intros (_ & -> & Hth)%locked_prints Hf. destruct (Hth true) as [H|[_ ->]]; [|done]. cbn in H. congruence.
Qed.

(** ** With only the counter locked, each number is printed once *)

Definition held (t : thread) : list Z := match t with Claimed n => [n] | _ => [] end.

(** The numbers of a thread. *)
Definition by_thread (t : bool) (s : Printer) : list Z := map snd (List.filter (fun x => Bool.eqb (fst x) t) (printed s)).

Record printer_ok (s : Printer) : Prop := {
  po_count : 0 <= count_ s <= 10;
  po_all : map snd (printed s) ++ held (first s) ++ held (second s) ≡ₚ seqZ 0 (count_ s);
  po_order t : StronglySorted Z.lt (by_thread t s ++ held (thread_of t s));
  po_quit t : thread_of t s = ShouldQuit \/ thread_of t s = HasQuit -> count_ s = 10
}.

(** What is printed or held, with the thread. *)
Lemma by_thread_in t n s : n ∈ by_thread t s -> n ∈ map snd (printed s).
Proof.
  unfold by_thread. intros (x & -> & [Hx _]%list_elem_of_In%filter_In)%list_elem_of_fmap. apply list_elem_of_fmap_2. by apply list_elem_of_In.
Qed.

Lemma Print_claim_ok t s : thread_of t s = Waiting -> printer_ok s -> printer_ok (Print_claim t s).
Proof.
  intros Ht [Hc Ha Ho Hq]. unfold Print_claim. destruct (Z.ltb_spec (count_ s) 10) as [Hlt|Hge].
  - assert (forall n, n ∈ by_thread t s -> n < count_ s) as Hb.
    { intros n Hn%by_thread_in. assert (n ∈ seqZ 0 (count_ s)) as H%elem_of_seqZ by (rewrite <- Ha; apply elem_of_app; by left). lia. }
    split.
    + destruct t; cbn; lia.
    + replace (seqZ 0 (count_ (set_thread t (Claimed (count_ s)) (set_count (count_ s + 1) s)))) with (seqZ 0 (count_ s) ++ [count_ s])
        by (destruct t; symmetry; apply seqZ_snoc; lia).
      rewrite <- Ha. destruct t; cbn in *; rewrite Ht; cbn; solve_Permutation.
    + intros t'. pose proof (Ho t') as Hs. replace (by_thread t' (set_thread t (Claimed (count_ s)) (set_count (count_ s + 1) s))) with (by_thread t' s) by by destruct t.
      rewrite thread_set. case_decide; [subst t'|by destruct t, t']. rewrite Ht, app_nil_r in Hs. apply StronglySorted_app.
      split; [|split; [done|repeat constructor]]. intros n m Hn ->%list_elem_of_singleton. by apply Hb.
    + intros t'. rewrite thread_set. case_decide; [by intros [|]|]. intros Ht2. replace (thread_of t' (set_count (count_ s + 1) s)) with (thread_of t' s) in Ht2 by by destruct t'.
      apply Hq in Ht2. lia.
  - split.
    + by destruct t.
    + destruct t; cbn in *; rewrite Ht in Ha; exact Ha.
    + intros t'. pose proof (Ho t') as Hs. destruct t, t'; cbn in *; rewrite ?Ht in Hs; exact Hs.
    + intros t' _. destruct t; cbn; lia.
Qed.

Lemma Print_rest_ok t s s' : Print_rest t s = Some s' -> printer_ok s -> printer_ok s'.
Proof.
  unfold Print_rest. intros E [Hc Ha Ho Hq]. destruct (thread_of t s) as [|n| |] eqn:Ht; [done|injection E as <-..|done].
  - split.
    + by destruct t.
    + replace (count_ (set_thread t Waiting (print t n s))) with (count_ s) by by destruct t.
      rewrite <- Ha. destruct t; cbn in *; rewrite Ht, map_app; cbn; solve_Permutation.
    + intros t'. pose proof (Ho t') as Hs. unfold by_thread in *. destruct t, t'; cbn in *; rewrite ?Ht in Hs; rewrite List.filter_app, map_app; cbn;
        rewrite ?app_nil_r in *; exact Hs.
    + intros t'. rewrite thread_set. case_decide; [by intros [|]|]. intros Ht2. destruct t, t'; try done; [exact (Hq false Ht2)|exact (Hq true Ht2)].
  - split.
    + by destruct t.
    + destruct t; cbn in *; rewrite Ht in Ha; exact Ha.
    + intros t'. pose proof (Ho t') as Hs. destruct t, t'; cbn in *; rewrite ?Ht in Hs; exact Hs.
    + intros t' _. pose proof (Hq t ltac:(by left)). by destruct t.
Qed.

Lemma printer_reachable s : rtc step Printer_new s -> printer_ok s.
Proof.
  intros H. assert (printer_ok Printer_new) as H0.
  { split; [cbn; lia|done| |intros [] [|]; done]. intros []; constructor. }
  revert H0. induction H as [|s s1 s2 Hs _ IH]; [done|]. intros H0. apply IH.
  destruct Hs as [t s Ht|t s s' Hr]; [by apply Print_claim_ok|by apply (Print_rest_ok t s)].
Qed.

(** When both loops have quit, each of the ten numbers has been printed once, and those of a
    thread in their order. *)
Lemma printer_final s : rtc step Printer_new s -> first s = HasQuit -> second s = HasQuit ->
  map snd (printed s) ≡ₚ seqZ 0 10 /\ forall t, StronglySorted Z.lt (by_thread t s).
Proof.
  intros [Hc Ha Ho Hq]%printer_reachable H1 H2. rewrite H1, H2 in Ha. cbn in Ha. rewrite app_nil_r, (Hq true) in Ha by by right.
  split; [done|]. intros t. pose proof (Ho t) as Hs. destruct t; cbn in Hs; rewrite ?H1, ?H2, app_nil_r in Hs; exact Hs.
Qed.

(** As long as one has not quit, a step can be made; and there are at most 22 callbacks. *)
Definition measure (s : Printer) : Z :=
  let left t := match thread_of t s with Waiting => 2 | Claimed _ => 3 | ShouldQuit => 1 | HasQuit => 0 end in
  2 * (10 - count_ s) + left true + left false.

Lemma printer_progress s : (first s = HasQuit /\ second s = HasQuit) \/ exists s', step s s'.
Proof.
  destruct s as [c f g p]. cbn.
  destruct f as [|n| |]; [right; eexists; by apply (S_claim true)|right; eexists; by apply (S_rest true)|right; eexists; by apply (S_rest true)|].
  destruct g as [|n| |]; [right; eexists; by apply (S_claim false)|right; eexists; by apply (S_rest false)|right; eexists; by apply (S_rest false)|].
  by left.
Qed.

Lemma printer_terminates s s' : step s s' -> printer_ok s -> 0 <= measure s' < measure s.
Proof.
  intros Hs Hok. assert (printer_ok s') as [Hc' _ _ _] by (destruct Hs as [t s Ht|t s s' Hr]; [by apply Print_claim_ok|by apply (Print_rest_ok t s)]).
  destruct Hok as [Hc _ _ _]. unfold measure. destruct Hs as [t s Ht|t s s' Hr].
  - unfold Print_claim in *. destruct (Z.ltb_spec (count_ s) 10); destruct t, s as [c [] [] p]; cbn in *; (done || lia).
  - unfold Print_rest in Hr. destruct t, s as [c [] [] p]; cbn in *; try done; injection Hr as <-; cbn in *; lia.
Qed.
