(* ===== verification/UnitTests.v ===== *)
(** * The repository's unit tests, run on the model
      (ryan_network/buffer/test/buffer_unittest_boost.cc, net/test/inet_address_unittest_boost.cc)

    Each example evaluates the calls of a test case; a test of the sizes is one of [sizes]. *)

From S2P Require Import Prelude Buffer InetAddress.

Definition sizes (b : Buffer) : Z * Z * Z := (ReadableBytes b, WritableBytes b, PrependableBytes b).

Definition string_of (n : nat) (c : byte) : bytes := replicate n c.

Example testBufferAppendRetrieve :
  (buf ← Buffer_new kInitialSize;
   let s0 := sizes buf in
   buf ← Append buf (string_of 200 x78);
   let s1 := sizes buf in
   '(str2, buf) ← RetrieveAsString buf 50;
   let s2 := sizes buf in
   buf ← Append buf (string_of 200 x78);
   let s3 := sizes buf in
   '(str3, buf) ← RetrieveAllAsString buf;
   Ok ([s0; s1; s2; s3; sizes buf], str2, str3)) =
  Ok ([(0, kInitialSize, kCheapPrepend); (200, kInitialSize - 200, kCheapPrepend); (150, kInitialSize - 200, kCheapPrepend + 50);
       (350, kInitialSize - 400, kCheapPrepend + 50); (0, kInitialSize, kCheapPrepend)],
      string_of 50 x78, string_of 350 x78).
Proof. vm_compute. reflexivity. Qed.

Example testBufferGrow :
  (buf ← Buffer_new kInitialSize;
   buf ← Append buf (string_of 400 x79);
   let s1 := sizes buf in
   let buf := Retrieve buf 50 in
   let s2 := sizes buf in
   buf ← Append buf (string_of 1000 x7a);
   let s3 := sizes buf in
   Ok [s1; s2; s3; sizes (RetrieveAll buf)]) =
  Ok [(400, kInitialSize - 400, kCheapPrepend); (350, kInitialSize - 400, kCheapPrepend + 50); (1350, 0, kCheapPrepend + 50);
      (0, 1400, kCheapPrepend)].
Proof. vm_compute. reflexivity. Qed.

Example testBufferInsideGrow :
  (buf ← Buffer_new kInitialSize;
   buf ← Append buf (string_of 800 x79);
   let s1 := sizes buf in
   let buf := Retrieve buf 500 in
   let s2 := sizes buf in
   buf ← Append buf (string_of 300 x7a);
   Ok [s1; s2; sizes buf]) =
  Ok [(800, kInitialSize - 800, kCheapPrepend); (300, kInitialSize - 800, kCheapPrepend + 500); (600, kInitialSize - 600, kCheapPrepend)].
Proof. vm_compute. reflexivity. Qed.

Example testBufferPrepend :
  (buf ← Buffer_new kInitialSize;
   buf ← Append buf (string_of 200 x79);
   let s1 := sizes buf in
   buf ← Prepend buf (string_of 4 x00);
   Ok [s1; sizes buf]) =
  Ok [(200, kInitialSize - 200, kCheapPrepend); (204, kInitialSize - 200, kCheapPrepend - 4)].
Proof. vm_compute. reflexivity. Qed.

Example testBufferFindEOL :
  (buf ← Buffer_new kInitialSize;
   buf ← Append buf (string_of 100000 x78);
   eol ← FindEOL buf;
   eol' ← FindEOL_from buf (Peek buf + 90000);
   Ok (eol, eol')) = Ok (None, None).
Proof. vm_compute. reflexivity. Qed.

Example testInetAddress :
  let addr0 := InetAddress_new 0 [] in
  let addr1 := InetAddress_new 8888 (lit "127.0.0.1") in
  let addr2 := InetAddress_new 65535 (lit "127.0.0.1") in
  (ToIp addr0, ToIpPort addr0, ToPort addr0) = (lit "0.0.0.0", Ok (lit "0.0.0.0:0"), 0) /\
  (ToIp addr1, ToIpPort addr1, ToPort addr1) = (lit "0.0.0.0", Ok (lit "0.0.0.0:8888"), 8888) /\
  (ToIp addr2, ToIpPort addr2, ToPort addr2) = (lit "0.0.0.0", Ok (lit "0.0.0.0:65535"), 65535).
Proof. vm_compute. done. Qed.
